(** * synapse-memory: schema migrations, record stores, deduplication and
      relevance ranking

    A shallow embedding of the TypeScript sources
      - [src/storage/database.ts]      (schema manager),
      - [src/storage/sessions.ts], [src/storage/events.ts],
        [src/storage/knowledge.ts], [src/storage/knowledge-usage.ts],
        [src/storage/value-metrics.ts], [src/storage/agents.ts],
        [src/storage/file-importance.ts] (record stores),
      - [src/context/deduplication.ts] (deduplication engine),
      - [src/context/scoring.ts]       (relevance ranking engine),
      - [src/utils.ts], [src/tools/*.ts] (event typing and tool handlers),
    followed by the properties established about them.

    Conventions of the embedding.
      - A JavaScript string is a Rocq [string]; each [ascii] stands for one
        UTF-16 code unit in the range U+0000..U+00FF (Latin-1), so [length]
        and [charAt] count code units exactly as JavaScript does.
      - A SQLite table is the list of its rows in insertion (rowid) order.
      - [undefined] / SQL [NULL] is [None].
      - The clock ([nowISO], [Date.now]) and the identifier generator
        ([generateId]) are explicit inputs of the operations that use them.
      - JavaScript numbers.  Counters and lengths are [nat] and
        similarities are rationals ([Q]).  The relevance scores that the
        rankings compare and the dollar estimate of the value summary
        are binary64 doubles, Rocq's primitive [float]: they are
        evaluated operation by operation, in the order of the source,
        with [Math.log] as an input.  The formulas of the relevance
        scores ([Scoring.computeRelevanceScore]) and the importance
        scores of files ([FileImportance]), which involve the logarithm
        and the exponential, are stated over the reals ([R]); there the
        rounding of doubles is not part of the model. *)

From Stdlib Require Import Floats.
From Stdlib Require Import List String Ascii Bool Arith NArith ZArith Lia.
From Stdlib Require Import QArith Qminmax Reals Lra.
From Stdlib Require Import Permutation Sorted.
Import ListNotations.

Set Implicit Arguments.
Set Warnings "-inexact-float".

Local Open Scope string_scope.
Local Open Scope list_scope.
Local Open Scope nat_scope.

(* ===================================================================== *)
(** * Part I: the embedding *)
(* ===================================================================== *)

(** ** JavaScript string and array primitives used by the sources *)

Module Js.

(** [c.toLowerCase()] on one Latin-1 code unit: A-Z, and the accented
    capitals U+00C0..U+00DE except the multiplication sign U+00D7. *)
Definition toLowerChar (c : ascii) : ascii :=
  let n := N_of_ascii c in
  if (((65 <=? n) && (n <=? 90)) ||
      ((192 <=? n) && (n <=? 222) && negb (n =? 215)))%N
  then ascii_of_N (n + 32) else c.

(** The class [\s] of a regular expression (and the characters removed by
    [trim]) within Latin-1: TAB, LF, VT, FF, CR, SPACE and NBSP. *)
Definition isSpace (c : ascii) : bool :=
  let n := N_of_ascii c in
  ((n =? 9) || (n =? 10) || (n =? 11) || (n =? 12) || (n =? 13) ||
   (n =? 32) || (n =? 160))%N.

Definition toLowerCase (s : list ascii) : list ascii := map toLowerChar s.

(** [s.replace(/\s+/g, ' ')]: every maximal run of white space becomes one
    space.  [inRun] records that the previous character was white space. *)
Fixpoint collapseFrom (inRun : bool) (s : list ascii) : list ascii :=
  match s with
  | [] => []
  | c :: r =>
      if isSpace c
      then (if inRun then collapseFrom true r
            else " "%char :: collapseFrom true r)
      else c :: collapseFrom false r
  end.

Definition replaceSpaceRuns (s : list ascii) : list ascii :=
  collapseFrom false s.

Fixpoint trimStart (s : list ascii) : list ascii :=
  match s with
  | [] => []
  | c :: r => if isSpace c then trimStart r else s
  end.

Definition trimEnd (s : list ascii) : list ascii := rev (trimStart (rev s)).

Definition trim (s : list ascii) : list ascii := trimEnd (trimStart s).

(** [s.charAt(i)]: the empty string out of range, here [None]. *)
Definition charAt (s : list ascii) (i : nat) : option ascii := nth_error s i.

Definition charEq (x y : option ascii) : bool :=
  match x, y with
  | Some c, Some d => Ascii.eqb c d
  | None, None => true
  | _, _ => false
  end.

(** [arr[j] = v] on a JavaScript array: overwrite inside the array, extend
    it otherwise (positions skipped by the extension are holes, filled here
    with [hole]). *)
Definition arraySet {A : Type} (hole : A) (arr : list A) (j : nat) (v : A)
  : list A :=
  if j <? List.length arr
  then firstn j arr ++ v :: skipn (S j) arr
  else arr ++ repeat hole (j - List.length arr) ++ [v].

(** JavaScript truthiness of an optional string: [undefined] and the empty
    string are falsy. *)
Definition truthy (s : option string) : bool :=
  match s with
  | None => false
  | Some v => negb (String.eqb v "")
  end.

(** [x === v] for an optional string [x] and a string [v]. *)
Definition strictEq (x : option string) (v : string) : bool :=
  match x with Some c => String.eqb c v | None => false end.

(** [arr.sort(cmp)].  ECMAScript requires the sort to be stable, so for a
    consistent comparator the result does not depend on the algorithm; it
    is written here as a stable insertion sort.  [after x y] stands for
    [cmp(x, y) > 0]: [x] has to come after [y]. *)
Section Sort.
Variable A : Type.
Variable after : A -> A -> bool.

Fixpoint sortInsert (x : A) (l : list A) : list A :=
  match l with
  | [] => [x]
  | y :: r => if after x y then y :: sortInsert x r else x :: l
  end.

Definition sort (l : list A) : list A := fold_right sortInsert [] l.
End Sort.

End Js.

(** ** JavaScript numbers where their rounding matters

    A JavaScript number is an IEEE 754 binary64 double, here Rocq's
    primitive [float]; [+], [-], [*], [/] and the comparisons are those
    of the processor. *)

Module Double.

Local Open Scope float_scope.

(** The number an integer is converted to: exact below [2 ^ 53], the
    nearest double up to [2 ^ 63], the range of the integers of SQLite. *)
Definition ofZ (z : Z) : float :=
  match z with
  | Z0 => 0
  | Zpos p => of_uint63 (Uint63.of_pos p)
  | Zneg p => - of_uint63 (Uint63.of_pos p)
  end.

Definition ofNat (n : nat) : float := ofZ (Z.of_nat n).

(** The double nearest to a fraction of two integers below [2 ^ 53]:
    what a decimal literal such as [0.7] denotes. *)
Definition ofQ (q : Q) : float := ofZ (Qnum q) / ofZ (Zpos (Qden q)).

(** [Number.isNaN(x)]. *)
Definition isNaN (x : float) : bool :=
  match Prim2SF x with
  | S754_nan => true
  | _ => false
  end.

(** [Math.round(x)]: the integer nearest to [x], a half going upwards.
    [NaN], the infinities, the zeros and the doubles that are integers
    already are returned as they are; a result of zero has the sign of
    [x].  For [x = m / 2 ^ k] the result is the integer part of
    [(2 m + 2 ^ k) / 2 ^ (k + 1)]. *)
Definition round (x : float) : float :=
  match Prim2SF x with
  | S754_finite s m e =>
      if (0 <=? e)%Z then x
      else
        let unit := (2 ^ (- e))%Z in
        let n := ((2 * cond_Zopp s (Zpos m) + unit) / (2 * unit))%Z in
        if (n =? 0)%Z then (if s then - 0 else 0) else ofZ n
  | _ => x
  end.

End Double.

(** ** SHA-256 with hexadecimal output
       ([createHash('sha256').update(s).digest('hex')] of [node:crypto])

    The library function is spelled out (FIPS 180-4) so that content hashes
    are computed, not assumed.  Words are 32-bit numbers in [N] with the
    wrap-around written out. *)

Module Sha256.

Local Open Scope N_scope.

Definition w32 (x : N) : N := x mod 4294967296.

Definition add32 (x y : N) : N := w32 (x + y).

Definition rotr (n x : N) : N :=
  N.lor (N.shiftr x n) (w32 (N.shiftl x (32 - n))).

Definition not32 (x : N) : N := N.lxor x 4294967295.

Definition ch (x y z : N) : N := N.lxor (N.land x y) (N.land (not32 x) z).
Definition maj (x y z : N) : N :=
  N.lxor (N.lxor (N.land x y) (N.land x z)) (N.land y z).
Definition bsig0 (x : N) : N := N.lxor (N.lxor (rotr 2 x) (rotr 13 x)) (rotr 22 x).
Definition bsig1 (x : N) : N := N.lxor (N.lxor (rotr 6 x) (rotr 11 x)) (rotr 25 x).
Definition ssig0 (x : N) : N := N.lxor (N.lxor (rotr 7 x) (rotr 18 x)) (N.shiftr x 3).
Definition ssig1 (x : N) : N := N.lxor (N.lxor (rotr 17 x) (rotr 19 x)) (N.shiftr x 10).

(** The first 64 primes. *)
Definition primes : list N :=
  [2; 3; 5; 7; 11; 13; 17; 19; 23; 29; 31; 37; 41; 43; 47; 53; 59; 61; 67; 71;
   73; 79; 83; 89; 97; 101; 103; 107; 109; 113; 127; 131; 137; 139; 149; 151;
   157; 163; 167; 173; 179; 181; 191; 193; 197; 199; 211; 223; 227; 229; 233;
   239; 241; 251; 257; 263; 269; 271; 277; 281; 283; 293; 307; 311].

(** Integer cube root, one bit at a time from bit [k - 1] down. *)
Fixpoint cbrtBits (k : nat) (n x : N) : N :=
  match k with
  | O => x
  | S k' =>
      let y := x + N.shiftl 1 (N.of_nat k') in
      cbrtBits k' n (if y * y * y <=? n then y else x)
  end.

(** The round constants: the first 32 bits of the fractional parts of the
    cube roots of the first 64 primes. *)
Definition K : list N :=
  Eval vm_compute in
    map (fun p => w32 (cbrtBits 36 (N.shiftl p 96) 0)) primes.

(** The initial hash value: the first 32 bits of the fractional parts of
    the square roots of the first 8 primes. *)
Definition H0 : list N :=
  Eval vm_compute in
    map (fun p => w32 (N.sqrt (N.shiftl p 64))) (firstn 8 primes).

(** UTF-8 encoding of a string of Latin-1 code units. *)
Definition utf8 (s : list ascii) : list N :=
  flat_map (fun c => let n := N_of_ascii c in
                     if n <? 128 then [n]
                     else [N.lor 192 (N.shiftr n 6); N.lor 128 (N.land n 63)]) s.

(** Big-endian bytes of [x], [k] of them. *)
Fixpoint bytesBE (k : nat) (x : N) : list N :=
  match k with
  | O => []
  | S k' => bytesBE k' (N.shiftr x 8) ++ [N.land x 255]
  end.

Definition pad (msg : list N) : list N :=
  let len := N.of_nat (List.length msg) in
  let zeros := N.to_nat ((119 - len mod 64) mod 64) in
  msg ++ [128] ++ repeat 0 zeros ++ bytesBE 8 (8 * len).

Fixpoint wordsBE (bs : list N) : list N :=
  match bs with
  | b0 :: b1 :: b2 :: b3 :: r =>
      (N.shiftl b0 24 + N.shiftl b1 16 + N.shiftl b2 8 + b3) :: wordsBE r
  | _ => []
  end.

Fixpoint chunks (fuel : nat) (ws : list N) : list (list N) :=
  match fuel, ws with
  | S f, _ :: _ => firstn 16 ws :: chunks f (skipn 16 ws)
  | _, _ => []
  end.

Definition schedule (block : list N) : list N :=
  fold_left
    (fun w t =>
       w ++ [add32 (add32 (ssig1 (nth (t - 2) w 0)) (nth (t - 7) w 0))
                   (add32 (ssig0 (nth (t - 15) w 0)) (nth (t - 16) w 0))])
    (seq 16 48) block.

Definition round (st : list N) (kw : N * N) : list N :=
  match st with
  | [a; b; c; d; e; f; g; h] =>
      let t1 := add32 (add32 (add32 h (bsig1 e)) (add32 (ch e f g) (fst kw))) (snd kw) in
      let t2 := add32 (bsig0 a) (maj a b c) in
      [add32 t1 t2; a; b; c; add32 d t1; e; f; g]
  | _ => st
  end.

Definition compress (hs : list N) (block : list N) : list N :=
  let st := fold_left round (combine K (schedule block)) hs in
  map (fun p => add32 (fst p) (snd p)) (combine hs st).

Definition digestWords (msg : list N) : list N :=
  let ws := wordsBE (pad msg) in
  fold_left compress (chunks (List.length ws) ws) H0.

Definition hexDigit (d : N) : ascii :=
  if d <? 10 then ascii_of_N (48 + d) else ascii_of_N (87 + d).

Definition hexByte (b : N) : list ascii := [hexDigit (b / 16); hexDigit (b mod 16)].

Definition sha256hex (s : string) : string :=
  string_of_list_ascii
    (flat_map hexByte
       (flat_map (bytesBE 4) (digestWords (utf8 (list_ascii_of_string s))))).

End Sha256.

(** ** Deduplication engine, part 1: pure functions
       ([src/context/deduplication.ts]) *)

Module Dedup.

(** [normalizeContent]: lower-case, collapse white space, trim. *)
Definition normalizeContent (content : string) : string :=
  string_of_list_ascii
    (Js.trim (Js.replaceSpaceRuns (Js.toLowerCase (list_ascii_of_string content)))).

(** The dynamic-programming matrix of [levenshteinDistance]: a JavaScript
    array of arrays of numbers. *)
Definition matrix := list (list nat).

Definition mget (m : matrix) (i j : nat) : nat := nth j (nth i m []) 0.

(** [matrix[i][j] = v]. *)
Definition mset (m : matrix) (i j v : nat) : matrix :=
  Js.arraySet [] m i (Js.arraySet 0 (nth i m []) j v).

Definition min3 (x y z : nat) : nat := Nat.min x (Nat.min y z).

(** Body of the inner loop for one cell [(i, j)]. *)
Definition cellStep (a b : list ascii) (i : nat) (m : matrix) (j : nat)
  : matrix :=
  if Js.charEq (Js.charAt b (i - 1)) (Js.charAt a (j - 1))
  then mset m i j (mget m (i - 1) (j - 1))
  else mset m i j (min3 (mget m (i - 1) (j - 1) + 1)   (* substitution *)
                        (mget m i (j - 1) + 1)         (* insertion *)
                        (mget m (i - 1) j + 1)).       (* deletion *)

(** Body of the outer loop: [for (let j = 1; j <= a.length; j++)]. *)
Definition rowStep (a b : list ascii) (m : matrix) (i : nat) : matrix :=
  fold_left (cellStep a b i) (seq 1 (List.length a)) m.

Definition levenshteinMatrix (a b : list ascii) : matrix :=
  (* for (let i = 0; i <= b.length; i++) matrix[i] = [i]; *)
  let m0 := fold_left (fun m i => Js.arraySet [] m i [i])
                      (seq 0 (S (List.length b))) [] in
  (* for (let j = 0; j <= a.length; j++) matrix[0][j] = j; *)
  let m1 := fold_left (fun m j => mset m 0 j j) (seq 0 (S (List.length a))) m0 in
  (* for (let i = 1; i <= b.length; i++) ... *)
  fold_left (rowStep a b) (seq 1 (List.length b)) m1.

Definition levenshteinDistanceL (a b : list ascii) : nat :=
  mget (levenshteinMatrix a b) (List.length b) (List.length a).

Definition levenshteinDistance (a b : string) : nat :=
  levenshteinDistanceL (list_ascii_of_string a) (list_ascii_of_string b).

(** [computeTitleSimilarity]: [1 - distance / maxLen], an exact rational. *)
Definition computeTitleSimilarity (title1 title2 : string) : Q :=
  let normalized1 := normalizeContent title1 in
  let normalized2 := normalizeContent title2 in
  if String.eqb normalized1 normalized2 then 1%Q
  else
    let maxLen := Nat.max (String.length normalized1) (String.length normalized2) in
    if maxLen =? 0 then 1%Q
    else
      let distance := levenshteinDistance normalized1 normalized2 in
      (1 - inject_Z (Z.of_nat distance) / inject_Z (Z.of_nat maxLen))%Q.

End Dedup.

(** ** Domain types ([src/types.ts]) *)

Inductive AgentType := claude_code | cursor | aider | openclaw | unknown.

Inductive SessionStatus := active | completed | abandoned.

Inductive EventType :=
  file_read | file_write | file_edit | tool_call
| decision | pattern | error_resolved | milestone.

Inductive EventCategory :=
  cat_read | cat_search | cat_edit | cat_execute | cat_agent | cat_other.

Inductive FileOperation := op_read | op_write | op_edit.

Inductive KnowledgeType :=
  k_decision | k_pattern | k_error_resolved | k_milestone.

(** The tagged union [EventDetail]; the tag is the constructor. *)
Inductive EventDetail :=
| FileOpDetail (path : string) (operation : FileOperation)
| ToolCallDetail (toolName : string) (params : option string)
| DecisionDetail (title rationale : string)
| PatternDetail (description : string) (files : list string)
| ErrorResolvedDetail (error resolution : string) (files : list string)
| MilestoneDetail (summary : string).

Module Session.
Record t := mk {
  sessionId : string;
  projectPath : string;
  branch : string;
  startedAt : string;
  endedAt : option string;
  status : SessionStatus;
  summary : option string;
  gitCommitStart : option string;
  gitCommitEnd : option string;
  agentType : option AgentType;
  agentVersion : option string }.
End Session.

Module SessionEvent.
Record t := mk {
  eventId : string;
  sessionId : string;
  timestamp : string;
  eventType : EventType;
  category : EventCategory;
  detail : EventDetail }.
End SessionEvent.

Module Knowledge.
Record t := mk {
  knowledgeId : string;
  projectPath : string;
  sessionId : option string;
  sourceEventId : option string;
  title : string;
  content : string;
  knowledgeType : KnowledgeType;
  tags : list string;
  createdAt : string;
  syncedAt : option string;
  synapseKnowledgeId : option string;
  branch : option string;
  contentHash : option string;
  usageCount : option nat;
  supersededBy : option string }.
End Knowledge.

Inductive MatchType := exact_hash | title_match.

Record DuplicateCandidate := mkDuplicateCandidate {
  existingKnowledge : Knowledge.t;
  similarityScore : Q;
  matchType : MatchType }.

(** ** Event typing ([src/utils.ts]) *)

Definition categorizeEvent (eventType : EventType) : EventCategory :=
  match eventType with
  | file_read => cat_read
  | file_write | file_edit => cat_edit
  | tool_call => cat_execute
  | decision | pattern | error_resolved | milestone => cat_other
  end.

Definition deriveEventType (detail : EventDetail) : EventType :=
  match detail with
  | FileOpDetail _ operation =>
      match operation with
      | op_read => file_read
      | op_write => file_write
      | op_edit => file_edit
      end
  | ToolCallDetail _ _ => tool_call
  | DecisionDetail _ _ => decision
  | PatternDetail _ _ => pattern
  | ErrorResolvedDetail _ _ _ => error_resolved
  | MilestoneDetail _ => milestone
  end.

(** ** Rows of the SQLite tables (schema version 3) and SQL helpers *)

Module SessionRow.
Record t := mk {
  session_id : string;
  project_path : string;
  branch : string;
  started_at : string;
  ended_at : option string;
  status : SessionStatus;
  summary : option string;
  git_commit_start : option string;
  git_commit_end : option string;
  agent_type : AgentType;
  agent_version : option string }.
End SessionRow.

Module EventRow.
Record t := mk {
  event_id : string;
  session_id : string;
  timestamp : string;
  event_type : EventType;
  category : EventCategory;
  detail_json : EventDetail }.
End EventRow.

Module KnowledgeRow.
Record t := mk {
  knowledge_id : string;
  project_path : string;
  session_id : option string;
  source_event_id : option string;
  title : string;
  content : string;
  knowledge_type : KnowledgeType;
  tags : list string;
  created_at : string;
  synced_at : option string;
  synapse_knowledge_id : option string;
  branch : option string;
  content_hash : option string;
  usage_count : nat;
  superseded_by : option string }.
End KnowledgeRow.

(** What a statement of [better-sqlite3] throws. *)
Inductive Exn :=
| UniqueConstraint (table : string)
| ForeignKeyConstraint (table : string)
| SqlError (message : string)
| MissingMigration (version : nat).

Inductive Result (A : Type) :=
| Ok (a : A)
| Throw (e : Exn).
Arguments Ok {A} a.
Arguments Throw {A} e.

Module Sql.

(** [x IS NULL]. *)
Definition isNull {A : Type} (x : option A) : bool :=
  match x with None => true | Some _ => false end.

(** [col = ?] for a nullable text column: never true on [NULL]. *)
Definition eqText (col : option string) (v : string) : bool :=
  match col with Some c => String.eqb c v | None => false end.

(** [ORDER BY key DESC] / [ASC] on a text column (binary collation);
    rows with equal keys stay in table order. *)
Definition orderByDesc {A : Type} (key : A -> string) (rows : list A) : list A :=
  Js.sort (fun x y => String.ltb (key x) (key y)) rows.

Definition orderByAsc {A : Type} (key : A -> string) (rows : list A) : list A :=
  Js.sort (fun x y => String.ltb (key y) (key x)) rows.

(** [LIMIT n]. *)
Definition limit {A : Type} (n : nat) (rows : list A) : list A := firstn n rows.

(** [stmt.get(...)]: the first row of the result, if any. *)
Definition get {A : Type} (rows : list A) : option A := hd_error rows.

(** [UPDATE table SET ... WHERE cond]: the new table and [result.changes]. *)
Definition update {A : Type} (cond : A -> bool) (set : A -> A) (rows : list A)
  : list A * nat :=
  (map (fun r => if cond r then set r else r) rows,
   List.length (filter cond rows)).

End Sql.

(** ** Session store ([src/storage/sessions.ts])

    Each function receives the table its statement names. *)

Module Sessions.
Import SessionRow.

Definition table := list SessionRow.t.

Definition rowToSession (row : SessionRow.t) : Session.t :=
  {| Session.sessionId := row.(session_id);
     Session.projectPath := row.(project_path);
     Session.branch := row.(branch);
     Session.startedAt := row.(started_at);
     Session.endedAt := row.(ended_at);
     Session.status := row.(status);
     Session.summary := row.(summary);
     Session.gitCommitStart := row.(git_commit_start);
     Session.gitCommitEnd := row.(git_commit_end);
     Session.agentType := Some row.(agent_type);
     Session.agentVersion := row.(agent_version) |}.

Definition statusEqb (x y : SessionStatus) : bool :=
  match x, y with
  | active, active | completed, completed | abandoned, abandoned => true
  | _, _ => false
  end.

(** The row written by the [INSERT] of [createSession]: the columns not
    listed in the statement take their defaults ([NULL]). *)
Definition insertedRow (session : Session.t) : SessionRow.t :=
  {| session_id := session.(Session.sessionId);
     project_path := session.(Session.projectPath);
     branch := session.(Session.branch);
     started_at := session.(Session.startedAt);
     ended_at := None;
     status := session.(Session.status);
     summary := None;
     git_commit_start := session.(Session.gitCommitStart);
     git_commit_end := None;
     agent_type := match session.(Session.agentType) with
                   | Some a => a
                   | None => unknown
                   end;
     agent_version := session.(Session.agentVersion) |}.

(** [createSession]: [session_id] is the primary key. *)
Definition createSession (db : table) (session : Session.t) : Result table :=
  if existsb (fun r => String.eqb r.(session_id) session.(Session.sessionId)) db
  then Throw (UniqueConstraint "sessions")
  else Ok (db ++ [insertedRow session]).

(** [WHERE session_id = @session_id AND status = 'active']. *)
Definition whereActiveId (sessionId : string) (r : SessionRow.t) : bool :=
  String.eqb r.(session_id) sessionId && statusEqb r.(status) active.

(** [WHERE project_path = @project_path AND status = 'active']. *)
Definition whereActiveProject (projectPath : string) (r : SessionRow.t) : bool :=
  String.eqb r.(project_path) projectPath && statusEqb r.(status) active.

Definition setCompleted (endedAt : string) (summary' gitCommitEnd : option string)
  (r : SessionRow.t) : SessionRow.t :=
  {| session_id := r.(session_id);
     project_path := r.(project_path);
     branch := r.(branch);
     started_at := r.(started_at);
     ended_at := Some endedAt;
     status := completed;
     summary := summary';
     git_commit_start := r.(git_commit_start);
     git_commit_end := gitCommitEnd;
     agent_type := r.(agent_type);
     agent_version := r.(agent_version) |}.

Definition setAbandoned (endedAt : string) (r : SessionRow.t) : SessionRow.t :=
  {| session_id := r.(session_id);
     project_path := r.(project_path);
     branch := r.(branch);
     started_at := r.(started_at);
     ended_at := Some endedAt;
     status := abandoned;
     summary := r.(summary);
     git_commit_start := r.(git_commit_start);
     git_commit_end := r.(git_commit_end);
     agent_type := r.(agent_type);
     agent_version := r.(agent_version) |}.

Definition getSession (db : table) (sessionId : string) : option Session.t :=
  option_map rowToSession
    (Sql.get (filter (fun r => String.eqb r.(session_id) sessionId) db)).

Definition endSession (db : table) (sessionId endedAt : string)
  (summary' gitCommitEnd : option string) : table * option Session.t :=
  let (db', changes) :=
    Sql.update (whereActiveId sessionId) (setCompleted endedAt summary' gitCommitEnd) db in
  if changes =? 0 then (db', None)
  else (db', getSession db' sessionId).

Definition abandonStaleSessions (db : table) (projectPath endedAt : string)
  : table * nat :=
  Sql.update (whereActiveProject projectPath) (setAbandoned endedAt) db.

Definition getActiveSession (db : table) (projectPath : string)
  : option Session.t :=
  option_map rowToSession
    (Sql.get (Sql.limit 1
       (Sql.orderByDesc started_at (filter (whereActiveProject projectPath) db)))).

End Sessions.

(** ** Event store ([src/storage/events.ts]) *)

Module Events.
Import EventRow.

Definition table := list EventRow.t.

(** [insertEvent]: [event_id] is the primary key and [session_id]
    references [sessions(session_id)] ([foreign_keys = ON]).
    [JSON.stringify] of the detail is kept as the detail itself. *)
Definition insertEvent (sessions : Sessions.table) (db : table)
  (event : SessionEvent.t) : Result table :=
  if existsb (fun r => String.eqb r.(event_id) event.(SessionEvent.eventId)) db
  then Throw (UniqueConstraint "session_events")
  else if negb (existsb (fun r => String.eqb r.(SessionRow.session_id)
                                    event.(SessionEvent.sessionId)) sessions)
  then Throw (ForeignKeyConstraint "session_events")
  else Ok (db ++ [ {| event_id := event.(SessionEvent.eventId);
                      session_id := event.(SessionEvent.sessionId);
                      timestamp := event.(SessionEvent.timestamp);
                      event_type := event.(SessionEvent.eventType);
                      category := event.(SessionEvent.category);
                      detail_json := event.(SessionEvent.detail) |} ]).

End Events.

(** ** Knowledge store ([src/storage/knowledge.ts]) *)

Module KnowledgeStore.
Import KnowledgeRow.

Definition table := list KnowledgeRow.t.

Definition rowToKnowledge (row : KnowledgeRow.t) : Knowledge.t :=
  {| Knowledge.knowledgeId := row.(knowledge_id);
     Knowledge.projectPath := row.(project_path);
     Knowledge.sessionId := row.(session_id);
     Knowledge.sourceEventId := row.(source_event_id);
     Knowledge.title := row.(title);
     Knowledge.content := row.(content);
     Knowledge.knowledgeType := row.(knowledge_type);
     Knowledge.tags := row.(tags);
     Knowledge.createdAt := row.(created_at);
     Knowledge.syncedAt := row.(synced_at);
     Knowledge.synapseKnowledgeId := row.(synapse_knowledge_id);
     Knowledge.branch := row.(branch);
     Knowledge.contentHash := row.(content_hash);
     Knowledge.usageCount := Some row.(usage_count);
     Knowledge.supersededBy := row.(superseded_by) |}.

(** The row written by the [INSERT] of [insertKnowledge]; [synced_at],
    [synapse_knowledge_id] and [superseded_by] are not listed and stay
    [NULL]. *)
Definition insertedRow (knowledge : Knowledge.t) : KnowledgeRow.t :=
  {| knowledge_id := knowledge.(Knowledge.knowledgeId);
     project_path := knowledge.(Knowledge.projectPath);
     session_id := knowledge.(Knowledge.sessionId);
     source_event_id := knowledge.(Knowledge.sourceEventId);
     title := knowledge.(Knowledge.title);
     content := knowledge.(Knowledge.content);
     knowledge_type := knowledge.(Knowledge.knowledgeType);
     tags := knowledge.(Knowledge.tags);
     created_at := knowledge.(Knowledge.createdAt);
     synced_at := None;
     synapse_knowledge_id := None;
     branch := knowledge.(Knowledge.branch);
     content_hash := knowledge.(Knowledge.contentHash);
     usage_count := match knowledge.(Knowledge.usageCount) with
                    | Some n => n
                    | None => 0
                    end;
     superseded_by := None |}.

(** A nullable foreign key is satisfied when it is [NULL] or names a row
    of the parent table. *)
Definition foreignKeyOk {A : Type} (key : A -> string) (parent : list A)
  (ref : option string) : bool :=
  match ref with
  | None => true
  | Some v => existsb (fun r => String.eqb (key r) v) parent
  end.

(** [insertKnowledge]: [knowledge_id] is the primary key; [session_id]
    and [source_event_id] reference [sessions] and [session_events]. *)
Definition insertKnowledge (sessions : Sessions.table) (events : Events.table)
  (db : table) (knowledge : Knowledge.t) : Result table :=
  if existsb (fun r => String.eqb r.(knowledge_id) knowledge.(Knowledge.knowledgeId)) db
  then Throw (UniqueConstraint "promoted_knowledge")
  else if negb (foreignKeyOk SessionRow.session_id sessions knowledge.(Knowledge.sessionId)
                && foreignKeyOk EventRow.event_id events knowledge.(Knowledge.sourceEventId))
  then Throw (ForeignKeyConstraint "promoted_knowledge")
  else Ok (db ++ [insertedRow knowledge]).

Definition knowledgeTypeEqb (x y : KnowledgeType) : bool :=
  match x, y with
  | k_decision, k_decision | k_pattern, k_pattern
  | k_error_resolved, k_error_resolved | k_milestone, k_milestone => true
  | _, _ => false
  end.

(** [getProjectKnowledge]; the default [limit] is 50. *)
Definition getProjectKnowledge (db : table) (projectPath : string)
  (knowledgeType : option KnowledgeType) (limit : nat) : list Knowledge.t :=
  let rows :=
    match knowledgeType with
    | Some kt =>
        Sql.limit limit (Sql.orderByDesc created_at
          (filter (fun r => String.eqb r.(project_path) projectPath
                            && knowledgeTypeEqb r.(knowledge_type) kt
                            && Sql.isNull r.(superseded_by)) db))
    | None =>
        Sql.limit limit (Sql.orderByDesc created_at
          (filter (fun r => String.eqb r.(project_path) projectPath
                            && Sql.isNull r.(superseded_by)) db))
    end in
  map rowToKnowledge rows.

Definition getKnowledgeById (db : table) (knowledgeId : string)
  : option Knowledge.t :=
  option_map rowToKnowledge
    (Sql.get (filter (fun r => String.eqb r.(knowledge_id) knowledgeId) db)).

Definition getUnsyncedKnowledge (db : table) (projectPath : string)
  : list Knowledge.t :=
  map rowToKnowledge
    (Sql.orderByAsc created_at
       (filter (fun r => String.eqb r.(project_path) projectPath
                         && Sql.isNull r.(synced_at)
                         && Sql.isNull r.(superseded_by)) db)).

Record KnowledgeCount := mkKnowledgeCount {
  total : nat;
  byDecision : nat;
  byPattern : nat;
  byErrorResolved : nat;
  byMilestone : nat }.

(** [getKnowledgeCount]: [COUNT( * )] overall and [GROUP BY knowledge_type],
    both over [project_path = ? AND superseded_by IS NULL]. *)
Definition getKnowledgeCount (db : table) (projectPath : string)
  : KnowledgeCount :=
  let rows := filter (fun r => String.eqb r.(project_path) projectPath
                               && Sql.isNull r.(superseded_by)) db in
  let count kt := List.length (filter (fun r => knowledgeTypeEqb r.(knowledge_type) kt) rows) in
  {| total := List.length rows;
     byDecision := count k_decision;
     byPattern := count k_pattern;
     byErrorResolved := count k_error_resolved;
     byMilestone := count k_milestone |}.

End KnowledgeStore.

(** ** Deduplication engine, part 2: queries
       ([src/context/deduplication.ts]) *)

Module Duplicates.
Import KnowledgeRow.

(** [computeContentHash]: SHA-256, in hexadecimal, of the normalized
    content. *)
Definition computeContentHash (content : string) : string :=
  Sha256.sha256hex (Dedup.normalizeContent content).

(** [WHERE project_path = ? AND content_hash = ? AND superseded_by IS NULL]. *)
Definition whereExact (projectPath contentHash : string) (r : KnowledgeRow.t)
  : bool :=
  String.eqb r.(project_path) projectPath
  && Sql.eqText r.(content_hash) contentHash
  && Sql.isNull r.(superseded_by).

(** [WHERE project_path = ? AND superseded_by IS NULL]. *)
Definition whereLive (projectPath : string) (r : KnowledgeRow.t) : bool :=
  String.eqb r.(project_path) projectPath && Sql.isNull r.(superseded_by).

Definition threshold : Q := 85 # 100.

(** The loop [for (const candidate of candidates)]: one iteration. *)
Definition titleStep (title' : string) (duplicates : list DuplicateCandidate)
  (candidate : KnowledgeRow.t) : list DuplicateCandidate :=
  let similarity := Dedup.computeTitleSimilarity title' candidate.(title) in
  if Qle_bool threshold similarity
  then duplicates ++ [ {| existingKnowledge := KnowledgeStore.rowToKnowledge candidate;
                          similarityScore := similarity;
                          matchType := title_match |} ]
  else duplicates.

(** The comparator [(a, b) => b.similarityScore - a.similarityScore] is
    positive exactly when [a] is less similar than [b]. *)
Definition lessSimilar (a b : DuplicateCandidate) : bool :=
  negb (Qle_bool b.(similarityScore) a.(similarityScore)).

Definition findDuplicates (db : KnowledgeStore.table)
  (projectPath title' content' : string) : list DuplicateCandidate :=
  let contentHash := computeContentHash content' in
  match Sql.get (filter (whereExact projectPath contentHash) db) with
  | Some exactMatch =>
      [ {| existingKnowledge := KnowledgeStore.rowToKnowledge exactMatch;
           similarityScore := 1;
           matchType := exact_hash |} ]
  | None =>
      let candidates := filter (whereLive projectPath) db in
      Js.sort lessSimilar (fold_left (titleStep title') candidates [])
  end.

Definition setSupersededBy (newKnowledgeId : string) (r : KnowledgeRow.t)
  : KnowledgeRow.t :=
  {| knowledge_id := r.(knowledge_id);
     project_path := r.(project_path);
     session_id := r.(session_id);
     source_event_id := r.(source_event_id);
     title := r.(title);
     content := r.(content);
     knowledge_type := r.(knowledge_type);
     tags := r.(tags);
     created_at := r.(created_at);
     synced_at := r.(synced_at);
     synapse_knowledge_id := r.(synapse_knowledge_id);
     branch := r.(branch);
     content_hash := r.(content_hash);
     usage_count := r.(usage_count);
     superseded_by := Some newKnowledgeId |}.

(** [markSuperseded]: [UPDATE ... SET superseded_by = ? WHERE knowledge_id = ?]. *)
Definition markSuperseded (db : KnowledgeStore.table)
  (oldKnowledgeId newKnowledgeId : string) : KnowledgeStore.table :=
  fst (Sql.update (fun r => String.eqb r.(knowledge_id) oldKnowledgeId)
                  (setSupersededBy newKnowledgeId) db).

End Duplicates.

(** ** Relevance ranking engine ([src/context/scoring.ts]) *)

Module Scoring.

Local Open Scope R_scope.

Definition computeBranchWeight (itemBranch : option string)
  (currentBranch : string) : Q :=
  if negb (Js.truthy itemBranch) then 5 # 10      (* unknown branch *)
  else if Js.strictEq itemBranch currentBranch then 1
  else if Js.strictEq itemBranch "main" || Js.strictEq itemBranch "master" then 7 # 10
  else 3 # 10.

Section Clock.

(** [new Date(s).getTime()]: milliseconds since the epoch, [None] for
    [NaN] (an unparsable date). *)
Variable parseDate : string -> option Z.

(** [Date.now()]. *)
Variable now : Z.

Definition msPerDay : Z := 1000 * 60 * 60 * 24.

(** [computeRecencyWeight]; every comparison with [NaN] is false, which
    leads to the last [return]. *)
Definition computeRecencyWeight (createdAt : string) : Q :=
  match parseDate createdAt with
  | None => 3 # 10
  | Some created =>
      let daysSince := (inject_Z (now - created) / inject_Z msPerDay)%Q in
      if Qlt_le_dec daysSince 1 then 1%Q
      else if Qlt_le_dec daysSince 7 then 8 # 10
      else if Qlt_le_dec daysSince 30 then 5 # 10
      else 3 # 10
  end.

Definition computeUsageWeight (usageCount : nat) : R :=
  1 + ln (INR usageCount + 1) * (1 / 10).

Record ScoredKnowledge := mkScoredKnowledge {
  knowledge : Knowledge.t;
  relevanceScore : R;
  branchWeight : Q;
  recencyWeight : Q }.

Definition computeRelevanceScore (k : Knowledge.t) (currentBranch : string)
  : ScoredKnowledge :=
  let bw := computeBranchWeight k.(Knowledge.branch) currentBranch in
  let rw := computeRecencyWeight k.(Knowledge.createdAt) in
  let uw := computeUsageWeight (match k.(Knowledge.usageCount) with
                                | Some n => n
                                | None => 0%nat
                                end) in
  {| knowledge := k;
     relevanceScore := Q2R bw * (4 / 10) + Q2R rw * (4 / 10) + (uw - 1) * (2 / 10) + 2 / 10;
     branchWeight := bw;
     recencyWeight := rw |}.

(** Over the reals [b - a] is positive exactly when [a] is less than
    [b]. *)
Definition Rltb (x y : R) : bool := if Rlt_dec x y then true else false.

Record ScoredSession := mkScoredSession {
  session : Session.t;
  score : R }.

Definition scoreSession (s : Session.t) (currentBranch : string)
  : ScoredSession :=
  let bw := computeBranchWeight (Some s.(Session.branch)) currentBranch in
  let rw := computeRecencyWeight s.(Session.startedAt) in
  {| session := s;
     score := Q2R bw * (5 / 10) + Q2R rw * (5 / 10) |}.

End Clock.

(** *** The scores as the program holds them

    The weights and the scores are doubles.  The functions of the source
    are written once more with the operations of binary64, each one
    rounding as the source's does and in the source's order; the
    definitions above are their formulas over the reals.  [mathLog] is
    [Math.log], whose last bits the language leaves to the engine. *)

Module Binary64.

Local Open Scope float_scope.

Definition computeBranchWeight (itemBranch : option string)
  (currentBranch : string) : float :=
  if negb (Js.truthy itemBranch) then 0.5         (* unknown branch *)
  else if Js.strictEq itemBranch currentBranch then 1.0
  else if Js.strictEq itemBranch "main" || Js.strictEq itemBranch "master" then 0.7
  else 0.3.

Section Clock.

Variable mathLog : float -> float.
Variable parseDate : string -> option Z.
Variable now : Z.

(** [new Date(createdAt).getTime()]: a whole number of milliseconds, or
    [NaN]. *)
Definition getTime (createdAt : string) : float :=
  match parseDate createdAt with
  | Some created => Double.ofZ created
  | None => nan
  end.

(** [computeRecencyWeight]; a comparison with [NaN] is false. *)
Definition computeRecencyWeight (createdAt : string) : float :=
  let created := getTime createdAt in
  let daysSince := (Double.ofZ now - created) / (1000 * 60 * 60 * 24) in
  if daysSince <? 1 then 1.0
  else if daysSince <? 7 then 0.8
  else if daysSince <? 30 then 0.5
  else 0.3.

Definition computeUsageWeight (usageCount : nat) : float :=
  1.0 + mathLog (Double.ofNat usageCount + 1) * 0.1.

Record ScoredKnowledge := mkScoredKnowledge {
  knowledge : Knowledge.t;
  relevanceScore : float;
  branchWeight : float;
  recencyWeight : float }.

Definition computeRelevanceScore (k : Knowledge.t) (currentBranch : string)
  : ScoredKnowledge :=
  let bw := computeBranchWeight k.(Knowledge.branch) currentBranch in
  let rw := computeRecencyWeight k.(Knowledge.createdAt) in
  let uw := computeUsageWeight (match k.(Knowledge.usageCount) with
                                | Some n => n
                                | None => 0%nat
                                end) in
  {| knowledge := k;
     relevanceScore := bw * 0.4 + rw * 0.4 + (uw - 1.0) * 0.2 + 0.2;
     branchWeight := bw;
     recencyWeight := rw |}.

Record ScoredSession := mkScoredSession {
  session : Session.t;
  score : float }.

Definition scoreSession (s : Session.t) (currentBranch : string)
  : ScoredSession :=
  let bw := computeBranchWeight (Some s.(Session.branch)) currentBranch in
  let rw := computeRecencyWeight s.(Session.startedAt) in
  {| session := s;
     score := bw * 0.5 + rw * 0.5 |}.

End Clock.

End Binary64.

(** [rankKnowledge].  The comparator
    [(a, b) => b.relevanceScore - a.relevanceScore] sends [a] behind [b]
    when the difference, itself a double, is positive. *)
Definition rankKnowledge (mathLog : float -> float)
  (parseDate : string -> option Z) (now : Z)
  (items : list Knowledge.t) (currentBranch : string)
  : list Binary64.ScoredKnowledge :=
  Js.sort (fun a b =>
             (0 <? b.(Binary64.relevanceScore) - a.(Binary64.relevanceScore))%float)
          (map (fun k => Binary64.computeRelevanceScore mathLog parseDate now
                           k currentBranch) items).

(** [rankSessions], with the comparator [(a, b) => b.score - a.score]. *)
Definition rankSessions (parseDate : string -> option Z) (now : Z)
  (sessions : list Session.t) (currentBranch : string)
  : list Binary64.ScoredSession :=
  Js.sort (fun a b => (0 <? b.(Binary64.score) - a.(Binary64.score))%float)
          (map (fun s => Binary64.scoreSession parseDate now s currentBranch)
               sessions).

End Scoring.

(** ** Tool handlers ([src/tools/*.ts]) *)

Module Tools.

Record Db := mkDb {
  sessions : Sessions.table;
  session_events : Events.table;
  promoted_knowledge : KnowledgeStore.table }.

(** *** [session_start]

    The statements of [handleSessionStart] that touch table [sessions] are
    [abandonStaleSessions] and [createSession], in this order and outside
    any transaction; the handler is modelled on that table.  Its remaining
    statements (agent registry, value metrics, ranking of the context
    shown, usage tracking) read [sessions] or write other tables.  The
    probes of the environment are inputs. *)

Record StartArgs := mkStartArgs {
  projectPath : string;
  branch : option string;
  gitCommit : option string;
  agentType : option AgentType;
  agentVersion : option string }.

Record StartEnv := mkStartEnv {
  nowISO : string;                    (* nowISO() *)
  generatedId : string;               (* generateId() *)
  gitBranch : string;                 (* getGitBranch(projectPath) *)
  gitHead : option string;            (* getGitHead(projectPath) *)
  detectedAgentType : AgentType;      (* detectAgentType() *)
  detectedAgentVersion : option string (* getAgentVersion() *) }.

(** What the statements on table [sessions] come to: the session created
    and the number of sessions abandoned, or the exception of the
    [INSERT]. *)
Inductive StartOutcome :=
| SessionStarted (session : Session.t) (abandoned : nat)
| StartFailed (e : Exn).                                    (* isError *)

(** [x ?? y]. *)
Definition orElse {A : Type} (x : option A) (y : A) : A :=
  match x with Some v => v | None => y end.

Definition orElseOpt {A : Type} (x y : option A) : option A :=
  match x with Some v => Some v | None => y end.

Definition handleSessionStart (db : Sessions.table) (env : StartEnv)
  (args : StartArgs) : Sessions.table * StartOutcome :=
  let now := env.(nowISO) in
  let (db1, abandoned) := Sessions.abandonStaleSessions db args.(projectPath) now in
  let resolvedBranch := orElse args.(branch) env.(gitBranch) in
  let resolvedCommit := orElseOpt args.(gitCommit) env.(gitHead) in
  let resolvedAgentType := orElse args.(agentType) env.(detectedAgentType) in
  let resolvedAgentVersion := orElseOpt args.(agentVersion) env.(detectedAgentVersion) in
  let session :=
    {| Session.sessionId := env.(generatedId);
       Session.projectPath := args.(projectPath);
       Session.branch := resolvedBranch;
       Session.startedAt := now;
       Session.endedAt := None;
       Session.status := active;
       Session.summary := None;
       Session.gitCommitStart := resolvedCommit;
       Session.gitCommitEnd := None;
       Session.agentType := Some resolvedAgentType;
       Session.agentVersion := resolvedAgentVersion |} in
  match Sessions.createSession db1 session with
  | Throw e => (db1, StartFailed e)
  | Ok db2 => (db2, SessionStarted session abandoned)
  end.

(** *** [session_end]

    The text of the metrics computed after a successful end is not part
    of the response modelled here. *)

Inductive EndResponse :=
| EndNotFound (sessionId : string)     (* "not found or already ended", isError *)
| SessionCompleted (session : Session.t).

Definition handleSessionEnd (db : Sessions.table) (now sessionId : string)
  (summary gitCommit : option string) : Sessions.table * EndResponse :=
  let (db', session) := Sessions.endSession db sessionId now summary gitCommit in
  match session with
  | None => (db', EndNotFound sessionId)
  | Some s => (db', SessionCompleted s)
  end.

(** *** [record_event] *)

Inductive RecordResponse :=
| EventSessionNotFound (sessionId : string)                      (* isError *)
| EventSessionNotActive (sessionId : string) (status : SessionStatus) (* isError *)
| EventRecorded (eventType : EventType) (eventId : string)
| RecordFailed (e : Exn).                                        (* isError *)

(** The handler destructures [sessionId] and [detail] only: the caller's
    [eventType] is accepted and never read. *)
Definition handleRecordEvent (db : Db) (now generatedId : string)
  (sessionId : string) (eventType : option EventType) (detail : EventDetail)
  : Db * RecordResponse :=
  match Sessions.getSession db.(sessions) sessionId with
  | None => (db, EventSessionNotFound sessionId)
  | Some session =>
      if negb (Sessions.statusEqb session.(Session.status) active)
      then (db, EventSessionNotActive sessionId session.(Session.status))
      else
        let resolvedEventType := deriveEventType detail in
        let category := categorizeEvent resolvedEventType in
        let event :=
          {| SessionEvent.eventId := generatedId;
             SessionEvent.sessionId := sessionId;
             SessionEvent.timestamp := now;
             SessionEvent.eventType := resolvedEventType;
             SessionEvent.category := category;
             SessionEvent.detail := detail |} in
        match Events.insertEvent db.(sessions) db.(session_events) event with
        | Throw e => (db, RecordFailed e)
        | Ok events' =>
            ({| sessions := db.(sessions);
                session_events := events';
                promoted_knowledge := db.(promoted_knowledge) |},
             EventRecorded resolvedEventType generatedId)
        end
  end.

(** *** [promote_knowledge] ([src/tools/knowledge.ts]) *)

Record PromoteArgs := mkPromoteArgs {
  p_projectPath : string;
  p_title : string;
  p_content : string;
  p_knowledgeType : KnowledgeType;
  p_tags : option (list string);
  p_sessionId : option string;
  p_sourceEventId : option string;
  p_allowDuplicate : option bool;
  p_supersedes : option string }.

Inductive PromoteResponse :=
| DuplicateDetected (dup : DuplicateCandidate)
| KnowledgePromoted (knowledge : Knowledge.t) (projectItems : nat)
                    (superseded : option string)
| PromoteFailed (e : Exn).                                       (* isError *)

(** JavaScript truthiness of an optional boolean. *)
Definition truthyBool (b : option bool) : bool :=
  match b with Some true => true | _ => false end.

(** The part of the handler after the duplicate check. *)
Definition promote (db : Db) (now generatedId : string) (args : PromoteArgs)
  : Db * PromoteResponse :=
  let contentHash := Duplicates.computeContentHash args.(p_content) in
  let branch' :=
    if Js.truthy args.(p_sessionId)
    then match args.(p_sessionId) with
         | Some sid => option_map Session.branch (Sessions.getSession db.(sessions) sid)
         | None => None
         end
    else None in
  let knowledge :=
    {| Knowledge.knowledgeId := generatedId;
       Knowledge.projectPath := args.(p_projectPath);
       Knowledge.sessionId := args.(p_sessionId);
       Knowledge.sourceEventId := args.(p_sourceEventId);
       Knowledge.title := args.(p_title);
       Knowledge.content := args.(p_content);
       Knowledge.knowledgeType := args.(p_knowledgeType);
       Knowledge.tags := orElse args.(p_tags) [];
       Knowledge.createdAt := now;
       Knowledge.syncedAt := None;
       Knowledge.synapseKnowledgeId := None;
       Knowledge.branch := branch';
       Knowledge.contentHash := Some contentHash;
       Knowledge.usageCount := Some 0;
       Knowledge.supersededBy := None |} in
  match KnowledgeStore.insertKnowledge db.(sessions) db.(session_events)
          db.(promoted_knowledge) knowledge with
  | Throw e => (db, PromoteFailed e)
  | Ok k1 =>
      let k2 :=
        if Js.truthy args.(p_supersedes)
        then match args.(p_supersedes) with
             | Some old => Duplicates.markSuperseded k1 old generatedId
             | None => k1
             end
        else k1 in
      let existing := KnowledgeStore.getProjectKnowledge k2 args.(p_projectPath) None 100 in
      ({| sessions := db.(sessions);
          session_events := db.(session_events);
          promoted_knowledge := k2 |},
       KnowledgePromoted knowledge (List.length existing)
         (if Js.truthy args.(p_supersedes) then args.(p_supersedes) else None))
  end.

Definition handlePromoteKnowledge (db : Db) (now generatedId : string)
  (args : PromoteArgs) : Db * PromoteResponse :=
  if negb (truthyBool args.(p_allowDuplicate))
  then
    let duplicates :=
      Duplicates.findDuplicates db.(promoted_knowledge)
        args.(p_projectPath) args.(p_title) args.(p_content) in
    match duplicates with
    | dup :: _ => (db, DuplicateDetected dup)      (* duplicates[0] *)
    | [] => promote db now generatedId args
    end
  else promote db now generatedId args.

End Tools.

(** ** Schema manager ([src/storage/database.ts])

    The data definition statements used by the migrations are modelled on
    a schema made of tables (name and column names) and index names.  All
    [CREATE] statements of the migrations carry [IF NOT EXISTS]. *)

Module Schema.

Inductive Stmt :=
| CreateTable (name : string) (columns : list string)
| CreateIndex (name table : string) (columns : list string)
| AddColumn (table column : string).

Record Store := mkStore {
  tables : list (string * list string);
  indexes : list string;
  (** Rows of table [schema_version]; [None] while the table is absent. *)
  schema_version : option (list nat) }.

Definition CURRENT_SCHEMA_VERSION : nat := 3.

Definition MIGRATIONS (v : nat) : option (list Stmt) :=
  match v with
  | 1 => Some
      [ CreateTable "sessions"
          ["session_id"; "project_path"; "branch"; "started_at"; "ended_at";
           "status"; "summary"; "git_commit_start"; "git_commit_end"; "created_at"];
        CreateTable "session_events"
          ["event_id"; "session_id"; "timestamp"; "event_type"; "category";
           "detail_json"; "created_at"];
        CreateIndex "idx_events_session" "session_events" ["session_id"];
        CreateIndex "idx_events_type" "session_events" ["event_type"];
        CreateIndex "idx_sessions_project" "sessions" ["project_path"];
        CreateIndex "idx_sessions_branch" "sessions" ["project_path"; "branch"];
        CreateIndex "idx_sessions_status" "sessions" ["status"] ]
  | 2 => Some
      [ CreateTable "promoted_knowledge"
          ["knowledge_id"; "project_path"; "session_id"; "source_event_id";
           "title"; "content"; "knowledge_type"; "tags"; "created_at";
           "synced_at"; "synapse_knowledge_id"];
        CreateIndex "idx_knowledge_project" "promoted_knowledge" ["project_path"];
        CreateIndex "idx_knowledge_type" "promoted_knowledge" ["knowledge_type"];
        CreateIndex "idx_knowledge_synced" "promoted_knowledge" ["synced_at"];
        CreateTable "synapse_sync_config"
          ["project_path"; "synapse_endpoint"; "synapse_project_id"; "tenant_id";
           "api_key_env_var"; "auto_sync_promoted"; "last_synced_at"; "created_at"] ]
  | 3 => Some
      [ AddColumn "sessions" "agent_type";
        AddColumn "sessions" "agent_version";
        CreateTable "agents"
          ["agent_type"; "display_name"; "first_seen_at"; "last_seen_at";
           "total_sessions"];
        CreateTable "file_importance"
          ["project_path"; "file_path"; "read_count"; "edit_count";
           "last_accessed_at"; "importance_score"];
        CreateIndex "idx_file_importance_project" "file_importance" ["project_path"];
        CreateIndex "idx_file_importance_score" "file_importance"
          ["project_path"; "importance_score"];
        CreateTable "knowledge_usage"
          ["usage_id"; "knowledge_id"; "session_id"; "usage_type"; "timestamp"];
        CreateIndex "idx_knowledge_usage_knowledge" "knowledge_usage" ["knowledge_id"];
        CreateIndex "idx_knowledge_usage_session" "knowledge_usage" ["session_id"];
        CreateTable "value_metrics"
          ["project_path"; "total_sessions"; "context_reuse_count";
           "knowledge_surfaced_count"; "decisions_recalled_count";
           "patterns_applied_count"; "errors_prevented_count";
           "estimated_time_saved_secs"; "updated_at"];
        AddColumn "promoted_knowledge" "branch";
        AddColumn "promoted_knowledge" "content_hash";
        AddColumn "promoted_knowledge" "usage_count";
        AddColumn "promoted_knowledge" "superseded_by";
        CreateIndex "idx_knowledge_hash" "promoted_knowledge" ["content_hash"];
        CreateIndex "idx_knowledge_branch" "promoted_knowledge" ["project_path"; "branch"] ]
  | _ => None
  end.

Definition hasString (x : string) (l : list string) : bool :=
  existsb (String.eqb x) l.

Fixpoint lookupTable (name : string) (ts : list (string * list string))
  : option (list string) :=
  match ts with
  | [] => None
  | (n, cols) :: r => if String.eqb n name then Some cols else lookupTable name r
  end.

Fixpoint addColumnTo (name column : string) (ts : list (string * list string))
  : list (string * list string) :=
  match ts with
  | [] => []
  | (n, cols) :: r =>
      if String.eqb n name then (n, cols ++ [column]) :: r
      else (n, cols) :: addColumnTo name column r
  end.

(** One statement of [db.exec(sql)]. *)
Definition execStmt (db : Store) (st : Stmt) : Result Store :=
  match st with
  | CreateTable name columns =>
      match lookupTable name db.(tables) with
      | Some _ => Ok db                                    (* IF NOT EXISTS *)
      | None => Ok {| tables := db.(tables) ++ [(name, columns)];
                      indexes := db.(indexes);
                      schema_version := db.(schema_version) |}
      end
  | CreateIndex name table columns =>
      if hasString name db.(indexes) then Ok db            (* IF NOT EXISTS *)
      else
        match lookupTable table db.(tables) with
        | None => Throw (SqlError "no such table")
        | Some cols =>
            if forallb (fun c => hasString c cols) columns
            then Ok {| tables := db.(tables);
                       indexes := db.(indexes) ++ [name];
                       schema_version := db.(schema_version) |}
            else Throw (SqlError "no such column")
        end
  | AddColumn table column =>
      match lookupTable table db.(tables) with
      | None => Throw (SqlError "no such table")
      | Some cols =>
          if hasString column cols then Throw (SqlError "duplicate column name")
          else Ok {| tables := addColumnTo table column db.(tables);
                     indexes := db.(indexes);
                     schema_version := db.(schema_version) |}
      end
  end.

(** [db.exec(sql)]: the statements in order, stopping at the first error. *)
Fixpoint exec (db : Store) (sql : list Stmt) : Result Store :=
  match sql with
  | [] => Ok db
  | st :: r =>
      match execStmt db st with
      | Ok db' => exec db' r
      | Throw e => Throw e
      end
  end.

(** [INSERT INTO schema_version (version) VALUES (?)]; [version] is the
    primary key. *)
Definition insertVersion (db : Store) (v : nat) : Result Store :=
  match db.(schema_version) with
  | None => Throw (SqlError "no such table")
  | Some rows =>
      if existsb (Nat.eqb v) rows then Throw (UniqueConstraint "schema_version")
      else Ok {| tables := db.(tables);
                 indexes := db.(indexes);
                 schema_version := Some (rows ++ [v]) |}
  end.

(** [getSchemaVersion]: the greatest logged version, [0] when the log is
    empty or the query throws (table absent). *)
Definition getSchemaVersion (db : Store) : nat :=
  match db.(schema_version) with
  | None => 0
  | Some rows => fold_right Nat.max 0 rows
  end.

(** [CREATE TABLE IF NOT EXISTS schema_version (...)]. *)
Definition ensureVersionTable (db : Store) : Store :=
  {| tables := db.(tables);
     indexes := db.(indexes);
     schema_version := Some (match db.(schema_version) with
                             | Some rows => rows
                             | None => []
                             end) |}.

(** [db.transaction(fn)()]: commit what [fn] did when it returns, roll
    back to the state before and rethrow when it throws. *)
Definition transaction (fn : Store -> Result Store) (db : Store)
  : Store * option Exn :=
  match fn db with
  | Ok db' => (db', None)
  | Throw e => (db, Some e)
  end.

(** The loop [for (let v = ...; v <= CURRENT_SCHEMA_VERSION; v++)] with
    [n] iterations left. *)
Fixpoint migrateLoop (n v : nat) (db : Store) : Result Store :=
  match n with
  | O => Ok db
  | S n' =>
      match MIGRATIONS v with
      | None => Throw (MissingMigration v)
      | Some sql =>
          match exec db sql with
          | Throw e => Throw e
          | Ok db1 =>
              match insertVersion db1 v with
              | Throw e => Throw e
              | Ok db2 => migrateLoop n' (S v) db2
              end
          end
      end
  end.

(** [runMigrations]: the final store and the exception that escapes, if
    any. *)
Definition runMigrations (db : Store) : Store * option Exn :=
  let db0 := ensureVersionTable db in
  let currentVersion := getSchemaVersion db0 in
  let migrate :=
    transaction (migrateLoop (CURRENT_SCHEMA_VERSION - currentVersion)
                             (currentVersion + 1)) in
  migrate db0.

End Schema.

(** ** Text of the enumerations, as stored in the tables ([src/types.ts]) *)

Definition eventTypeText (t : EventType) : string :=
  match t with
  | file_read => "file_read"
  | file_write => "file_write"
  | file_edit => "file_edit"
  | tool_call => "tool_call"
  | decision => "decision"
  | pattern => "pattern"
  | error_resolved => "error_resolved"
  | milestone => "milestone"
  end.

Definition categoryText (c : EventCategory) : string :=
  match c with
  | cat_read => "read"
  | cat_search => "search"
  | cat_edit => "edit"
  | cat_execute => "execute"
  | cat_agent => "agent"
  | cat_other => "other"
  end.

Definition agentTypeText (a : AgentType) : string :=
  match a with
  | claude_code => "claude-code"
  | cursor => "cursor"
  | aider => "aider"
  | openclaw => "openclaw"
  | unknown => "unknown"
  end.

(** [col = ?] on a column holding one of these texts. *)
Definition eventTypeEqb (x y : EventType) : bool :=
  String.eqb (eventTypeText x) (eventTypeText y).

Definition categoryEqb (x y : EventCategory) : bool :=
  String.eqb (categoryText x) (categoryText y).

Definition agentTypeEqb (x y : AgentType) : bool :=
  String.eqb (agentTypeText x) (agentTypeText y).

(** ** Probes of the environment ([src/utils.ts]) *)

Module Env.

(** The four variables of [process.env] that the probes read; an unset
    variable is [undefined]. *)
Record ProcessEnv := mkProcessEnv {
  CLAUDE_CODE_VERSION : option string;
  CURSOR_VERSION : option string;
  AIDER_VERSION : option string;
  OPENCLAW_VERSION : option string }.

(** [detectAgentType]: each [if] tests the truthiness of a variable. *)
Definition detectAgentType (env : ProcessEnv) : AgentType :=
  if Js.truthy env.(CLAUDE_CODE_VERSION) then claude_code
  else if Js.truthy env.(CURSOR_VERSION) then cursor
  else if Js.truthy env.(AIDER_VERSION) then aider
  else if Js.truthy env.(OPENCLAW_VERSION) then openclaw
  else unknown.

(** [getAgentVersion]: a chain of [??], which skips [undefined] only. *)
Definition getAgentVersion (env : ProcessEnv) : option string :=
  Tools.orElseOpt env.(CLAUDE_CODE_VERSION)
    (Tools.orElseOpt env.(CURSOR_VERSION)
       (Tools.orElseOpt env.(AIDER_VERSION) env.(OPENCLAW_VERSION))).

(** [AGENT_DISPLAY_NAMES] and [getAgentDisplayName]. *)
Definition getAgentDisplayName (agentType : AgentType) : string :=
  match agentType with
  | claude_code => "Claude Code"
  | cursor => "Cursor"
  | aider => "Aider"
  | openclaw => "OpenClaw"
  | unknown => "Unknown Agent"
  end.

End Env.

(** ** SQL helpers, continued *)

Module SqlMore.

(** [ORDER BY key DESC] on an integer column; rows with equal keys stay in
    table order. *)
Definition orderByCountDesc {A : Type} (key : A -> nat) (rows : list A) : list A :=
  Js.sort (fun x y => key x <? key y) rows.

(** [SELECT key, COUNT( * ) ... GROUP BY key] over the keys of the selected
    rows: one pair per distinct key. *)
Section Group.
Variable K : Type.
Variable eqb : K -> K -> bool.

Fixpoint bump (k : K) (groups : list (K * nat)) : list (K * nat) :=
  match groups with
  | [] => [(k, 1)]
  | (k', n) :: r => if eqb k' k then (k', S n) :: r else (k', n) :: bump k r
  end.

Definition groupCount (keys : list K) : list (K * nat) :=
  fold_left (fun groups k => bump k groups) keys [].

(** [groups.find((c) => c.key === k)?.count ?? 0]. *)
Definition countOf (k : K) (groups : list (K * nat)) : nat :=
  match find (fun g => eqb (fst g) k) groups with
  | Some g => snd g
  | None => 0
  end.
End Group.

(** The operator [LIKE] of SQLite with its default settings: [%] matches
    any run of characters, [_] any single character, and any other
    character itself, letters A-Z and a-z without regard to case. *)
Definition upperAscii (c : ascii) : ascii :=
  let n := N_of_ascii c in
  if ((97 <=? n) && (n <=? 122))%N then ascii_of_N (n - 32) else c.

Definition likeCharEq (p c : ascii) : bool :=
  Ascii.eqb (upperAscii p) (upperAscii c).

Fixpoint like (pattern : list ascii) : list ascii -> bool :=
  match pattern with
  | [] => fun s => match s with [] => true | _ :: _ => false end
  | p :: pattern' =>
      if Ascii.eqb p "%" then
        fix anySuffix (s : list ascii) : bool :=
          like pattern' s
          || match s with [] => false | _ :: r => anySuffix r end
      else if Ascii.eqb p "_" then
        fun s => match s with [] => false | _ :: r => like pattern' r end
      else
        fun s => match s with
                 | [] => false
                 | c :: r => likeCharEq p c && like pattern' r
                 end
  end.

(** [col LIKE ?] on a nullable text column: never true on [NULL]. *)
Definition likeText (col : option string) (pattern : string) : bool :=
  match col with
  | Some s => like (list_ascii_of_string pattern) (list_ascii_of_string s)
  | None => false
  end.

End SqlMore.

(** ** Session store, continued: listings ([src/storage/sessions.ts]) *)

Module SessionQueries.
Import SessionRow.

(** [branch ? ... : ...] picks the query: an absent or empty [branch]
    selects the one without the branch condition. *)
Definition whereListed (projectPath : string) (branch' : option string)
  (r : SessionRow.t) : bool :=
  if Js.truthy branch'
  then String.eqb r.(project_path) projectPath
       && Js.strictEq branch' r.(branch)
       && Sessions.statusEqb r.(status) completed
  else String.eqb r.(project_path) projectPath
       && Sessions.statusEqb r.(status) completed.

(** [getRecentSessions]; the default [limit] is 10. *)
Definition getRecentSessions (db : Sessions.table) (projectPath : string)
  (limit : nat) (branch' : option string) : list Session.t :=
  map Sessions.rowToSession
    (Sql.limit limit
       (Sql.orderByDesc started_at (filter (whereListed projectPath branch') db))).

Definition whereMatching (projectPath : string) (branch' : option string)
  (likePattern : string) (r : SessionRow.t) : bool :=
  if Js.truthy branch'
  then String.eqb r.(project_path) projectPath
       && Js.strictEq branch' r.(branch)
       && SqlMore.likeText r.(summary) likePattern
  else String.eqb r.(project_path) projectPath
       && SqlMore.likeText r.(summary) likePattern.

(** [searchSessions]; the default [limit] is 10. *)
Definition searchSessions (db : Sessions.table) (projectPath : string)
  (query branch' : option string) (limit : nat) : list Session.t :=
  match query with
  | Some q =>
      if Js.truthy query
      then
        let likePattern := ("%" ++ q ++ "%")%string in
        map Sessions.rowToSession
          (Sql.limit limit
             (Sql.orderByDesc started_at
                (filter (whereMatching projectPath branch' likePattern) db)))
      else getRecentSessions db projectPath limit branch'
  | None => getRecentSessions db projectPath limit branch'
  end.

End SessionQueries.

(** ** Event store, continued: queries ([src/storage/events.ts]) *)

Module EventQueries.
Import EventRow.

Definition rowToEvent (row : EventRow.t) : SessionEvent.t :=
  {| SessionEvent.eventId := row.(event_id);
     SessionEvent.sessionId := row.(session_id);
     SessionEvent.timestamp := row.(timestamp);
     SessionEvent.eventType := row.(event_type);
     SessionEvent.category := row.(category);
     SessionEvent.detail := row.(detail_json) |}.

(** [AND event_type = ?], present when [eventType] is given. *)
Definition ofType (eventType : option EventType) (r : EventRow.t) : bool :=
  match eventType with
  | Some t => eventTypeEqb r.(event_type) t
  | None => true
  end.

(** [getSessionEvents]. *)
Definition getSessionEvents (db : Events.table) (sessionId : string)
  (eventType : option EventType) : list SessionEvent.t :=
  map rowToEvent
    (Sql.orderByAsc timestamp
       (filter (fun r => String.eqb r.(session_id) sessionId && ofType eventType r) db)).

(** [session_events e JOIN sessions s ON e.session_id = s.session_id
    WHERE s.project_path = ?]: one row for every pair of an event and a
    session that satisfies both conditions; [e.*] keeps the event.
    SQLite runs the join as a loop over the sessions of the project
    (index [idx_sessions_project]) around a loop over the events of each
    session (index [idx_events_session]), so the rows come session by
    session.  SQL does not fix this order: it is the engine's choice, and
    it shows in the result only where timestamps are equal. *)
Definition joinProject (sessions : Sessions.table) (db : Events.table)
  (projectPath : string) : Events.table :=
  flat_map
    (fun s => filter (fun e => String.eqb e.(session_id) s.(SessionRow.session_id)) db)
    (filter (fun s => String.eqb s.(SessionRow.project_path) projectPath) sessions).

(** [getRecentEvents]; the default [limit] is 20.  Which of several
    events with one timestamp comes first, and which of them [LIMIT]
    keeps, follows from the order of the join. *)
Definition getRecentEvents (sessions : Sessions.table) (db : Events.table)
  (projectPath : string) (eventType : option EventType) (limit : nat)
  : list SessionEvent.t :=
  map rowToEvent
    (Sql.limit limit
       (Sql.orderByDesc timestamp
          (filter (ofType eventType) (joinProject sessions db projectPath)))).

End EventQueries.

(** ** Session metrics ([computeMetrics] of [src/storage/sessions.ts]) *)

Module Metrics.
Import EventRow.

Record SessionMetrics := mkSessionMetrics {
  sessionId : string;
  (** [None] stands for [NaN]: a date of the session cannot be parsed. *)
  durationSecs : option Z;
  eventsTotal : nat;
  read : nat;
  search : nat;
  edit : nat;
  execute : nat;
  agent : nat;
  other : nat;
  filesRead : nat;
  filesModified : nat;
  decisionsRecorded : nat;
  patternsDiscovered : nat;
  errorsResolved : nat }.

(** [json_extract(detail_json, '$.path')]: only a file operation has a
    member [path]. *)
Definition jsonPath (detail : EventDetail) : option string :=
  match detail with
  | FileOpDetail path _ => Some path
  | _ => None
  end.

(** [COUNT(DISTINCT x)]: the number of distinct values that are not
    [NULL]. *)
Fixpoint values (xs : list (option string)) : list string :=
  match xs with
  | [] => []
  | Some v :: r => v :: values r
  | None :: r => values r
  end.

Definition countDistinct (xs : list (option string)) : nat :=
  List.length (nodup string_dec (values xs)).

Section Clock.

(** [new Date(s).getTime()], [None] for [NaN]. *)
Variable parseDate : string -> option Z.

(** [new Date().toISOString()]. *)
Variable nowISO : string.

Definition computeMetrics (sessions : Sessions.table) (events : Events.table)
  (sessionId' : string) : option SessionMetrics :=
  match Sessions.getSession sessions sessionId' with
  | None => None
  | Some session =>
      let endTime := Tools.orElse session.(Session.endedAt) nowISO in
      let durationSecs' :=
        match parseDate endTime, parseDate session.(Session.startedAt) with
        | Some e, Some s => Some ((e - s) / 1000)%Z      (* Math.floor *)
        | _, _ => None
        end in
      let ofSession := filter (fun r => String.eqb r.(session_id) sessionId') events in
      let categoryCounts :=
        SqlMore.groupCount categoryEqb (map category ofSession) in
      let eventTypeCounts :=
        SqlMore.groupCount eventTypeEqb (map event_type ofSession) in
      let fileReadCount :=
        countDistinct
          (map (fun r => jsonPath r.(detail_json))
             (filter (fun r => eventTypeEqb r.(event_type) file_read) ofSession)) in
      let fileModifiedCount :=
        countDistinct
          (map (fun r => jsonPath r.(detail_json))
             (filter (fun r => eventTypeEqb r.(event_type) file_write
                               || eventTypeEqb r.(event_type) file_edit) ofSession)) in
      let countByCategory cat := SqlMore.countOf categoryEqb cat categoryCounts in
      let countByType t := SqlMore.countOf eventTypeEqb t eventTypeCounts in
      let eventsTotal' := fold_left (fun sum c => sum + snd c) categoryCounts 0 in
      Some {| sessionId := sessionId';
              durationSecs := durationSecs';
              eventsTotal := eventsTotal';
              read := countByCategory cat_read;
              search := countByCategory cat_search;
              edit := countByCategory cat_edit;
              execute := countByCategory cat_execute;
              agent := countByCategory cat_agent;
              other := countByCategory cat_other;
              filesRead := fileReadCount;
              filesModified := fileModifiedCount;
              decisionsRecorded := countByType decision;
              patternsDiscovered := countByType pattern;
              errorsResolved := countByType error_resolved |}
  end.

End Clock.

End Metrics.

(** ** Knowledge store, continued ([src/storage/knowledge.ts]) *)

Module KnowledgeSync.
Import KnowledgeRow.

Definition setSynced (syncedAt synapseKnowledgeId : string) (r : KnowledgeRow.t)
  : KnowledgeRow.t :=
  {| knowledge_id := r.(knowledge_id);
     project_path := r.(project_path);
     session_id := r.(session_id);
     source_event_id := r.(source_event_id);
     title := r.(title);
     content := r.(content);
     knowledge_type := r.(knowledge_type);
     tags := r.(tags);
     created_at := r.(created_at);
     synced_at := Some syncedAt;
     synapse_knowledge_id := Some synapseKnowledgeId;
     branch := r.(branch);
     content_hash := r.(content_hash);
     usage_count := r.(usage_count);
     superseded_by := r.(superseded_by) |}.

(** [markKnowledgeSynced]:
    [UPDATE ... SET synced_at = ?, synapse_knowledge_id = ? WHERE knowledge_id = ?]. *)
Definition markKnowledgeSynced (db : KnowledgeStore.table)
  (knowledgeId syncedAt synapseKnowledgeId : string) : KnowledgeStore.table :=
  fst (Sql.update (fun r => String.eqb r.(knowledge_id) knowledgeId)
                  (setSynced syncedAt synapseKnowledgeId) db).

End KnowledgeSync.

(** ** Usage log of the knowledge items ([src/storage/knowledge-usage.ts]) *)

Inductive UsageType := surfaced | recalled | applied.

Definition usageTypeText (u : UsageType) : string :=
  match u with
  | surfaced => "surfaced"
  | recalled => "recalled"
  | applied => "applied"
  end.

Definition usageTypeEqb (x y : UsageType) : bool :=
  String.eqb (usageTypeText x) (usageTypeText y).

Module UsageRow.
Record t := mk {
  usage_id : string;
  knowledge_id : string;
  session_id : string;
  usage_type : UsageType;
  timestamp : string }.
End UsageRow.

Module KnowledgeUsage.
Record t := mk {
  usageId : string;
  knowledgeId : string;
  sessionId : string;
  usageType : UsageType;
  timestamp : string }.
End KnowledgeUsage.

Module Usage.
Import UsageRow.

Definition table := list UsageRow.t.

Definition rowToKnowledgeUsage (row : UsageRow.t) : KnowledgeUsage.t :=
  {| KnowledgeUsage.usageId := row.(usage_id);
     KnowledgeUsage.knowledgeId := row.(knowledge_id);
     KnowledgeUsage.sessionId := row.(session_id);
     KnowledgeUsage.usageType := row.(usage_type);
     KnowledgeUsage.timestamp := row.(timestamp) |}.

Definition addUsage (r : KnowledgeRow.t) : KnowledgeRow.t :=
  {| KnowledgeRow.knowledge_id := r.(KnowledgeRow.knowledge_id);
     KnowledgeRow.project_path := r.(KnowledgeRow.project_path);
     KnowledgeRow.session_id := r.(KnowledgeRow.session_id);
     KnowledgeRow.source_event_id := r.(KnowledgeRow.source_event_id);
     KnowledgeRow.title := r.(KnowledgeRow.title);
     KnowledgeRow.content := r.(KnowledgeRow.content);
     KnowledgeRow.knowledge_type := r.(KnowledgeRow.knowledge_type);
     KnowledgeRow.tags := r.(KnowledgeRow.tags);
     KnowledgeRow.created_at := r.(KnowledgeRow.created_at);
     KnowledgeRow.synced_at := r.(KnowledgeRow.synced_at);
     KnowledgeRow.synapse_knowledge_id := r.(KnowledgeRow.synapse_knowledge_id);
     KnowledgeRow.branch := r.(KnowledgeRow.branch);
     KnowledgeRow.content_hash := r.(KnowledgeRow.content_hash);
     KnowledgeRow.usage_count := r.(KnowledgeRow.usage_count) + 1;
     KnowledgeRow.superseded_by := r.(KnowledgeRow.superseded_by) |}.

(** [incrementUsageCount]:
    [UPDATE promoted_knowledge SET usage_count = usage_count + 1
     WHERE knowledge_id = ?]. *)
Definition incrementUsageCount (knowledge : KnowledgeStore.table)
  (knowledgeId : string) : KnowledgeStore.table :=
  fst (Sql.update (fun r => String.eqb r.(KnowledgeRow.knowledge_id) knowledgeId)
                  addUsage knowledge).

(** [recordKnowledgeUsage]: [usage_id] is the primary key of the log; the
    log has no foreign key.  [usageId] and [timestamp'] are the results of
    [generateId()] and [nowISO()]. *)
Definition recordKnowledgeUsage (db : table) (knowledge : KnowledgeStore.table)
  (usageId timestamp' : string) (knowledgeId sessionId : string)
  (usageType : UsageType)
  : Result (table * KnowledgeStore.table * KnowledgeUsage.t) :=
  if existsb (fun r => String.eqb r.(usage_id) usageId) db
  then Throw (UniqueConstraint "knowledge_usage")
  else
    let db' := db ++ [ {| usage_id := usageId;
                          knowledge_id := knowledgeId;
                          session_id := sessionId;
                          usage_type := usageType;
                          timestamp := timestamp' |} ] in
    let knowledge' := incrementUsageCount knowledge knowledgeId in
    Ok (db', knowledge',
        {| KnowledgeUsage.usageId := usageId;
           KnowledgeUsage.knowledgeId := knowledgeId;
           KnowledgeUsage.sessionId := sessionId;
           KnowledgeUsage.usageType := usageType;
           KnowledgeUsage.timestamp := timestamp' |}).

(** [getKnowledgeUsageHistory]; the default [limit] is 50. *)
Definition getKnowledgeUsageHistory (db : table) (knowledgeId : string)
  (limit : nat) : list KnowledgeUsage.t :=
  map rowToKnowledgeUsage
    (Sql.limit limit
       (Sql.orderByDesc timestamp
          (filter (fun r => String.eqb r.(knowledge_id) knowledgeId) db))).

(** [getSessionKnowledgeUsage]. *)
Definition getSessionKnowledgeUsage (db : table) (sessionId : string)
  : list KnowledgeUsage.t :=
  map rowToKnowledgeUsage
    (Sql.orderByAsc timestamp
       (filter (fun r => String.eqb r.(session_id) sessionId) db)).

Record UsageCounts := mkUsageCounts {
  n_surfaced : nat;
  n_recalled : nat;
  n_applied : nat }.

(** [knowledge_usage ku JOIN promoted_knowledge pk
     ON ku.knowledge_id = pk.knowledge_id WHERE pk.project_path = ?],
    then [AND ku.timestamp >= ?] when [since] is truthy. *)
Definition joinProject (db : table) (knowledge : KnowledgeStore.table)
  (projectPath : string) (since : option string) : table :=
  flat_map
    (fun ku =>
       map (fun _ => ku)
         (filter (fun pk => String.eqb ku.(knowledge_id) pk.(KnowledgeRow.knowledge_id)
                            && String.eqb pk.(KnowledgeRow.project_path) projectPath
                            && match since with
                               | Some t => if Js.truthy since
                                           then negb (String.ltb ku.(timestamp) t)
                                           else true
                               | None => true
                               end)
                 knowledge))
    db.

(** The loop over the groups of [getUsageCountByType]: one iteration. *)
Definition countStep (result : UsageCounts) (row : UsageType * nat) : UsageCounts :=
  let r1 := if usageTypeEqb (fst row) surfaced
            then {| n_surfaced := snd row; n_recalled := result.(n_recalled);
                    n_applied := result.(n_applied) |}
            else result in
  let r2 := if usageTypeEqb (fst row) recalled
            then {| n_surfaced := r1.(n_surfaced); n_recalled := snd row;
                    n_applied := r1.(n_applied) |}
            else r1 in
  if usageTypeEqb (fst row) applied
  then {| n_surfaced := r2.(n_surfaced); n_recalled := r2.(n_recalled);
          n_applied := snd row |}
  else r2.

(** [getUsageCountByType]. *)
Definition getUsageCountByType (db : table) (knowledge : KnowledgeStore.table)
  (projectPath : string) (since : option string) : UsageCounts :=
  let rows :=
    SqlMore.groupCount usageTypeEqb
      (map usage_type (joinProject db knowledge projectPath since)) in
  fold_left countStep rows
    {| n_surfaced := 0; n_recalled := 0; n_applied := 0 |}.

End Usage.

(** ** Value metrics ([src/storage/value-metrics.ts]) *)

Module ValueMetricsRow.
Record t := mk {
  project_path : string;
  total_sessions : nat;
  context_reuse_count : nat;
  knowledge_surfaced_count : nat;
  decisions_recalled_count : nat;
  patterns_applied_count : nat;
  errors_prevented_count : nat;
  estimated_time_saved_secs : nat;
  updated_at : string }.
End ValueMetricsRow.

Module ValueMetrics.
Import ValueMetricsRow.

(** The record [ValueMetrics] has the fields of the row under their
    JavaScript names; [rowToValueMetrics] copies them one by one, so the
    row stands for the record. *)
Definition table := list ValueMetricsRow.t.

(** [TIME_SAVINGS], in seconds. *)
Definition knowledgeSurface : nat := 60.
Definition decisionRecall : nat := 180.
Definition patternApplied : nat := 300.
Definition errorPrevented : nat := 900.

(** [getValueMetrics]. *)
Definition getValueMetrics (db : table) (projectPath : string)
  : option ValueMetricsRow.t :=
  Sql.get (filter (fun r => String.eqb r.(project_path) projectPath) db).

(** [ensureValueMetrics]: [project_path] is the primary key, and the
    [INSERT] runs only when no row has it; the counters of the new row
    take their default 0.  [now] is [nowISO()]. *)
Definition ensureValueMetrics (db : table) (now projectPath : string)
  : table * option ValueMetricsRow.t :=
  match getValueMetrics db projectPath with
  | Some existing => (db, Some existing)
  | None =>
      let db' := db ++ [ {| project_path := projectPath;
                            total_sessions := 0;
                            context_reuse_count := 0;
                            knowledge_surfaced_count := 0;
                            decisions_recalled_count := 0;
                            patterns_applied_count := 0;
                            errors_prevented_count := 0;
                            estimated_time_saved_secs := 0;
                            updated_at := now |} ] in
      (db', getValueMetrics db' projectPath)
  end.

Definition whereProject (projectPath : string) (r : ValueMetricsRow.t) : bool :=
  String.eqb r.(project_path) projectPath.

(** The [UPDATE] statements of the six counters; [now] is the [nowISO()]
    of the statement and [timeSaved] the seconds added to the estimate. *)

Definition addSession (db : table) (now projectPath : string) : table :=
  fst (Sql.update (whereProject projectPath)
         (fun r => {| project_path := r.(project_path);
                      total_sessions := r.(total_sessions) + 1;
                      context_reuse_count := r.(context_reuse_count);
                      knowledge_surfaced_count := r.(knowledge_surfaced_count);
                      decisions_recalled_count := r.(decisions_recalled_count);
                      patterns_applied_count := r.(patterns_applied_count);
                      errors_prevented_count := r.(errors_prevented_count);
                      estimated_time_saved_secs := r.(estimated_time_saved_secs);
                      updated_at := now |}) db).

Definition addContextReuse (db : table) (now projectPath : string) : table :=
  fst (Sql.update (whereProject projectPath)
         (fun r => {| project_path := r.(project_path);
                      total_sessions := r.(total_sessions);
                      context_reuse_count := r.(context_reuse_count) + 1;
                      knowledge_surfaced_count := r.(knowledge_surfaced_count);
                      decisions_recalled_count := r.(decisions_recalled_count);
                      patterns_applied_count := r.(patterns_applied_count);
                      errors_prevented_count := r.(errors_prevented_count);
                      estimated_time_saved_secs := r.(estimated_time_saved_secs);
                      updated_at := now |}) db).

Definition addSurfaced (db : table) (now projectPath : string)
  (count timeSaved : nat) : table :=
  fst (Sql.update (whereProject projectPath)
         (fun r => {| project_path := r.(project_path);
                      total_sessions := r.(total_sessions);
                      context_reuse_count := r.(context_reuse_count);
                      knowledge_surfaced_count := r.(knowledge_surfaced_count) + count;
                      decisions_recalled_count := r.(decisions_recalled_count);
                      patterns_applied_count := r.(patterns_applied_count);
                      errors_prevented_count := r.(errors_prevented_count);
                      estimated_time_saved_secs := r.(estimated_time_saved_secs) + timeSaved;
                      updated_at := now |}) db).

Definition addDecisions (db : table) (now projectPath : string)
  (count timeSaved : nat) : table :=
  fst (Sql.update (whereProject projectPath)
         (fun r => {| project_path := r.(project_path);
                      total_sessions := r.(total_sessions);
                      context_reuse_count := r.(context_reuse_count);
                      knowledge_surfaced_count := r.(knowledge_surfaced_count);
                      decisions_recalled_count := r.(decisions_recalled_count) + count;
                      patterns_applied_count := r.(patterns_applied_count);
                      errors_prevented_count := r.(errors_prevented_count);
                      estimated_time_saved_secs := r.(estimated_time_saved_secs) + timeSaved;
                      updated_at := now |}) db).

Definition addPatterns (db : table) (now projectPath : string)
  (count timeSaved : nat) : table :=
  fst (Sql.update (whereProject projectPath)
         (fun r => {| project_path := r.(project_path);
                      total_sessions := r.(total_sessions);
                      context_reuse_count := r.(context_reuse_count);
                      knowledge_surfaced_count := r.(knowledge_surfaced_count);
                      decisions_recalled_count := r.(decisions_recalled_count);
                      patterns_applied_count := r.(patterns_applied_count) + count;
                      errors_prevented_count := r.(errors_prevented_count);
                      estimated_time_saved_secs := r.(estimated_time_saved_secs) + timeSaved;
                      updated_at := now |}) db).

Definition addErrors (db : table) (now projectPath : string)
  (count timeSaved : nat) : table :=
  fst (Sql.update (whereProject projectPath)
         (fun r => {| project_path := r.(project_path);
                      total_sessions := r.(total_sessions);
                      context_reuse_count := r.(context_reuse_count);
                      knowledge_surfaced_count := r.(knowledge_surfaced_count);
                      decisions_recalled_count := r.(decisions_recalled_count);
                      patterns_applied_count := r.(patterns_applied_count);
                      errors_prevented_count := r.(errors_prevented_count) + count;
                      estimated_time_saved_secs := r.(estimated_time_saved_secs) + timeSaved;
                      updated_at := now |}) db).

(** The six exported functions: [ensureValueMetrics], then the [UPDATE].
    [nowInsert] is the [nowISO()] of [ensureValueMetrics], read only when
    the row is missing, and [nowUpdate] the one of the [UPDATE]. *)

(** [incrementSessionCount]. *)
Definition incrementSessionCount (db : table) (nowInsert nowUpdate projectPath : string)
  : table :=
  addSession (fst (ensureValueMetrics db nowInsert projectPath)) nowUpdate projectPath.

(** [incrementContextReuse]. *)
Definition incrementContextReuse (db : table) (nowInsert nowUpdate projectPath : string)
  : table :=
  addContextReuse (fst (ensureValueMetrics db nowInsert projectPath)) nowUpdate projectPath.

(** [incrementKnowledgeSurfaced]; the default [count] is 1. *)
Definition incrementKnowledgeSurfaced (db : table) (nowInsert nowUpdate projectPath : string)
  (count : nat) : table :=
  let db1 := fst (ensureValueMetrics db nowInsert projectPath) in
  let timeSaved := count * knowledgeSurface in
  addSurfaced db1 nowUpdate projectPath count timeSaved.

(** [incrementDecisionRecall]; the default [count] is 1. *)
Definition incrementDecisionRecall (db : table) (nowInsert nowUpdate projectPath : string)
  (count : nat) : table :=
  let db1 := fst (ensureValueMetrics db nowInsert projectPath) in
  let timeSaved := count * decisionRecall in
  addDecisions db1 nowUpdate projectPath count timeSaved.

(** [incrementPatternApplied]; the default [count] is 1. *)
Definition incrementPatternApplied (db : table) (nowInsert nowUpdate projectPath : string)
  (count : nat) : table :=
  let db1 := fst (ensureValueMetrics db nowInsert projectPath) in
  let timeSaved := count * patternApplied in
  addPatterns db1 nowUpdate projectPath count timeSaved.

(** [incrementErrorPrevented]; the default [count] is 1. *)
Definition incrementErrorPrevented (db : table) (nowInsert nowUpdate projectPath : string)
  (count : nat) : table :=
  let db1 := fst (ensureValueMetrics db nowInsert projectPath) in
  let timeSaved := count * errorPrevented in
  addErrors db1 nowUpdate projectPath count timeSaved.

Record ValueSummary := mkValueSummary {
  timeSavedMinutes : nat;
  estimatedValueUSD : float;
  knowledgeSurfaced : nat;
  decisionsRecalled : nat;
  patternsApplied : nat;
  errorsPrevented : nat }.

(** [computeValueSummary]; the default [hourlyRate] is 50.  The dollar
    estimate is computed in doubles as the source does: the quotient, the
    two products and the last quotient each round, and [Math.round] is
    applied to the rounded product. *)
Definition computeValueSummary (db : table) (projectPath : string)
  (hourlyRate : float) : ValueSummary :=
  match getValueMetrics db projectPath with
  | None =>
      {| timeSavedMinutes := 0;
         estimatedValueUSD := 0%float;
         knowledgeSurfaced := 0;
         decisionsRecalled := 0;
         patternsApplied := 0;
         errorsPrevented := 0 |}
  | Some metrics =>
      let timeSavedMinutes' := metrics.(estimated_time_saved_secs) / 60 in
      let estimatedValueUSD' :=
        (Double.ofNat metrics.(estimated_time_saved_secs) / 3600 * hourlyRate)%float in
      {| timeSavedMinutes := timeSavedMinutes';
         estimatedValueUSD := (Double.round (estimatedValueUSD' * 100) / 100)%float;
         knowledgeSurfaced := metrics.(knowledge_surfaced_count);
         decisionsRecalled := metrics.(decisions_recalled_count);
         patternsApplied := metrics.(patterns_applied_count);
         errorsPrevented := metrics.(errors_prevented_count) |}
  end.

End ValueMetrics.

(** ** Agent registry ([src/storage/agents.ts]) *)

Module AgentRow.
Record t := mk {
  agent_type : AgentType;
  display_name : string;
  first_seen_at : string;
  last_seen_at : string;
  total_sessions : nat }.
End AgentRow.

Module AgentInfo.
Record t := mk {
  agentType : AgentType;
  displayName : string;
  firstSeenAt : string;
  lastSeenAt : string;
  totalSessions : nat }.
End AgentInfo.

Module Agents.
Import AgentRow.

Definition table := list AgentRow.t.

Definition rowToAgentInfo (row : AgentRow.t) : AgentInfo.t :=
  {| AgentInfo.agentType := row.(agent_type);
     AgentInfo.displayName := row.(display_name);
     AgentInfo.firstSeenAt := row.(first_seen_at);
     AgentInfo.lastSeenAt := row.(last_seen_at);
     AgentInfo.totalSessions := row.(total_sessions) |}.

(** [getAgent]. *)
Definition getAgent (db : table) (agentType : AgentType) : option AgentInfo.t :=
  option_map rowToAgentInfo
    (Sql.get (filter (fun r => agentTypeEqb r.(agent_type) agentType) db)).

(** [upsertAgent]: [INSERT ... ON CONFLICT(agent_type) DO UPDATE SET
    last_seen_at = @now, total_sessions = total_sessions + 1], then
    [getAgent].  [now] is [nowISO()]. *)
Definition upsertAgent (db : table) (now : string) (agentType : AgentType)
  : table * option AgentInfo.t :=
  let displayName := Env.getAgentDisplayName agentType in
  let db' :=
    if existsb (fun r => agentTypeEqb r.(agent_type) agentType) db
    then fst (Sql.update (fun r => agentTypeEqb r.(agent_type) agentType)
                (fun r => {| agent_type := r.(agent_type);
                             display_name := r.(display_name);
                             first_seen_at := r.(first_seen_at);
                             last_seen_at := now;
                             total_sessions := r.(total_sessions) + 1 |}) db)
    else db ++ [ {| agent_type := agentType;
                    display_name := displayName;
                    first_seen_at := now;
                    last_seen_at := now;
                    total_sessions := 1 |} ] in
  (db', getAgent db' agentType).

(** [getAllAgents]. *)
Definition getAllAgents (db : table) : list AgentInfo.t :=
  map rowToAgentInfo (SqlMore.orderByCountDesc total_sessions db).

(** [WHERE project_path = ?], then [AND started_at >= ?] when [since] is
    truthy. *)
Definition whereSince (projectPath : string) (since : option string)
  (r : SessionRow.t) : bool :=
  String.eqb r.(SessionRow.project_path) projectPath
  && match since with
     | Some t => if Js.truthy since
                 then negb (String.ltb r.(SessionRow.started_at) t)
                 else true
     | None => true
     end.

(** [getAgentStats]: the pairs [(agentType, sessionCount)].  The groups
    are formed in the order in which the agents first appear; SQL leaves
    open the order of groups with equal counts, and the properties
    established below do not depend on it. *)
Definition getAgentStats (sessions : Sessions.table) (projectPath : string)
  (since : option string) : list (AgentType * nat) :=
  SqlMore.orderByCountDesc snd
    (SqlMore.groupCount agentTypeEqb
       (map SessionRow.agent_type (filter (whereSince projectPath since) sessions))).

End Agents.

(** ** File importance ([src/storage/file-importance.ts]) *)

Module FileImportanceRow.
Record t := mk {
  project_path : string;
  file_path : string;
  read_count : nat;
  edit_count : nat;
  last_accessed_at : string;
  importance_score : R }.
End FileImportanceRow.

Module FileImportance.
Import FileImportanceRow.

(** The record [FileImportance] has the fields of the row under their
    JavaScript names; [rowToFileImportance] copies them one by one, so the
    row stands for the record. *)
Definition table := list FileImportanceRow.t.

Inductive Access := access_read | access_edit.

Section Clock.

Local Open Scope R_scope.

(** [new Date(s).getTime()], [None] for [NaN]. *)
Variable parseDate : string -> option Z.

(** [computeImportanceScore], in exact arithmetic; [now] is [Date.now()],
    [Math.pow(0.5, x)] is [Rpower (1/2) x], and [None] stands for [NaN]. *)
Definition computeImportanceScore (now : Z) (readCount editCount : nat)
  (lastAccessedAt : string) : option R :=
  match parseDate lastAccessedAt with
  | None => None
  | Some lastAccess =>
      let daysSinceAccess := IZR (now - lastAccess) / IZR (1000 * 60 * 60 * 24) in
      let recencyFactor := Rpower (1 / 2) (daysSinceAccess / 7) in
      let baseScore := INR (readCount + editCount * 3) in
      Some (baseScore * recencyFactor)
  end.

Definition whereFile (projectPath filePath : string) (r : FileImportanceRow.t)
  : bool :=
  String.eqb r.(project_path) projectPath && String.eqb r.(file_path) filePath.

(** [upsertFileAccess]; [nowISO'] is [nowISO()] and [now] the [Date.now()]
    read by [computeImportanceScore].  The pair [(project_path, file_path)]
    is the primary key.  A score that is [NaN] is bound as [NULL], which
    column [importance_score REAL NOT NULL] refuses. *)
Definition upsertFileAccess (db : table) (nowISO' : string) (now : Z)
  (projectPath filePath : string) (operation : Access)
  : Result (table * FileImportanceRow.t) :=
  let existing := Sql.get (filter (whereFile projectPath filePath) db) in
  let readCount :=
    (match existing with Some e => e.(read_count) | None => 0 end
     + match operation with access_read => 1 | access_edit => 0 end)%nat in
  let editCount :=
    (match existing with Some e => e.(edit_count) | None => 0 end
     + match operation with access_edit => 1 | access_read => 0 end)%nat in
  match computeImportanceScore now readCount editCount nowISO' with
  | None => Throw (SqlError "NOT NULL constraint failed: file_importance.importance_score")
  | Some importanceScore =>
      let row := {| project_path := projectPath;
                    file_path := filePath;
                    read_count := readCount;
                    edit_count := editCount;
                    last_accessed_at := nowISO';
                    importance_score := importanceScore |} in
      Ok (if existsb (whereFile projectPath filePath) db
          then fst (Sql.update (whereFile projectPath filePath)
                      (fun r => {| project_path := r.(project_path);
                                   file_path := r.(file_path);
                                   read_count := readCount;
                                   edit_count := editCount;
                                   last_accessed_at := nowISO';
                                   importance_score := importanceScore |}) db)
          else db ++ [row],
          row)
  end.

(** [getImportantFiles]: [ORDER BY importance_score DESC LIMIT ?]; the
    default [limit] is 10. *)
Definition getImportantFiles (db : table) (projectPath : string) (limit : nat)
  : list FileImportanceRow.t :=
  Sql.limit limit
    (Js.sort (fun x y => Scoring.Rltb x.(importance_score) y.(importance_score))
       (filter (fun r => String.eqb r.(project_path) projectPath) db)).

(** [Math.abs(newScore - row.importance_score) > 0.01]; false on [NaN]. *)
Definition drifted (newScore : option R) (row : FileImportanceRow.t) : bool :=
  match newScore with
  | Some s => if Rlt_dec (1 / 100) (Rabs (s - row.(importance_score))) then true else false
  | None => false
  end.

Definition setScore (score : R) (r : FileImportanceRow.t) : FileImportanceRow.t :=
  {| project_path := r.(project_path);
     file_path := r.(file_path);
     read_count := r.(read_count);
     edit_count := r.(edit_count);
     last_accessed_at := r.(last_accessed_at);
     importance_score := score |}.

(** One iteration of the loop of [refreshImportanceScores] on a row of
    the snapshot; [now] is the [Date.now()] of the iteration. *)
Definition refreshRow (projectPath : string) (now : Z)
  (acc : table * nat) (row : FileImportanceRow.t) : table * nat :=
  let newScore := computeImportanceScore now row.(read_count) row.(edit_count)
                    row.(last_accessed_at) in
  match newScore with
  | Some s =>
      if drifted newScore row
      then (fst (Sql.update (whereFile projectPath row.(file_path)) (setScore s) (fst acc)),
            S (snd acc))
      else acc
  | None => acc
  end.

(** [refreshImportanceScores]: the rows of the project are read first,
    then visited in turn; [clock i] is the [Date.now()] of iteration [i].
    The result is the table and the number of rows updated. *)
Fixpoint refreshLoop (projectPath : string) (clock : nat -> Z) (i : nat)
  (rows : list FileImportanceRow.t) (acc : table * nat) : table * nat :=
  match rows with
  | [] => acc
  | row :: rest =>
      refreshLoop projectPath clock (S i) rest (refreshRow projectPath (clock i) acc row)
  end.

Definition refreshImportanceScores (db : table) (clock : nat -> Z)
  (projectPath : string) : table * nat :=
  let rows := filter (fun r => String.eqb r.(project_path) projectPath) db in
  refreshLoop projectPath clock 0 rows (db, 0%nat).

End Clock.

End FileImportance.

(** ** The tool handlers on the whole database ([src/tools/*.ts])

    The handlers of part [Tools] above are written on the tables their
    properties need.  Here every statement that writes is kept: a handler
    is a computation on the six tables that reads the clock and the
    identifier generator as often as the code does, and an exception
    leaves the statements already run in place, as the handlers run
    outside any transaction and catch at the end. *)

Module Server.

Record Db := mkDb {
  sessions : Sessions.table;
  session_events : Events.table;
  promoted_knowledge : KnowledgeStore.table;
  agents : Agents.table;
  value_metrics : ValueMetrics.table;
  knowledge_usage : Usage.table }.

Definition setSessions (d : Db) (t : Sessions.table) : Db :=
  {| sessions := t;
     session_events := d.(session_events);
     promoted_knowledge := d.(promoted_knowledge);
     agents := d.(agents);
     value_metrics := d.(value_metrics);
     knowledge_usage := d.(knowledge_usage) |}.

Definition setEvents (d : Db) (t : Events.table) : Db :=
  {| sessions := d.(sessions);
     session_events := t;
     promoted_knowledge := d.(promoted_knowledge);
     agents := d.(agents);
     value_metrics := d.(value_metrics);
     knowledge_usage := d.(knowledge_usage) |}.

Definition setKnowledge (d : Db) (t : KnowledgeStore.table) : Db :=
  {| sessions := d.(sessions);
     session_events := d.(session_events);
     promoted_knowledge := t;
     agents := d.(agents);
     value_metrics := d.(value_metrics);
     knowledge_usage := d.(knowledge_usage) |}.

Definition setAgents (d : Db) (t : Agents.table) : Db :=
  {| sessions := d.(sessions);
     session_events := d.(session_events);
     promoted_knowledge := d.(promoted_knowledge);
     agents := t;
     value_metrics := d.(value_metrics);
     knowledge_usage := d.(knowledge_usage) |}.

Definition setValueMetrics (d : Db) (t : ValueMetrics.table) : Db :=
  {| sessions := d.(sessions);
     session_events := d.(session_events);
     promoted_knowledge := d.(promoted_knowledge);
     agents := d.(agents);
     value_metrics := t;
     knowledge_usage := d.(knowledge_usage) |}.

Definition setUsage (d : Db) (t : Usage.table) : Db :=
  {| sessions := d.(sessions);
     session_events := d.(session_events);
     promoted_knowledge := d.(promoted_knowledge);
     agents := d.(agents);
     value_metrics := d.(value_metrics);
     knowledge_usage := t |}.

(** What one call reads from outside the database. *)
Record World := mkWorld {
  clock : nat -> string;        (* the results of nowISO(), in order *)
  uuid : nat -> string;         (* the results of generateId(), in order *)
  dateNow : Z;                  (* Date.now(), read by the ranking *)
  parseDate : string -> option Z;
  mathLog : float -> float;     (* Math.log, read by the ranking *)
  gitBranch : string;           (* getGitBranch(projectPath) *)
  gitHead : option string;      (* getGitHead(projectPath) *)
  processEnv : Env.ProcessEnv }.

(** The state of a call: the database, and how often the clock and the
    identifier generator have been read. *)
Record St := mkSt {
  db : Db;
  ticks : nat;
  draws : nat }.

(** A computation that may throw; the state reached is kept either way. *)
Definition M (A : Type) : Type := St -> St * Result A.

Definition ret {A : Type} (a : A) : M A := fun s => (s, Ok a).

Definition bind {A B : Type} (m : M A) (f : A -> M B) : M B :=
  fun s =>
    match m s with
    | (s', Ok a) => f a s'
    | (s', Throw e) => (s', Throw e)
    end.

Notation "x <- m ;; f" := (bind m (fun x => f))
  (at level 61, m at next level, right associativity).
Notation "m ;; f" := (bind m (fun _ => f))
  (at level 61, right associativity).

(** A statement on the database. *)
Definition act {A : Type} (f : Db -> Db * Result A) : M A :=
  fun s =>
    let (d, r) := f s.(db) in
    ({| db := d; ticks := s.(ticks); draws := s.(draws) |}, r).

Definition gets {A : Type} (f : Db -> A) : M A := act (fun d => (d, Ok (f d))).

Definition modify (f : Db -> Db) : M unit := act (fun d => (f d, Ok tt)).

(** [for (const x of l) body(x)]. *)
Fixpoint forEach {A : Type} (l : list A) (body : A -> M unit) : M unit :=
  match l with
  | [] => ret tt
  | x :: r => body x ;; forEach r body
  end.

Section Call.

Variable world : World.

(** [nowISO()] and [generateId()]. *)
Definition nowISO : M string :=
  fun s => ({| db := s.(db); ticks := S s.(ticks); draws := s.(draws) |},
            Ok (world.(clock) s.(ticks))).

Definition generateId : M string :=
  fun s => ({| db := s.(db); ticks := s.(ticks); draws := S s.(draws) |},
            Ok (world.(uuid) s.(draws))).

(** *** The storage functions as statements *)

Definition abandonStaleSessions (projectPath endedAt : string) : M nat :=
  act (fun d =>
         let (t, changes) :=
           Sessions.abandonStaleSessions d.(sessions) projectPath endedAt in
         (setSessions d t, Ok changes)).

Definition upsertAgent (agentType : AgentType) : M unit :=
  now <- nowISO ;;
  modify (fun d => setAgents d (fst (Agents.upsertAgent d.(agents) now agentType))).

Definition createSession (session : Session.t) : M unit :=
  act (fun d =>
         match Sessions.createSession d.(sessions) session with
         | Ok t => (setSessions d t, Ok tt)
         | Throw e => (d, Throw e)
         end).

Definition ensureValueMetrics (projectPath : string) : M unit :=
  existing <- gets (fun d => ValueMetrics.getValueMetrics d.(value_metrics) projectPath) ;;
  match existing with
  | Some _ => ret tt
  | None =>
      now <- nowISO ;;
      modify (fun d =>
                setValueMetrics d
                  (fst (ValueMetrics.ensureValueMetrics d.(value_metrics) now projectPath)))
  end.

Definition incrementSessionCount (projectPath : string) : M unit :=
  ensureValueMetrics projectPath ;;
  now <- nowISO ;;
  modify (fun d =>
            setValueMetrics d (ValueMetrics.addSession d.(value_metrics) now projectPath)).

Definition incrementContextReuse (projectPath : string) : M unit :=
  ensureValueMetrics projectPath ;;
  now <- nowISO ;;
  modify (fun d =>
            setValueMetrics d
              (ValueMetrics.addContextReuse d.(value_metrics) now projectPath)).

Definition incrementKnowledgeSurfaced (projectPath : string) (count : nat)
  : M unit :=
  ensureValueMetrics projectPath ;;
  let timeSaved := count * ValueMetrics.knowledgeSurface in
  now <- nowISO ;;
  modify (fun d =>
            setValueMetrics d
              (ValueMetrics.addSurfaced d.(value_metrics) now projectPath count timeSaved)).

Definition incrementDecisionRecall (projectPath : string) (count : nat)
  : M unit :=
  ensureValueMetrics projectPath ;;
  let timeSaved := count * ValueMetrics.decisionRecall in
  now <- nowISO ;;
  modify (fun d =>
            setValueMetrics d
              (ValueMetrics.addDecisions d.(value_metrics) now projectPath count timeSaved)).

Definition incrementPatternApplied (projectPath : string) (count : nat)
  : M unit :=
  ensureValueMetrics projectPath ;;
  let timeSaved := count * ValueMetrics.patternApplied in
  now <- nowISO ;;
  modify (fun d =>
            setValueMetrics d
              (ValueMetrics.addPatterns d.(value_metrics) now projectPath count timeSaved)).

Definition recordKnowledgeUsage (knowledgeId sessionId : string)
  (usageType : UsageType) : M unit :=
  usageId <- generateId ;;
  timestamp <- nowISO ;;
  act (fun d =>
         match Usage.recordKnowledgeUsage d.(knowledge_usage) d.(promoted_knowledge)
                 usageId timestamp knowledgeId sessionId usageType with
         | Ok (usage', knowledge', _) =>
             (setUsage (setKnowledge d knowledge') usage', Ok tt)
         | Throw e => (d, Throw e)
         end).

Definition insertEvent (event : SessionEvent.t) : M unit :=
  act (fun d =>
         match Events.insertEvent d.(sessions) d.(session_events) event with
         | Ok t => (setEvents d t, Ok tt)
         | Throw e => (d, Throw e)
         end).

Definition insertKnowledge (knowledge : Knowledge.t) : M unit :=
  act (fun d =>
         match KnowledgeStore.insertKnowledge d.(sessions) d.(session_events)
                 d.(promoted_knowledge) knowledge with
         | Ok t => (setKnowledge d t, Ok tt)
         | Throw e => (d, Throw e)
         end).

(** *** [session_start] ([src/tools/session-start.ts]); the result is the
    session of the response. *)
Definition handleSessionStart (args : Tools.StartArgs) : M Session.t :=
  let projectPath := args.(Tools.projectPath) in
  now <- nowISO ;;
  abandonStaleSessions projectPath now ;;
  let resolvedBranch := Tools.orElse args.(Tools.branch) world.(gitBranch) in
  let resolvedCommit := Tools.orElseOpt args.(Tools.gitCommit) world.(gitHead) in
  let resolvedAgentType :=
    Tools.orElse args.(Tools.agentType) (Env.detectAgentType world.(processEnv)) in
  let resolvedAgentVersion :=
    Tools.orElseOpt args.(Tools.agentVersion) (Env.getAgentVersion world.(processEnv)) in
  upsertAgent resolvedAgentType ;;
  sessionId <- generateId ;;
  let session :=
    {| Session.sessionId := sessionId;
       Session.projectPath := projectPath;
       Session.branch := resolvedBranch;
       Session.startedAt := now;
       Session.endedAt := None;
       Session.status := active;
       Session.summary := None;
       Session.gitCommitStart := resolvedCommit;
       Session.gitCommitEnd := None;
       Session.agentType := Some resolvedAgentType;
       Session.agentVersion := resolvedAgentVersion |} in
  createSession session ;;
  incrementSessionCount projectPath ;;
  recentSessions <-
    gets (fun d => SessionQueries.getRecentSessions d.(sessions) projectPath 10 None) ;;
  let rankedSessions :=
    firstn 5 (Scoring.rankSessions world.(parseDate) world.(dateNow)
                recentSessions resolvedBranch) in
  (if 0 <? List.length rankedSessions
   then incrementContextReuse projectPath
   else ret tt) ;;
  knowledge <-
    gets (fun d => KnowledgeStore.getProjectKnowledge d.(promoted_knowledge)
                     projectPath None 30) ;;
  let rankedKnowledge :=
    firstn 15 (Scoring.rankKnowledge world.(mathLog) world.(parseDate)
                 world.(dateNow) knowledge resolvedBranch) in
  (if 0 <? List.length rankedKnowledge
   then
     incrementKnowledgeSurfaced projectPath (List.length rankedKnowledge) ;;
     forEach rankedKnowledge
       (fun scored =>
          recordKnowledgeUsage
            scored.(Scoring.Binary64.knowledge).(Knowledge.knowledgeId)
            session.(Session.sessionId) surfaced)
   else ret tt) ;;
  ret session.

(** *** [session_end] ([src/tools/session-end.ts]); [None] is the answer
    "not found or already ended". *)
Definition handleSessionEnd (sessionId : string) (summary gitCommit : option string)
  : M (option Session.t) :=
  now <- nowISO ;;
  act (fun d =>
         let (t, session) :=
           Sessions.endSession d.(sessions) sessionId now summary gitCommit in
         (setSessions d t, Ok session)).

(** *** [record_event] ([src/tools/record-event.ts]) *)
Definition handleRecordEvent (sessionId : string) (eventType : option EventType)
  (detail : EventDetail) : M Tools.RecordResponse :=
  session <- gets (fun d => Sessions.getSession d.(sessions) sessionId) ;;
  match session with
  | None => ret (Tools.EventSessionNotFound sessionId)
  | Some session =>
      if negb (Sessions.statusEqb session.(Session.status) active)
      then ret (Tools.EventSessionNotActive sessionId session.(Session.status))
      else
        let resolvedEventType := deriveEventType detail in
        let category := categorizeEvent resolvedEventType in
        eventId <- generateId ;;
        timestamp <- nowISO ;;
        let event :=
          {| SessionEvent.eventId := eventId;
             SessionEvent.sessionId := sessionId;
             SessionEvent.timestamp := timestamp;
             SessionEvent.eventType := resolvedEventType;
             SessionEvent.category := category;
             SessionEvent.detail := detail |} in
        insertEvent event ;;
        ret (Tools.EventRecorded resolvedEventType eventId)
  end.

(** *** [promote_knowledge] ([src/tools/knowledge.ts]) *)
Definition promote (args : Tools.PromoteArgs) : M Tools.PromoteResponse :=
  let contentHash := Duplicates.computeContentHash args.(Tools.p_content) in
  branch' <-
    gets (fun d =>
            if Js.truthy args.(Tools.p_sessionId)
            then match args.(Tools.p_sessionId) with
                 | Some sid =>
                     option_map Session.branch (Sessions.getSession d.(sessions) sid)
                 | None => None
                 end
            else None) ;;
  knowledgeId <- generateId ;;
  createdAt <- nowISO ;;
  let knowledge :=
    {| Knowledge.knowledgeId := knowledgeId;
       Knowledge.projectPath := args.(Tools.p_projectPath);
       Knowledge.sessionId := args.(Tools.p_sessionId);
       Knowledge.sourceEventId := args.(Tools.p_sourceEventId);
       Knowledge.title := args.(Tools.p_title);
       Knowledge.content := args.(Tools.p_content);
       Knowledge.knowledgeType := args.(Tools.p_knowledgeType);
       Knowledge.tags := Tools.orElse args.(Tools.p_tags) [];
       Knowledge.createdAt := createdAt;
       Knowledge.syncedAt := None;
       Knowledge.synapseKnowledgeId := None;
       Knowledge.branch := branch';
       Knowledge.contentHash := Some contentHash;
       Knowledge.usageCount := Some 0;
       Knowledge.supersededBy := None |} in
  insertKnowledge knowledge ;;
  (if Js.truthy args.(Tools.p_supersedes)
   then match args.(Tools.p_supersedes) with
        | Some old =>
            modify (fun d =>
                      setKnowledge d
                        (Duplicates.markSuperseded d.(promoted_knowledge) old knowledgeId))
        | None => ret tt
        end
   else ret tt) ;;
  existing <-
    gets (fun d => KnowledgeStore.getProjectKnowledge d.(promoted_knowledge)
                     args.(Tools.p_projectPath) None 100) ;;
  ret (Tools.KnowledgePromoted knowledge (List.length existing)
         (if Js.truthy args.(Tools.p_supersedes)
          then args.(Tools.p_supersedes) else None)).

Definition handlePromoteKnowledge (args : Tools.PromoteArgs)
  : M Tools.PromoteResponse :=
  if negb (Tools.truthyBool args.(Tools.p_allowDuplicate))
  then
    duplicates <-
      gets (fun d => Duplicates.findDuplicates d.(promoted_knowledge)
                       args.(Tools.p_projectPath) args.(Tools.p_title)
                       args.(Tools.p_content)) ;;
    match duplicates with
    | dup :: _ => ret (Tools.DuplicateDetected dup)
    | [] => promote args
    end
  else promote args.

(** *** [recall] ([src/tools/recall.ts]): the statements that write.  The
    result is the list of knowledge items shown, in the order shown. *)
Record RecallArgs := mkRecallArgs {
  r_projectPath : string;
  r_query : option string;
  r_branch : option string;
  r_eventType : option EventType;
  r_limit : option nat }.

Definition handleRecall (args : RecallArgs)
  : M (list Scoring.Binary64.ScoredKnowledge) :=
  let projectPath := args.(r_projectPath) in
  let maxResults := Tools.orElse args.(r_limit) 10 in
  let currentBranch := Tools.orElse args.(r_branch) world.(gitBranch) in
  activeSession <- gets (fun d => Sessions.getActiveSession d.(sessions) projectPath) ;;
  match args.(r_eventType) with
  | None => ret []
  | Some eventType =>
      if negb (Js.truthy args.(r_query)) then ret []
      else
        match (match eventType with
               | decision => Some k_decision
               | pattern => Some k_pattern
               | _ => None
               end) with
        | None => ret []
        | Some knowledgeType =>
            knowledge <-
              gets (fun d => KnowledgeStore.getProjectKnowledge d.(promoted_knowledge)
                               projectPath (Some knowledgeType) maxResults) ;;
            let rankedKnowledge :=
              Scoring.rankKnowledge world.(mathLog) world.(parseDate)
                world.(dateNow) knowledge currentBranch in
            (if 0 <? List.length rankedKnowledge
             then
               (match knowledgeType with
                | k_decision =>
                    incrementDecisionRecall projectPath (List.length rankedKnowledge)
                | _ =>
                    incrementPatternApplied projectPath (List.length rankedKnowledge)
                end) ;;
               forEach rankedKnowledge
                 (fun scored =>
                    match activeSession with
                    | Some s =>
                        recordKnowledgeUsage
                          scored.(Scoring.Binary64.knowledge).(Knowledge.knowledgeId)
                          s.(Session.sessionId) recalled
                    | None => ret tt
                    end)
             else ret tt) ;;
            ret rankedKnowledge
        end
  end.

End Call.

(** A handler called on a database: the database afterwards, and the
    result or the exception caught ([isError]). *)
Definition run {A : Type} (m : M A) (d : Db) : Db * Result A :=
  let (s, r) := m {| db := d; ticks := 0; draws := 0 |} in
  (s.(db), r).

End Server.

(* ===================================================================== *)
(** * Part II: vocabulary of the properties and sample stores *)
(* ===================================================================== *)

(** ** Duplicate candidates *)

(** The candidate reported for a row matched by title. *)
Definition titleCandidate (title' : string) (r : KnowledgeRow.t)
  : DuplicateCandidate :=
  {| existingKnowledge := KnowledgeStore.rowToKnowledge r;
     similarityScore := Dedup.computeTitleSimilarity title' r.(KnowledgeRow.title);
     matchType := title_match |}.

(** The candidate reported for a row matched by content hash. *)
Definition exactCandidate (r : KnowledgeRow.t) : DuplicateCandidate :=
  {| existingKnowledge := KnowledgeStore.rowToKnowledge r;
     similarityScore := 1;
     matchType := exact_hash |}.

(** ** Edit distance *)

(** The Levenshtein distance between the first [i] characters of [a] and
    the first [j] characters of [b], by its defining recurrence. *)
Fixpoint prefixDistance (a b : list ascii) (i j : nat) {struct i} : nat :=
  match i with
  | O => j
  | S i' =>
      (fix row (j : nat) : nat :=
         match j with
         | O => S i'
         | S j' =>
             Dedup.min3
               (prefixDistance a b i' (S j') + 1)
               (row j' + 1)
               (prefixDistance a b i' j'
                + (if Js.charEq (nth_error a i') (nth_error b j') then 0 else 1))
         end) j
  end.

(** The Levenshtein distance of two strings. *)
Definition editDistance (a b : string) : nat :=
  prefixDistance (list_ascii_of_string a) (list_ascii_of_string b)
    (String.length a) (String.length b).

(** ** Duplicate candidates, continued *)

(** The similarity of two normalized titles in the words of the
    specification: [1 - editDistance / max(len(a), len(b))], and 1 when
    both are empty. *)
Definition similarityFormula (n1 n2 : string) : Q :=
  let maxLen := Nat.max (String.length n1) (String.length n2) in
  if maxLen =? 0 then 1
  else 1 - inject_Z (Z.of_nat (editDistance n1 n2))
           / inject_Z (Z.of_nat maxLen).

(** [similarity >= 0.85]. *)
Definition similarEnough (title' : string) (r : KnowledgeRow.t) : bool :=
  Qle_bool Duplicates.threshold
           (Dedup.computeTitleSimilarity title' r.(KnowledgeRow.title)).

(** The rows of a project that no newer item supersedes. *)
Definition liveRows (db : KnowledgeStore.table) (projectPath : string)
  : list KnowledgeRow.t :=
  filter (fun r => String.eqb r.(KnowledgeRow.project_path) projectPath
                   && Sql.isNull r.(KnowledgeRow.superseded_by)) db.

(** A row after [markSuperseded]: itself, or itself with only the
    [superseded_by] column set. *)
Definition sameButSupersededBy (r r' : KnowledgeRow.t) : Prop :=
  r' = r \/ exists newId, r' = Duplicates.setSupersededBy newId r.

(** ** Loop invariant of the Levenshtein matrix for the strings [a], [b] *)

(** What every filled cell [(i, j)] satisfies: the cost is at most the
    longer prefix, a zero cost means equal prefixes, on the diagonal equal
    prefixes cost nothing, and the cost is the Levenshtein distance of
    the prefixes. *)
Definition cellOk (a b : list ascii) (i j v : nat) : Prop :=
  v <= Nat.max i j /\
  (v = 0 -> firstn i b = firstn j a) /\
  (i = j -> firstn i b = firstn j a -> v = 0) /\
  v = prefixDistance b a i j.

(** Rows below [i] are filled; the later rows hold their first cell. *)
Definition rowsOk (a b : list ascii) (i : nat) (m : Dedup.matrix) : Prop :=
  (forall i' j', i' < i -> j' <= List.length a -> cellOk a b i' j' (Dedup.mget m i' j')) /\
  (forall i', i <= i' <= List.length b -> Dedup.mget m i' 0 = i').

(** Moreover row [i] is filled up to column [j]. *)
Definition rowOk (a b : list ascii) (i j : nat) (m : Dedup.matrix) : Prop :=
  (forall i' j', i' < i -> j' <= List.length a -> cellOk a b i' j' (Dedup.mget m i' j')) /\
  (forall j', j' < j -> cellOk a b i j' (Dedup.mget m i j')) /\
  (forall i', i < i' <= List.length b -> Dedup.mget m i' 0 = i').

(** ** Relevance weights as closed formulas *)

(** ** The order of the doubles *)

(** Not [NaN]. *)
Definition numberSF (x : spec_float) : bool :=
  match x with
  | S754_nan => false
  | _ => true
  end.

(** Zero, or finite. *)
Definition finiteSF (x : spec_float) : bool :=
  match x with
  | S754_zero _ | S754_finite _ _ _ => true
  | _ => false
  end.

(** Finite and not zero. *)
Definition properSF (x : spec_float) : bool :=
  match x with
  | S754_finite _ _ _ => true
  | _ => false
  end.

(** The value of a finite double, counted in units of the smallest
    positive double [2 ^ emin]: an integer, since no exponent is below
    [emin].  The infinities are placed beyond every finite double, which
    is below [2 ^ emax]. *)
Definition position (x : spec_float) : Z :=
  match x with
  | S754_finite s m e => cond_Zopp s (Zpos m * 2 ^ (e - emin))
  | S754_infinity s => cond_Zopp s (2 ^ (emax - emin))
  | _ => 0
  end.

(** What the rounding of a number other than zero can be: of the same
    sign, and not zero. *)
Definition signedNonzero (s : bool) (x : spec_float) : Prop :=
  match x with
  | S754_finite s' _ _ | S754_infinity s' => s' = s
  | _ => False
  end.

(** ** Sample items for the rankings *)

(** [Date.parse] on the dates of the samples. *)
Definition sampleDates (s : string) : option Z :=
  if String.eqb s "2026-01-01T00:00:00.000Z" then Some 1767225600000%Z
  else if String.eqb s "2026-02-19T00:00:00.000Z" then Some 1771459200000%Z
  else if String.eqb s "2026-02-28T12:00:00.000Z" then Some 1772280000000%Z
  else None.

(** 2026-03-01T00:00:00.000Z. *)
Definition sampleNow : Z := 1772323200000.

(** [Math.log] at [1], the only argument that items never used reach. *)
Definition sampleLog (x : float) : float := 0%float.

Definition sampleItem (id : string) (branch' : option string) (createdAt' : string)
  : Knowledge.t :=
  {| Knowledge.knowledgeId := id;
     Knowledge.projectPath := "/test/project";
     Knowledge.sessionId := None;
     Knowledge.sourceEventId := None;
     Knowledge.title := id;
     Knowledge.content := "content";
     Knowledge.knowledgeType := k_decision;
     Knowledge.tags := [];
     Knowledge.createdAt := createdAt';
     Knowledge.syncedAt := None;
     Knowledge.synapseKnowledgeId := None;
     Knowledge.branch := branch';
     Knowledge.contentHash := None;
     Knowledge.usageCount := Some 0;
     Knowledge.supersededBy := None |}.

(** Recorded on [main] 59 days ago. *)
Definition itemOnMain : Knowledge.t :=
  sampleItem "k-main" (Some "main") "2026-01-01T00:00:00.000Z".

(** Recorded without a branch 10 days ago. *)
Definition itemNoBranch : Knowledge.t :=
  sampleItem "k-none" None "2026-02-19T00:00:00.000Z".

Definition sampleSession (id branch' startedAt' : string) : Session.t :=
  {| Session.sessionId := id;
     Session.projectPath := "/test/project";
     Session.branch := branch';
     Session.startedAt := startedAt';
     Session.endedAt := None;
     Session.status := completed;
     Session.summary := None;
     Session.gitCommitStart := None;
     Session.gitCommitEnd := None;
     Session.agentType := None;
     Session.agentVersion := None |}.

Section ScoreWords.

Local Open Scope R_scope.

(** The branch weight as computed: an absent or empty branch is unknown;
    then the current branch, then the trunk names, then any other name. *)
Definition branchWeightOf (itemBranch : option string) (currentBranch : string) : R :=
  match itemBranch with
  | None => 0.5
  | Some b =>
      if string_dec b "" then 0.5
      else if string_dec b currentBranch then 1.0
      else if string_dec b "main" then 0.7
      else if string_dec b "master" then 0.7
      else 0.3
  end.

(** The branch weight in the words of the specification: the test for the
    current branch comes first and only an absent branch is unknown. *)
Definition branchWeightClaimed (itemBranch : option string) (currentBranch : string) : R :=
  match itemBranch with
  | Some b =>
      if string_dec b currentBranch then 1.0
      else if string_dec b "main" then 0.7
      else if string_dec b "master" then 0.7
      else 0.3
  | None => 0.5
  end.

(** The recency weight as a step function of the age in milliseconds
    ([None]: the creation date cannot be parsed). *)
Definition recencyStep (ageMs : option Z) : R :=
  match ageMs with
  | None => 0.3
  | Some age =>
      if Z_lt_dec age 86400000 then 1.0               (* < 1 day *)
      else if Z_lt_dec age (7 * 86400000) then 0.8    (* < 7 days *)
      else if Z_lt_dec age (30 * 86400000) then 0.5   (* < 30 days *)
      else 0.3
  end.

(** [1.0 + ln(usageCount + 1) * 0.1]. *)
Definition usageWeightOf (usageCount : nat) : R :=
  1.0 + ln (INR usageCount + 1) * 0.1.

End ScoreWords.

(** ** Sessions *)

(** The active sessions of a project, and the invariant of the store. *)
Definition activeIn (db : Sessions.table) (projectPath : string)
  : list SessionRow.t :=
  filter (Sessions.whereActiveProject projectPath) db.

(** At most one active session per project path. *)
Definition atMostOneActive (db : Sessions.table) : Prop :=
  forall projectPath, List.length (activeIn db projectPath) <= 1.

(** ** Version steps of the schema manager *)

Section MigrationWords.
Import Schema.

(** One version step: the statements of migration [v], then its number
    appended to the version log. *)
Definition applyMigration (v : nat) (db : Store) : Result Store :=
  match MIGRATIONS v with
  | None => Throw (MissingMigration v)
  | Some sql =>
      match exec db sql with
      | Throw e => Throw e
      | Ok db1 => insertVersion db1 v
      end
  end.

(** The version steps of a list, in the order of the list, stopping at
    the first that throws. *)
Fixpoint applyInOrder (vs : list nat) (db : Store) : Result Store :=
  match vs with
  | [] => Ok db
  | v :: r =>
      match applyMigration v db with
      | Throw e => Throw e
      | Ok db' => applyInOrder r db'
      end
  end.

(** The schema manager in the words of the specification: one transaction
    per version step, so that the steps before a failing one stay
    committed. *)
Fixpoint migratePerStep (n v : nat) (db : Store) : Store * option Exn :=
  match n with
  | O => (db, None)
  | S n' =>
      match transaction (applyMigration v) db with
      | (db', None) => migratePerStep n' (S v) db'
      | (db', Some e) => (db', Some e)
      end
  end.

Definition runMigrationsPerStep (db : Store) : Store * option Exn :=
  let db0 := ensureVersionTable db in
  let currentVersion := getSchemaVersion db0 in
  migratePerStep (CURRENT_SCHEMA_VERSION - currentVersion) (currentVersion + 1) db0.

End MigrationWords.

(** ** Sample stores *)

(** A knowledge row of project [/test/project] with its content hash. *)
Definition exampleRow (id title' content' : string) (supersededBy : option string)
  : KnowledgeRow.t :=
  {| KnowledgeRow.knowledge_id := id;
     KnowledgeRow.project_path := "/test/project";
     KnowledgeRow.session_id := None;
     KnowledgeRow.source_event_id := None;
     KnowledgeRow.title := title';
     KnowledgeRow.content := content';
     KnowledgeRow.knowledge_type := k_decision;
     KnowledgeRow.tags := [];
     KnowledgeRow.created_at := "2026-01-15T10:00:00.000Z";
     KnowledgeRow.synced_at := None;
     KnowledgeRow.synapse_knowledge_id := None;
     KnowledgeRow.branch := None;
     KnowledgeRow.content_hash := Some (Duplicates.computeContentHash content');
     KnowledgeRow.usage_count := 0;
     KnowledgeRow.superseded_by := supersededBy |}.

(** A session of the given status on branch [main]. *)
Definition exampleSession (id project : string) (st : SessionStatus)
  : SessionRow.t :=
  {| SessionRow.session_id := id;
     SessionRow.project_path := project;
     SessionRow.branch := "main";
     SessionRow.started_at := "2026-01-15T10:00:00.000Z";
     SessionRow.ended_at := match st with
                            | active => None
                            | _ => Some "2026-01-15T11:00:00.000Z"
                            end;
     SessionRow.status := st;
     SessionRow.summary := match st with
                           | completed => Some "Built storage layer."
                           | _ => None
                           end;
     SessionRow.git_commit_start := None;
     SessionRow.git_commit_end := None;
     SessionRow.agent_type := claude_code;
     SessionRow.agent_version := None |}.

(** A completed session recorded on the empty branch name. *)
Definition emptyBranchSession : Session.t :=
  {| Session.sessionId := "s1";
     Session.projectPath := "/test/project";
     Session.branch := "";
     Session.startedAt := "2026-01-15T10:00:00.000Z";
     Session.endedAt := None;
     Session.status := completed;
     Session.summary := None;
     Session.gitCommitStart := None;
     Session.gitCommitEnd := None;
     Session.agentType := None;
     Session.agentVersion := None |}.

(** A [promote_knowledge] request for project [/test/project]. *)
Definition examplePromote (title' content' : string) (allowDuplicate : option bool)
  : Tools.PromoteArgs :=
  {| Tools.p_projectPath := "/test/project";
     Tools.p_title := title';
     Tools.p_content := content';
     Tools.p_knowledgeType := k_decision;
     Tools.p_tags := None;
     Tools.p_sessionId := None;
     Tools.p_sourceEventId := None;
     Tools.p_allowDuplicate := allowDuplicate;
     Tools.p_supersedes := None |}.

(** A store holding one knowledge item. *)
Definition exampleDb : Tools.Db :=
  Tools.mkDb [] [] [exampleRow "k1" "Original Title" "Same content" None].

(** A store whose table [sessions] already carries the column
    [agent_type] while its version log is absent. *)
Definition relabelledStore : Schema.Store :=
  {| Schema.tables :=
       [("sessions",
         ["session_id"; "project_path"; "branch"; "started_at"; "ended_at";
          "status"; "summary"; "git_commit_start"; "git_commit_end"; "created_at";
          "agent_type"])];
     Schema.indexes := [];
     Schema.schema_version := None |}.



(** ** Normal form of normalized text *)

(** Every white-space character of [s] is a plain space that does not
    follow another white-space character ([prevSpace]: the character
    before [s] is white space). *)
Fixpoint wellSpaced (prevSpace : bool) (s : list ascii) : bool :=
  match s with
  | [] => true
  | c :: r =>
      if Js.isSpace c
      then negb prevSpace && Ascii.eqb c " "%char && wellSpaced true r
      else wellSpaced false r
  end.

(** [s] neither starts nor ends with white space. *)
Definition noEdgeSpace (s : list ascii) : Prop :=
  (forall c r, s = c :: r -> Js.isSpace c = false) /\
  (forall c r, s = r ++ [c] -> Js.isSpace c = false).

(** ** Histories of the session store *)

(** One call to a writing function of the session store. *)
Inductive SessionCall :=
| CallCreate (session : Session.t)
| CallEnd (sessionId endedAt : string) (summary gitCommitEnd : option string)
| CallAbandon (projectPath endedAt : string).

(** The table after a call; a call that throws leaves the table as it
    was. *)
Definition runSessionCall (db : Sessions.table) (c : SessionCall)
  : Sessions.table :=
  match c with
  | CallCreate session =>
      match Sessions.createSession db session with
      | Ok db' => db'
      | Throw _ => db
      end
  | CallEnd sessionId endedAt summary gitCommitEnd =>
      fst (Sessions.endSession db sessionId endedAt summary gitCommitEnd)
  | CallAbandon projectPath endedAt =>
      fst (Sessions.abandonStaleSessions db projectPath endedAt)
  end.

Definition runSessionCalls (db : Sessions.table) (calls : list SessionCall)
  : Sessions.table :=
  fold_left runSessionCall calls db.

(** What a session can become: the fields set at creation stay, a session
    that is not active stays as it is, and a session that is still active
    has not been touched. *)
Definition evolvesTo (s s' : Session.t) : Prop :=
  s'.(Session.sessionId) = s.(Session.sessionId) /\
  s'.(Session.projectPath) = s.(Session.projectPath) /\
  s'.(Session.branch) = s.(Session.branch) /\
  s'.(Session.startedAt) = s.(Session.startedAt) /\
  s'.(Session.gitCommitStart) = s.(Session.gitCommitStart) /\
  s'.(Session.agentType) = s.(Session.agentType) /\
  s'.(Session.agentVersion) = s.(Session.agentVersion) /\
  (s.(Session.status) <> active -> s' = s) /\
  (s'.(Session.status) = active -> s' = s).

(** The session that [getSession] returns after [createSession]: the
    columns that the [INSERT] does not list are lost. *)
Definition asCreated (s : Session.t) : Session.t :=
  {| Session.sessionId := s.(Session.sessionId);
     Session.projectPath := s.(Session.projectPath);
     Session.branch := s.(Session.branch);
     Session.startedAt := s.(Session.startedAt);
     Session.endedAt := None;
     Session.status := s.(Session.status);
     Session.summary := None;
     Session.gitCommitStart := s.(Session.gitCommitStart);
     Session.gitCommitEnd := None;
     Session.agentType := Some (Tools.orElse s.(Session.agentType) unknown);
     Session.agentVersion := s.(Session.agentVersion) |}.

(** A session after a successful [endSession]. *)
Definition asCompleted (s : Session.t) (endedAt : string)
  (summary gitCommitEnd : option string) : Session.t :=
  {| Session.sessionId := s.(Session.sessionId);
     Session.projectPath := s.(Session.projectPath);
     Session.branch := s.(Session.branch);
     Session.startedAt := s.(Session.startedAt);
     Session.endedAt := Some endedAt;
     Session.status := completed;
     Session.summary := summary;
     Session.gitCommitStart := s.(Session.gitCommitStart);
     Session.gitCommitEnd := gitCommitEnd;
     Session.agentType := s.(Session.agentType);
     Session.agentVersion := s.(Session.agentVersion) |}.

(** ** Listings *)

(** [q] occurs in [s] as a run of characters, letters A-Z and a-z
    compared without regard to case. *)
Definition containsIgnoringCase (q s : list ascii) : Prop :=
  exists pre m post,
    s = pre ++ m ++ post /\ map SqlMore.upperAscii m = map SqlMore.upperAscii q.

(** No character of [q] is a wildcard of [LIKE]. *)
Definition noWildcard (q : list ascii) : Prop :=
  forall c, In c q -> c <> "%"%char /\ c <> "_"%char.

(** Newest first: no element is older than a later one. *)
Definition newestFirst (A : Type) (key : A -> string) (l : list A) : Prop :=
  StronglySorted (fun x y => String.ltb (key x) (key y) = false) l.

(** Oldest first. *)
Definition oldestFirst (A : Type) (key : A -> string) (l : list A) : Prop :=
  StronglySorted (fun x y => String.ltb (key y) (key x) = false) l.

(** ** Events *)

(** The type of an event is the one derived from its detail, and its
    category the one of its type. *)
Definition eventWellTyped (e : EventRow.t) : Prop :=
  e.(EventRow.event_type) = deriveEventType e.(EventRow.detail_json) /\
  e.(EventRow.category) = categorizeEvent e.(EventRow.event_type).

(** The events of a session, in table order. *)
Definition eventsOf (events : Events.table) (sessionId : string) : Events.table :=
  filter (fun r => String.eqb r.(EventRow.session_id) sessionId) events.

(** The number of events of a category, and of a type. *)
Definition inCategory (c : EventCategory) (events : Events.table) : nat :=
  List.length (filter (fun r => categoryEqb r.(EventRow.category) c) events).

Definition ofEventType (t : EventType) (events : Events.table) : nat :=
  List.length (filter (fun r => eventTypeEqb r.(EventRow.event_type) t) events).

(** ** Histories of tool calls *)

(** One call to a tool, with what it reads from outside the database. *)
Inductive ServerCall :=
| SessionStart (world : Server.World) (args : Tools.StartArgs)
| SessionEnd (world : Server.World) (sessionId : string)
             (summary gitCommit : option string)
| RecordEvent (world : Server.World) (sessionId : string)
              (eventType : option EventType) (detail : EventDetail)
| PromoteKnowledge (world : Server.World) (args : Tools.PromoteArgs)
| Recall (world : Server.World) (args : Server.RecallArgs).

(** The database after a call. *)
Definition runServerCall (d : Server.Db) (c : ServerCall) : Server.Db :=
  match c with
  | SessionStart world args =>
      fst (Server.run (Server.handleSessionStart world args) d)
  | SessionEnd world sessionId summary gitCommit =>
      fst (Server.run (Server.handleSessionEnd world sessionId summary gitCommit) d)
  | RecordEvent world sessionId eventType detail =>
      fst (Server.run (Server.handleRecordEvent world sessionId eventType detail) d)
  | PromoteKnowledge world args =>
      fst (Server.run (Server.handlePromoteKnowledge world args) d)
  | Recall world args =>
      fst (Server.run (Server.handleRecall world args) d)
  end.

Definition runServerCalls (d : Server.Db) (calls : list ServerCall) : Server.Db :=
  fold_left runServerCall calls d.

(** The database created by the migrations: six empty tables. *)
Definition emptyServer : Server.Db := Server.mkDb [] [] [] [] [] [].

(** The number of sessions of a project, of an agent, and the numbers the
    value metrics and the agent registry hold for them. *)
Definition sessionsOf (t : Sessions.table) (projectPath : string) : nat :=
  List.length (filter (fun r => String.eqb r.(SessionRow.project_path) projectPath) t).

Definition sessionsBy (t : Sessions.table) (agentType : AgentType) : nat :=
  List.length (filter (fun r => agentTypeEqb r.(SessionRow.agent_type) agentType) t).

Definition trackedSessions (t : ValueMetrics.table) (projectPath : string) : nat :=
  match ValueMetrics.getValueMetrics t projectPath with
  | Some r => r.(ValueMetricsRow.total_sessions)
  | None => 0
  end.

Definition registeredSessions (t : Agents.table) (agentType : AgentType) : nat :=
  match Agents.getAgent t agentType with
  | Some info => info.(AgentInfo.totalSessions)
  | None => 0
  end.

(** The number of rows of the usage log for a knowledge item. *)
Definition usagesOf (t : Usage.table) (knowledgeId : string) : nat :=
  List.length (filter (fun u => String.eqb u.(UsageRow.knowledge_id) knowledgeId) t).

(** The estimate of the time saved is made of the four counters at the
    rates of [TIME_SAVINGS]. *)
Definition timeFormula (r : ValueMetricsRow.t) : Prop :=
  r.(ValueMetricsRow.estimated_time_saved_secs)
  = 60 * r.(ValueMetricsRow.knowledge_surfaced_count)
    + 180 * r.(ValueMetricsRow.decisions_recalled_count)
    + 300 * r.(ValueMetricsRow.patterns_applied_count)
    + 900 * r.(ValueMetricsRow.errors_prevented_count).

(** A row of the value metrics is accounted for: its estimate follows from
    its counters, and no error prevention is counted. *)
Definition rowAccounted (r : ValueMetricsRow.t) : Prop :=
  timeFormula r /\ r.(ValueMetricsRow.errors_prevented_count) = 0.

(** The primary keys are unique. *)
Definition keysOk (d : Server.Db) : Prop :=
  NoDup (map SessionRow.session_id d.(Server.sessions)) /\
  NoDup (map EventRow.event_id d.(Server.session_events)) /\
  NoDup (map KnowledgeRow.knowledge_id d.(Server.promoted_knowledge)) /\
  NoDup (map AgentRow.agent_type d.(Server.agents)) /\
  NoDup (map ValueMetricsRow.project_path d.(Server.value_metrics)) /\
  NoDup (map UsageRow.usage_id d.(Server.knowledge_usage)).

(** Every reference names a stored row, every event is typed by its
    detail, and every knowledge item carries the hash of its content. *)
Definition refsOk (d : Server.Db) : Prop :=
  (forall e, In e d.(Server.session_events) ->
     eventWellTyped e /\
     In e.(EventRow.session_id) (map SessionRow.session_id d.(Server.sessions))) /\
  (forall k, In k d.(Server.promoted_knowledge) ->
     k.(KnowledgeRow.content_hash)
     = Some (Duplicates.computeContentHash k.(KnowledgeRow.content)) /\
     (forall sid, k.(KnowledgeRow.session_id) = Some sid ->
        In sid (map SessionRow.session_id d.(Server.sessions))) /\
     (forall eid, k.(KnowledgeRow.source_event_id) = Some eid ->
        In eid (map EventRow.event_id d.(Server.session_events))) /\
     (forall newId, k.(KnowledgeRow.superseded_by) = Some newId ->
        In newId (map KnowledgeRow.knowledge_id d.(Server.promoted_knowledge)))) /\
  (forall u, In u d.(Server.knowledge_usage) ->
     In u.(UsageRow.knowledge_id)
        (map KnowledgeRow.knowledge_id d.(Server.promoted_knowledge)) /\
     In u.(UsageRow.session_id) (map SessionRow.session_id d.(Server.sessions))).

(** The counters agree with the tables they count. *)
Definition countersOk (d : Server.Db) : Prop :=
  (forall k, In k d.(Server.promoted_knowledge) ->
     k.(KnowledgeRow.usage_count)
     = usagesOf d.(Server.knowledge_usage) k.(KnowledgeRow.knowledge_id)) /\
  (forall r, In r d.(Server.value_metrics) -> rowAccounted r) /\
  (forall p, trackedSessions d.(Server.value_metrics) p = sessionsOf d.(Server.sessions) p) /\
  (forall a, sessionsBy d.(Server.sessions) a <= registeredSessions d.(Server.agents) a).

Definition serverOk (d : Server.Db) : Prop :=
  keysOk d /\ atMostOneActive d.(Server.sessions) /\ refsOk d /\ countersOk d.

(** ** A program logic for the handlers *)

(** From a state whose database satisfies [P], the computation [m] ends
    in a database that satisfies [Q] of the result when it returns, [E]
    when it throws. *)
Definition triple (A : Type) (P : Server.Db -> Prop) (m : Server.M A)
  (Q : A -> Server.Db -> Prop) (E : Server.Db -> Prop) : Prop :=
  forall s, P s.(Server.db) ->
    match m s with
    | (s', Ok a) => Q a s'.(Server.db)
    | (s', Throw _) => E s'.(Server.db)
    end.

(** The invariant between the statements of [session_start]: the agent
    registered before its session is created, and the session created
    before the value metrics count it. *)
Definition pendingFor (o : option string) (p : string) : nat :=
  match o with
  | Some q => if String.eqb q p then 1 else 0
  | None => 0
  end.

Definition slackFor (o : option AgentType) (a : AgentType) : nat :=
  match o with
  | Some b => if agentTypeEqb b a then 1 else 0
  | None => 0
  end.

Definition countersOkWith (slack : option AgentType) (pending : option string)
  (d : Server.Db) : Prop :=
  (forall k, In k d.(Server.promoted_knowledge) ->
     k.(KnowledgeRow.usage_count)
     = usagesOf d.(Server.knowledge_usage) k.(KnowledgeRow.knowledge_id)) /\
  (forall r, In r d.(Server.value_metrics) -> rowAccounted r) /\
  (forall p, trackedSessions d.(Server.value_metrics) p + pendingFor pending p
             = sessionsOf d.(Server.sessions) p) /\
  (forall a, sessionsBy d.(Server.sessions) a + slackFor slack a
             <= registeredSessions d.(Server.agents) a).

Definition serverOkWith (slack : option AgentType) (pending : option string)
  (d : Server.Db) : Prop :=
  keysOk d /\ atMostOneActive d.(Server.sessions) /\ refsOk d /\
  countersOkWith slack pending d.

(** The identifiers stored in [promoted_knowledge] and in [sessions]. *)
Definition knowledgeIds (d : Server.Db) : list string :=
  map KnowledgeRow.knowledge_id d.(Server.promoted_knowledge).

Definition sessionIds (d : Server.Db) : list string :=
  map SessionRow.session_id d.(Server.sessions).

(** A world whose clock stands still and whose identifier generator
    always returns [id]. *)
Definition sampleWorld (id : string) : Server.World :=
  {| Server.clock := fun _ => "2026-01-15T10:00:00.000Z";
     Server.uuid := fun _ => id;
     Server.dateNow := 0;
     Server.parseDate := fun _ => None;
     Server.mathLog := fun _ => 0%float;
     Server.gitBranch := "main";
     Server.gitHead := None;
     Server.processEnv := Env.mkProcessEnv None None None None |}.

(** A [session_start] request for project [/test/project]. *)
Definition exampleStart : Tools.StartArgs :=
  Tools.mkStartArgs "/test/project" None None None None.

(** ** Vocabulary for the schema manager *)

(** A table of the schema with columns that include [cols]. *)
Definition keepsTable (ts : list (string * list string)) (name : string)
  (cols : list string) : Prop :=
  exists cols', Schema.lookupTable name ts = Some cols' /\ incl cols cols'.

(** What a statement, a script, a version step and the loop keep: every
    table with its columns, and every index. *)
Definition keeps (db db' : Schema.Store) : Prop :=
  (forall name cols, Schema.lookupTable name (Schema.tables db) = Some cols ->
                     keepsTable (Schema.tables db') name cols) /\
  incl (Schema.indexes db) (Schema.indexes db').

(** ** Vocabulary for the probes of the environment and for the scores *)

(** The variable that belongs to an agent type. *)
Definition versionVariable (env : Env.ProcessEnv) (a : AgentType) : option string :=
  match a with
  | claude_code => env.(Env.CLAUDE_CODE_VERSION)
  | cursor => env.(Env.CURSOR_VERSION)
  | aider => env.(Env.AIDER_VERSION)
  | openclaw => env.(Env.OPENCLAW_VERSION)
  | unknown => None
  end.

(** No variable is set to the empty string. *)
Definition noEmptyVariable (env : Env.ProcessEnv) : Prop :=
  env.(Env.CLAUDE_CODE_VERSION) <> Some "" /\
  env.(Env.CURSOR_VERSION) <> Some "" /\
  env.(Env.AIDER_VERSION) <> Some "" /\
  env.(Env.OPENCLAW_VERSION) <> Some "".

(** An environment where the first variable is set but empty. *)
Definition emptyClaudeEnv : Env.ProcessEnv :=
  Env.mkProcessEnv (Some "") (Some "0.42") None None.

(** [knowledge.usageCount ?? 0]. *)
Definition usageOf (k : Knowledge.t) : nat :=
  match k.(Knowledge.usageCount) with Some n => n | None => 0 end.

(** [k2] was created no earlier than [k1]: both dates parse and compare,
    or the date of [k1] does not parse. *)
Definition noOlder (parseDate : string -> option Z) (k1 k2 : Knowledge.t) : Prop :=
  match parseDate k1.(Knowledge.createdAt), parseDate k2.(Knowledge.createdAt) with
  | Some t1, Some t2 => (t1 <= t2)%Z
  | None, _ => True
  | Some _, None => False
  end.

(** A knowledge item of branch [main] with the given creation date and
    usage count. *)
Definition exampleItem (createdAt : string) (usage : nat) : Knowledge.t :=
  {| Knowledge.knowledgeId := "k1";
     Knowledge.projectPath := "/test/project";
     Knowledge.sessionId := None;
     Knowledge.sourceEventId := None;
     Knowledge.title := "Use WAL mode";
     Knowledge.content := "SQLite runs in WAL mode.";
     Knowledge.knowledgeType := k_decision;
     Knowledge.tags := [];
     Knowledge.createdAt := createdAt;
     Knowledge.syncedAt := None;
     Knowledge.synapseKnowledgeId := None;
     Knowledge.branch := Some "main";
     Knowledge.contentHash := None;
     Knowledge.usageCount := Some usage;
     Knowledge.supersededBy := None |}.

(** A clock reading for two dates, in milliseconds. *)
Definition exampleParseDate (s : string) : option Z :=
  if String.eqb s "2026-01-01" then Some 0%Z
  else if String.eqb s "2026-01-09" then Some 691200000%Z
  else None.

(** ** Vocabulary for the knowledge store *)

(** The item that [getKnowledgeById] returns after [insertKnowledge]: the
    columns that the [INSERT] does not list are [NULL], and an absent
    usage count is stored as 0. *)
Definition asStored (k : Knowledge.t) : Knowledge.t :=
  {| Knowledge.knowledgeId := k.(Knowledge.knowledgeId);
     Knowledge.projectPath := k.(Knowledge.projectPath);
     Knowledge.sessionId := k.(Knowledge.sessionId);
     Knowledge.sourceEventId := k.(Knowledge.sourceEventId);
     Knowledge.title := k.(Knowledge.title);
     Knowledge.content := k.(Knowledge.content);
     Knowledge.knowledgeType := k.(Knowledge.knowledgeType);
     Knowledge.tags := k.(Knowledge.tags);
     Knowledge.createdAt := k.(Knowledge.createdAt);
     Knowledge.syncedAt := None;
     Knowledge.synapseKnowledgeId := None;
     Knowledge.branch := k.(Knowledge.branch);
     Knowledge.contentHash := k.(Knowledge.contentHash);
     Knowledge.usageCount := Some (usageOf k);
     Knowledge.supersededBy := None |}.

(** An item after [markKnowledgeSynced]. *)
Definition asSynced (syncedAt synapseKnowledgeId : string) (k : Knowledge.t)
  : Knowledge.t :=
  {| Knowledge.knowledgeId := k.(Knowledge.knowledgeId);
     Knowledge.projectPath := k.(Knowledge.projectPath);
     Knowledge.sessionId := k.(Knowledge.sessionId);
     Knowledge.sourceEventId := k.(Knowledge.sourceEventId);
     Knowledge.title := k.(Knowledge.title);
     Knowledge.content := k.(Knowledge.content);
     Knowledge.knowledgeType := k.(Knowledge.knowledgeType);
     Knowledge.tags := k.(Knowledge.tags);
     Knowledge.createdAt := k.(Knowledge.createdAt);
     Knowledge.syncedAt := Some syncedAt;
     Knowledge.synapseKnowledgeId := Some synapseKnowledgeId;
     Knowledge.branch := k.(Knowledge.branch);
     Knowledge.contentHash := k.(Knowledge.contentHash);
     Knowledge.usageCount := k.(Knowledge.usageCount);
     Knowledge.supersededBy := k.(Knowledge.supersededBy) |}.

(** [id] is not [knowledgeId]. *)
Definition otherThan (knowledgeId : string) (k : Knowledge.t) : bool :=
  negb (String.eqb k.(Knowledge.knowledgeId) knowledgeId).

(** A synchronisation pass: every item that [getUnsyncedKnowledge] lists
    is marked, with the identifier the remote store gave it. *)
Definition syncAll (db : KnowledgeStore.table) (projectPath syncedAt : string)
  (remoteId : Knowledge.t -> string) : KnowledgeStore.table :=
  fold_left (fun d k => KnowledgeSync.markKnowledgeSynced d k.(Knowledge.knowledgeId)
                          syncedAt (remoteId k))
            (KnowledgeStore.getUnsyncedKnowledge db projectPath) db.

(** Both references of an item are [NULL] or name a stored row. *)
Definition referencesStored (sessions : Sessions.table) (events : Events.table)
  (k : Knowledge.t) : Prop :=
  (forall s, k.(Knowledge.sessionId) = Some s ->
             In s (map SessionRow.session_id sessions)) /\
  (forall e, k.(Knowledge.sourceEventId) = Some e ->
             In e (map EventRow.event_id events)).

(** ** Vocabulary for the agent registry *)

(** The registry after a history of [upsertAgent] calls, each with the
    reading of the clock at the call. *)
Definition registryAfter (seen : list (string * AgentType)) : Agents.table :=
  fold_left (fun db c => fst (Agents.upsertAgent db (fst c) (snd c))) seen [].

Definition timesSeen (a : AgentType) (seen : list (string * AgentType)) : nat :=
  List.length (filter (fun c => agentTypeEqb (snd c) a) seen).

Definition firstSeen (a : AgentType) (seen : list (string * AgentType))
  : option string :=
  option_map fst (find (fun c => agentTypeEqb (snd c) a) seen).

Definition lastSeen (a : AgentType) (seen : list (string * AgentType))
  : option string :=
  firstSeen a (rev seen).

(** What the registry holds for an agent after a history. *)
Definition registered (a : AgentType) (seen : list (string * AgentType))
  : option AgentInfo.t :=
  match firstSeen a seen, lastSeen a seen with
  | Some f, Some l =>
      Some {| AgentInfo.agentType := a;
              AgentInfo.displayName := Env.getAgentDisplayName a;
              AgentInfo.firstSeenAt := f;
              AgentInfo.lastSeenAt := l;
              AgentInfo.totalSessions := timesSeen a seen |}
  | _, _ => None
  end.

(** The sessions of a project that [getAgentStats] counts for an agent. *)
Definition sessionsCounted (sessions : Sessions.table) (projectPath : string)
  (since : option string) (a : AgentType) : nat :=
  List.length (filter (fun r => Agents.whereSince projectPath since r
                                && agentTypeEqb r.(SessionRow.agent_type) a) sessions).

(** The registry row by row: one row per agent seen, holding what
    [registered] tells, and the totals add up to the number of calls. *)
Definition rowsRegistered (db : Agents.table) (seen : list (string * AgentType)) : Prop :=
  NoDup (map AgentRow.agent_type db) /\
  (forall r, In r db ->
     registered r.(AgentRow.agent_type) seen = Some (Agents.rowToAgentInfo r)) /\
  (forall a, timesSeen a seen <> 0 -> In a (map AgentRow.agent_type db)) /\
  list_sum (map AgentRow.total_sessions db) = List.length seen.

(** ** Vocabulary for the queries that join two tables *)

(** The event belongs to a session of the project. *)
Definition eventOfProject (sessions : Sessions.table) (projectPath : string)
  (e : EventRow.t) : bool :=
  existsb (fun s => String.eqb e.(EventRow.session_id) s.(SessionRow.session_id)
                    && String.eqb s.(SessionRow.project_path) projectPath)
          sessions.

(** The row stored for an event. *)
Definition eventRow (event : SessionEvent.t) : EventRow.t :=
  {| EventRow.event_id := event.(SessionEvent.eventId);
     EventRow.session_id := event.(SessionEvent.sessionId);
     EventRow.timestamp := event.(SessionEvent.timestamp);
     EventRow.event_type := event.(SessionEvent.eventType);
     EventRow.category := event.(SessionEvent.category);
     EventRow.detail_json := event.(SessionEvent.detail) |}.

(** [since] is absent or empty, or the time is not before it. *)
Definition notBefore (since : option string) (time : string) : bool :=
  match since with
  | Some t => if Js.truthy since then negb (String.ltb time t) else true
  | None => true
  end.

(** The usage row names a knowledge item of the project and is not older
    than [since]. *)
Definition usageOfProject (knowledge : KnowledgeStore.table) (projectPath : string)
  (since : option string) (ku : UsageRow.t) : bool :=
  existsb (fun pk => String.eqb ku.(UsageRow.knowledge_id) pk.(KnowledgeRow.knowledge_id)
                     && String.eqb pk.(KnowledgeRow.project_path) projectPath)
          knowledge
  && notBefore since ku.(UsageRow.timestamp).

(** The usage rows of a type that [getUsageCountByType] counts. *)
Definition usagesCounted (db : Usage.table) (knowledge : KnowledgeStore.table)
  (projectPath : string) (since : option string) (t : UsageType) : nat :=
  List.length (filter (fun ku => usageOfProject knowledge projectPath since ku
                                 && usageTypeEqb ku.(UsageRow.usage_type) t) db).

(** A decision recorded in session [s1]. *)
Definition exampleEvent : SessionEvent.t :=
  SessionEvent.mk "e1" "s1" "2026-01-15T10:05:00.000Z" decision cat_other
    (DecisionDetail "Use repository pattern" "Testability").

(** ** Histories of the value metrics *)

(** One call to a counting function of the value metrics, with the two
    readings of the clock it may make. *)
Inductive MetricCall :=
| SessionCounted (nowInsert nowUpdate projectPath : string)
| ContextReused (nowInsert nowUpdate projectPath : string)
| KnowledgeSurfaced (nowInsert nowUpdate projectPath : string) (count : nat)
| DecisionRecalled (nowInsert nowUpdate projectPath : string) (count : nat)
| PatternApplied (nowInsert nowUpdate projectPath : string) (count : nat)
| ErrorPrevented (nowInsert nowUpdate projectPath : string) (count : nat).

Definition metricProject (c : MetricCall) : string :=
  match c with
  | SessionCounted _ _ p | ContextReused _ _ p
  | KnowledgeSurfaced _ _ p _ | DecisionRecalled _ _ p _
  | PatternApplied _ _ p _ | ErrorPrevented _ _ p _ => p
  end.

Definition runMetricCall (db : ValueMetrics.table) (c : MetricCall)
  : ValueMetrics.table :=
  match c with
  | SessionCounted nowInsert nowUpdate p =>
      ValueMetrics.incrementSessionCount db nowInsert nowUpdate p
  | ContextReused nowInsert nowUpdate p =>
      ValueMetrics.incrementContextReuse db nowInsert nowUpdate p
  | KnowledgeSurfaced nowInsert nowUpdate p count =>
      ValueMetrics.incrementKnowledgeSurfaced db nowInsert nowUpdate p count
  | DecisionRecalled nowInsert nowUpdate p count =>
      ValueMetrics.incrementDecisionRecall db nowInsert nowUpdate p count
  | PatternApplied nowInsert nowUpdate p count =>
      ValueMetrics.incrementPatternApplied db nowInsert nowUpdate p count
  | ErrorPrevented nowInsert nowUpdate p count =>
      ValueMetrics.incrementErrorPrevented db nowInsert nowUpdate p count
  end.

Definition runMetricCalls (calls : list MetricCall) : ValueMetrics.table :=
  fold_left runMetricCall calls [].

(** The sum, over the calls of a history that name the project, of a
    number read off each call. *)
Definition tally (pick : MetricCall -> nat) (projectPath : string)
  (calls : list MetricCall) : nat :=
  list_sum (map (fun c => if String.eqb (metricProject c) projectPath
                          then pick c else 0) calls).

Definition sessionsOfCall (c : MetricCall) : nat :=
  match c with SessionCounted _ _ _ => 1 | _ => 0 end.
Definition reusesOfCall (c : MetricCall) : nat :=
  match c with ContextReused _ _ _ => 1 | _ => 0 end.
Definition surfacedOfCall (c : MetricCall) : nat :=
  match c with KnowledgeSurfaced _ _ _ n => n | _ => 0 end.
Definition decisionsOfCall (c : MetricCall) : nat :=
  match c with DecisionRecalled _ _ _ n => n | _ => 0 end.
Definition patternsOfCall (c : MetricCall) : nat :=
  match c with PatternApplied _ _ _ n => n | _ => 0 end.
Definition errorsOfCall (c : MetricCall) : nat :=
  match c with ErrorPrevented _ _ _ n => n | _ => 0 end.

(** The counters of a row are the tallies of a history. *)
Definition rowTallies (projectPath : string) (calls : list MetricCall)
  (r : ValueMetricsRow.t) : Prop :=
  r.(ValueMetricsRow.project_path) = projectPath /\
  r.(ValueMetricsRow.total_sessions) = tally sessionsOfCall projectPath calls /\
  r.(ValueMetricsRow.context_reuse_count) = tally reusesOfCall projectPath calls /\
  r.(ValueMetricsRow.knowledge_surfaced_count) = tally surfacedOfCall projectPath calls /\
  r.(ValueMetricsRow.decisions_recalled_count) = tally decisionsOfCall projectPath calls /\
  r.(ValueMetricsRow.patterns_applied_count) = tally patternsOfCall projectPath calls /\
  r.(ValueMetricsRow.errors_prevented_count) = tally errorsOfCall projectPath calls /\
  r.(ValueMetricsRow.estimated_time_saved_secs)
  = 60 * tally surfacedOfCall projectPath calls
    + 180 * tally decisionsOfCall projectPath calls
    + 300 * tally patternsOfCall projectPath calls
    + 900 * tally errorsOfCall projectPath calls.

(** ** Vocabulary for the file importance *)

(** One call to [upsertFileAccess] with its readings of the clock:
    [nowISO()], then [Date.now()]. *)
Record FileAccess := mkFileAccess {
  fa_nowISO : string;
  fa_now : Z;
  fa_project : string;
  fa_file : string;
  fa_operation : FileImportance.Access }.

(** The table after a call; a call that throws leaves it as it was. *)
Definition runFileAccess (parseDate : string -> option Z)
  (db : FileImportance.table) (a : FileAccess) : FileImportance.table :=
  match FileImportance.upsertFileAccess parseDate db a.(fa_nowISO) a.(fa_now)
          a.(fa_project) a.(fa_file) a.(fa_operation) with
  | Ok r => fst r
  | Throw _ => db
  end.

Definition filesAfter (parseDate : string -> option Z) (accesses : list FileAccess)
  : FileImportance.table :=
  fold_left (runFileAccess parseDate) accesses [].

Definition accessEqb (x y : FileImportance.Access) : bool :=
  match x, y with
  | FileImportance.access_read, FileImportance.access_read
  | FileImportance.access_edit, FileImportance.access_edit => true
  | _, _ => false
  end.

(** The accesses of a history to one file. *)
Definition accessesTo (projectPath filePath : string) (accesses : list FileAccess)
  : list FileAccess :=
  filter (fun a => String.eqb a.(fa_project) projectPath
                   && String.eqb a.(fa_file) filePath) accesses.

Definition countAccess (op : FileImportance.Access) (accesses : list FileAccess) : nat :=
  List.length (filter (fun a => accessEqb a.(fa_operation) op) accesses).

(** The row of a file tells the accesses to it: their numbers, and the
    date and the score of the last one. *)
Definition rowTells (parseDate : string -> option Z) (mine : list FileAccess)
  (r : FileImportanceRow.t) : Prop :=
  r.(FileImportanceRow.read_count) = countAccess FileImportance.access_read mine /\
  r.(FileImportanceRow.edit_count) = countAccess FileImportance.access_edit mine /\
  exists a, hd_error (rev mine) = Some a /\
    r.(FileImportanceRow.last_accessed_at) = a.(fa_nowISO) /\
    FileImportance.computeImportanceScore parseDate a.(fa_now)
      r.(FileImportanceRow.read_count) r.(FileImportanceRow.edit_count) a.(fa_nowISO)
    = Some r.(FileImportanceRow.importance_score).

(** The key of table [file_importance]. *)
Definition fileKey (r : FileImportanceRow.t) : string * string :=
  (r.(FileImportanceRow.project_path), r.(FileImportanceRow.file_path)).

(** A clock whose dates are the number of days since a fixed day. *)
Definition dayClock (s : string) : option Z :=
  if String.eqb s "day 0" then Some 0%Z
  else if String.eqb s "day 7" then Some 604800000%Z
  else None.

(** The table row by row after a history: one row per file accessed,
    telling the accesses to it. *)
Definition filesTell (parseDate : string -> option Z) (db : FileImportance.table)
  (accesses : list FileAccess) : Prop :=
  NoDup (map fileKey db) /\
  (forall r, In r db ->
     rowTells parseDate
       (accessesTo r.(FileImportanceRow.project_path) r.(FileImportanceRow.file_path)
          accesses) r) /\
  (forall p f, accessesTo p f accesses <> [] -> In (p, f) (map fileKey db)).

(** What [refreshImportanceScores] comes to, row by row: [i] counts the
    rows of the project met so far, which is the iteration that visits
    the row. *)
Fixpoint refreshedFrom (parseDate : string -> option Z) (projectPath : string)
  (clock : nat -> Z) (i : nat) (db : FileImportance.table)
  : FileImportance.table * nat :=
  match db with
  | [] => ([], 0)
  | r :: rest =>
      if String.eqb r.(FileImportanceRow.project_path) projectPath
      then
        let newScore := FileImportance.computeImportanceScore parseDate (clock i)
                          r.(FileImportanceRow.read_count) r.(FileImportanceRow.edit_count)
                          r.(FileImportanceRow.last_accessed_at) in
        let done := refreshedFrom parseDate projectPath clock (S i) rest in
        match newScore with
        | Some s =>
            if FileImportance.drifted newScore r
            then (FileImportance.setScore s r :: fst done, S (snd done))
            else (r :: fst done, snd done)
        | None => (r :: fst done, snd done)
        end
      else
        let done := refreshedFrom parseDate projectPath clock i rest in
        (r :: fst done, snd done)
  end.

(** A row after a refresh at time [now]: the same row with, at most, a
    new score; the score is replaced exactly when it drifted by more
    than 0.01, so that afterwards it is within 0.01 of the fresh one. *)
Definition refreshedRow (parseDate : string -> option Z) (now : Z)
  (r r' : FileImportanceRow.t) : Prop :=
  match FileImportance.computeImportanceScore parseDate now
          r.(FileImportanceRow.read_count) r.(FileImportanceRow.edit_count)
          r.(FileImportanceRow.last_accessed_at) with
  | Some s =>
      (r' = r /\ (Rabs (s - r.(FileImportanceRow.importance_score)) <= 1 / 100)%R) \/
      (r' = FileImportance.setScore s r /\
       (1 / 100 < Rabs (s - r.(FileImportanceRow.importance_score)))%R)
  | None => r' = r
  end.

(** ** What a tool call leaves alone *)

(** A knowledge row without its usage count. *)
Definition forgetUsage (r : KnowledgeRow.t) : KnowledgeRow.t :=
  {| KnowledgeRow.knowledge_id := r.(KnowledgeRow.knowledge_id);
     KnowledgeRow.project_path := r.(KnowledgeRow.project_path);
     KnowledgeRow.session_id := r.(KnowledgeRow.session_id);
     KnowledgeRow.source_event_id := r.(KnowledgeRow.source_event_id);
     KnowledgeRow.title := r.(KnowledgeRow.title);
     KnowledgeRow.content := r.(KnowledgeRow.content);
     KnowledgeRow.knowledge_type := r.(KnowledgeRow.knowledge_type);
     KnowledgeRow.tags := r.(KnowledgeRow.tags);
     KnowledgeRow.created_at := r.(KnowledgeRow.created_at);
     KnowledgeRow.synced_at := r.(KnowledgeRow.synced_at);
     KnowledgeRow.synapse_knowledge_id := r.(KnowledgeRow.synapse_knowledge_id);
     KnowledgeRow.branch := r.(KnowledgeRow.branch);
     KnowledgeRow.content_hash := r.(KnowledgeRow.content_hash);
     KnowledgeRow.usage_count := 0;
     KnowledgeRow.superseded_by := r.(KnowledgeRow.superseded_by) |}.

(** The same knowledge items in the same order, usage counts apart. *)
Definition sameItems (t t' : KnowledgeStore.table) : Prop :=
  map forgetUsage t' = map forgetUsage t.

(** Usage counts never fall. *)
Definition usageGrows (t t' : KnowledgeStore.table) : Prop :=
  Forall2 (fun r r' => r.(KnowledgeRow.usage_count) <= r'.(KnowledgeRow.usage_count)) t t'.

(** What a call leaves as it was, from the database [d] before to the
    database [d'] after. *)
Definition leavesAlone (c : ServerCall) (d d' : Server.Db) : Prop :=
  match c with
  | SessionStart _ _ =>
      d'.(Server.session_events) = d.(Server.session_events) /\
      sameItems d.(Server.promoted_knowledge) d'.(Server.promoted_knowledge) /\
      usageGrows d.(Server.promoted_knowledge) d'.(Server.promoted_knowledge)
  | SessionEnd _ _ _ _ =>
      d'.(Server.session_events) = d.(Server.session_events) /\
      d'.(Server.promoted_knowledge) = d.(Server.promoted_knowledge) /\
      d'.(Server.agents) = d.(Server.agents) /\
      d'.(Server.value_metrics) = d.(Server.value_metrics) /\
      d'.(Server.knowledge_usage) = d.(Server.knowledge_usage) /\
      map SessionRow.session_id d'.(Server.sessions)
      = map SessionRow.session_id d.(Server.sessions)
  | RecordEvent _ _ _ _ =>
      d'.(Server.sessions) = d.(Server.sessions) /\
      d'.(Server.promoted_knowledge) = d.(Server.promoted_knowledge) /\
      d'.(Server.agents) = d.(Server.agents) /\
      d'.(Server.value_metrics) = d.(Server.value_metrics) /\
      d'.(Server.knowledge_usage) = d.(Server.knowledge_usage) /\
      (d'.(Server.session_events) = d.(Server.session_events) \/
       exists e, d'.(Server.session_events) = d.(Server.session_events) ++ [e])
  | PromoteKnowledge _ _ =>
      d'.(Server.sessions) = d.(Server.sessions) /\
      d'.(Server.session_events) = d.(Server.session_events) /\
      d'.(Server.agents) = d.(Server.agents) /\
      d'.(Server.value_metrics) = d.(Server.value_metrics) /\
      d'.(Server.knowledge_usage) = d.(Server.knowledge_usage)
  | Recall _ _ =>
      d'.(Server.sessions) = d.(Server.sessions) /\
      d'.(Server.session_events) = d.(Server.session_events) /\
      d'.(Server.agents) = d.(Server.agents) /\
      sameItems d.(Server.promoted_knowledge) d'.(Server.promoted_knowledge) /\
      usageGrows d.(Server.promoted_knowledge) d'.(Server.promoted_knowledge)
  end.


(* ===================================================================== *)
(** * Part III: properties *)
(* ===================================================================== *)

(** ** The unit tests of the repository, replayed on the embedding *)

Example normalizeContent_lowercases :
  Dedup.normalizeContent "Hello World" = "hello world".
Proof. reflexivity. Qed.

Example normalizeContent_collapses_whitespace :
  Dedup.normalizeContent
    ("hello   world" ++ String (ascii_of_nat 10) (String (ascii_of_nat 9) "foo"))%string
  = "hello world foo".
Proof. reflexivity. Qed.

Example normalizeContent_trims :
  Dedup.normalizeContent "  hello  " = "hello".
Proof. reflexivity. Qed.

Example computeContentHash_normalized_equivalent :
  Duplicates.computeContentHash "Hello World"
  = Duplicates.computeContentHash "hello   world".
Proof. vm_compute. reflexivity. Qed.

Example computeContentHash_hex :
  Duplicates.computeContentHash "test"
  = "9f86d081884c7d659a2feaa0c55ad015a3bf4f1b2b0b822cd15d6c15b0f00a08".
Proof. vm_compute. reflexivity. Qed.

Example levenshteinDistance_identical :
  Dedup.levenshteinDistance "hello" "hello" = 0.
Proof. reflexivity. Qed.

Example levenshteinDistance_different :
  Dedup.levenshteinDistance "abc" "xyz" = 3.
Proof. reflexivity. Qed.

Example levenshteinDistance_single_change :
  Dedup.levenshteinDistance "hello" "hallo" = 1.
Proof. reflexivity. Qed.

Example computeTitleSimilarity_normalized_identical :
  Dedup.computeTitleSimilarity "Use JWT tokens" "use jwt  tokens" = 1%Q.
Proof. reflexivity. Qed.

Example computeTitleSimilarity_minor_difference :
  Dedup.computeTitleSimilarity "Use JWT tokens" "Use JWT token" = (13 # 14)%Q.
Proof. reflexivity. Qed.

Example computeTitleSimilarity_different_titles :
  (Dedup.computeTitleSimilarity "Use JWT tokens" "Database schema design" < 5 # 10)%Q.
Proof. vm_compute. reflexivity. Qed.

Example computeBranchWeight_cases :
  Scoring.computeBranchWeight (Some "feature-x") "feature-x" = 1%Q /\
  Scoring.computeBranchWeight (Some "main") "feature-x" = (7 # 10)%Q /\
  Scoring.computeBranchWeight (Some "master") "feature-x" = (7 # 10)%Q /\
  Scoring.computeBranchWeight (Some "old-feature") "feature-x" = (3 # 10)%Q /\
  Scoring.computeBranchWeight None "feature-x" = (5 # 10)%Q.
Proof. repeat split. Qed.

Example findDuplicates_ignores_superseded :
  Duplicates.findDuplicates
    [exampleRow "k1" "Original" "Same content" (Some "k2")]
    "/test/project" "New Title" "Same content" = [].
Proof. vm_compute. reflexivity. Qed.

Example runMigrations_fresh_store :
  Schema.getSchemaVersion (fst (Schema.runMigrations (Schema.mkStore [] [] None))) = 3 /\
  snd (Schema.runMigrations (Schema.mkStore [] [] None)) = None.
Proof. vm_compute. split; reflexivity. Qed.

(** ** The stable sort *)

Section SortFacts.
Variable A : Type.
Variable after : A -> A -> bool.

Lemma sortInsert_perm (x : A) (l : list A) :
  Permutation (Js.sortInsert after x l) (x :: l).
Proof.
  induction l as [|y r IH]; simpl.
  - apply Permutation_refl.
  - destruct (after x y).
    + eapply perm_trans; [apply perm_skip, IH | apply perm_swap].
    + apply Permutation_refl.
Qed.

Lemma sort_perm (l : list A) : Permutation (Js.sort after l) l.
Proof.
  induction l as [|x r IH]; simpl.
  - constructor.
  - eapply perm_trans; [apply sortInsert_perm | now apply perm_skip].
Qed.

(** Elements selected by a predicate that never holds on both sides of a
    strict comparison keep their relative order. *)
Lemma sortInsert_filter (p : A -> bool) (x : A) (l : list A) :
  (forall y, In y l -> p x = true -> after x y = true -> p y = false) ->
  filter p (Js.sortInsert after x l) = filter p (x :: l).
Proof.
  induction l as [|y r IH]; intros Hp; simpl.
  - reflexivity.
  - destruct (after x y) eqn:Hxy; simpl.
    + rewrite IH by (intros z Hz; apply Hp; now right). simpl.
      destruct (p x) eqn:Hpx.
      * rewrite (Hp y (or_introl eq_refl) eq_refl Hxy). reflexivity.
      * reflexivity.
    + reflexivity.
Qed.

Lemma sort_filter (p : A -> bool) (l : list A) :
  (forall x y, p x = true -> after x y = true -> p y = false) ->
  filter p (Js.sort after l) = filter p l.
Proof.
  intros Hp. induction l as [|x r IH]; simpl.
  - reflexivity.
  - rewrite sortInsert_filter by (intros y _; apply Hp).
    simpl. now rewrite IH.
Qed.

Hypothesis after_asym : forall x y, after x y = true -> after y x = false.
Hypothesis after_negtrans :
  forall x y z, after x y = false -> after y z = false -> after x z = false.

Lemma sortInsert_sorted (x : A) (l : list A) :
  StronglySorted (fun u v => after u v = false) l ->
  StronglySorted (fun u v => after u v = false) (Js.sortInsert after x l).
Proof.
  induction 1 as [|y r Hr IH Hy]; simpl.
  - repeat constructor.
  - destruct (after x y) eqn:Hxy.
    + constructor; [exact IH|].
      rewrite Forall_forall in *. intros z Hz.
      apply (Permutation_in _ (sortInsert_perm x r)) in Hz.
      destruct Hz as [<-|Hz]; [now apply after_asym | now apply Hy].
    + constructor; [now constructor|].
      constructor; [exact Hxy|].
      rewrite Forall_forall in *. intros z Hz.
      eapply after_negtrans; [exact Hxy | now apply Hy].
Qed.

Lemma sort_sorted (l : list A) :
  StronglySorted (fun u v => after u v = false) (Js.sort after l).
Proof.
  induction l as [|x r IH]; simpl.
  - constructor.
  - now apply sortInsert_sorted.
Qed.

End SortFacts.

(** ** The recurrence of the Levenshtein distance *)

Section PrefixDistance.
Variables a b : list ascii.

Lemma prefixDistance_0_r (i : nat) : prefixDistance a b i 0 = i.
Proof. destruct i; reflexivity. Qed.

Lemma prefixDistance_S_S (i j : nat) :
  prefixDistance a b (S i) (S j)
  = Dedup.min3 (prefixDistance a b i (S j) + 1)
               (prefixDistance a b (S i) j + 1)
               (prefixDistance a b i j
                + (if Js.charEq (nth_error a i) (nth_error b j) then 0 else 1)).
Proof. reflexivity. Qed.

Lemma prefixDistance_up_l (i j : nat) :
  prefixDistance a b (S i) j <= prefixDistance a b i j + 1.
Proof.
  destruct j as [|j].
  - rewrite !prefixDistance_0_r. lia.
  - rewrite prefixDistance_S_S. unfold Dedup.min3. lia.
Qed.

Lemma prefixDistance_up_r (i j : nat) :
  prefixDistance a b i (S j) <= prefixDistance a b i j + 1.
Proof.
  destruct i as [|i].
  - simpl. lia.
  - rewrite prefixDistance_S_S. unfold Dedup.min3. lia.
Qed.

Lemma prefixDistance_down_l (j : nat) :
  forall i, prefixDistance a b i j <= prefixDistance a b (S i) j + 1.
Proof.
  induction j as [|j IH]; intros i.
  - rewrite !prefixDistance_0_r. lia.
  - rewrite prefixDistance_S_S. unfold Dedup.min3.
    pose proof (IH i). pose proof (prefixDistance_up_r i j).
    destruct (Js.charEq _ _); lia.
Qed.

Lemma prefixDistance_down_r (i : nat) :
  forall j, prefixDistance a b i j <= prefixDistance a b i (S j) + 1.
Proof.
  induction i as [|i IH]; intros j.
  - simpl. lia.
  - rewrite prefixDistance_S_S. unfold Dedup.min3.
    pose proof (IH j). pose proof (prefixDistance_up_l i j).
    destruct (Js.charEq _ _); lia.
Qed.

(** The step of the matrix: equal characters copy the diagonal. *)
Lemma prefixDistance_step (i j : nat) :
  prefixDistance a b (S i) (S j)
  = if Js.charEq (nth_error a i) (nth_error b j)
    then prefixDistance a b i j
    else Dedup.min3 (prefixDistance a b i j + 1)
                    (prefixDistance a b (S i) j + 1)
                    (prefixDistance a b i (S j) + 1).
Proof.
  rewrite prefixDistance_S_S. unfold Dedup.min3.
  pose proof (prefixDistance_down_l j i). pose proof (prefixDistance_down_r i j).
  destruct (Js.charEq _ _); lia.
Qed.

End PrefixDistance.

Lemma charEq_sym (x y : option ascii) : Js.charEq x y = Js.charEq y x.
Proof.
  destruct x as [c|], y as [d|]; simpl; try reflexivity.
  apply Ascii.eqb_sym.
Qed.

Lemma prefixDistance_sym (a b : list ascii) (i : nat) :
  forall j, prefixDistance a b i j = prefixDistance b a j i.
Proof.
  induction i as [|i IHi]; intros j.
  - now rewrite prefixDistance_0_r.
  - induction j as [|j IHj].
    + now rewrite prefixDistance_0_r.
    + rewrite !prefixDistance_S_S, IHi, IHj, IHi, (charEq_sym (nth_error a i)).
      unfold Dedup.min3. lia.
Qed.

(** ** JavaScript arrays and the Levenshtein matrix *)

Lemma nth_arraySet (A : Type) (hole : A) (arr : list A) (j k : nat) (v : A) :
  nth k (Js.arraySet hole arr j v) hole = if k =? j then v else nth k arr hole.
Proof.
  unfold Js.arraySet.
  destruct (Nat.ltb_spec j (List.length arr)) as [Hj|Hj].
  - destruct (Nat.eqb_spec k j) as [->|Hkj].
    + rewrite app_nth2; rewrite firstn_length_le by lia; [|lia].
      now rewrite Nat.sub_diag.
    + destruct (Nat.lt_ge_cases k j) as [Hlt|Hge].
      * rewrite app_nth1 by (rewrite firstn_length_le; lia).
        rewrite nth_firstn. destruct (Nat.ltb_spec k j); [reflexivity | lia].
      * rewrite app_nth2; rewrite firstn_length_le by lia; [|lia].
        destruct (k - j) as [|d] eqn:Hd; [lia|]. cbn [nth].
        rewrite nth_skipn. f_equal. lia.
  - destruct (Nat.lt_ge_cases k (List.length arr)) as [Hlt|Hge].
    + rewrite app_nth1 by lia.
      destruct (Nat.eqb_spec k j); [lia | reflexivity].
    + rewrite app_nth2 by lia.
      rewrite (nth_overflow arr) by lia.
      destruct (Nat.lt_ge_cases (k - List.length arr) (j - List.length arr)) as [Hl|Hg].
      * rewrite app_nth1 by (rewrite repeat_length; lia).
        rewrite nth_repeat.
        destruct (Nat.eqb_spec k j); [lia | reflexivity].
      * rewrite app_nth2; rewrite repeat_length; [|lia].
        destruct (Nat.eqb_spec k j) as [->|Hkj].
        -- now rewrite Nat.sub_diag.
        -- destruct (k - List.length arr - (j - List.length arr)) as [|d] eqn:Hd; [lia|].
           simpl. now destruct d.
Qed.

Lemma mget_mset (m : Dedup.matrix) (i j v i' j' : nat) :
  Dedup.mget (Dedup.mset m i j v) i' j' =
  if (i' =? i) && (j' =? j) then v else Dedup.mget m i' j'.
Proof.
  unfold Dedup.mget, Dedup.mset.
  rewrite nth_arraySet.
  destruct (Nat.eqb_spec i' i) as [->|Hi]; simpl.
  - apply nth_arraySet.
  - reflexivity.
Qed.

(** Invariants of a [for] loop that runs over [seq start len]. *)
Lemma fold_left_seq_inv (S : Type) (f : S -> nat -> S) (Inv : nat -> S -> Prop) :
  forall len start s,
    Inv start s ->
    (forall k s', start <= k < start + len -> Inv k s' -> Inv (Datatypes.S k) (f s' k)) ->
    Inv (start + len) (fold_left f (seq start len) s).
Proof.
  induction len as [|len IH]; intros start s H0 Hstep; simpl.
  - now rewrite Nat.add_0_r.
  - replace (start + Datatypes.S len) with (Datatypes.S start + len) by lia.
    apply IH.
    + apply Hstep; [lia | exact H0].
    + intros k s' Hk. apply Hstep. lia.
Qed.

Lemma firstn_snoc_nth_error (A : Type) (l : list A) (k : nat) (c : A) :
  nth_error l k = Some c -> firstn (S k) l = firstn k l ++ [c].
Proof.
  revert k. induction l as [|x r IH]; intros [|k] H; simpl in *; try discriminate.
  - now inversion H.
  - f_equal. now apply IH.
Qed.

Lemma prefix_shrink (A : Type) (k : nat) :
  forall l1 l2 : list A,
    firstn (S k) l1 = firstn (S k) l2 -> firstn k l1 = firstn k l2.
Proof.
  induction k as [|k IH]; intros l1 l2 H; [reflexivity|].
  destruct l1 as [|x l1], l2 as [|y l2]; try reflexivity.
  - simpl in H. discriminate.
  - simpl in H. discriminate.
  - change (x :: firstn (S k) l1 = y :: firstn (S k) l2) in H.
    injection H as -> H. simpl. f_equal. now apply IH.
Qed.

Lemma prefix_nth_error (A : Type) (k : nat) :
  forall l1 l2 : list A,
    firstn (S k) l1 = firstn (S k) l2 -> nth_error l1 k = nth_error l2 k.
Proof.
  induction k as [|k IH]; intros l1 l2 H.
  - destruct l1, l2; simpl in *; congruence.
  - destruct l1 as [|x l1], l2 as [|y l2]; try reflexivity.
    + simpl in H. discriminate.
    + simpl in H. discriminate.
    + change (x :: firstn (S k) l1 = y :: firstn (S k) l2) in H.
      injection H as -> H. simpl. now apply IH.
Qed.

Lemma charEq_inv (a b : list ascii) (i j : nat) :
  i < List.length b -> j < List.length a ->
  Js.charEq (Js.charAt b i) (Js.charAt a j) = true ->
  exists c, nth_error b i = Some c /\ nth_error a j = Some c.
Proof.
  unfold Js.charAt. intros Hi Hj.
  destruct (nth_error b i) as [c|] eqn:Hb; [|apply nth_error_None in Hb; lia].
  destruct (nth_error a j) as [d|] eqn:Ha; [|apply nth_error_None in Ha; lia].
  simpl. intros H. apply Ascii.eqb_eq in H. subst. now exists d.
Qed.

Section Levenshtein.
Variables a b : list ascii.

Lemma cellStep_ok (i j : nat) (m : Dedup.matrix) :
  1 <= i <= List.length b -> 1 <= j <= List.length a ->
  rowOk a b i j m -> rowOk a b i (S j) (Dedup.cellStep a b i m j).
Proof.
  intros Hi Hj (Hrows & Hrow & Hcol).
  assert (Hd : cellOk a b (i - 1) (j - 1) (Dedup.mget m (i - 1) (j - 1)))
    by (apply Hrows; lia).
  assert (Hu : cellOk a b (i - 1) j (Dedup.mget m (i - 1) j))
    by (apply Hrows; lia).
  assert (Hl : cellOk a b i (j - 1) (Dedup.mget m i (j - 1)))
    by (apply Hrow; lia).
  assert (Hnew : exists v, Dedup.cellStep a b i m j = Dedup.mset m i j v /\ cellOk a b i j v).
  { unfold Dedup.cellStep.
    destruct Hd as (Hd1 & Hd2 & Hd3 & Hd4).
    destruct Hu as (_ & _ & _ & Hu4). destruct Hl as (_ & _ & _ & Hl4).
    assert (Hstep : prefixDistance b a i j
                    = if Js.charEq (Js.charAt b (i - 1)) (Js.charAt a (j - 1))
                      then prefixDistance b a (i - 1) (j - 1)
                      else Dedup.min3 (prefixDistance b a (i - 1) (j - 1) + 1)
                                      (prefixDistance b a i (j - 1) + 1)
                                      (prefixDistance b a (i - 1) j + 1)).
    { replace i with (S (i - 1)) at 1 3 by lia.
      replace j with (S (j - 1)) at 1 4 by lia.
      rewrite prefixDistance_step. unfold Js.charAt.
      replace (S (i - 1)) with i by lia. replace (S (j - 1)) with j by lia.
      reflexivity. }
    destruct (Js.charEq _ _) eqn:Hc.
    - eexists; split; [reflexivity|].
      split; [lia|]. split; [|split].
      + intros Hz. specialize (Hd2 Hz).
        apply charEq_inv in Hc; [|lia|lia].
        destruct Hc as (c & Hb & Ha).
        replace i with (S (i - 1)) by lia. replace j with (S (j - 1)) by lia.
        rewrite (firstn_snoc_nth_error _ _ Hb), (firstn_snoc_nth_error _ _ Ha).
        now rewrite Hd2.
      + intros Hij Hpre. apply Hd3; [lia|].
        subst j. replace i with (S (i - 1)) in Hpre by lia.
        now apply prefix_shrink.
      + congruence.
    - eexists; split; [reflexivity|].
      unfold Dedup.min3. split; [lia|]. split; [lia|]. split.
      + intros Hij Hpre. exfalso. subst j.
        replace i with (S (i - 1)) in Hpre by lia.
        apply prefix_nth_error in Hpre. unfold Js.charAt in Hc. rewrite Hpre in Hc.
        destruct (nth_error a (i - 1)) as [c|] eqn:Ha.
        * simpl in Hc. rewrite Ascii.eqb_refl in Hc. discriminate.
        * discriminate.
      + rewrite Hstep. unfold Dedup.min3. congruence. }
  destruct Hnew as (v & -> & Hv).
  split; [|split].
  - intros i' j' Hi' Hj'. rewrite mget_mset.
    destruct (Nat.eqb_spec i' i); [lia|]. simpl. apply Hrows; lia.
  - intros j' Hj'. rewrite mget_mset, Nat.eqb_refl. simpl.
    destruct (Nat.eqb_spec j' j) as [->|Hne]; [apply Hv|].
    apply Hrow; lia.
  - intros i' Hi'. rewrite mget_mset.
    destruct (Nat.eqb_spec i' i); [lia|]. simpl. apply Hcol; lia.
Qed.

Lemma rowStep_ok (i : nat) (m : Dedup.matrix) :
  1 <= i <= List.length b ->
  rowsOk a b i m -> rowsOk a b (S i) (Dedup.rowStep a b m i).
Proof.
  intros Hi (Hrows & Hcol).
  assert (H : rowOk a b i (1 + List.length a) (Dedup.rowStep a b m i)).
  { unfold Dedup.rowStep.
    apply (fold_left_seq_inv (Dedup.cellStep a b i) (rowOk a b i)).
    - split; [exact Hrows | split].
      + intros j' Hj'. assert (j' = 0) as -> by lia.
        rewrite Hcol by lia. split; [lia|]. split; [lia|]. split; [lia|].
        now rewrite prefixDistance_0_r.
      + intros i' Hi'. apply Hcol; lia.
    - intros k s' Hk Hinv. apply cellStep_ok; [lia|lia|exact Hinv]. }
  destruct H as (H1 & H2 & H3). split.
  - intros i' j' Hi' Hj'.
    destruct (Nat.eq_dec i' i) as [->|Hne]; [apply H2; lia | apply H1; lia].
  - intros i' Hi'. apply H3; lia.
Qed.

Lemma init_rows (n : nat) :
  forall i, i <= n ->
    nth i (fold_left (fun m i => Js.arraySet [] m i [i]) (seq 0 (S n)) []) [] = [i].
Proof.
  intros i Hi.
  pose (Inv := fun (k : nat) (m : Dedup.matrix) =>
                 forall i, i < k -> nth i m [] = [i]).
  assert (H : Inv (0 + S n) (fold_left (fun m i => Js.arraySet [] m i [i]) (seq 0 (S n)) [])).
  { apply (fold_left_seq_inv (fun m i => Js.arraySet (@nil nat) m i [i]) Inv).
    - intros k Hk. lia.
    - intros k s' Hk Hinv i' Hi'. rewrite nth_arraySet.
      destruct (Nat.eqb_spec i' k) as [->|Hne]; [reflexivity|].
      apply Hinv. lia. }
  apply H. lia.
Qed.

Lemma init_ok :
  rowsOk a b 1
    (fold_left (fun m j => Dedup.mset m 0 j j) (seq 0 (S (List.length a)))
       (fold_left (fun m i => Js.arraySet [] m i [i]) (seq 0 (S (List.length b))) [])).
Proof.
  set (m0 := fold_left (fun m i => Js.arraySet [] m i [i]) (seq 0 (S (List.length b))) []).
  pose (Inv := fun (k : nat) (m : Dedup.matrix) =>
                 (forall j, j < k -> Dedup.mget m 0 j = j) /\
                 (forall i, 1 <= i <= List.length b -> Dedup.mget m i 0 = i)).
  assert (H : Inv (0 + S (List.length a))
                  (fold_left (fun m j => Dedup.mset m 0 j j) (seq 0 (S (List.length a))) m0)).
  { apply (fold_left_seq_inv (fun m j => Dedup.mset m 0 j j) Inv).
    - split; [intros j Hj; lia|].
      intros i Hi. unfold Dedup.mget, m0. now rewrite init_rows by lia.
    - intros k s' Hk [H1 H2]. split.
      + intros j Hj. rewrite mget_mset. simpl.
        destruct (Nat.eqb_spec j k) as [->|Hne]; [reflexivity|]. apply H1; lia.
      + intros i Hi. rewrite mget_mset.
        destruct (Nat.eqb_spec i 0); [lia|]. simpl. now apply H2. }
  destruct H as [H1 H2]. split.
  - intros i' j' Hi' Hj'. assert (i' = 0) as -> by lia.
    rewrite H1 by lia. split; [lia|]. split; [now intros ->|].
    split; [lia | reflexivity].
  - intros i' Hi'. now apply H2.
Qed.

Lemma levenshteinMatrix_ok :
  rowsOk a b (1 + List.length b) (Dedup.levenshteinMatrix a b).
Proof.
  unfold Dedup.levenshteinMatrix.
  apply (fold_left_seq_inv (Dedup.rowStep a b) (rowsOk a b)).
  - apply init_ok.
  - intros k s' Hk Hinv. apply rowStep_ok; [lia | exact Hinv].
Qed.

Lemma levenshteinDistanceL_le_max :
  Dedup.levenshteinDistanceL a b <= Nat.max (List.length a) (List.length b).
Proof.
  destruct levenshteinMatrix_ok as [H _].
  destruct (H (List.length b) (List.length a)) as (Hle & _ & _ & _); [lia|lia|].
  unfold Dedup.levenshteinDistanceL. lia.
Qed.

Lemma levenshteinDistanceL_zero :
  Dedup.levenshteinDistanceL a b = 0 -> a = b.
Proof.
  destruct levenshteinMatrix_ok as [H _].
  destruct (H (List.length b) (List.length a)) as (_ & Hz & _ & _); [lia|lia|].
  unfold Dedup.levenshteinDistanceL. intros H0. specialize (Hz H0).
  now rewrite !firstn_all in Hz.
Qed.

Lemma levenshteinDistanceL_same :
  a = b -> Dedup.levenshteinDistanceL a b = 0.
Proof.
  intros Hab.
  destruct levenshteinMatrix_ok as [H _].
  destruct (H (List.length b) (List.length a)) as (_ & _ & Hz & _); [lia|lia|].
  unfold Dedup.levenshteinDistanceL. apply Hz; now rewrite Hab.
Qed.

Lemma levenshteinDistanceL_prefixDistance :
  Dedup.levenshteinDistanceL a b
  = prefixDistance a b (List.length a) (List.length b).
Proof.
  destruct levenshteinMatrix_ok as [H _].
  destruct (H (List.length b) (List.length a)) as (_ & _ & _ & Hv); [lia|lia|].
  unfold Dedup.levenshteinDistanceL. rewrite Hv. apply prefixDistance_sym.
Qed.

End Levenshtein.

(** ** Title similarity *)

Lemma length_list_ascii_of_string (s : string) :
  List.length (list_ascii_of_string s) = String.length s.
Proof. induction s; simpl; congruence. Qed.

Lemma list_ascii_of_string_inj (s t : string) :
  list_ascii_of_string s = list_ascii_of_string t -> s = t.
Proof.
  intros H. rewrite <- (string_of_list_ascii_of_string s),
                    <- (string_of_list_ascii_of_string t).
  now rewrite H.
Qed.

Lemma levenshteinDistance_le_max (a b : string) :
  Dedup.levenshteinDistance a b <= Nat.max (String.length a) (String.length b).
Proof.
  unfold Dedup.levenshteinDistance.
  rewrite <- !length_list_ascii_of_string. apply levenshteinDistanceL_le_max.
Qed.

Lemma levenshteinDistance_zero (a b : string) :
  Dedup.levenshteinDistance a b = 0 -> a = b.
Proof.
  intros H. apply list_ascii_of_string_inj. now apply levenshteinDistanceL_zero.
Qed.

Lemma levenshteinDistance_same (a : string) :
  Dedup.levenshteinDistance a a = 0.
Proof. unfold Dedup.levenshteinDistance. now apply levenshteinDistanceL_same. Qed.

(** [levenshteinDistance] computes the Levenshtein distance. *)
Lemma levenshteinDistance_editDistance (a b : string) :
  Dedup.levenshteinDistance a b = editDistance a b.
Proof.
  unfold Dedup.levenshteinDistance, editDistance.
  rewrite levenshteinDistanceL_prefixDistance, !length_list_ascii_of_string.
  reflexivity.
Qed.

(** The quotient [1 - d / m] for natural numbers [d <= m], [0 < m]. *)
Lemma ratio_bounds (d m : nat) :
  d <= m -> 0 < m ->
  let q := (1 - inject_Z (Z.of_nat d) / inject_Z (Z.of_nat m))%Q in
  (0 <= q)%Q /\ (q <= 1)%Q /\ ((q == 1)%Q <-> d = 0).
Proof.
  intros Hd Hm q. subst q.
  destruct (Z.of_nat m) as [|pm|pm] eqn:Em; try lia.
  assert (Hdm : (Z.of_nat d <= Z.pos pm)%Z) by lia.
  assert (Hd0 : (0 <= Z.of_nat d)%Z) by lia.
  assert (Hq : (inject_Z (Z.of_nat d) / inject_Z (Z.pos pm) == Z.of_nat d # pm)%Q)
    by (symmetry; apply Qmake_Qdiv).
  rewrite Hq. clear Hq.
  unfold Qle, Qeq, Qminus, Qplus, Qopp. cbn [Qnum Qden].
  repeat split; try lia.
Qed.

Lemma string_length_zero (s : string) : String.length s = 0 -> s = "".
Proof. destruct s; simpl; [reflexivity | discriminate]. Qed.

Lemma computeTitleSimilarity_formula (title1 title2 : string) :
  (Dedup.computeTitleSimilarity title1 title2
   == similarityFormula (Dedup.normalizeContent title1)
                        (Dedup.normalizeContent title2))%Q.
Proof.
  unfold Dedup.computeTitleSimilarity, similarityFormula.
  destruct (String.eqb_spec (Dedup.normalizeContent title1)
                            (Dedup.normalizeContent title2)) as [Heq|Hne].
  - rewrite Heq, <- levenshteinDistance_editDistance, levenshteinDistance_same.
    destruct (_ =? 0); [reflexivity|].
    change (inject_Z (Z.of_nat 0)) with 0%Q. unfold Qdiv.
    rewrite Qmult_0_l. reflexivity.
  - rewrite <- levenshteinDistance_editDistance. reflexivity.
Qed.

(** C10. For all titles, [computeTitleSimilarity] lies in the closed
    interval [[0, 1]], and it is 1 exactly when the two titles are equal
    after normalization; [levenshteinDistance] of the normalized titles is
    their Levenshtein distance and never exceeds the length of the longer
    one. *)
Theorem computeTitleSimilarity_unit_interval (title1 title2 : string) :
  let s := Dedup.computeTitleSimilarity title1 title2 in
  let n1 := Dedup.normalizeContent title1 in
  let n2 := Dedup.normalizeContent title2 in
  (0 <= s)%Q /\ (s <= 1)%Q /\
  ((s == 1)%Q <-> n1 = n2) /\
  Dedup.levenshteinDistance n1 n2 <= Nat.max (String.length n1) (String.length n2) /\
  Dedup.levenshteinDistance n1 n2 = editDistance n1 n2.
Proof.
  intros s n1 n2. subst s. unfold Dedup.computeTitleSimilarity.
  fold n1 n2.
  pose proof (levenshteinDistance_le_max n1 n2) as Hle.
  pose proof (levenshteinDistance_editDistance n1 n2) as Hed.
  destruct (String.eqb_spec n1 n2) as [Heq|Hne].
  - repeat split; auto; try discriminate.
  - destruct (Nat.eqb_spec (Nat.max (String.length n1) (String.length n2)) 0) as [H0|H0].
    + exfalso. apply Hne.
      rewrite (string_length_zero n1), (string_length_zero n2) by lia. reflexivity.
    + destruct (ratio_bounds Hle) as (Ha & Hb & Hc); [lia|].
      repeat split; auto.
      * intros H1. apply Hc in H1. now apply levenshteinDistance_zero.
      * intros H1. contradiction.
Qed.

(** ** Duplicate detection *)

Lemma get_filter_find (A : Type) (p : A -> bool) (l : list A) :
  Sql.get (filter p l) = find p l.
Proof.
  induction l as [|x r IH]; simpl; [reflexivity|].
  destruct (p x); [reflexivity | exact IH].
Qed.

Lemma StronglySorted_weaken (A : Type) (R1 R2 : A -> A -> Prop) (l : list A) :
  (forall x y, R1 x y -> R2 x y) -> StronglySorted R1 l -> StronglySorted R2 l.
Proof.
  intros H. induction 1 as [|x r Hr IH Hx]; constructor; auto.
  eapply Forall_impl; [|exact Hx]. intros y. apply H.
Qed.

Lemma rowToKnowledge_inj (r r' : KnowledgeRow.t) :
  KnowledgeStore.rowToKnowledge r = KnowledgeStore.rowToKnowledge r' -> r = r'.
Proof.
  destruct r, r'. unfold KnowledgeStore.rowToKnowledge. simpl.
  intros H. inversion H. reflexivity.
Qed.

Lemma fold_titleStep (title' : string) (rows : list KnowledgeRow.t) :
  forall acc,
    fold_left (Duplicates.titleStep title') rows acc =
    acc ++ map (titleCandidate title') (filter (similarEnough title') rows).
Proof.
  induction rows as [|r rows IH]; intros acc; simpl.
  - now rewrite app_nil_r.
  - rewrite IH. unfold Duplicates.titleStep, similarEnough.
    destruct (Qle_bool _ _); simpl; [now rewrite <- app_assoc | reflexivity].
Qed.

Lemma lessSimilar_asym (x y : DuplicateCandidate) :
  Duplicates.lessSimilar x y = true -> Duplicates.lessSimilar y x = false.
Proof.
  unfold Duplicates.lessSimilar. intros H.
  apply negb_true_iff in H. apply negb_false_iff.
  apply Qle_bool_iff.
  destruct (Qlt_le_dec (similarityScore x) (similarityScore y)) as [Hlt|Hle].
  - now apply Qlt_le_weak.
  - apply Qle_bool_iff in Hle. congruence.
Qed.

Lemma lessSimilar_negtrans (x y z : DuplicateCandidate) :
  Duplicates.lessSimilar x y = false -> Duplicates.lessSimilar y z = false ->
  Duplicates.lessSimilar x z = false.
Proof.
  unfold Duplicates.lessSimilar. rewrite !negb_false_iff, !Qle_bool_iff.
  intros H1 H2. eapply Qle_trans; eassumption.
Qed.

Lemma whereLive_spec (p : string) (r : KnowledgeRow.t) :
  Duplicates.whereLive p r = true <->
  r.(KnowledgeRow.project_path) = p /\ r.(KnowledgeRow.superseded_by) = None.
Proof.
  unfold Duplicates.whereLive. rewrite andb_true_iff, String.eqb_eq.
  destruct (KnowledgeRow.superseded_by r); simpl; intuition congruence.
Qed.

Lemma whereExact_spec (p h : string) (r : KnowledgeRow.t) :
  Duplicates.whereExact p h r = true <->
  r.(KnowledgeRow.project_path) = p /\ r.(KnowledgeRow.superseded_by) = None /\
  r.(KnowledgeRow.content_hash) = Some h.
Proof.
  unfold Duplicates.whereExact, Sql.eqText.
  rewrite !andb_true_iff, String.eqb_eq.
  destruct (KnowledgeRow.superseded_by r), (KnowledgeRow.content_hash r) as [c|];
    simpl; rewrite ?String.eqb_eq; intuition congruence.
Qed.

(** C3. [findDuplicates] on a project state, a candidate title and a
    candidate content.  If some non-superseded item of the project stores
    the SHA-256 digest of the normalized candidate content, the result is
    exactly one candidate, such an item (the first in the table), with
    similarity 1 and match type [exact_hash]; no title is compared.
    Otherwise the result holds, once each, the non-superseded items of the
    project whose title similarity
    [1 - editDistance / max(len(a), len(b))] over the normalized titles
    (1 when both are empty) is at least 0.85, with match type
    [title_match], sorted by descending similarity. *)
Theorem findDuplicates_exact_or_title
  (db : KnowledgeStore.table) (projectPath title' content' : string) :
  let digest := Sha256.sha256hex (Dedup.normalizeContent content') in
  let live r := r.(KnowledgeRow.project_path) = projectPath /\
                r.(KnowledgeRow.superseded_by) = None in
  let result := Duplicates.findDuplicates db projectPath title' content' in
  ((exists r, In r db /\ live r /\ r.(KnowledgeRow.content_hash) = Some digest) ->
   exists r, In r db /\ live r /\ r.(KnowledgeRow.content_hash) = Some digest /\
             find (Duplicates.whereExact projectPath digest) db = Some r /\
             result = [exactCandidate r] /\
             (forall otherTitle,
                 Duplicates.findDuplicates db projectPath otherTitle content' = result)) /\
  ((forall r, In r db -> live r -> r.(KnowledgeRow.content_hash) <> Some digest) ->
   Permutation result
     (map (titleCandidate title')
        (filter (similarEnough title') (filter (Duplicates.whereLive projectPath) db))) /\
   StronglySorted (fun x y => (similarityScore y <= similarityScore x)%Q) result /\
   (forall r, In (titleCandidate title' r) result <->
              In r db /\ live r /\
              (85 # 100 <= Dedup.computeTitleSimilarity title' r.(KnowledgeRow.title))%Q) /\
   (forall c, In c result ->
              matchType c = title_match /\
              (85 # 100 <= similarityScore c)%Q /\
              (similarityScore c
               == similarityFormula (Dedup.normalizeContent title')
                    (Dedup.normalizeContent c.(existingKnowledge).(Knowledge.title)))%Q)).
Proof.
  intros digest live result. subst result.
  unfold Duplicates.findDuplicates, Duplicates.computeContentHash.
  fold digest. rewrite get_filter_find.
  split.
  - intros (r & Hin & Hlive & Hh).
    destruct (find (Duplicates.whereExact projectPath digest) db) as [r0|] eqn:Hf.
    + apply find_some in Hf as Hf'. destruct Hf' as [Hin0 Hw].
      apply whereExact_spec in Hw. destruct Hw as (H1 & H2 & H3).
      exists r0. unfold live. repeat split; auto.
    + exfalso. eapply find_none in Hf; [|exact Hin].
      destruct Hlive as [H1 H2].
      assert (Duplicates.whereExact projectPath digest r = true)
        by (apply whereExact_spec; auto).
      congruence.
  - intros Hnone.
    destruct (find (Duplicates.whereExact projectPath digest) db) as [r0|] eqn:Hf.
    + exfalso. apply find_some in Hf. destruct Hf as [Hin0 Hw].
      apply whereExact_spec in Hw. destruct Hw as (H1 & H2 & H3).
      apply (Hnone r0 Hin0); [split; auto | exact H3].
    + rewrite fold_titleStep. cbn [app].
      set (cands := map (titleCandidate title')
                      (filter (similarEnough title')
                         (filter (Duplicates.whereLive projectPath) db))).
      assert (Hperm : Permutation (Js.sort Duplicates.lessSimilar cands) cands)
        by apply sort_perm.
      split; [exact Hperm|]. split; [|split].
      * eapply StronglySorted_weaken;
          [| apply sort_sorted; [apply lessSimilar_asym | apply lessSimilar_negtrans]].
        intros x y H. unfold Duplicates.lessSimilar in H.
        apply negb_false_iff in H. now apply Qle_bool_iff.
      * intros r. split.
        -- intros Hin. apply (Permutation_in _ Hperm) in Hin.
           unfold cands in Hin. apply in_map_iff in Hin.
           destruct Hin as (r' & Heq & Hin').
           apply filter_In in Hin'. destruct Hin' as [Hin' Hs].
           apply filter_In in Hin'. destruct Hin' as [Hin' Hl].
           assert (r' = r) as ->.
           { apply rowToKnowledge_inj. unfold titleCandidate in Heq.
             exact (f_equal existingKnowledge Heq). }
           apply whereLive_spec in Hl. unfold similarEnough in Hs.
           apply Qle_bool_iff in Hs. repeat split; tauto.
        -- intros (Hin & Hl & Hs).
           apply (Permutation_in _ (Permutation_sym Hperm)).
           unfold cands. apply in_map. apply filter_In. split.
           ++ apply filter_In. split; [exact Hin | now apply whereLive_spec].
           ++ unfold similarEnough. now apply Qle_bool_iff.
      * intros c Hin. apply (Permutation_in _ Hperm) in Hin.
        unfold cands in Hin. apply in_map_iff in Hin.
        destruct Hin as (r' & <- & Hin').
        apply filter_In in Hin'. destruct Hin' as [_ Hs].
        unfold similarEnough in Hs. apply Qle_bool_iff in Hs.
        split; [reflexivity|]. split; [exact Hs|].
        apply computeTitleSimilarity_formula.
Qed.

Lemma findDuplicates_exact_or_title_witness :
  Duplicates.findDuplicates
    [exampleRow "k1" "Original Title" "Same content" None]
    "/test/project" "Different Title" "same   CONTENT "
  = [exactCandidate (exampleRow "k1" "Original Title" "Same content" None)] /\
  In (titleCandidate "Use JWT token"
        (exampleRow "k1" "Use JWT tokens" "Original content" None))
     (Duplicates.findDuplicates
        [exampleRow "k1" "Use JWT tokens" "Original content" None]
        "/test/project" "Use JWT token" "Different content").
Proof.
  split.
  - destruct (findDuplicates_exact_or_title
                [exampleRow "k1" "Original Title" "Same content" None]
                "/test/project" "Different Title" "same   CONTENT ") as [H _].
    destruct H as (r & _ & _ & _ & Hfind & Hr & _).
    + exists (exampleRow "k1" "Original Title" "Same content" None).
      split; [left; reflexivity|]. vm_compute. repeat split.
    + rewrite Hr. vm_compute in Hfind. inversion Hfind. vm_compute. reflexivity.
  - destruct (findDuplicates_exact_or_title
                [exampleRow "k1" "Use JWT tokens" "Original content" None]
                "/test/project" "Use JWT token" "Different content") as [_ H].
    destruct H as (_ & _ & Hiff & _).
    + intros r [<-|[]] _. vm_compute. discriminate.
    + refine (proj2 (Hiff _) _). split; [left; reflexivity|].
      split; [split; reflexivity|]. vm_compute. discriminate.
Defined.

(** ** Relevance ranking *)

Lemma Rltb_asym (x y : R) : Scoring.Rltb x y = true -> Scoring.Rltb y x = false.
Proof.
  unfold Scoring.Rltb. destruct (Rlt_dec x y), (Rlt_dec y x); auto; lra.
Qed.

Lemma Rltb_negtrans (x y z : R) :
  Scoring.Rltb x y = false -> Scoring.Rltb y z = false -> Scoring.Rltb x z = false.
Proof.
  unfold Scoring.Rltb.
  destruct (Rlt_dec x y), (Rlt_dec y z), (Rlt_dec x z); auto; try discriminate; lra.
Qed.

(** ** The order of the doubles

    A finite double is [m * 2 ^ e] with [e] at least [emin], so its
    multiple of [2 ^ emin], its [position], is an integer.  The
    comparisons of the processor order the doubles other than [NaN] by
    position, and the rounding of a difference keeps its sign: a
    difference of two doubles that is not zero does not round to zero. *)

Section DoubleOrder.

Local Open Scope Z_scope.

Lemma digits2_pos_bounds (m : positive) :
  2 ^ (Zpos (digits2_pos m) - 1) <= Zpos m < 2 ^ Zpos (digits2_pos m).
Proof.
  induction m as [m IH|m IH|]; cbn [digits2_pos].
  - rewrite Pos2Z.inj_succ.
    replace (Z.succ (Zpos (digits2_pos m)) - 1) with (Z.succ (Zpos (digits2_pos m) - 1)) by lia.
    rewrite !Z.pow_succ_r by lia. lia.
  - rewrite Pos2Z.inj_succ.
    replace (Z.succ (Zpos (digits2_pos m)) - 1) with (Z.succ (Zpos (digits2_pos m) - 1)) by lia.
    rewrite !Z.pow_succ_r by lia. lia.
  - simpl. lia.
Qed.

Lemma bounded_range (m : positive) (e : Z) :
  SpecFloat.bounded prec emax m e = true ->
  emin <= e /\ Zpos (digits2_pos m) <= prec /\
  (emin < e -> Zpos (digits2_pos m) = prec).
Proof.
  unfold SpecFloat.bounded, canonical_mantissa, fexp. intros H.
  apply andb_true_iff in H. destruct H as [H _]. apply Z.eqb_eq in H.
  change (SpecFloat.emin prec emax) with (-1074) in *. change prec with 53 in *.
  lia.
Qed.

Lemma iter_xO (m d : positive) : Zpos (Pos.iter xO m d) = Zpos m * 2 ^ Zpos d.
Proof.
  induction d as [|d IH] using Pos.peano_ind.
  - simpl. lia.
  - rewrite Pos.iter_succ, Pos2Z.inj_succ, Z.pow_succ_r by lia.
    rewrite Pos2Z.inj_xO, IH. lia.
Qed.

Lemma shl_align_value (m : positive) (e e' : Z) :
  e' <= e -> Zpos (fst (shl_align m e e')) = Zpos m * 2 ^ (e - e').
Proof.
  intros H. unfold shl_align. destruct (e' - e) as [|d|d] eqn:E.
  - replace (e - e') with 0 by lia. simpl. lia.
  - pose proof (Pos2Z.is_pos d). lia.
  - replace (e - e') with (Zpos d) by (pose proof (Pos2Z.opp_neg d); lia).
    cbn [fst]. apply iter_xO.
Qed.

Lemma shl_align_exp (m : positive) (e e' : Z) :
  snd (shl_align m e e') = Z.min e e'.
Proof.
  unfold shl_align. destruct (e' - e) eqn:E; simpl; lia.
Qed.

(** Shifting right. *)
Lemma shr_1_pos (mrs : shr_record) (k : Z) :
  0 <= k -> 2 ^ (k + 1) <= shr_m mrs -> 2 ^ k <= shr_m (shr_1 mrs).
Proof.
  intros Hk H. rewrite Z.pow_add_r in H by lia. change (2 ^ 1) with 2 in H.
  destruct mrs as [m r s]. cbn [shr_m] in *.
  assert (0 < 2 ^ k) by (apply Z.pow_pos_nonneg; lia).
  destruct m as [|[p|p|]|[p|p|]]; cbn [shr_1 shr_m]; try lia.
Qed.

Lemma iter_shr_1_pos (p : positive) : forall (mrs : shr_record) (k : Z),
  0 <= k -> 2 ^ (k + Zpos p) <= shr_m mrs -> 2 ^ k <= shr_m (SpecFloat.iter_pos shr_1 p mrs).
Proof.
  induction p as [p IH|p IH|]; intros mrs k Hk H; cbn [SpecFloat.iter_pos].
  - apply IH; [exact Hk|]. apply IH; [lia|]. apply shr_1_pos; [lia|].
    replace (k + Zpos p + Zpos p + 1) with (k + Zpos p~1) by lia. exact H.
  - apply IH; [exact Hk|]. apply IH; [lia|].
    replace (k + Zpos p + Zpos p) with (k + Zpos p~0) by lia. exact H.
  - now apply shr_1_pos.
Qed.

Lemma shr_record_of_loc_m (m : Z) (l : location) : shr_m (shr_record_of_loc m l) = m.
Proof. destruct l as [|[]]; reflexivity. Qed.

Lemma shr_fexp_pos (m : positive) (e : Z) (l : location) :
  emin <= e ->
  0 < shr_m (fst (shr_fexp prec emax (Zpos m) e l)) /\
  emin <= snd (shr_fexp prec emax (Zpos m) e l).
Proof.
  intros He. unfold shr_fexp, shr, fexp. cbn [Zdigits2].
  pose proof (digits2_pos_bounds m) as [Hd _].
  set (d := Zpos (digits2_pos m)) in *.
  change (SpecFloat.emin prec emax) with (-1074) in *. change prec with 53 in *.
  destruct (Z.max (d + e - 53) (-1074) - e) as [|p|p] eqn:E; cbn [fst snd].
  - rewrite shr_record_of_loc_m. split; [lia | exact He].
  - pose proof (Pos2Z.is_pos p). split; [|lia].
    assert (H1 : 2 ^ 0 <= shr_m (SpecFloat.iter_pos shr_1 p (shr_record_of_loc (Zpos m) l))).
    { apply iter_shr_1_pos; [lia|]. rewrite shr_record_of_loc_m.
      apply Z.le_trans with (2 ^ (d - 1)); [|exact Hd].
      apply Z.pow_le_mono_r; lia. }
    simpl in H1. lia.
  - rewrite shr_record_of_loc_m. split; [lia | exact He].
Qed.

Lemma round_nearest_even_pos (m : Z) (l : location) :
  0 < m -> 0 < round_nearest_even m l.
Proof.
  intros H. unfold round_nearest_even. destruct l as [|[]]; try lia.
  destruct (Z.even m); lia.
Qed.

Lemma binary_round_aux_nonzero (s : bool) (m : positive) (e : Z) (l : location) :
  emin <= e -> signedNonzero s (binary_round_aux prec emax s (Zpos m) e l).
Proof.
  intros He. unfold binary_round_aux.
  pose proof (shr_fexp_pos m l He) as [H1 H2].
  destruct (shr_fexp prec emax (Zpos m) e l) as [mrs' e']. cbn [fst snd] in H1, H2.
  pose proof (round_nearest_even_pos (loc_of_shr_record mrs') H1) as H3.
  destruct (round_nearest_even (shr_m mrs') (loc_of_shr_record mrs')) as [|m1|m1];
    try lia.
  pose proof (shr_fexp_pos m1 loc_Exact H2) as [H4 _].
  destruct (shr_fexp prec emax (Zpos m1) e' loc_Exact) as [mrs'' e'']. cbn [fst] in H4.
  destruct (shr_m mrs'') as [|m2|m2]; try lia.
  destruct (e'' <=? emax - prec); reflexivity.
Qed.

Lemma binary_round_nonzero (s : bool) (m : positive) (e : Z) :
  emin <= e -> signedNonzero s (binary_round prec emax s m e).
Proof.
  intros He. unfold binary_round.
  pose proof (shl_align_exp m e (fexp prec emax (Zpos (digits2_pos m) + e))) as H.
  destruct (shl_align m e (fexp prec emax (Zpos (digits2_pos m) + e))) as [mz ez].
  cbn [snd] in H. apply binary_round_aux_nonzero.
  unfold fexp in H. change (SpecFloat.emin prec emax) with (-1074) in *. lia.
Qed.

(** The sign of a sum or difference survives the rounding. *)
Lemma binary_normalize_sign (m e : Z) :
  emin <= e ->
  SFltb (S754_zero false) (binary_normalize prec emax m e false) = (0 <? m).
Proof.
  intros He. destruct m as [|p|p]; cbn [binary_normalize].
  - reflexivity.
  - pose proof (binary_round_nonzero false p He) as H.
    destruct (binary_round prec emax false p e); cbn [signedNonzero] in H;
      try contradiction; subst; reflexivity.
  - pose proof (binary_round_nonzero true p He) as H.
    destruct (binary_round prec emax true p e); cbn [signedNonzero] in H;
      try contradiction; subst; reflexivity.
Qed.

Lemma position_finite (s : bool) (m : positive) (e : Z) :
  emin <= e ->
  (if s then position (S754_finite s m e) < 0
   else 0 < position (S754_finite s m e)).
Proof.
  intros He. unfold position.
  assert (0 < 2 ^ (e - emin)) by (apply Z.pow_pos_nonneg; lia).
  destruct s; cbn [cond_Zopp]; nia.
Qed.

Lemma SFsub_sign_finite (x y : spec_float) :
  valid_binary x = true -> valid_binary y = true ->
  finiteSF x = true -> finiteSF y = true ->
  SFltb (S754_zero false) (SF64sub y x) = (position x <? position y).
Proof.
  intros Vx Vy Fx Fy.
  destruct x as [sx| | |sx mx ex]; try discriminate;
  destruct y as [sy| | |sy my ey]; try discriminate.
  - destruct sx, sy; reflexivity.
  - apply bounded_range in Vy. destruct Vy as [Hy _].
    pose proof (position_finite sy my Hy) as P.
    cbn [SF64sub SFsub]. change (position (S754_zero sx)) with 0.
    destruct sy; cbn [SFltb SFcompare]; symmetry;
      [apply Z.ltb_ge | apply Z.ltb_lt]; lia.
  - apply bounded_range in Vx. destruct Vx as [Hx _].
    pose proof (position_finite sx mx Hx) as P.
    unfold SF64sub. cbn [SFsub]. change (position (S754_zero sy)) with 0.
    destruct sx; cbn [negb SFltb SFcompare]; symmetry;
      [apply Z.ltb_lt | apply Z.ltb_ge]; lia.
  - apply bounded_range in Vx, Vy. destruct Vx as [Hx _], Vy as [Hy _].
    unfold SF64sub. cbn [SFsub].
    rewrite binary_normalize_sign by lia.
    rewrite !shl_align_value by lia.
    unfold position.
    set (ez := Z.min ey ex).
    assert (E1 : Zpos mx * 2 ^ (ex - emin) = Zpos mx * 2 ^ (ex - ez) * 2 ^ (ez - emin)).
    { rewrite <- Z.mul_assoc, <- Z.pow_add_r by lia. do 2 f_equal. lia. }
    assert (E2 : Zpos my * 2 ^ (ey - emin) = Zpos my * 2 ^ (ey - ez) * 2 ^ (ez - emin)).
    { rewrite <- Z.mul_assoc, <- Z.pow_add_r by lia. do 2 f_equal. lia. }
    rewrite E1, E2.
    assert (0 < 2 ^ (ez - emin)) by (apply Z.pow_pos_nonneg; lia).
    set (a := Zpos mx * 2 ^ (ex - ez)). set (b := Zpos my * 2 ^ (ey - ez)).
    set (c := 2 ^ (ez - emin)) in *.
    destruct (0 <? cond_Zopp sy b - cond_Zopp sx a) eqn:E; symmetry.
    + apply Z.ltb_lt in E. apply Z.ltb_lt.
      destruct sx, sy; cbn [cond_Zopp] in *; nia.
    + apply Z.ltb_ge in E. apply Z.ltb_ge.
      destruct sx, sy; cbn [cond_Zopp] in *; nia.
Qed.

(** Among the doubles, a larger exponent is a larger number. *)
Lemma position_exponent (m1 m2 : positive) (e1 e2 : Z) :
  SpecFloat.bounded prec emax m1 e1 = true -> SpecFloat.bounded prec emax m2 e2 = true ->
  e1 < e2 ->
  Zpos m1 * 2 ^ (e1 - emin) < Zpos m2 * 2 ^ (e2 - emin).
Proof.
  intros B1 B2 H.
  apply bounded_range in B1, B2.
  destruct B1 as (H1 & D1 & _), B2 as (H2 & _ & D2).
  pose proof (digits2_pos_bounds m1) as [_ U1].
  pose proof (digits2_pos_bounds m2) as [L2 _].
  rewrite D2 in L2 by lia.
  assert (U : Zpos m1 < 2 ^ prec).
  { apply Z.lt_le_trans with (1 := U1). apply Z.pow_le_mono_r; lia. }
  change (SpecFloat.emin prec emax) with (-1074) in *.
  change prec with 53 in *. change (53 - 1) with 52 in L2.
  replace (e2 - -1074) with ((e1 - -1074) + (e2 - e1)) by lia.
  rewrite Z.pow_add_r by lia.
  assert (0 < 2 ^ (e1 - -1074)) by (apply Z.pow_pos_nonneg; lia).
  assert (2 ^ 1 <= 2 ^ (e2 - e1)) by (apply Z.pow_le_mono_r; lia).
  change (2 ^ 1) with 2 in *.
  set (A := 2 ^ (e1 - -1074)) in *. set (B := 2 ^ (e2 - e1)) in *.
  assert (S1 : Zpos m1 * A < 2 ^ 53 * A) by (apply Z.mul_lt_mono_pos_r; lia).
  assert (S2 : 2 ^ 53 * A <= Zpos m2 * 2 * A).
  { apply Z.mul_le_mono_nonneg_r; [lia|]. change (2 ^ 53) with (2 ^ 52 * 2). lia. }
  assert (S3 : Zpos m2 * 2 * A <= Zpos m2 * (A * B)).
  { rewrite <- Z.mul_assoc. apply Z.mul_le_mono_nonneg_l; [lia|].
    rewrite (Z.mul_comm 2 A). apply Z.mul_le_mono_nonneg_l; lia. }
  lia.
Qed.

Lemma SFcompare_position_finite (x y : spec_float) :
  valid_binary x = true -> valid_binary y = true ->
  finiteSF x = true -> finiteSF y = true ->
  SFcompare x y = Some (position x ?= position y).
Proof.
  intros Vx Vy Fx Fy.
  destruct x as [sx| | |sx mx ex]; try discriminate;
  destruct y as [sy| | |sy my ey]; try discriminate.
  - reflexivity.
  - pose proof (bounded_range _ _ Vy) as [Hy _].
    pose proof (position_finite sy my Hy) as P.
    change (position (S754_zero sx)) with 0. cbn [SFcompare]. f_equal.
    symmetry. destruct sy; [apply Z.compare_gt_iff | apply Z.compare_lt_iff]; lia.
  - pose proof (bounded_range _ _ Vx) as [Hx _].
    pose proof (position_finite sx mx Hx) as P.
    change (position (S754_zero sy)) with 0. cbn [SFcompare]. f_equal.
    symmetry. destruct sx; [apply Z.compare_lt_iff | apply Z.compare_gt_iff]; lia.
  - cbn [valid_binary] in Vx, Vy.
    pose proof (bounded_range _ _ Vx) as [Hx _].
    pose proof (bounded_range _ _ Vy) as [Hy _].
    pose proof (position_finite sx mx Hx) as Px.
    pose proof (position_finite sy my Hy) as Py.
    cbn [SFcompare]. f_equal. symmetry.
    destruct sx, sy.
    + unfold position. cbn [cond_Zopp].
      destruct (Z.compare_spec ex ey) as [E|E|E].
      * subst ey. rewrite Pos.compare_cont_spec.
        assert (0 < 2 ^ (ex - emin)) by (apply Z.pow_pos_nonneg; lia).
        destruct (Pos.compare_spec mx my) as [E'|E'|E']; cbn [Pos.switch_Eq CompOpp].
        -- apply Z.compare_eq_iff. rewrite E'. reflexivity.
        -- apply Z.compare_gt_iff. nia.
        -- apply Z.compare_lt_iff. nia.
      * pose proof (position_exponent _ _ Vx Vy E). apply Z.compare_gt_iff. lia.
      * pose proof (position_exponent _ _ Vy Vx E). apply Z.compare_lt_iff. lia.
    + apply Z.compare_lt_iff. lia.
    + apply Z.compare_gt_iff. lia.
    + unfold position. cbn [cond_Zopp].
      destruct (Z.compare_spec ex ey) as [E|E|E].
      * subst ey. rewrite Pos.compare_cont_spec.
        assert (0 < 2 ^ (ex - emin)) by (apply Z.pow_pos_nonneg; lia).
        destruct (Pos.compare_spec mx my) as [E'|E'|E']; cbn [Pos.switch_Eq].
        -- apply Z.compare_eq_iff. rewrite E'. reflexivity.
        -- apply Z.compare_lt_iff. nia.
        -- apply Z.compare_gt_iff. nia.
      * pose proof (position_exponent _ _ Vx Vy E). apply Z.compare_lt_iff. lia.
      * pose proof (position_exponent _ _ Vy Vx E). apply Z.compare_gt_iff. lia.
Qed.

Lemma bounded_exponent_max (m : positive) (e : Z) :
  SpecFloat.bounded prec emax m e = true -> e <= emax - prec.
Proof.
  unfold SpecFloat.bounded. intros H. apply andb_true_iff in H.
  destruct H as [_ H]. now apply Z.leb_le in H.
Qed.

(** Every finite double is below [2 ^ emax]. *)
Lemma position_below_top (s : bool) (m : positive) (e : Z) :
  SpecFloat.bounded prec emax m e = true ->
  - 2 ^ (emax - emin) < position (S754_finite s m e) < 2 ^ (emax - emin).
Proof.
  intros B. pose proof (bounded_exponent_max _ _ B) as He.
  apply bounded_range in B. destruct B as (Hm & Hd & _).
  pose proof (digits2_pos_bounds m) as [_ U].
  assert (U' : Zpos m < 2 ^ prec).
  { apply Z.lt_le_trans with (1 := U). apply Z.pow_le_mono_r; lia. }
  assert (P : 2 ^ (e - emin) <= 2 ^ (emax - prec - emin))
    by (apply Z.pow_le_mono_r; lia).
  assert (0 < 2 ^ (e - emin)) by (apply Z.pow_pos_nonneg; lia).
  assert (T : 2 ^ (emax - emin) = 2 ^ prec * 2 ^ (emax - prec - emin)).
  { rewrite <- Z.pow_add_r.
    - f_equal; lia.
    - unfold prec; lia.
    - change (SpecFloat.emin prec emax) with (-1074); unfold emax, prec; lia. }
  assert (S1 : Zpos m * 2 ^ (e - emin) < 2 ^ prec * 2 ^ (e - emin))
    by (apply Z.mul_lt_mono_pos_r; lia).
  assert (S2 : 2 ^ prec * 2 ^ (e - emin) <= 2 ^ prec * 2 ^ (emax - prec - emin)).
  { apply Z.mul_le_mono_nonneg_l; [|exact P]. apply Z.pow_nonneg. lia. }
  unfold position. rewrite T. destruct s; cbn [cond_Zopp]; lia.
Qed.

Lemma top_pos : 0 < 2 ^ (emax - emin).
Proof.
  apply Z.pow_pos_nonneg; [lia|].
  change (SpecFloat.emin prec emax) with (-1074). unfold emax. lia.
Qed.

Lemma SFcompare_position (x y : spec_float) :
  valid_binary x = true -> valid_binary y = true ->
  numberSF x = true -> numberSF y = true ->
  SFcompare x y = Some (position x ?= position y).
Proof.
  intros Vx Vy Nx Ny. pose proof top_pos as T.
  destruct x as [sx|sx| |sx mx ex]; try discriminate;
  destruct y as [sy|sy| |sy my ey]; try discriminate;
    try (apply SFcompare_position_finite; [assumption | assumption | reflexivity | reflexivity]).
  - cbn [SFcompare position]. f_equal. symmetry.
    destruct sy; cbn [cond_Zopp];
      [apply Z.compare_gt_iff | apply Z.compare_lt_iff]; lia.
  - cbn [SFcompare position]. f_equal. symmetry.
    destruct sx; cbn [cond_Zopp];
      [apply Z.compare_lt_iff | apply Z.compare_gt_iff]; lia.
  - cbn [SFcompare position]. f_equal. symmetry.
    destruct sx, sy; cbn [cond_Zopp];
      [apply Z.compare_eq_iff | apply Z.compare_lt_iff
      | apply Z.compare_gt_iff | apply Z.compare_eq_iff]; lia.
  - pose proof (position_below_top sy _ _ Vy) as P.
    cbn [SFcompare]. f_equal. symmetry.
    change (position (S754_infinity sx)) with (cond_Zopp sx (2 ^ (emax - emin))).
    destruct sx; cbn [cond_Zopp];
      [apply Z.compare_lt_iff | apply Z.compare_gt_iff]; lia.
  - pose proof (position_below_top sx _ _ Vx) as P.
    cbn [SFcompare]. f_equal. symmetry.
    change (position (S754_infinity sy)) with (cond_Zopp sy (2 ^ (emax - emin))).
    destruct sy; cbn [cond_Zopp];
      [apply Z.compare_gt_iff | apply Z.compare_lt_iff]; lia.
Qed.

(** The sign of the rounded difference, infinities included: the
    difference of two equal infinities is [NaN], which is not positive. *)
Lemma SFsub_sign (x y : spec_float) :
  valid_binary x = true -> valid_binary y = true ->
  numberSF x = true -> numberSF y = true ->
  SFltb (S754_zero false) (SF64sub y x) = (position x <? position y).
Proof.
  intros Vx Vy Nx Ny. pose proof top_pos as T.
  destruct x as [sx|sx| |sx mx ex]; try discriminate;
  destruct y as [sy|sy| |sy my ey]; try discriminate;
    try (apply SFsub_sign_finite; [assumption | assumption | reflexivity | reflexivity]).
  - unfold SF64sub. cbn [SFsub position]. symmetry.
    destruct sy; cbn [cond_Zopp SFltb SFcompare];
      [apply Z.ltb_ge | apply Z.ltb_lt]; lia.
  - unfold SF64sub. cbn [SFsub position]. symmetry.
    destruct sx; cbn [negb cond_Zopp SFltb SFcompare];
      [apply Z.ltb_lt | apply Z.ltb_ge]; lia.
  - unfold SF64sub. cbn [SFsub position]. symmetry.
    destruct sx, sy; cbn [cond_Zopp SFltb SFcompare];
      [apply Z.ltb_ge | apply Z.ltb_lt | apply Z.ltb_ge | apply Z.ltb_ge]; lia.
  - pose proof (position_below_top sy _ _ Vy) as P.
    unfold SF64sub. cbn [SFsub]. symmetry.
    change (position (S754_infinity sx)) with (cond_Zopp sx (2 ^ (emax - emin))).
    destruct sx; cbn [negb cond_Zopp SFltb SFcompare];
      [apply Z.ltb_lt | apply Z.ltb_ge]; lia.
  - pose proof (position_below_top sx _ _ Vx) as P.
    unfold SF64sub. cbn [SFsub]. symmetry.
    change (position (S754_infinity sy)) with (cond_Zopp sy (2 ^ (emax - emin))).
    destruct sy; cbn [cond_Zopp SFltb SFcompare];
      [apply Z.ltb_ge | apply Z.ltb_lt]; lia.
Qed.

(** *** No operation on numbers rounds to [NaN] *)

Lemma shr_1_nonneg (mrs : shr_record) : 0 <= shr_m mrs -> 0 <= shr_m (shr_1 mrs).
Proof.
  destruct mrs as [m r s]. cbn [shr_m].
  destruct m as [|[p|p|]|p]; cbn [shr_1 shr_m]; lia.
Qed.

Lemma iter_shr_1_nonneg (p : positive) : forall mrs : shr_record,
  0 <= shr_m mrs -> 0 <= shr_m (SpecFloat.iter_pos shr_1 p mrs).
Proof.
  induction p as [p IH|p IH|]; intros mrs H; cbn [SpecFloat.iter_pos].
  - apply IH, IH. now apply shr_1_nonneg.
  - now apply IH, IH.
  - now apply shr_1_nonneg.
Qed.

Lemma shr_fexp_nonneg (m e : Z) (l : location) :
  0 <= m -> 0 <= shr_m (fst (shr_fexp prec emax m e l)).
Proof.
  intros H. unfold shr_fexp, shr.
  destruct (fexp prec emax (Zdigits2 m + e) - e) as [|p|p]; cbn [fst];
    try apply iter_shr_1_nonneg; now rewrite shr_record_of_loc_m.
Qed.

Lemma binary_round_aux_number (s : bool) (m e : Z) (l : location) :
  0 <= m -> numberSF (binary_round_aux prec emax s m e l) = true.
Proof.
  intros H. unfold binary_round_aux.
  pose proof (shr_fexp_nonneg e l H) as H1.
  destruct (shr_fexp prec emax m e l) as [mrs' e']. cbn [fst] in H1.
  assert (H2 : 0 <= round_nearest_even (shr_m mrs') (loc_of_shr_record mrs')).
  { unfold round_nearest_even. destruct (loc_of_shr_record mrs') as [|[]]; try lia.
    destruct (Z.even (shr_m mrs')); lia. }
  pose proof (shr_fexp_nonneg e' loc_Exact H2) as H3.
  destruct (shr_fexp prec emax _ e' loc_Exact) as [mrs'' e'']. cbn [fst] in H3.
  destruct (shr_m mrs'') as [|m2|m2]; try lia; [reflexivity|].
  destruct (e'' <=? emax - prec); reflexivity.
Qed.

Lemma binary_normalize_number (m e : Z) (szero : bool) :
  numberSF (binary_normalize prec emax m e szero) = true.
Proof.
  destruct m as [|p|p]; cbn [binary_normalize]; [reflexivity| |];
    unfold binary_round;
    destruct (shl_align p e _) as [mz ez]; apply binary_round_aux_number; lia.
Qed.

(** A number times a finite number other than zero. *)
Lemma SFmul_number (x c : spec_float) :
  numberSF x = true -> properSF c = true -> numberSF (SF64mul x c) = true.
Proof.
  intros Nx Pc. destruct c as [| | |sc mc ec]; try discriminate.
  destruct x as [sx|sx| |sx mx ex]; try discriminate; unfold SF64mul; cbn [SFmul];
    try reflexivity.
  apply binary_round_aux_number. lia.
Qed.

(** A number plus or minus a finite number. *)
Lemma SFadd_number (x c : spec_float) :
  numberSF x = true -> finiteSF c = true ->
  numberSF (SF64add x c) = true /\ numberSF (SF64add c x) = true /\
  numberSF (SF64sub x c) = true.
Proof.
  intros Nx Fc.
  destruct c as [sc| | |sc mc ec]; try discriminate;
    destruct x as [sx|sx| |sx mx ex]; try discriminate;
    unfold SF64add, SF64sub; cbn [SFadd SFsub];
    repeat split;
    try reflexivity; try (destruct sx, sc; reflexivity);
    apply binary_normalize_number.
Qed.

End DoubleOrder.

(** The comparisons of doubles other than [NaN] are those of their
    positions. *)
Section Numbers.

Local Open Scope float_scope.

Variables x y : float.
Hypothesis number_x : Double.isNaN x = false.
Hypothesis number_y : Double.isNaN y = false.

Lemma isNaN_numberSF (z : float) :
  Double.isNaN z = false -> numberSF (Prim2SF z) = true.
Proof. unfold Double.isNaN. now destruct (Prim2SF z). Qed.

Lemma double_leb :
  (x <=? y) = (position (Prim2SF x) <=? position (Prim2SF y))%Z.
Proof.
  rewrite FloatAxioms.leb_spec. unfold SFleb.
  rewrite SFcompare_position
    by (try apply Prim2SF_valid; now apply isNaN_numberSF).
  unfold Z.leb.
  destruct (position (Prim2SF x) ?= position (Prim2SF y))%Z; reflexivity.
Qed.

Lemma double_eqb :
  (x =? y) = (position (Prim2SF x) =? position (Prim2SF y))%Z.
Proof.
  rewrite FloatAxioms.eqb_spec. unfold SFeqb.
  rewrite SFcompare_position
    by (try apply Prim2SF_valid; now apply isNaN_numberSF).
  destruct (Z.compare_spec (position (Prim2SF x)) (position (Prim2SF y)))
    as [E|E|E]; symmetry.
  - now apply Z.eqb_eq.
  - apply Z.eqb_neq. lia.
  - apply Z.eqb_neq. lia.
Qed.

(** The comparator of the rankings: the rounded difference [y - x] is
    positive exactly when [x] is below [y]. *)
Lemma double_sub_sign :
  (0 <? y - x) = (position (Prim2SF x) <? position (Prim2SF y))%Z.
Proof.
  rewrite FloatAxioms.ltb_spec, FloatAxioms.sub_spec.
  change (Prim2SF 0) with (S754_zero false).
  apply SFsub_sign; try apply Prim2SF_valid; now apply isNaN_numberSF.
Qed.

End Numbers.

(** Nothing equals [NaN]. *)
Lemma double_eqb_NaN (x v : float) :
  Double.isNaN v = true -> (x =? v)%float = false.
Proof.
  unfold Double.isNaN. rewrite FloatAxioms.eqb_spec. unfold SFeqb.
  destruct (Prim2SF v); try discriminate. intros _.
  now destruct (Prim2SF x).
Qed.

Section NumberOps.

Local Open Scope float_scope.

Variables x c : float.
Hypothesis number_x : Double.isNaN x = false.

Lemma numberSF_isNaN (z : float) :
  numberSF (Prim2SF z) = true -> Double.isNaN z = false.
Proof. unfold Double.isNaN. now destruct (Prim2SF z). Qed.

Lemma mul_number : properSF (Prim2SF c) = true -> Double.isNaN (x * c) = false.
Proof.
  intros Pc. apply numberSF_isNaN. rewrite FloatAxioms.mul_spec.
  apply SFmul_number; [now apply isNaN_numberSF | exact Pc].
Qed.

Lemma add_number_r : finiteSF (Prim2SF c) = true -> Double.isNaN (x + c) = false.
Proof.
  intros Fc. apply numberSF_isNaN. rewrite FloatAxioms.add_spec.
  exact (proj1 (@SFadd_number _ _ (@isNaN_numberSF _ number_x) Fc)).
Qed.

Lemma add_number_l : finiteSF (Prim2SF c) = true -> Double.isNaN (c + x) = false.
Proof.
  intros Fc. apply numberSF_isNaN. rewrite FloatAxioms.add_spec.
  exact (proj1 (proj2 (@SFadd_number _ _ (@isNaN_numberSF _ number_x) Fc))).
Qed.

Lemma sub_number_r : finiteSF (Prim2SF c) = true -> Double.isNaN (x - c) = false.
Proof.
  intros Fc. apply numberSF_isNaN. rewrite FloatAxioms.sub_spec.
  exact (proj2 (proj2 (@SFadd_number _ _ (@isNaN_numberSF _ number_x) Fc))).
Qed.

End NumberOps.

(** ** The stable sort with a comparator known on the list only *)

Section SortExt.
Variable A : Type.
Variables after after' : A -> A -> bool.

Lemma sortInsert_ext (x : A) (l : list A) :
  (forall y, In y l -> after x y = after' x y) ->
  Js.sortInsert after x l = Js.sortInsert after' x l.
Proof.
  induction l as [|y r IH]; intros H; simpl.
  - reflexivity.
  - rewrite <- (H y (or_introl eq_refl)).
    destruct (after x y); [|reflexivity].
    f_equal. apply IH. intros z Hz. apply H. now right.
Qed.

Lemma sort_ext (l : list A) :
  (forall x y, In x l -> In y l -> after x y = after' x y) ->
  Js.sort after l = Js.sort after' l.
Proof.
  induction l as [|x r IH]; intros H; simpl.
  - reflexivity.
  - rewrite IH by (intros u v Hu Hv; apply H; now right).
    apply sortInsert_ext. intros y Hy.
    apply H; [now left | right].
    apply (Permutation_in _ (sort_perm after' r)). exact Hy.
Qed.

End SortExt.

Lemma StronglySorted_weaken_in (A : Type) (R1 R2 : A -> A -> Prop) (l : list A) :
  (forall x y, In x l -> In y l -> R1 x y -> R2 x y) ->
  StronglySorted R1 l -> StronglySorted R2 l.
Proof.
  intros H S. induction S as [|x r Hr IH Hx].
  - constructor.
  - constructor.
    + apply IH. intros u v Hu Hv. apply H; now right.
    + rewrite Forall_forall in *. intros y Hy.
      apply H; [now left | now right | now apply Hx].
Qed.

Lemma filter_none (A : Type) (p : A -> bool) (l : list A) :
  (forall x, In x l -> p x = false) -> filter p l = [].
Proof.
  induction l as [|x r IH]; intros H; simpl.
  - reflexivity.
  - rewrite (H x (or_introl eq_refl)). apply IH. intros y Hy. apply H. now right.
Qed.

(** ** Ranking by a score that is a double *)

Section DoubleRank.

Variable A : Type.
Variable score : A -> float.
Variable l : list A.
Hypothesis number_scores : Forall (fun x => Double.isNaN (score x) = false) l.

(** On scores other than [NaN] the comparator of the source orders by
    position. *)
Lemma sort_by_position :
  Js.sort (fun a b => (0 <? score b - score a)%float) l
  = Js.sort (fun a b => (position (Prim2SF (score a))
                         <? position (Prim2SF (score b)))%Z) l.
Proof.
  apply sort_ext. intros x y Hx Hy. rewrite Forall_forall in number_scores.
  apply double_sub_sign; now apply number_scores.
Qed.

Lemma rank_sorted :
  StronglySorted (fun x y => (score y <=? score x)%float = true)
    (Js.sort (fun a b => (0 <? score b - score a)%float) l).
Proof.
  rewrite sort_by_position. rewrite Forall_forall in number_scores.
  eapply StronglySorted_weaken_in; [| apply sort_sorted].
  - intros x y Hx Hy H. cbv beta in H.
    apply (Permutation_in _ (sort_perm _ l)) in Hx.
    apply (Permutation_in _ (sort_perm _ l)) in Hy.
    rewrite double_leb by now apply number_scores.
    apply Z.leb_le. apply Z.ltb_ge in H. exact H.
  - intros x y H. apply Z.ltb_lt in H. apply Z.ltb_ge. lia.
  - intros x y z H1 H2. apply Z.ltb_ge in H1, H2. apply Z.ltb_ge. lia.
Qed.

Lemma rank_stable (v : float) :
  filter (fun x => (score x =? v)%float)
    (Js.sort (fun a b => (0 <? score b - score a)%float) l)
  = filter (fun x => (score x =? v)%float) l.
Proof.
  rewrite sort_by_position. rewrite Forall_forall in number_scores.
  destruct (Double.isNaN v) eqn:Nv.
  - rewrite !filter_none; [reflexivity | |]; intros x _; now apply double_eqb_NaN.
  - transitivity
      (filter (fun x => (position (Prim2SF (score x)) =? position (Prim2SF v))%Z)
         (Js.sort (fun a b => (position (Prim2SF (score a))
                               <? position (Prim2SF (score b)))%Z) l)).
    + apply filter_ext_in. intros x Hx.
      apply (Permutation_in _ (sort_perm _ l)) in Hx.
      apply double_eqb; [now apply number_scores | exact Nv].
    + rewrite sort_filter.
      * symmetry. apply filter_ext_in. intros x Hx.
        apply double_eqb; [now apply number_scores | exact Nv].
      * intros x y Hx Hxy. cbv beta in *.
        apply Z.eqb_eq in Hx. apply Z.ltb_lt in Hxy. apply Z.eqb_neq. lia.
Qed.

End DoubleRank.

(** The weights of the program are the doubles nearest to the weights of
    the formula. *)
Lemma computeBranchWeight_nearest (itemBranch : option string)
  (currentBranch : string) :
  Scoring.Binary64.computeBranchWeight itemBranch currentBranch
  = Double.ofQ (Scoring.computeBranchWeight itemBranch currentBranch).
Proof.
  unfold Scoring.Binary64.computeBranchWeight, Scoring.computeBranchWeight.
  repeat match goal with
         | |- context [if ?c then _ else _] => destruct c
         end; reflexivity.
Qed.

(** The two weights and their weighted sum are among sixteen doubles, all
    finite. *)
Lemma weights_finite (parseDate : string -> option Z) (now : Z)
  (itemBranch : option string) (createdAt currentBranch : string) (w : float) :
  In w [0.4; 0.5]%float ->
  finiteSF
    (Prim2SF (Scoring.Binary64.computeBranchWeight itemBranch currentBranch * w
              + Scoring.Binary64.computeRecencyWeight parseDate now createdAt * w)%float)
  = true.
Proof.
  intros Hw. unfold Scoring.Binary64.computeBranchWeight,
    Scoring.Binary64.computeRecencyWeight.
  destruct Hw as [<-|[<-|[]]];
    repeat match goal with
           | |- context [if ?c then _ else _] => destruct c
           end; reflexivity.
Qed.

(** The score of a session is never [NaN]. *)
Lemma scoreSession_number (parseDate : string -> option Z) (now : Z)
  (s : Session.t) (currentBranch : string) :
  Double.isNaN
    (Scoring.Binary64.score
       (Scoring.Binary64.scoreSession parseDate now s currentBranch)) = false.
Proof.
  unfold Scoring.Binary64.scoreSession. cbn [Scoring.Binary64.score].
  pose proof (@weights_finite parseDate now (Some (Session.branch s))
                (Session.startedAt s) currentBranch 0.5%float) as H.
  unfold Double.isNaN.
  destruct (Prim2SF _); [reflexivity | reflexivity | | reflexivity].
  discriminate H. right. now left.
Qed.

(** The relevance score is [NaN] only if [Math.log] returns [NaN]. *)
Lemma relevanceScore_number (mathLog : float -> float)
  (parseDate : string -> option Z) (now : Z) (k : Knowledge.t)
  (currentBranch : string) :
  (forall n, Double.isNaN (mathLog (Double.ofNat n + 1)%float) = false) ->
  Double.isNaN
    (Scoring.Binary64.relevanceScore
       (Scoring.Binary64.computeRelevanceScore mathLog parseDate now k currentBranch))
  = false.
Proof.
  intros Hlog. unfold Scoring.Binary64.computeRelevanceScore,
    Scoring.Binary64.computeUsageWeight.
  cbn [Scoring.Binary64.relevanceScore].
  apply add_number_r; [|reflexivity].
  apply add_number_l; [|apply weights_finite; now left].
  apply mul_number; [|reflexivity].
  apply sub_number_r; [|reflexivity].
  apply add_number_l; [|reflexivity].
  apply mul_number; [|reflexivity].
  apply Hlog.
Qed.



(** The item on [main], 59 days old, scores
    [0.7 * 0.4 + 0.3 * 0.4 + 0 * 0.2 + 0.2] and the item without a branch,
    10 days old, [0.5 * 0.4 + 0.5 * 0.4 + 0 * 0.2 + 0.2]: both are 3/5
    over the reals, but the doubles differ in the last bit and the second
    item is ranked first. *)
Example rankKnowledge_last_bit :
  map Scoring.Binary64.knowledge
    (Scoring.rankKnowledge sampleLog sampleDates sampleNow
       [itemOnMain; itemNoBranch] "feature-x")
  = [itemNoBranch; itemOnMain] /\
  map Scoring.Binary64.relevanceScore
    (Scoring.rankKnowledge sampleLog sampleDates sampleNow
       [itemOnMain; itemNoBranch] "feature-x")
  = [0.60000000000000009%float; 0.59999999999999998%float] /\
  Scoring.relevanceScore
    (Scoring.computeRelevanceScore sampleDates sampleNow itemOnMain "feature-x")
  = Scoring.relevanceScore
      (Scoring.computeRelevanceScore sampleDates sampleNow itemNoBranch "feature-x").
Proof.
  split; [vm_compute; reflexivity|]. split; [vm_compute; reflexivity|].
  unfold Scoring.computeRelevanceScore. cbn [Scoring.relevanceScore].
  assert (B1 : Scoring.computeBranchWeight (Knowledge.branch itemOnMain) "feature-x"
               = (7 # 10)%Q) by reflexivity.
  assert (B2 : Scoring.computeBranchWeight (Knowledge.branch itemNoBranch) "feature-x"
               = (5 # 10)%Q) by reflexivity.
  assert (R1 : Scoring.computeRecencyWeight sampleDates sampleNow
                 (Knowledge.createdAt itemOnMain) = (3 # 10)%Q)
    by (vm_compute; reflexivity).
  assert (R2 : Scoring.computeRecencyWeight sampleDates sampleNow
                 (Knowledge.createdAt itemNoBranch) = (5 # 10)%Q)
    by (vm_compute; reflexivity).
  rewrite B1, B2, R1, R2. cbn [Knowledge.usageCount itemOnMain itemNoBranch sampleItem].
  unfold Q2R. simpl. lra.
Qed.

(** ** The relevance score *)

Section ScoreFormula.

Local Open Scope R_scope.

Lemma Q2R_computeBranchWeight (itemBranch : option string) (currentBranch : string) :
  Q2R (Scoring.computeBranchWeight itemBranch currentBranch)
  = branchWeightOf itemBranch currentBranch.
Proof.
  unfold Scoring.computeBranchWeight, branchWeightOf, Js.truthy, Js.strictEq.
  destruct itemBranch as [b|]; simpl.
  - destruct (string_dec b "") as [->|Hne]; simpl.
    + unfold Q2R; simpl; lra.
    + destruct (String.eqb_spec b ""); [contradiction|]. simpl.
      destruct (string_dec b currentBranch) as [->|Hc].
      * rewrite String.eqb_refl. unfold Q2R; simpl; lra.
      * destruct (String.eqb_spec b currentBranch); [contradiction|].
        destruct (string_dec b "main") as [->|Hm]; simpl.
        -- unfold Q2R; simpl; lra.
        -- destruct (String.eqb_spec b "main"); [contradiction|]. simpl.
           destruct (string_dec b "master") as [->|Hs]; simpl.
           ++ unfold Q2R; simpl; lra.
           ++ destruct (String.eqb_spec b "master"); [contradiction|].
              unfold Q2R; simpl; lra.
  - unfold Q2R; simpl; lra.
Qed.

Lemma days_lt (age k : Z) :
  (inject_Z age / inject_Z Scoring.msPerDay < inject_Z k)%Q <->
  (age < k * 86400000)%Z.
Proof.
  change Scoring.msPerDay with (Z.pos 86400000).
  rewrite <- Qmake_Qdiv. unfold Qlt, inject_Z. cbn [Qnum Qden].
  rewrite Z.mul_1_r. reflexivity.
Qed.

Lemma Q2R_computeRecencyWeight (parseDate : string -> option Z) (now : Z)
  (createdAt : string) :
  Q2R (Scoring.computeRecencyWeight parseDate now createdAt)
  = recencyStep (option_map (fun created => (now - created)%Z) (parseDate createdAt)).
Proof.
  unfold Scoring.computeRecencyWeight, recencyStep.
  destruct (parseDate createdAt) as [created|]; cbn [option_map];
    [|unfold Q2R; simpl; lra].
  generalize (now - created)%Z. intros age.
  destruct (Qlt_le_dec _ 1) as [H1|H1].
  - apply (days_lt age 1) in H1.
    destruct (Z_lt_dec age 86400000); [unfold Q2R; simpl; lra | lia].
  - destruct (Z_lt_dec age 86400000) as [H1'|H1'].
    { exfalso. apply (Qle_not_lt _ _ H1). apply (days_lt age 1). lia. }
    destruct (Qlt_le_dec _ 7) as [H7|H7].
    + apply (days_lt age 7) in H7.
      destruct (Z_lt_dec age (7 * 86400000)); [unfold Q2R; simpl; lra | lia].
    + destruct (Z_lt_dec age (7 * 86400000)) as [H7'|H7'].
      { exfalso. apply (Qle_not_lt _ _ H7). apply (days_lt age 7). lia. }
      destruct (Qlt_le_dec _ 30) as [H30|H30].
      * apply (days_lt age 30) in H30.
        destruct (Z_lt_dec age (30 * 86400000)); [unfold Q2R; simpl; lra | lia].
      * destruct (Z_lt_dec age (30 * 86400000)) as [H30'|H30'].
        { exfalso. apply (Qle_not_lt _ _ H30). apply (days_lt age 30). lia. }
        unfold Q2R; simpl; lra.
Qed.

End ScoreFormula.

(** C4, as amended.  The relevance score of a knowledge item is
    [branchWeight * 0.4 + recencyWeight * 0.4 + (usageWeight - 1.0) * 0.2 + 0.2]
    and the score of a session is [branchWeight * 0.5 + recencyWeight * 0.5],
    where the branch weight is 0.5 for an absent or empty branch and
    otherwise 1.0 for the current branch, 0.7 for [main] or [master] and
    0.3 for any other name; the recency weight is the step function of
    the age (1.0 below one day, 0.8 below seven, 0.5 below thirty, else
    0.3); and the usage weight is [1.0 + ln (usageCount + 1) * 0.1]. *)
Theorem relevance_score_formula
  (parseDate : string -> option Z) (now : Z) (currentBranch : string)
  (k : Knowledge.t) (s : Session.t) :
  let age createdAt := option_map (fun created => (now - created)%Z) (parseDate createdAt) in
  let scored := Scoring.computeRelevanceScore parseDate now k currentBranch in
  (Scoring.relevanceScore scored
   = branchWeightOf k.(Knowledge.branch) currentBranch * 0.4
     + recencyStep (age k.(Knowledge.createdAt)) * 0.4
     + (usageWeightOf (match k.(Knowledge.usageCount) with Some n => n | None => 0%nat end)
        - 1.0) * 0.2
     + 0.2)%R /\
  Q2R (Scoring.branchWeight scored) = branchWeightOf k.(Knowledge.branch) currentBranch /\
  Q2R (Scoring.recencyWeight scored) = recencyStep (age k.(Knowledge.createdAt)) /\
  Scoring.knowledge scored = k /\
  (Scoring.score (Scoring.scoreSession parseDate now s currentBranch)
   = branchWeightOf (Some s.(Session.branch)) currentBranch * 0.5
     + recencyStep (age s.(Session.startedAt)) * 0.5)%R.
Proof.
  intros age scored. subst scored. unfold Scoring.computeRelevanceScore,
    Scoring.scoreSession, Scoring.computeUsageWeight, usageWeightOf.
  cbn [Scoring.relevanceScore Scoring.branchWeight Scoring.recencyWeight
       Scoring.knowledge Scoring.score].
  rewrite !Q2R_computeBranchWeight, !Q2R_computeRecencyWeight.
  fold (age (Knowledge.createdAt k)). fold (age (Session.startedAt s)).
  repeat split; lra.
Qed.

(** C4, counterexample to the claim as stated.  A session recorded on the
    empty branch name, ranked while the current branch is the empty name
    too: its branch equals the current branch, yet the branch weight is
    0.5, not 1.0, and the score is 0.75, not 1.0. *)
Lemma relevance_score_counterexample :
  Session.branch emptyBranchSession = "" /\
  Scoring.computeBranchWeight (Some (Session.branch emptyBranchSession)) "" = 5 # 10 /\
  branchWeightClaimed (Some (Session.branch emptyBranchSession)) "" = 1%R /\
  (Scoring.score (Scoring.scoreSession (fun _ => Some 0%Z) 0 emptyBranchSession "")
   <> branchWeightClaimed (Some (Session.branch emptyBranchSession)) "" * 0.5
      + recencyStep (Some 0%Z) * 0.5)%R.
Proof.
  split; [reflexivity|]. split; [reflexivity|].
  assert (Hc : branchWeightClaimed (Some (Session.branch emptyBranchSession)) "" = 1%R).
  { unfold branchWeightClaimed. simpl. destruct (string_dec "" ""); [lra | congruence]. }
  split; [exact Hc|]. rewrite Hc.
  unfold Scoring.scoreSession. cbn [Scoring.score].
  rewrite Q2R_computeBranchWeight, Q2R_computeRecencyWeight.
  unfold branchWeightOf, recencyStep. simpl.
  destruct (string_dec "" ""); [|congruence].
  destruct (Z_lt_dec 0 86400000); [lra | lia].
Qed.

(** ** Session lifecycle *)

Lemma update_none (A : Type) (cond : A -> bool) (set : A -> A) (rows : list A) :
  (forall r, In r rows -> cond r = false) ->
  Sql.update cond set rows = (rows, 0).
Proof.
  intros H. unfold Sql.update. f_equal.
  - rewrite <- (map_id rows) at 2. apply map_ext_in.
    intros r Hr. now rewrite (H r Hr).
  - induction rows as [|x r IH]; simpl; [reflexivity|].
    rewrite (H x (or_introl eq_refl)). apply IH. intros y Hy. apply H. now right.
Qed.

(** C7. Ending a session that is not active (completed, abandoned or
    absent) changes no stored session and is answered "not found or
    already ended"; in particular a second [session_end] of the same
    session leaves what the first one stored untouched. *)
Theorem session_end_inactive_noop
  (db : Sessions.table) (sessionId : string)
  (now1 now2 : string) (summary1 summary2 commit1 commit2 : option string) :
  ((forall r, In r db -> r.(SessionRow.session_id) = sessionId ->
              r.(SessionRow.status) <> active) ->
   Tools.handleSessionEnd db now1 sessionId summary1 commit1
   = (db, Tools.EndNotFound sessionId)) /\
  (let db1 := fst (Tools.handleSessionEnd db now1 sessionId summary1 commit1) in
   Tools.handleSessionEnd db1 now2 sessionId summary2 commit2
   = (db1, Tools.EndNotFound sessionId)).
Proof.
  assert (Hnoop : forall (t : Sessions.table) now summary' commit,
             (forall r, In r t -> r.(SessionRow.session_id) = sessionId ->
                        r.(SessionRow.status) <> active) ->
             Tools.handleSessionEnd t now sessionId summary' commit
             = (t, Tools.EndNotFound sessionId)).
  { intros t now summary' commit H.
    unfold Tools.handleSessionEnd, Sessions.endSession.
    rewrite update_none; [reflexivity|].
    intros r Hr. unfold Sessions.whereActiveId.
    destruct (String.eqb_spec (SessionRow.session_id r) sessionId) as [He|He];
      [|reflexivity].
    simpl. specialize (H r Hr He).
    destruct (SessionRow.status r); simpl; congruence. }
  split; [apply Hnoop|].
  intros db1. apply Hnoop.
  intros r Hr Hid. subst db1.
  unfold Tools.handleSessionEnd, Sessions.endSession, Sql.update in Hr.
  assert (Hdb1 : In r (map (fun r0 => if Sessions.whereActiveId sessionId r0
                                      then Sessions.setCompleted now1 summary1 commit1 r0
                                      else r0) db)).
  { destruct (_ =? 0); [exact Hr|].
    destruct (Sessions.getSession _ _); exact Hr. }
  apply in_map_iff in Hdb1. destruct Hdb1 as (r0 & Hr0 & _).
  destruct (Sessions.whereActiveId sessionId r0) eqn:Hw; subst r.
  - simpl. discriminate.
  - unfold Sessions.whereActiveId in Hw. rewrite Hid, String.eqb_refl in Hw.
    simpl in Hw. intros Hs. rewrite Hs in Hw. discriminate.
Qed.

Lemma session_end_inactive_noop_witness :
  Tools.handleSessionEnd
    [exampleSession "s1" "/test/project" completed;
     exampleSession "s2" "/test/project" active]
    "2026-01-16T09:00:00.000Z" "s1" (Some "Second summary") None
  = ([exampleSession "s1" "/test/project" completed;
      exampleSession "s2" "/test/project" active],
     Tools.EndNotFound "s1").
Proof.
  apply (proj1 (session_end_inactive_noop
                  [exampleSession "s1" "/test/project" completed;
                   exampleSession "s2" "/test/project" active]
                  "s1" "2026-01-16T09:00:00.000Z" "2026-01-16T09:00:00.000Z"
                  (Some "Second summary") None None None)).
  intros r [<-|[<-|[]]] Hid; simpl in *; discriminate.
Defined.

Lemma filter_update_shrinks (A : Type) (keep cond : A -> bool) (set : A -> A)
  (rows : list A) :
  (forall r, keep (set r) = true -> keep r = true) ->
  List.length (filter keep (map (fun r => if cond r then set r else r) rows))
  <= List.length (filter keep rows).
Proof.
  intros H. induction rows as [|x r IH]; simpl; [lia|].
  destruct (cond x).
  - destruct (keep (set x)) eqn:Hk.
    + rewrite (H x Hk). simpl. lia.
    + destruct (keep x); simpl; lia.
  - destruct (keep x); simpl; lia.
Qed.

Lemma abandon_clears (p now : string) (db : Sessions.table) :
  activeIn (fst (Sessions.abandonStaleSessions db p now)) p = [].
Proof.
  unfold activeIn, Sessions.abandonStaleSessions, Sql.update. simpl.
  induction db as [|x r IH]; simpl; [reflexivity|].
  destruct (Sessions.whereActiveProject p x) eqn:Hx; simpl.
  - unfold Sessions.whereActiveProject at 1. simpl.
    rewrite andb_false_r. exact IH.
  - rewrite Hx. exact IH.
Qed.

Lemma abandon_other (p q now : string) (db : Sessions.table) :
  List.length (activeIn (fst (Sessions.abandonStaleSessions db p now)) q)
  <= List.length (activeIn db q).
Proof.
  unfold activeIn, Sessions.abandonStaleSessions, Sql.update. simpl.
  apply filter_update_shrinks.
  intros r. unfold Sessions.whereActiveProject. simpl.
  rewrite andb_false_r. discriminate.
Qed.

Lemma abandon_preserves (p now : string) (db : Sessions.table) :
  atMostOneActive db ->
  atMostOneActive (fst (Sessions.abandonStaleSessions db p now)).
Proof.
  intros H q. eapply Nat.le_trans; [apply abandon_other | apply H].
Qed.

Lemma end_preserves (db : Sessions.table) (now sessionId : string)
  (summary' commit : option string) :
  atMostOneActive db ->
  atMostOneActive (fst (Tools.handleSessionEnd db now sessionId summary' commit)).
Proof.
  intros H q.
  unfold Tools.handleSessionEnd, Sessions.endSession, Sql.update.
  assert (Hle : List.length
            (activeIn (map (fun r => if Sessions.whereActiveId sessionId r
                                     then Sessions.setCompleted now summary' commit r
                                     else r) db) q) <= 1).
  { eapply Nat.le_trans; [|apply (H q)]. unfold activeIn.
    apply filter_update_shrinks.
    intros r. unfold Sessions.whereActiveProject. simpl.
    rewrite andb_false_r. discriminate. }
  destruct (_ =? 0); [exact Hle|].
  destruct (Sessions.getSession _ _); exact Hle.
Qed.

Lemma existsb_session_id_fresh (db : Sessions.table) (id : string) :
  (forall r, In r db -> r.(SessionRow.session_id) <> id) ->
  existsb (fun r => String.eqb r.(SessionRow.session_id) id) db = false.
Proof.
  intros H. induction db as [|x r IH]; simpl; [reflexivity|].
  destruct (String.eqb_spec (SessionRow.session_id x) id) as [He|He].
  - exfalso. apply (H x); [now left | exact He].
  - apply IH. intros y Hy. apply H. now right.
Qed.

Lemma update_keeps_ids (cond : SessionRow.t -> bool) (set : SessionRow.t -> SessionRow.t)
  (db : Sessions.table) (id : string) :
  (forall r, SessionRow.session_id (set r) = SessionRow.session_id r) ->
  (forall r, In r db -> r.(SessionRow.session_id) <> id) ->
  forall r, In r (fst (Sql.update cond set db)) -> r.(SessionRow.session_id) <> id.
Proof.
  intros Hset H r Hr. unfold Sql.update in Hr. simpl in Hr.
  apply in_map_iff in Hr. destruct Hr as (r0 & <- & Hr0).
  destruct (cond r0); [rewrite Hset|]; now apply H.
Qed.

(** C2. Every tool operation preserves "at most one active session per
    project path"; [session_start] abandons all active sessions of the
    project, then creates exactly one active session, and afterwards
    [getActiveSession] returns that new session and no other. *)
Theorem session_start_single_active
  (db : Sessions.table) (env : Tools.StartEnv) (args : Tools.StartArgs) :
  let p := args.(Tools.projectPath) in
  let now := env.(Tools.nowISO) in
  let db' := fst (Tools.handleSessionStart db env args) in
  (* every operation preserves the invariant *)
  ((atMostOneActive db -> atMostOneActive db') /\
   (forall t sid s c,
       atMostOneActive db ->
       atMostOneActive (fst (Tools.handleSessionEnd db t sid s c))) /\
   (forall D t id sid ty d,
       Tools.sessions (fst (Tools.handleRecordEvent D t id sid ty d)) = Tools.sessions D) /\
   (forall D t id a,
       Tools.sessions (fst (Tools.handlePromoteKnowledge D t id a)) = Tools.sessions D)) /\
  (* what session_start does when the generated identifier is new *)
  ((forall r, In r db -> r.(SessionRow.session_id) <> env.(Tools.generatedId)) ->
   exists session,
     Tools.handleSessionStart db env args
     = (db', Tools.SessionStarted session (List.length (activeIn db p))) /\
     session.(Session.sessionId) = env.(Tools.generatedId) /\
     session.(Session.projectPath) = p /\
     session.(Session.status) = active /\
     db' = map (fun r => if Sessions.whereActiveProject p r
                         then Sessions.setAbandoned now r else r) db
           ++ [Sessions.insertedRow session] /\
     (forall r, In r db -> Sessions.whereActiveProject p r = true ->
                In (Sessions.setAbandoned now r) db') /\
     activeIn db' p = [Sessions.insertedRow session] /\
     Sessions.getActiveSession db' p = Some session).
Proof.
  intros p now db'.
  assert (Hstart : atMostOneActive db -> atMostOneActive db').
  { intros H. subst db'. unfold Tools.handleSessionStart.
    pose proof (abandon_preserves p now H) as Hab.
    pose proof (abandon_clears p now db) as Hcl.
    fold p now.
    destruct (Sessions.abandonStaleSessions db p now) as [db1 n] eqn:E.
    simpl in Hab, Hcl.
    match goal with |- context [Sessions.createSession db1 ?s] => set (session := s) end.
    unfold Sessions.createSession.
    destruct (existsb _ db1); simpl; [exact Hab|].
    intros q. unfold activeIn. rewrite filter_app, length_app.
    simpl. unfold Sessions.whereActiveProject at 2. simpl.
    destruct (String.eqb_spec p q) as [<-|Hpq]; simpl.
    - unfold activeIn in Hcl. rewrite Hcl. simpl. lia.
    - rewrite Nat.add_0_r. apply Hab. }
  split; [split; [exact Hstart | split; [|split]]|].
  - intros t sid s c H. now apply end_preserves.
  - intros D t id sid ty d. unfold Tools.handleRecordEvent.
    destruct (Sessions.getSession _ _); [|reflexivity].
    destruct (negb _); [reflexivity|].
    destruct (Events.insertEvent _ _ _); reflexivity.
  - intros D t id a. unfold Tools.handlePromoteKnowledge, Tools.promote.
    destruct (negb _).
    + destruct (Duplicates.findDuplicates _ _ _ _); [|reflexivity].
      destruct (KnowledgeStore.insertKnowledge _ _ _ _); reflexivity.
    + destruct (KnowledgeStore.insertKnowledge _ _ _ _); reflexivity.
  - intros Hfresh. subst db'. unfold Tools.handleSessionStart.
    fold p now.
    pose proof (abandon_clears p now db) as Hcl.
    assert (Hfresh1 : forall r, In r (fst (Sessions.abandonStaleSessions db p now)) ->
                                r.(SessionRow.session_id) <> env.(Tools.generatedId)).
    { apply update_keeps_ids; [reflexivity | exact Hfresh]. }
    unfold Sessions.abandonStaleSessions, Sql.update in *. simpl in Hcl, Hfresh1.
    fold (activeIn db p).
    unfold Sessions.createSession. cbn [Session.sessionId].
    rewrite (existsb_session_id_fresh _ Hfresh1). cbn [fst].
    eexists. split; [reflexivity|]. repeat split.
    + intros r Hr Hw. apply in_or_app. left.
      apply in_map_iff. exists r. rewrite Hw. split; [reflexivity | exact Hr].
    + unfold activeIn in *. rewrite filter_app, Hcl. simpl.
      unfold Sessions.whereActiveProject. simpl. now rewrite String.eqb_refl.
    + unfold Sessions.getActiveSession.
      unfold activeIn in Hcl. rewrite filter_app, Hcl. simpl.
      unfold Sessions.whereActiveProject. simpl. now rewrite String.eqb_refl.
Qed.

Lemma session_start_single_active_witness :
  Sessions.getActiveSession
    (fst (Tools.handleSessionStart
            [exampleSession "s1" "/test/project" active]
            (Tools.mkStartEnv "2026-01-16T09:00:00.000Z" "s2" "main" None claude_code None)
            (Tools.mkStartArgs "/test/project" (Some "main") None None None)))
    "/test/project"
  = Some (Session.mk "s2" "/test/project" "main" "2026-01-16T09:00:00.000Z" None
            active None None None (Some claude_code) None) /\
  atMostOneActive
    (fst (Tools.handleSessionStart
            [exampleSession "s1" "/test/project" active]
            (Tools.mkStartEnv "2026-01-16T09:00:00.000Z" "s2" "main" None claude_code None)
            (Tools.mkStartArgs "/test/project" (Some "main") None None None))) /\
  atMostOneActive
    (fst (Tools.handleSessionEnd [exampleSession "s1" "/test/project" active]
            "2026-01-16T09:00:00.000Z" "s1" (Some "Built storage layer.") None)).
Proof.
  assert (Hinv : atMostOneActive [exampleSession "s1" "/test/project" active]).
  { intros q. unfold activeIn, Sessions.whereActiveProject, exampleSession.
    cbn -[String.eqb]. destruct (String.eqb _ q); simpl; lia. }
  destruct (session_start_single_active
              [exampleSession "s1" "/test/project" active]
              (Tools.mkStartEnv "2026-01-16T09:00:00.000Z" "s2" "main" None
                 claude_code None)
              (Tools.mkStartArgs "/test/project" (Some "main") None None None))
    as [(Hstart & Hend & _ & _) Hnew].
  split; [|split].
  - destruct Hnew as (session & Hr & _ & _ & _ & _ & _ & _ & Hget).
    + intros r [<-|[]]. simpl. discriminate.
    + transitivity (Some session); [exact Hget|]. f_equal.
      vm_compute in Hr. now inversion Hr.
  - exact (Hstart Hinv).
  - exact (Hend "2026-01-16T09:00:00.000Z" "s1" (Some "Built storage layer.") None Hinv).
Defined.

(** ** Recording events *)

Lemma getSession_active_exists (db : Sessions.table) (sessionId : string)
  (s : Session.t) :
  Sessions.getSession db sessionId = Some s ->
  existsb (fun r => String.eqb r.(SessionRow.session_id) sessionId) db = true.
Proof.
  unfold Sessions.getSession. rewrite get_filter_find.
  destruct (find _ db) as [r|] eqn:Hf; [|discriminate].
  intros _. apply find_some in Hf. apply existsb_exists. exists r. exact Hf.
Qed.

(** C8. The event stored by [record_event] does not depend on the
    [eventType] argument: two calls that agree on the session and the
    detail have the same outcome whatever types the callers name; the
    stored type is [deriveEventType detail] and the stored category is
    [categorizeEvent] of that type, with the categories of the table. *)
Theorem record_event_type_is_derived
  (db : Tools.Db) (now generatedId sessionId : string)
  (eventType1 eventType2 : option EventType) (detail : EventDetail) :
  Tools.handleRecordEvent db now generatedId sessionId eventType1 detail
  = Tools.handleRecordEvent db now generatedId sessionId eventType2 detail /\
  (forall db' ty id,
      Tools.handleRecordEvent db now generatedId sessionId eventType1 detail
      = (db', Tools.EventRecorded ty id) ->
      ty = deriveEventType detail /\
      Tools.session_events db'
      = Tools.session_events db
        ++ [ {| EventRow.event_id := generatedId;
                EventRow.session_id := sessionId;
                EventRow.timestamp := now;
                EventRow.event_type := deriveEventType detail;
                EventRow.category := categorizeEvent (deriveEventType detail);
                EventRow.detail_json := detail |} ]) /\
  (forall s,
      Sessions.getSession (Tools.sessions db) sessionId = Some s ->
      s.(Session.status) = active ->
      (forall e, In e (Tools.session_events db) -> e.(EventRow.event_id) <> generatedId) ->
      snd (Tools.handleRecordEvent db now generatedId sessionId eventType1 detail)
      = Tools.EventRecorded (deriveEventType detail) generatedId) /\
  (categorizeEvent file_read = cat_read /\
   categorizeEvent file_write = cat_edit /\
   categorizeEvent file_edit = cat_edit /\
   categorizeEvent tool_call = cat_execute /\
   categorizeEvent decision = cat_other /\
   categorizeEvent pattern = cat_other /\
   categorizeEvent error_resolved = cat_other /\
   categorizeEvent milestone = cat_other).
Proof.
  split; [reflexivity|]. split; [|split].
  - intros db' ty id. unfold Tools.handleRecordEvent.
    destruct (Sessions.getSession _ _); [|discriminate].
    destruct (negb _); [discriminate|].
    unfold Events.insertEvent. cbn [SessionEvent.eventId SessionEvent.sessionId].
    destruct (existsb _ (Tools.session_events db)); [discriminate|].
    destruct (negb _); [discriminate|].
    intros H. inversion H. subst. simpl. split; reflexivity.
  - intros s Hs Hact Hfresh. unfold Tools.handleRecordEvent.
    rewrite Hs, Hact. simpl.
    unfold Events.insertEvent. cbn [SessionEvent.eventId SessionEvent.sessionId].
    replace (existsb _ (Tools.session_events db)) with false.
    + rewrite (getSession_active_exists _ _ Hs). reflexivity.
    + symmetry. induction (Tools.session_events db) as [|e r IH]; simpl; [reflexivity|].
      destruct (String.eqb_spec (EventRow.event_id e) generatedId) as [He|He].
      * exfalso. apply (Hfresh e); [now left | exact He].
      * apply IH. intros y Hy. apply Hfresh. now right.
  - repeat split.
Qed.

Lemma record_event_type_is_derived_witness :
  snd (Tools.handleRecordEvent
         (Tools.mkDb [exampleSession "s1" "/test/project" active] [] [])
         "2026-01-15T10:05:00.000Z" "e1" "s1" (Some file_read)
         (DecisionDetail "Use repository pattern" "Testability"))
  = Tools.EventRecorded decision "e1" /\
  Tools.session_events
    (fst (Tools.handleRecordEvent
            (Tools.mkDb [exampleSession "s1" "/test/project" active] [] [])
            "2026-01-15T10:05:00.000Z" "e1" "s1" (Some file_read)
            (DecisionDetail "Use repository pattern" "Testability")))
  = [EventRow.mk "e1" "s1" "2026-01-15T10:05:00.000Z" decision cat_other
       (DecisionDetail "Use repository pattern" "Testability")].
Proof.
  destruct (record_event_type_is_derived
              (Tools.mkDb [exampleSession "s1" "/test/project" active] [] [])
              "2026-01-15T10:05:00.000Z" "e1" "s1" (Some file_read) None
              (DecisionDetail "Use repository pattern" "Testability"))
    as (_ & Hstored & Hrec & _).
  assert (Hsnd : snd (Tools.handleRecordEvent
                        (Tools.mkDb [exampleSession "s1" "/test/project" active] [] [])
                        "2026-01-15T10:05:00.000Z" "e1" "s1" (Some file_read)
                        (DecisionDetail "Use repository pattern" "Testability"))
                 = Tools.EventRecorded decision "e1").
  { apply (Hrec (Sessions.rowToSession (exampleSession "s1" "/test/project" active))).
    - reflexivity.
    - reflexivity.
    - intros e []. }
  split; [exact Hsnd|].
  refine (proj2 (Hstored _ decision "e1" _)).
  rewrite <- Hsnd. apply surjective_pairing.
Defined.

(** ** Promotion of knowledge *)

Lemma findDuplicates_sorted (db : KnowledgeStore.table)
  (projectPath title' content' : string) :
  StronglySorted (fun x y => (similarityScore y <= similarityScore x)%Q)
    (Duplicates.findDuplicates db projectPath title' content').
Proof.
  unfold Duplicates.findDuplicates.
  destruct (Sql.get _).
  - repeat constructor.
  - eapply StronglySorted_weaken;
      [| apply sort_sorted; [apply lessSimilar_asym | apply lessSimilar_negtrans]].
    intros x y H. unfold Duplicates.lessSimilar in H.
    apply negb_false_iff in H. now apply Qle_bool_iff.
Qed.

Lemma markSuperseded_keeps (db : KnowledgeStore.table) (oldId newId : string) :
  List.length (Duplicates.markSuperseded db oldId newId) = List.length db /\
  forall r, In r db ->
    exists r', In r' (Duplicates.markSuperseded db oldId newId) /\
               sameButSupersededBy r r'.
Proof.
  unfold Duplicates.markSuperseded, Sql.update. simpl. split.
  - apply length_map.
  - intros r Hr.
    exists (if String.eqb (KnowledgeRow.knowledge_id r) oldId
            then Duplicates.setSupersededBy newId r else r).
    split.
    + apply in_map_iff. exists r. split; [reflexivity | exact Hr].
    + destruct (String.eqb _ _); [right; now exists newId | now left].
Qed.

Lemma existsb_knowledge_id_fresh (db : KnowledgeStore.table) (id : string) :
  (forall r, In r db -> r.(KnowledgeRow.knowledge_id) <> id) ->
  existsb (fun r => String.eqb r.(KnowledgeRow.knowledge_id) id) db = false.
Proof.
  intros H. induction db as [|x r IH]; simpl; [reflexivity|].
  destruct (String.eqb_spec (KnowledgeRow.knowledge_id x) id) as [He|He].
  - exfalso. apply (H x); [now left | exact He].
  - apply IH. intros y Hy. apply H. now right.
Qed.

(** C6. Without [allowDuplicate], a promotion for which the duplicate
    detection finds a candidate is refused: the store is unchanged and the
    first candidate, whose similarity is the highest, is reported.  With
    [allowDuplicate], the handler goes straight to the insertion, whatever
    the duplicate detection would find, and the item is stored when the
    constraints of the table hold. *)
Theorem promote_refused_on_duplicate
  (db : Tools.Db) (now generatedId : string) (args : Tools.PromoteArgs) :
  let duplicates :=
    Duplicates.findDuplicates (Tools.promoted_knowledge db)
      args.(Tools.p_projectPath) args.(Tools.p_title) args.(Tools.p_content) in
  (args.(Tools.p_allowDuplicate) <> Some true ->
   duplicates <> [] ->
   exists dup,
     hd_error duplicates = Some dup /\
     Tools.handlePromoteKnowledge db now generatedId args
     = (db, Tools.DuplicateDetected dup) /\
     (forall c, In c duplicates -> (similarityScore c <= similarityScore dup)%Q)) /\
  (args.(Tools.p_allowDuplicate) = Some true ->
   Tools.handlePromoteKnowledge db now generatedId args
   = Tools.promote db now generatedId args /\
   ((forall r, In r (Tools.promoted_knowledge db) ->
               r.(KnowledgeRow.knowledge_id) <> generatedId) ->
    KnowledgeStore.foreignKeyOk SessionRow.session_id (Tools.sessions db)
      args.(Tools.p_sessionId) = true ->
    KnowledgeStore.foreignKeyOk EventRow.event_id (Tools.session_events db)
      args.(Tools.p_sourceEventId) = true ->
    exists db' k n sup r,
      Tools.handlePromoteKnowledge db now generatedId args
      = (db', Tools.KnowledgePromoted k n sup) /\
      List.length (Tools.promoted_knowledge db')
      = S (List.length (Tools.promoted_knowledge db)) /\
      In r (Tools.promoted_knowledge db') /\
      sameButSupersededBy (KnowledgeStore.insertedRow k) r /\
      k.(Knowledge.knowledgeId) = generatedId /\
      k.(Knowledge.projectPath) = args.(Tools.p_projectPath) /\
      k.(Knowledge.title) = args.(Tools.p_title) /\
      k.(Knowledge.content) = args.(Tools.p_content) /\
      k.(Knowledge.contentHash)
      = Some (Sha256.sha256hex (Dedup.normalizeContent args.(Tools.p_content))))).
Proof.
  intros duplicates. split.
  - intros Hallow Hdup.
    pose proof (findDuplicates_sorted (Tools.promoted_knowledge db)
                  args.(Tools.p_projectPath) args.(Tools.p_title)
                  args.(Tools.p_content)) as Hsorted.
    fold duplicates in Hsorted.
    unfold Tools.handlePromoteKnowledge. fold duplicates.
    assert (Ht : Tools.truthyBool (Tools.p_allowDuplicate args) = false).
    { destruct (Tools.p_allowDuplicate args) as [[|]|]; simpl; congruence. }
    rewrite Ht. simpl.
    destruct duplicates as [|dup rest]; [congruence|].
    exists dup. repeat split.
    intros c [<-|Hc].
    + apply Qle_refl.
    + apply StronglySorted_inv in Hsorted. destruct Hsorted as [_ Hall].
      rewrite Forall_forall in Hall. now apply Hall.
  - intros Hallow. unfold Tools.handlePromoteKnowledge. rewrite Hallow. simpl.
    split; [reflexivity|].
    intros Hfresh Hfk1 Hfk2. unfold Tools.promote, KnowledgeStore.insertKnowledge.
    cbn [Knowledge.knowledgeId Knowledge.sessionId Knowledge.sourceEventId].
    rewrite (existsb_knowledge_id_fresh _ Hfresh), Hfk1, Hfk2. simpl.
    match goal with
    | |- context [KnowledgeStore.insertedRow ?k0] => set (k := k0)
    end.
    set (k1 := Tools.promoted_knowledge db ++ [KnowledgeStore.insertedRow k]).
    assert (Hin1 : In (KnowledgeStore.insertedRow k) k1)
      by (apply in_or_app; right; now left).
    assert (Hlen1 : List.length k1 = S (List.length (Tools.promoted_knowledge db)))
      by (unfold k1; rewrite length_app; simpl; lia).
    destruct (Js.truthy (Tools.p_supersedes args)) eqn:Hs.
    + destruct (Tools.p_supersedes args) as [old|] eqn:Hold; [|discriminate].
      destruct (markSuperseded_keeps k1 old generatedId) as [Hlen Hkeep].
      destruct (Hkeep _ Hin1) as (r' & Hr' & Hsame).
      do 4 eexists. exists r'. split; [reflexivity|]. simpl.
      repeat split; auto. congruence.
    + do 4 eexists. exists (KnowledgeStore.insertedRow k).
      split; [reflexivity|]. simpl.
      repeat split; auto. now left.
Qed.

Lemma promote_refused_on_duplicate_witness :
  fst (Tools.handlePromoteKnowledge exampleDb "2026-01-16T09:00:00.000Z" "k2"
         (examplePromote "Different Title" "same   CONTENT " None))
  = exampleDb /\
  List.length
    (Tools.promoted_knowledge
       (fst (Tools.handlePromoteKnowledge exampleDb "2026-01-16T09:00:00.000Z" "k2"
               (examplePromote "Different Title" "same   CONTENT " (Some true)))))
  = 2.
Proof.
  split.
  - destruct (proj1 (promote_refused_on_duplicate exampleDb
                       "2026-01-16T09:00:00.000Z" "k2"
                       (examplePromote "Different Title" "same   CONTENT " None)))
      as (dup & _ & H & _).
    + simpl. discriminate.
    + vm_compute. discriminate.
    + rewrite H. reflexivity.
  - destruct (proj2 (promote_refused_on_duplicate exampleDb
                       "2026-01-16T09:00:00.000Z" "k2"
                       (examplePromote "Different Title" "same   CONTENT " (Some true)))
                    eq_refl) as [_ H].
    destruct H as (db' & k & n & sup & r & H & Hlen & _).
    + intros r [<-|[]]. simpl. discriminate.
    + reflexivity.
    + reflexivity.
    + rewrite H. exact Hlen.
Defined.

(** ** Superseded knowledge *)

Lemma sort_In (A : Type) (after : A -> A -> bool) (l : list A) (x : A) :
  In x (Js.sort after l) -> In x l.
Proof. apply Permutation_in, sort_perm. Qed.

Lemma firstn_In (A : Type) (n : nat) (l : list A) (x : A) :
  In x (firstn n l) -> In x l.
Proof.
  revert l. induction n as [|n IH]; intros [|y l] H; simpl in *; try contradiction.
  destruct H as [H|H]; [now left | right; now apply IH].
Qed.

Lemma isNull_spec (A : Type) (x : option A) : Sql.isNull x = true <-> x = None.
Proof. destruct x; simpl; split; congruence. Qed.

(** C9, as amended.  An item whose [superseded_by] is set is never
    returned by [getProjectKnowledge], [getUnsyncedKnowledge] or
    [findDuplicates] and never counted by [getKnowledgeCount]; the point
    lookup [getKnowledgeById] returns the stored item with the given
    identifier whether or not it is superseded; and superseding an item
    keeps it stored, changing only its [superseded_by] column. *)
Theorem superseded_hidden_from_listings
  (db : KnowledgeStore.table) (projectPath : string) :
  (forall kt limit k,
      In k (KnowledgeStore.getProjectKnowledge db projectPath kt limit) ->
      k.(Knowledge.supersededBy) = None) /\
  (forall k, In k (KnowledgeStore.getUnsyncedKnowledge db projectPath) ->
             k.(Knowledge.supersededBy) = None) /\
  (forall title' content' c,
      In c (Duplicates.findDuplicates db projectPath title' content') ->
      c.(existingKnowledge).(Knowledge.supersededBy) = None) /\
  (KnowledgeStore.total (KnowledgeStore.getKnowledgeCount db projectPath)
   = List.length (liveRows db projectPath) /\
   KnowledgeStore.getKnowledgeCount db projectPath
   = KnowledgeStore.getKnowledgeCount
       (filter (fun r => Sql.isNull r.(KnowledgeRow.superseded_by)) db) projectPath) /\
  (forall id,
      KnowledgeStore.getKnowledgeById db id
      = option_map KnowledgeStore.rowToKnowledge
          (find (fun r => String.eqb r.(KnowledgeRow.knowledge_id) id) db)) /\
  (forall oldId newId,
      List.length (Duplicates.markSuperseded db oldId newId) = List.length db /\
      forall r, In r db ->
        exists r', In r' (Duplicates.markSuperseded db oldId newId) /\
                   sameButSupersededBy r r').
Proof.
  split; [|split; [|split; [|split; [|split]]]].
  - intros kt limit k Hk. unfold KnowledgeStore.getProjectKnowledge in Hk.
    destruct kt as [kt|]; apply in_map_iff in Hk; destruct Hk as (r & <- & Hr);
      apply firstn_In, sort_In, filter_In in Hr; destruct Hr as [_ Hr];
      rewrite !andb_true_iff in Hr; simpl; now apply isNull_spec.
  - intros k Hk. unfold KnowledgeStore.getUnsyncedKnowledge in Hk.
    apply in_map_iff in Hk. destruct Hk as (r & <- & Hr).
    apply sort_In, filter_In in Hr. destruct Hr as [_ Hr].
    rewrite !andb_true_iff in Hr. simpl. now apply isNull_spec.
  - intros title' content' c Hc. unfold Duplicates.findDuplicates in Hc.
    rewrite get_filter_find in Hc.
    destruct (find _ db) as [r|] eqn:Hf.
    + destruct Hc as [<-|[]]. apply find_some in Hf. destruct Hf as [_ Hw].
      apply whereExact_spec in Hw. simpl. tauto.
    + apply sort_In in Hc. rewrite fold_titleStep in Hc. simpl in Hc.
      apply in_map_iff in Hc. destruct Hc as (r & <- & Hr).
      apply filter_In in Hr. destruct Hr as [Hr _].
      apply filter_In in Hr. destruct Hr as [_ Hr].
      apply whereLive_spec in Hr. simpl. tauto.
  - split; [reflexivity|].
    unfold KnowledgeStore.getKnowledgeCount.
    assert (Hf : filter (fun r => String.eqb (KnowledgeRow.project_path r) projectPath
                                  && Sql.isNull (KnowledgeRow.superseded_by r))
                   (filter (fun r => Sql.isNull (KnowledgeRow.superseded_by r)) db)
                 = filter (fun r => String.eqb (KnowledgeRow.project_path r) projectPath
                                    && Sql.isNull (KnowledgeRow.superseded_by r)) db).
    { induction db as [|x r IH]; simpl; [reflexivity|].
      destruct (Sql.isNull (KnowledgeRow.superseded_by x)) eqn:Hn; simpl.
      - rewrite Hn, IH. reflexivity.
      - rewrite andb_false_r. exact IH. }
    rewrite Hf. reflexivity.
  - intros id. unfold KnowledgeStore.getKnowledgeById. now rewrite get_filter_find.
  - intros oldId newId. apply markSuperseded_keeps.
Qed.

Lemma superseded_hidden_from_listings_witness :
  Knowledge.supersededBy
    (KnowledgeStore.rowToKnowledge (exampleRow "k2" "New Decision" "New content" None))
  = None /\
  Knowledge.supersededBy
    (existingKnowledge (exactCandidate (exampleRow "k2" "New Decision" "New content" None)))
  = None /\
  exists r',
    In r' (Duplicates.markSuperseded
             [exampleRow "k1" "Old Decision" "Old content" (Some "k2");
              exampleRow "k2" "New Decision" "New content" None] "k2" "k3") /\
    sameButSupersededBy (exampleRow "k2" "New Decision" "New content" None) r'.
Proof.
  destruct (superseded_hidden_from_listings
              [exampleRow "k1" "Old Decision" "Old content" (Some "k2");
               exampleRow "k2" "New Decision" "New content" None]
              "/test/project") as (Hlist & Hunsynced & Hdup & _ & _ & Hmark).
  split; [|split].
  - apply (Hlist None 50). left. reflexivity.
  - apply (Hdup "Another title" "new CONTENT"). vm_compute. left. reflexivity.
  - apply (proj2 (Hmark "k2" "k3")). right. left. reflexivity.
Defined.

(** C9, counterexample to the claim as stated: the point lookup returns a
    superseded item. *)
Lemma superseded_point_lookup_counterexample :
  exists k,
    KnowledgeStore.getKnowledgeById
      [exampleRow "k1" "Old Decision" "Old content" (Some "k2");
       exampleRow "k2" "New Decision" "New content" None] "k1" = Some k /\
    k.(Knowledge.knowledgeId) = "k1" /\
    k.(Knowledge.supersededBy) = Some "k2".
Proof.
  eexists. split; [reflexivity|]. split; reflexivity.
Qed.

(** ** Schema migrations *)

Section Migrations.
Import Schema.

Lemma migrateLoop_applyInOrder (n v : nat) (db : Store) :
  migrateLoop n v db = applyInOrder (seq v n) db.
Proof.
  revert v db. induction n as [|n IH]; intros v db; simpl; [reflexivity|].
  unfold applyMigration.
  destruct (MIGRATIONS v); [|reflexivity].
  destruct (exec db l); [|reflexivity].
  destruct (insertVersion a v); [apply IH | reflexivity].
Qed.

Lemma execStmt_log (db db' : Store) (st : Stmt) :
  execStmt db st = Ok db' -> schema_version db' = schema_version db.
Proof.
  destruct st; simpl.
  - destruct (lookupTable _ _); intros H; inversion H; reflexivity.
  - destruct (hasString _ _); [intros H; inversion H; reflexivity|].
    destruct (lookupTable _ _); [|discriminate].
    destruct (forallb _ _); [|discriminate].
    intros H; inversion H; reflexivity.
  - destruct (lookupTable _ _); [|discriminate].
    destruct (hasString _ _); [discriminate|].
    intros H; inversion H; reflexivity.
Qed.

Lemma exec_log (sql : list Stmt) :
  forall db db', exec db sql = Ok db' -> schema_version db' = schema_version db.
Proof.
  induction sql as [|st r IH]; intros db db'; simpl.
  - intros H; inversion H; reflexivity.
  - destruct (execStmt db st) as [db1|] eqn:E; [|discriminate].
    intros H. rewrite (IH _ _ H). eapply execStmt_log. exact E.
Qed.

Lemma applyMigration_log (v : nat) (db db' : Store) (rows : list nat) :
  schema_version db = Some rows ->
  applyMigration v db = Ok db' ->
  schema_version db' = Some (rows ++ [v]).
Proof.
  intros Hrows. unfold applyMigration.
  destruct (MIGRATIONS v); [|discriminate].
  destruct (exec db l) as [db1|] eqn:E; [|discriminate].
  apply exec_log in E. unfold insertVersion. rewrite E, Hrows.
  destruct (existsb _ _); [discriminate|].
  intros H; inversion H; reflexivity.
Qed.

Lemma applyInOrder_log (vs : list nat) :
  forall db db' rows,
    schema_version db = Some rows ->
    applyInOrder vs db = Ok db' ->
    schema_version db' = Some (rows ++ vs).
Proof.
  induction vs as [|v r IH]; intros db db' rows Hrows; simpl.
  - intros H; inversion H; subst. now rewrite app_nil_r.
  - destruct (applyMigration v db) as [db1|] eqn:E; [|discriminate].
    intros H.
    assert (H1 : schema_version db1 = Some (rows ++ [v]))
      by (eapply applyMigration_log; eassumption).
    rewrite (IH _ _ _ H1 H).
    now rewrite <- app_assoc.
Qed.

Lemma max_app (l1 l2 : list nat) :
  fold_right Nat.max 0 (l1 ++ l2)
  = Nat.max (fold_right Nat.max 0 l1) (fold_right Nat.max 0 l2).
Proof.
  induction l1 as [|x r IH]; simpl; [reflexivity|]. rewrite IH. lia.
Qed.

End Migrations.

(** C1, as amended.  For every store whose version log reads [v < 3],
    opening the store applies the migrations [v+1 .. 3] in ascending
    order, each followed by the insertion of its number into the version
    log, all inside ONE transaction for the whole run: when every step
    succeeds the log gains [v+1 .. 3] and reads 3; when a step throws, the
    whole run is rolled back, no migration of the run stays applied or
    logged, and the exception escapes. *)
Theorem migrations_single_transaction (db : Schema.Store) (v : nat) :
  Schema.getSchemaVersion db = v ->
  v < 3 ->
  let db0 := Schema.ensureVersionTable db in
  let steps := seq (v + 1) (3 - v) in
  (forall db', applyInOrder steps db0 = Ok db' ->
     Schema.runMigrations db = (db', None) /\
     (exists rows, Schema.schema_version db0 = Some rows /\
                   Schema.schema_version db' = Some (rows ++ steps)) /\
     Schema.getSchemaVersion db' = 3) /\
  (forall e, applyInOrder steps db0 = Throw e ->
     Schema.runMigrations db = (db0, Some e) /\
     Schema.getSchemaVersion (fst (Schema.runMigrations db)) = v /\
     Schema.tables (fst (Schema.runMigrations db)) = Schema.tables db /\
     Schema.indexes (fst (Schema.runMigrations db)) = Schema.indexes db).
Proof.
  intros Hv Hlt db0 steps.
  assert (Hv0 : Schema.getSchemaVersion db0 = v).
  { subst db0. unfold Schema.getSchemaVersion, Schema.ensureVersionTable in *. simpl.
    destruct (Schema.schema_version db); exact Hv. }
  assert (Hrun : Schema.runMigrations db
                 = Schema.transaction (applyInOrder steps) db0).
  { unfold Schema.runMigrations. fold db0. rewrite Hv0.
    unfold Schema.transaction. rewrite migrateLoop_applyInOrder. reflexivity. }
  split.
  - intros db' Hok. rewrite Hrun. unfold Schema.transaction. rewrite Hok.
    split; [reflexivity|].
    destruct (Schema.schema_version db0) as [rows|] eqn:Hrows;
      [|subst db0; discriminate].
    assert (Hlog : Schema.schema_version db' = Some (rows ++ steps))
      by (eapply applyInOrder_log; eassumption).
    split; [exists rows; auto|].
    unfold Schema.getSchemaVersion. rewrite Hlog, max_app.
    unfold Schema.getSchemaVersion in Hv0. rewrite Hrows in Hv0. rewrite Hv0.
    subst steps. destruct v as [|[|[|v]]]; simpl; lia.
  - intros e Hthrow. rewrite Hrun. unfold Schema.transaction. rewrite Hthrow.
    simpl. repeat split. exact Hv0.
Qed.

Lemma migrations_single_transaction_witness :
  Schema.runMigrations (Schema.mkStore [] [] None)
  = (match applyInOrder [1; 2; 3] (Schema.mkStore [] [] (Some [])) with
     | Ok db' => db'
     | Throw _ => Schema.mkStore [] [] (Some [])
     end, None) /\
  Schema.getSchemaVersion (fst (Schema.runMigrations relabelledStore)) = 0.
Proof.
  split.
  - destruct (applyInOrder [1; 2; 3] (Schema.mkStore [] [] (Some []))) as [db'|e] eqn:E;
      [|vm_compute in E; discriminate].
    apply (proj1 (@migrations_single_transaction (Schema.mkStore [] [] None) 0
                    eq_refl ltac:(lia)) db' E).
  - apply (proj2 (@migrations_single_transaction relabelledStore 0
                    eq_refl ltac:(lia)) (SqlError "duplicate column name")).
    vm_compute. reflexivity.
Defined.

(** C1, counterexample to the claim as stated.  On [relabelledStore] the
    version log reads 0; migrations 1 and 2 succeed and migration 3 throws.
    With one transaction per step, versions 1 and 2 would stay logged; the
    code rolls the whole run back and logs nothing. *)
Lemma migrations_per_step_counterexample :
  Schema.getSchemaVersion relabelledStore = 0 /\
  (exists s1 s2,
      applyMigration 1 (Schema.ensureVersionTable relabelledStore) = Ok s1 /\
      applyMigration 2 s1 = Ok s2 /\
      applyMigration 3 s2 = Throw (SqlError "duplicate column name")) /\
  Schema.schema_version (fst (runMigrationsPerStep relabelledStore)) = Some [1; 2] /\
  Schema.runMigrations relabelledStore
  = (Schema.ensureVersionTable relabelledStore,
     Some (SqlError "duplicate column name")) /\
  Schema.schema_version (fst (Schema.runMigrations relabelledStore)) = Some [] /\
  Schema.runMigrations relabelledStore <> runMigrationsPerStep relabelledStore.
Proof.
  split; [reflexivity|]. split.
  - do 2 eexists. split; [vm_compute; reflexivity|].
    split; vm_compute; reflexivity.
  - split; [vm_compute; reflexivity|].
    split; [vm_compute; reflexivity|].
    split; [vm_compute; reflexivity|].
    vm_compute. discriminate.
Qed.

(** ** Normalized text *)

Lemma toLowerChar_idem (c : ascii) :
  Js.toLowerChar (Js.toLowerChar c) = Js.toLowerChar c.
Proof. destruct c as [[] [] [] [] [] [] [] []]; reflexivity. Qed.

Lemma isSpace_toLowerChar (c : ascii) :
  Js.isSpace (Js.toLowerChar c) = Js.isSpace c.
Proof. destruct c as [[] [] [] [] [] [] [] []]; reflexivity. Qed.

Lemma wellSpaced_weaken (s : list ascii) :
  wellSpaced true s = true -> wellSpaced false s = true.
Proof.
  destruct s as [|c r]; simpl; [reflexivity|].
  destruct (Js.isSpace c); simpl; [discriminate | auto].
Qed.

Lemma wellSpaced_collapseFrom (s : list ascii) :
  forall inRun, wellSpaced inRun (Js.collapseFrom inRun s) = true.
Proof.
  induction s as [|c r IH]; intros inRun; simpl; [reflexivity|].
  destruct (Js.isSpace c) eqn:Hc.
  - destruct inRun; [apply IH|]. simpl. apply IH.
  - simpl. rewrite Hc. apply IH.
Qed.

Lemma collapseFrom_fixed (s : list ascii) :
  forall inRun, wellSpaced inRun s = true -> Js.collapseFrom inRun s = s.
Proof.
  induction s as [|c r IH]; intros inRun H; simpl in *; [reflexivity|].
  destruct (Js.isSpace c).
  - apply andb_true_iff in H. destruct H as [H Hr].
    apply andb_true_iff in H. destruct H as [Hp Hc].
    apply Ascii.eqb_eq in Hc. subst c.
    destruct inRun; [discriminate|]. f_equal. now apply IH.
  - f_equal. now apply IH.
Qed.

Lemma wellSpaced_app_l (s t : list ascii) :
  forall b, wellSpaced b (s ++ t) = true -> wellSpaced b s = true.
Proof.
  induction s as [|c r IH]; intros b H; simpl in *; [reflexivity|].
  destruct (Js.isSpace c).
  - apply andb_true_iff in H. destruct H as [H Hr].
    rewrite H. simpl. now apply IH.
  - now apply IH.
Qed.

Lemma trimStart_suffix (s : list ascii) :
  exists ws, s = ws ++ Js.trimStart s /\ forallb Js.isSpace ws = true.
Proof.
  induction s as [|c r IH]; simpl.
  - exists []. split; reflexivity.
  - destruct (Js.isSpace c) eqn:Hc.
    + destruct IH as (ws & Heq & Hws). exists (c :: ws). split.
      * simpl. now f_equal.
      * simpl. now rewrite Hc.
    + exists []. split; reflexivity.
Qed.

Lemma trimStart_head (s : list ascii) (c : ascii) (r : list ascii) :
  Js.trimStart s = c :: r -> Js.isSpace c = false.
Proof.
  induction s as [|d t IH]; simpl; [discriminate|].
  destruct (Js.isSpace d) eqn:Hd; [exact IH|].
  intros H. inversion H. now subst.
Qed.

Lemma wellSpaced_trimStart (s : list ascii) :
  forall b, wellSpaced b s = true -> wellSpaced false (Js.trimStart s) = true.
Proof.
  induction s as [|c r IH]; intros b H; simpl in *; [reflexivity|].
  destruct (Js.isSpace c) eqn:Hc.
  - apply andb_true_iff in H. destruct H as [_ Hr]. now apply (IH true).
  - simpl. now rewrite Hc.
Qed.

Lemma trimStart_fixed (s : list ascii) :
  (forall c r, s = c :: r -> Js.isSpace c = false) -> Js.trimStart s = s.
Proof.
  destruct s as [|c r]; intros H; simpl; [reflexivity|].
  now rewrite (H c r eq_refl).
Qed.

Lemma trimEnd_prefix (s : list ascii) :
  exists ws, s = Js.trimEnd s ++ ws /\ forallb Js.isSpace ws = true.
Proof.
  unfold Js.trimEnd.
  destruct (trimStart_suffix (rev s)) as (ws & Heq & Hws).
  exists (rev ws). split.
  - rewrite <- rev_app_distr, <- Heq. now rewrite rev_involutive.
  - rewrite forallb_forall in *. intros x Hx. apply Hws. now apply in_rev.
Qed.

Lemma trimEnd_last (s : list ascii) (c : ascii) (r : list ascii) :
  Js.trimEnd s = r ++ [c] -> Js.isSpace c = false.
Proof.
  unfold Js.trimEnd. intros H.
  apply (f_equal (@rev ascii)) in H. rewrite rev_involutive, rev_app_distr in H.
  simpl in H. now apply trimStart_head in H.
Qed.

Lemma trimEnd_fixed (s : list ascii) :
  (forall c r, s = r ++ [c] -> Js.isSpace c = false) -> Js.trimEnd s = s.
Proof.
  intros H. unfold Js.trimEnd. rewrite trimStart_fixed; [apply rev_involutive|].
  intros c r Hr. apply (H c (rev r)).
  rewrite <- (rev_involutive s), Hr. reflexivity.
Qed.

Lemma trimEnd_head (s : list ascii) (c : ascii) (r : list ascii) :
  (forall d t, s = d :: t -> Js.isSpace d = false) ->
  Js.trimEnd s = c :: r -> Js.isSpace c = false.
Proof.
  intros Hs H. destruct (trimEnd_prefix s) as (ws & Heq & _).
  rewrite H in Heq. simpl in Heq. now apply (Hs c (r ++ ws)).
Qed.

(** The three passes of [normalizeContent] on a list of characters. *)
Lemma normalized_shape (s : list ascii) :
  let n := Js.trim (Js.replaceSpaceRuns (Js.toLowerCase s)) in
  wellSpaced false n = true /\ noEdgeSpace n /\
  (forall c, In c n -> Js.toLowerChar c = c).
Proof.
  intros n. subst n. unfold Js.trim, Js.replaceSpaceRuns.
  set (l := Js.collapseFrom false (Js.toLowerCase s)).
  assert (Hl : wellSpaced false l = true) by apply wellSpaced_collapseFrom.
  assert (Ht : wellSpaced false (Js.trimStart l) = true)
    by (eapply wellSpaced_trimStart; exact Hl).
  destruct (trimEnd_prefix (Js.trimStart l)) as (ws & Heq & _).
  split; [|split].
  - rewrite Heq in Ht. now apply wellSpaced_app_l in Ht.
  - split.
    + intros c r Hr. eapply trimEnd_head; [|exact Hr].
      intros d t Hd. eapply trimStart_head. exact Hd.
    + intros c r Hr. eapply trimEnd_last. exact Hr.
  - intros c Hc.
    assert (Hin : In c l).
    { destruct (trimStart_suffix l) as (ws' & Heq' & _).
      rewrite Heq'. apply in_or_app. right.
      rewrite Heq. apply in_or_app. now left. }
    clear - Hin. unfold l in Hin. clear l.
    unfold Js.toLowerCase in Hin.
    assert (Hgen : forall b t, In c (Js.collapseFrom b (map Js.toLowerChar t)) ->
                               Js.toLowerChar c = c).
    { intros b t. revert b. induction t as [|d t IH]; intros b H; simpl in H; [contradiction|].
      destruct (Js.isSpace (Js.toLowerChar d)).
      - destruct b; [now apply (IH true)|].
        destruct H as [<-|H]; [reflexivity | now apply (IH true)].
      - destruct H as [<-|H]; [apply toLowerChar_idem | now apply (IH false)]. }
    now apply (Hgen false s).
Qed.

Lemma map_fixed (A : Type) (f : A -> A) (l : list A) :
  (forall x, In x l -> f x = x) -> map f l = l.
Proof.
  intros H. rewrite <- (map_id l) at 2. now apply map_ext_in.
Qed.

(** X1. [normalizeContent] is idempotent, so the content hash of a text
    and of its normalization are the same. *)
Theorem normalizeContent_idempotent (content : string) :
  Dedup.normalizeContent (Dedup.normalizeContent content)
  = Dedup.normalizeContent content /\
  Duplicates.computeContentHash (Dedup.normalizeContent content)
  = Duplicates.computeContentHash content.
Proof.
  assert (H : Dedup.normalizeContent (Dedup.normalizeContent content)
              = Dedup.normalizeContent content).
  { unfold Dedup.normalizeContent at 1 2.
    rewrite list_ascii_of_string_of_list_ascii.
    destruct (normalized_shape (list_ascii_of_string content)) as (Hw & [Hh Hl] & Hlow).
    set (n := Js.trim (Js.replaceSpaceRuns (Js.toLowerCase (list_ascii_of_string content)))) in *.
    unfold Js.toLowerCase. rewrite map_fixed by exact Hlow.
    unfold Js.replaceSpaceRuns. rewrite collapseFrom_fixed by exact Hw.
    unfold Js.trim. rewrite trimStart_fixed by exact Hh.
    rewrite trimEnd_fixed by exact Hl.
    reflexivity. }
  split; [exact H|].
  unfold Duplicates.computeContentHash. now rewrite H.
Qed.

(** X2. The normalized text is in normal form: no character changes under
    [toLowerCase], every white-space character is a single plain space
    with no white space next to it, and the text neither starts nor ends
    with white space. *)
Theorem normalizeContent_normal_form (content : string) :
  let n := list_ascii_of_string (Dedup.normalizeContent content) in
  (forall c, In c n -> Js.toLowerChar c = c) /\
  (forall c, In c n -> Js.isSpace c = true -> c = " "%char) /\
  (forall l1 c d l2, n = l1 ++ c :: d :: l2 ->
                     Js.isSpace c = false \/ Js.isSpace d = false) /\
  noEdgeSpace n.
Proof.
  intros n. subst n. unfold Dedup.normalizeContent.
  rewrite list_ascii_of_string_of_list_ascii.
  destruct (normalized_shape (list_ascii_of_string content)) as (Hw & Hedge & Hlow).
  set (n := Js.trim (Js.replaceSpaceRuns (Js.toLowerCase (list_ascii_of_string content)))) in *.
  clearbody n.
  split; [exact Hlow|]. split; [|split; [|exact Hedge]].
  - assert (H : forall (b : bool) (m : list ascii),
               wellSpaced b m = true ->
               forall c, In c m -> Js.isSpace c = true -> c = " "%char).
    { intros b m. revert b.
      induction m as [|x r IH]; intros b Hm c Hc Hs; [contradiction|].
      simpl in Hm. destruct Hc as [<-|Hc].
      - rewrite Hs in Hm. apply andb_true_iff in Hm. destruct Hm as [Hm _].
        apply andb_true_iff in Hm. destruct Hm as [_ Hm].
        now apply Ascii.eqb_eq in Hm.
      - destruct (Js.isSpace x).
        + apply andb_true_iff in Hm. destruct Hm as [_ Hm]. eapply IH; eassumption.
        + eapply IH; eassumption. }
    exact (H _ _ Hw).
  - assert (H : forall (b : bool) (m : list ascii),
               wellSpaced b m = true ->
               forall l1 c d l2, m = l1 ++ c :: d :: l2 ->
                                 Js.isSpace c = false \/ Js.isSpace d = false).
    { intros b m. revert b.
      induction m as [|x r IH]; intros b Hm l1 c d l2 Heq.
      - destruct l1; discriminate.
      - simpl in Hm. destruct l1 as [|y l1]; simpl in Heq.
        + inversion Heq; subst. clear Heq.
          destruct (Js.isSpace c) eqn:Hc; [|now left].
          right. apply andb_true_iff in Hm. destruct Hm as [_ Hm].
          simpl in Hm. destruct (Js.isSpace d); [|reflexivity].
          simpl in Hm. discriminate.
        + inversion Heq; subst. clear Heq.
          destruct (Js.isSpace y).
          * apply andb_true_iff in Hm. destruct Hm as [_ Hm].
            eapply IH; [exact Hm | reflexivity].
          * eapply IH; [exact Hm | reflexivity]. }
    exact (H _ _ Hw).
Qed.

(** ** More on the Levenshtein distance *)

Lemma prefixDistance_lower (a b : list ascii) (i : nat) :
  forall j, i - j <= prefixDistance a b i j /\ j - i <= prefixDistance a b i j.
Proof.
  induction i as [|i IHi]; intros j.
  - simpl. lia.
  - induction j as [|j IHj].
    + rewrite prefixDistance_0_r. lia.
    + rewrite prefixDistance_S_S. unfold Dedup.min3.
      pose proof (IHi (S j)). pose proof (IHi j).
      destruct (Js.charEq _ _); lia.
Qed.

Lemma levenshteinDistance_sym (a b : string) :
  Dedup.levenshteinDistance a b = Dedup.levenshteinDistance b a.
Proof.
  rewrite !levenshteinDistance_editDistance. apply prefixDistance_sym.
Qed.

(** X3. [levenshteinDistance] is symmetric, and it is at least the
    difference of the two lengths. *)
Theorem levenshteinDistance_symmetric_lower_bound (a b : string) :
  Dedup.levenshteinDistance a b = Dedup.levenshteinDistance b a /\
  String.length a - String.length b <= Dedup.levenshteinDistance a b /\
  String.length b - String.length a <= Dedup.levenshteinDistance a b.
Proof.
  split; [apply levenshteinDistance_sym|].
  rewrite levenshteinDistance_editDistance. apply prefixDistance_lower.
Qed.

(** X4. [computeTitleSimilarity] does not depend on the order of its two
    titles. *)
Theorem computeTitleSimilarity_symmetric (title1 title2 : string) :
  Dedup.computeTitleSimilarity title1 title2
  = Dedup.computeTitleSimilarity title2 title1.
Proof.
  unfold Dedup.computeTitleSimilarity.
  rewrite (String.eqb_sym (Dedup.normalizeContent title2)).
  rewrite (Nat.max_comm (String.length (Dedup.normalizeContent title2))).
  rewrite (levenshteinDistance_sym (Dedup.normalizeContent title2)).
  reflexivity.
Qed.

(** ** Shape of the content hash *)

Lemma round_length (st : list N) (kw : N * N) :
  List.length st = 8 -> List.length (Sha256.round st kw) = 8.
Proof.
  intros H. do 9 (destruct st as [|? st]; try discriminate). reflexivity.
Qed.

Lemma compress_length (hs block : list N) :
  List.length hs = 8 -> List.length (Sha256.compress hs block) = 8.
Proof.
  intros H. unfold Sha256.compress.
  rewrite length_map, length_combine.
  assert (Hst : forall kws st, List.length st = 8 ->
                  List.length (fold_left Sha256.round kws st) = 8).
  { induction kws as [|kw r IH]; intros st Hs; simpl; [exact Hs|].
    apply IH. now apply round_length. }
  rewrite (Hst _ _ H), H. reflexivity.
Qed.

Lemma digestWords_length (msg : list N) :
  List.length (Sha256.digestWords msg) = 8.
Proof.
  unfold Sha256.digestWords.
  generalize (Sha256.chunks (List.length (Sha256.wordsBE (Sha256.pad msg)))
                (Sha256.wordsBE (Sha256.pad msg))).
  assert (H0 : List.length Sha256.H0 = 8) by reflexivity.
  revert H0. generalize Sha256.H0.
  intros hs Hhs blocks. revert hs Hhs.
  induction blocks as [|blk r IH]; intros hs Hhs; simpl; [exact Hhs|].
  apply IH. now apply compress_length.
Qed.

Lemma bytesBE_spec (k : nat) :
  forall x, List.length (Sha256.bytesBE k x) = k /\
            forall b, In b (Sha256.bytesBE k x) -> (b < 256)%N.
Proof.
  induction k as [|k IH]; intros x; cbn [Sha256.bytesBE].
  - split; [reflexivity | contradiction].
  - destruct (IH (N.shiftr x 8)) as [Hl Hb]. split.
    + rewrite length_app, Hl. simpl. lia.
    + intros b Hin. apply in_app_or in Hin. destruct Hin as [Hin|[<-|[]]].
      * now apply Hb.
      * change 255%N with (N.ones 8). rewrite N.land_ones.
        apply N.mod_upper_bound. discriminate.
Qed.

Lemma hexDigit_in (d : N) :
  (d < 16)%N ->
  In (Sha256.hexDigit d) (list_ascii_of_string "0123456789abcdef").
Proof.
  intros H.
  assert (Hd : In d [0;1;2;3;4;5;6;7;8;9;10;11;12;13;14;15]%N)
    by (simpl; lia).
  simpl in Hd.
  repeat (destruct Hd as [<-|Hd]; [vm_compute; intuition|]). contradiction.
Qed.

Lemma flat_map_length_const (A B : Type) (f : A -> list B) (k : nat) (l : list A) :
  (forall x, In x l -> List.length (f x) = k) ->
  List.length (flat_map f l) = List.length l * k.
Proof.
  induction l as [|x r IH]; intros H; simpl; [reflexivity|].
  rewrite length_app, IH by (intros y Hy; apply H; now right).
  rewrite (H x) by now left. lia.
Qed.

(** X5. The content hash of any text is 64 characters long and made of the
    hexadecimal digits [0-9a-f] only. *)
Theorem computeContentHash_is_hex64 (content : string) :
  String.length (Duplicates.computeContentHash content) = 64 /\
  forall c, In c (list_ascii_of_string (Duplicates.computeContentHash content)) ->
            In c (list_ascii_of_string "0123456789abcdef").
Proof.
  unfold Duplicates.computeContentHash, Sha256.sha256hex.
  set (ws := Sha256.digestWords _).
  assert (Hws : List.length ws = 8) by apply digestWords_length.
  rewrite <- length_list_ascii_of_string, list_ascii_of_string_of_list_ascii.
  split.
  - rewrite (@flat_map_length_const _ _ Sha256.hexByte 2) by reflexivity.
    rewrite (@flat_map_length_const _ _ (Sha256.bytesBE 4) 4), Hws; [reflexivity|].
    intros x _. apply bytesBE_spec.
  - intros c Hc. apply in_flat_map in Hc. destruct Hc as (b & Hb & Hc).
    apply in_flat_map in Hb. destruct Hb as (w & _ & Hb).
    apply bytesBE_spec in Hb.
    unfold Sha256.hexByte in Hc. destruct Hc as [<-|[<-|[]]]; apply hexDigit_in.
    + apply N.Div0.div_lt_upper_bound. exact Hb.
    + apply N.mod_upper_bound. discriminate.
Qed.

(** ** The session store: round trips and life cycle *)

Lemma getSession_find (db : Sessions.table) (id : string) :
  Sessions.getSession db id
  = option_map Sessions.rowToSession
      (find (fun r => String.eqb r.(SessionRow.session_id) id) db).
Proof. unfold Sessions.getSession. now rewrite get_filter_find. Qed.

Lemma find_map_same (A : Type) (p : A -> bool) (f : A -> A) (l : list A) :
  (forall x, p (f x) = p x) ->
  find p (map f l) = option_map f (find p l).
Proof.
  intros H. induction l as [|x r IH]; simpl; [reflexivity|].
  rewrite H. destruct (p x); [reflexivity | exact IH].
Qed.

Lemma find_app_some (A : Type) (p : A -> bool) (l1 l2 : list A) (x : A) :
  find p l1 = Some x -> find p (l1 ++ l2) = Some x.
Proof.
  induction l1 as [|y r IH]; simpl; [discriminate|].
  destruct (p y); [auto | exact IH].
Qed.

Lemma find_app_none (A : Type) (p : A -> bool) (l1 l2 : list A) :
  find p l1 = None -> find p (l1 ++ l2) = find p l2.
Proof.
  induction l1 as [|y r IH]; simpl; [reflexivity|].
  destruct (p y); [discriminate | exact IH].
Qed.

Lemma find_existsb (A : Type) (p : A -> bool) (l : list A) :
  existsb p l = match find p l with Some _ => true | None => false end.
Proof.
  induction l as [|y r IH]; simpl; [reflexivity|].
  destruct (p y); [reflexivity | exact IH].
Qed.

Lemma evolvesTo_refl (s : Session.t) : evolvesTo s s.
Proof. unfold evolvesTo. intuition. Qed.

Lemma evolvesTo_trans (s1 s2 s3 : Session.t) :
  evolvesTo s1 s2 -> evolvesTo s2 s3 -> evolvesTo s1 s3.
Proof.
  unfold evolvesTo.
  intros (a1 & a2 & a3 & a4 & a5 & a6 & a7 & a8 & a9)
         (b1 & b2 & b3 & b4 & b5 & b6 & b7 & b8 & b9).
  repeat (split; [congruence|]). split.
  - intros Hs. pose proof (a8 Hs) as E. subst s2. now apply b8.
  - intros Hs. pose proof (b9 Hs) as E. subst s3. now apply a9.
Qed.

(** An [UPDATE] that keeps the key and turns active rows into rows that
    are not active. *)
Lemma update_evolves (cond : SessionRow.t -> bool) (set : SessionRow.t -> SessionRow.t)
  (db : Sessions.table) (id : string) (s : Session.t) :
  (forall r, cond r = true -> r.(SessionRow.status) = active) ->
  (forall r, evolvesTo (Sessions.rowToSession r) (Sessions.rowToSession (set r)) \/
             cond r = false) ->
  (forall r, SessionRow.session_id (set r) = SessionRow.session_id r) ->
  Sessions.getSession db id = Some s ->
  exists s', Sessions.getSession (fst (Sql.update cond set db)) id = Some s' /\
             evolvesTo s s'.
Proof.
  intros Hact Hset Hid. rewrite !getSession_find. unfold Sql.update, fst.
  rewrite find_map_same.
  - destruct (find _ db) as [r|]; [|discriminate]. simpl.
    intros [= <-]. destruct (cond r) eqn:Hc.
    + eexists. split; [reflexivity|].
      destruct (Hset r) as [H|H]; [exact H | congruence].
    + eexists. split; [reflexivity | apply evolvesTo_refl].
  - intros r. destruct (cond r); [now rewrite Hid | reflexivity].
Qed.

Lemma setCompleted_evolves (t : string) (sm g : option string) (r : SessionRow.t) :
  r.(SessionRow.status) = active ->
  evolvesTo (Sessions.rowToSession r)
            (Sessions.rowToSession (Sessions.setCompleted t sm g r)).
Proof.
  intros H. unfold evolvesTo. simpl. rewrite H.
  repeat (split; [reflexivity|]). split; [congruence | discriminate].
Qed.

Lemma setAbandoned_evolves (t : string) (r : SessionRow.t) :
  r.(SessionRow.status) = active ->
  evolvesTo (Sessions.rowToSession r)
            (Sessions.rowToSession (Sessions.setAbandoned t r)).
Proof.
  intros H. unfold evolvesTo. simpl. rewrite H.
  repeat (split; [reflexivity|]). split; [congruence | discriminate].
Qed.

Lemma statusEqb_active (st : SessionStatus) :
  Sessions.statusEqb st active = true <-> st = active.
Proof. destruct st; simpl; split; congruence. Qed.

Lemma runSessionCall_evolves (db : Sessions.table) (c : SessionCall)
  (id : string) (s : Session.t) :
  Sessions.getSession db id = Some s ->
  exists s', Sessions.getSession (runSessionCall db c) id = Some s' /\
             evolvesTo s s'.
Proof.
  intros Hs. destruct c as [session|sid t sm g|p t]; simpl.
  - unfold Sessions.createSession.
    destruct (existsb _ db); [exists s; split; [exact Hs | apply evolvesTo_refl]|].
    exists s. split; [|apply evolvesTo_refl].
    rewrite getSession_find in *.
    destruct (find _ db) as [r|] eqn:Hf; [|discriminate].
    now rewrite (find_app_some _ _ _ Hf).
  - assert (H : fst (Sessions.endSession db sid t sm g)
                = fst (Sql.update (Sessions.whereActiveId sid)
                         (Sessions.setCompleted t sm g) db)).
    { unfold Sessions.endSession. destruct (Sql.update _ _ db) as [db' n].
      now destruct (n =? 0). }
    rewrite H. apply update_evolves; [| | reflexivity | exact Hs].
    + intros r Hc. unfold Sessions.whereActiveId in Hc.
      apply andb_prop in Hc. now apply statusEqb_active.
    + intros r. destruct (Sessions.whereActiveId sid r) eqn:Hc; [left | now right].
      apply setCompleted_evolves. unfold Sessions.whereActiveId in Hc.
      apply andb_prop in Hc. now apply statusEqb_active.
  - unfold Sessions.abandonStaleSessions.
    apply update_evolves; [| | reflexivity | exact Hs].
    + intros r Hc. unfold Sessions.whereActiveProject in Hc.
      apply andb_prop in Hc. now apply statusEqb_active.
    + intros r. destruct (Sessions.whereActiveProject p r) eqn:Hc; [left | now right].
      apply setAbandoned_evolves. unfold Sessions.whereActiveProject in Hc.
      apply andb_prop in Hc. now apply statusEqb_active.
Qed.

(** X6. Life cycle of a session.  Whatever calls to [createSession],
    [endSession] and [abandonStaleSessions] follow, a stored session is
    still there, the fields set at its creation are unchanged, a session
    that was completed or abandoned reads exactly as before, and a
    session that is still active has not been modified. *)
Theorem session_life_cycle (db : Sessions.table) (calls : list SessionCall)
  (id : string) (s : Session.t) :
  Sessions.getSession db id = Some s ->
  exists s', Sessions.getSession (runSessionCalls db calls) id = Some s' /\
             evolvesTo s s'.
Proof.
  revert db s. induction calls as [|c r IH]; intros db s Hs; simpl.
  - exists s. split; [exact Hs | apply evolvesTo_refl].
  - destruct (runSessionCall_evolves db c id Hs) as (s1 & H1 & E1).
    destruct (IH _ _ H1) as (s2 & H2 & E2).
    exists s2. split; [exact H2 | now apply evolvesTo_trans with s1].
Qed.

Lemma session_life_cycle_witness :
  exists s',
    Sessions.getSession
      (runSessionCalls [exampleSession "s1" "/test/project" completed]
         [CallEnd "s1" "2026-01-16T09:00:00.000Z" (Some "Again") None;
          CallAbandon "/test/project" "2026-01-17T09:00:00.000Z"]) "s1" = Some s' /\
    evolvesTo (Sessions.rowToSession (exampleSession "s1" "/test/project" completed)) s'.
Proof.
  apply (session_life_cycle [exampleSession "s1" "/test/project" completed]
           [CallEnd "s1" "2026-01-16T09:00:00.000Z" (Some "Again") None;
            CallAbandon "/test/project" "2026-01-17T09:00:00.000Z"] "s1").
  reflexivity.
Defined.

(** X7. [createSession] followed by [getSession].  When no session has
    the identifier, the session is stored and read back with [endedAt],
    [summary] and [gitCommitEnd] cleared and an absent agent type read as
    [unknown]; the sessions stored before read as before.  When a session
    has the identifier, the call throws. *)
Theorem createSession_then_getSession (db : Sessions.table) (session : Session.t) :
  (Sessions.getSession db session.(Session.sessionId) = None ->
   exists db',
     Sessions.createSession db session = Ok db' /\
     Sessions.getSession db' session.(Session.sessionId) = Some (asCreated session) /\
     forall id, id <> session.(Session.sessionId) ->
                Sessions.getSession db' id = Sessions.getSession db id) /\
  (Sessions.getSession db session.(Session.sessionId) <> None ->
   Sessions.createSession db session = Throw (UniqueConstraint "sessions")).
Proof.
  unfold Sessions.createSession. rewrite find_existsb, getSession_find.
  destruct (find _ db) as [r|] eqn:Hf; simpl; split; try congruence.
  intros _. eexists. split; [reflexivity|]. split.
  - rewrite getSession_find, (find_app_none _ _ _ Hf). simpl.
    rewrite String.eqb_refl. simpl. unfold asCreated, Sessions.rowToSession. simpl.
    reflexivity.
  - intros id Hid. rewrite !getSession_find.
    destruct (find (fun r => String.eqb (SessionRow.session_id r) id) db) as [r|] eqn:Hg.
    + now rewrite (find_app_some _ _ _ Hg).
    + rewrite (find_app_none _ _ _ Hg). simpl.
      destruct (String.eqb_spec (Session.sessionId session) id); [congruence | reflexivity].
Qed.

Lemma createSession_then_getSession_witness :
  exists db',
    Sessions.createSession [exampleSession "s1" "/test/project" active]
      emptyBranchSession = Throw (UniqueConstraint "sessions") /\
    Sessions.createSession [] emptyBranchSession = Ok db' /\
    Sessions.getSession db' "s1" = Some (asCreated emptyBranchSession).
Proof.
  destruct (createSession_then_getSession [] emptyBranchSession) as [H _].
  destruct (H eq_refl) as (db' & H1 & H2 & _).
  exists db'. split; [|split; assumption].
  apply (createSession_then_getSession
           [exampleSession "s1" "/test/project" active] emptyBranchSession).
  discriminate.
Defined.

Lemma endSession_table (db : Sessions.table) (sessionId endedAt : string)
  (summary gitCommitEnd : option string) :
  fst (Sessions.endSession db sessionId endedAt summary gitCommitEnd)
  = map (fun r => if Sessions.whereActiveId sessionId r
                  then Sessions.setCompleted endedAt summary gitCommitEnd r
                  else r) db.
Proof.
  unfold Sessions.endSession, Sql.update.
  now destruct (List.length (filter (Sessions.whereActiveId sessionId) db) =? 0).
Qed.

Lemma getSession_after_update (cond : SessionRow.t -> bool)
  (set : SessionRow.t -> SessionRow.t) (db : Sessions.table) (id : string) :
  (forall r, SessionRow.session_id (set r) = SessionRow.session_id r) ->
  Sessions.getSession (map (fun r => if cond r then set r else r) db) id
  = option_map (fun r => Sessions.rowToSession (if cond r then set r else r))
      (find (fun r => String.eqb r.(SessionRow.session_id) id) db).
Proof.
  intros Hid. rewrite getSession_find, find_map_same.
  - now destruct (find _ db).
  - intros r. destruct (cond r); [now rewrite Hid | reflexivity].
Qed.

(** X8. A successful [endSession].  Ending a session that is stored and
    active returns it completed, with the end time, summary and commit of
    the call and every other field as before; it is stored so, and no
    other session is modified. *)
Theorem endSession_completes (db : Sessions.table) (sessionId endedAt : string)
  (summary gitCommitEnd : option string) (s : Session.t) :
  Sessions.getSession db sessionId = Some s ->
  s.(Session.status) = active ->
  let db' := fst (Sessions.endSession db sessionId endedAt summary gitCommitEnd) in
  Sessions.endSession db sessionId endedAt summary gitCommitEnd
  = (db', Some (asCompleted s endedAt summary gitCommitEnd)) /\
  Sessions.getSession db' sessionId = Some (asCompleted s endedAt summary gitCommitEnd) /\
  List.length db' = List.length db /\
  forall id, id <> sessionId -> Sessions.getSession db' id = Sessions.getSession db id.
Proof.
  intros Hs Hact. cbv zeta.
  rewrite getSession_find in Hs.
  destruct (find (fun r => String.eqb r.(SessionRow.session_id) sessionId) db)
    as [r|] eqn:Hf; [|discriminate].
  simpl in Hs. injection Hs as <-.
  assert (Hr : Sessions.whereActiveId sessionId r = true).
  { unfold Sessions.whereActiveId. apply find_some in Hf. destruct Hf as [_ ->].
    simpl in Hact. now rewrite Hact. }
  assert (Hself : Sessions.getSession
                    (fst (Sessions.endSession db sessionId endedAt summary gitCommitEnd))
                    sessionId
                  = Some (asCompleted (Sessions.rowToSession r) endedAt summary gitCommitEnd)).
  { rewrite endSession_table, getSession_after_update, Hf by reflexivity.
    simpl. now rewrite Hr. }
  split; [|split; [exact Hself|split]].
  - revert Hself. unfold Sessions.endSession, Sql.update.
    destruct (Nat.eqb_spec (List.length (filter (Sessions.whereActiveId sessionId) db)) 0)
      as [H0|_].
    + apply find_some in Hf. destruct Hf as [Hin _].
      assert (Hin' : In r (filter (Sessions.whereActiveId sessionId) db))
        by (apply filter_In; split; assumption).
      destruct (filter _ db); [contradiction | discriminate].
    + cbn [fst]. now intros ->.
  - rewrite endSession_table. apply length_map.
  - intros id Hid.
    rewrite endSession_table, getSession_after_update, getSession_find by reflexivity.
    destruct (find (fun r0 => String.eqb (SessionRow.session_id r0) id) db)
      as [r'|] eqn:Hg; [|reflexivity].
    simpl. apply find_some in Hg. destruct Hg as [_ Hg].
    apply String.eqb_eq in Hg.
    unfold Sessions.whereActiveId.
    destruct (String.eqb_spec (SessionRow.session_id r') sessionId); [congruence|].
    reflexivity.
Qed.

Lemma endSession_completes_witness :
  Sessions.getSession
    (fst (Sessions.endSession [exampleSession "s1" "/test/project" active]
            "s1" "2026-01-16T09:00:00.000Z" (Some "Built storage layer.") None)) "s1"
  = Some (asCompleted (Sessions.rowToSession (exampleSession "s1" "/test/project" active))
            "2026-01-16T09:00:00.000Z" (Some "Built storage layer.") None).
Proof.
  apply (endSession_completes [exampleSession "s1" "/test/project" active]
           "s1" "2026-01-16T09:00:00.000Z" (Some "Built storage layer.") None
           (s := Sessions.rowToSession (exampleSession "s1" "/test/project" active)));
    reflexivity.
Defined.

(** ** Listings of the session store *)

Lemma StronglySorted_firstn (A : Type) (R : A -> A -> Prop) (n : nat) (l : list A) :
  StronglySorted R l -> StronglySorted R (firstn n l).
Proof.
  intros H. revert n. induction H as [|x l Hl IH Hx]; intros n.
  - rewrite firstn_nil. constructor.
  - destruct n as [|n]; simpl; constructor; [apply IH|].
    rewrite Forall_forall in *. intros y Hy. apply Hx.
    eapply firstn_In; eassumption.
Qed.

Lemma StronglySorted_map (A B : Type) (R : B -> B -> Prop) (f : A -> B) (l : list A) :
  StronglySorted (fun x y => R (f x) (f y)) l -> StronglySorted R (map f l).
Proof.
  induction 1 as [|x l Hl IH Hx]; simpl; constructor; [exact IH|].
  rewrite Forall_forall in *. intros y Hy. apply in_map_iff in Hy.
  destruct Hy as (z & <- & Hz). now apply Hx.
Qed.

Lemma sort_In_iff (A : Type) (after : A -> A -> bool) (l : list A) (x : A) :
  In x (Js.sort after l) <-> In x l.
Proof.
  split; intros H.
  - eapply Permutation_in; [apply sort_perm | exact H].
  - eapply Permutation_in; [apply Permutation_sym, sort_perm | exact H].
Qed.

Lemma string_ltb_asym (x y : string) :
  String.ltb x y = true -> String.ltb y x = false.
Proof.
  unfold String.ltb. rewrite (String.compare_antisym y x).
  now destruct (String.compare x y).
Qed.

Lemma string_compare_ge_trans (x : string) :
  forall y z, String.compare x y <> Lt -> String.compare y z <> Lt ->
              String.compare x z <> Lt.
Proof.
  induction x as [|a x IH]; intros [|b y] [|c z]; simpl; try congruence.
  unfold Ascii.compare.
  destruct (N.compare_spec (N_of_ascii a) (N_of_ascii b)),
           (N.compare_spec (N_of_ascii b) (N_of_ascii c)),
           (N.compare_spec (N_of_ascii a) (N_of_ascii c));
    try congruence; try lia; eauto.
Qed.

Lemma string_ltb_negtrans (x y z : string) :
  String.ltb x y = false -> String.ltb y z = false -> String.ltb x z = false.
Proof.
  unfold String.ltb. intros H1 H2.
  assert (G : String.compare x z <> Lt).
  { apply string_compare_ge_trans with y.
    - now destruct (String.compare x y).
    - now destruct (String.compare y z). }
  now destruct (String.compare x z).
Qed.

Lemma orderByDesc_sorted (A : Type) (key : A -> string) (l : list A) :
  newestFirst key (Sql.orderByDesc key l).
Proof.
  unfold newestFirst, Sql.orderByDesc.
  apply (@sort_sorted _ (fun x y => String.ltb (key x) (key y))).
  - intros x y. apply string_ltb_asym.
  - intros x y z. apply string_ltb_negtrans.
Qed.

Lemma orderByAsc_sorted (A : Type) (key : A -> string) (l : list A) :
  oldestFirst key (Sql.orderByAsc key l).
Proof.
  unfold oldestFirst, Sql.orderByAsc.
  apply (@sort_sorted _ (fun x y => String.ltb (key y) (key x))).
  - intros x y. apply string_ltb_asym.
  - intros x y z H1 H2. now apply string_ltb_negtrans with (key y).
Qed.

(** What [SELECT ... WHERE p ORDER BY key DESC LIMIT n] returns. *)
Lemma listing_desc (A : Type) (p : A -> bool) (key : A -> string) (n : nat)
  (db : list A) :
  let result := Sql.limit n (Sql.orderByDesc key (filter p db)) in
  (forall x, In x result -> In x db /\ p x = true) /\
  List.length result <= n /\
  newestFirst key result /\
  (List.length (filter p db) <= n ->
   forall x, In x db -> p x = true -> In x result).
Proof.
  unfold Sql.limit, Sql.orderByDesc. cbv zeta. split; [|split; [|split]].
  - intros x Hx. apply firstn_In in Hx. apply sort_In_iff in Hx.
    now apply filter_In in Hx.
  - apply firstn_le_length.
  - apply StronglySorted_firstn. apply orderByDesc_sorted.
  - intros Hn x Hx Hp. rewrite firstn_all2.
    + apply sort_In_iff. apply filter_In. now split.
    + erewrite Permutation_length; [exact Hn|]. apply sort_perm.
Qed.

(** What [SELECT ... WHERE p ORDER BY key ASC] returns. *)
Lemma listing_asc (A : Type) (p : A -> bool) (key : A -> string) (db : list A) :
  let result := Sql.orderByAsc key (filter p db) in
  (forall x, In x result <-> In x db /\ p x = true) /\
  List.length result = List.length (filter p db) /\
  oldestFirst key result.
Proof.
  unfold Sql.orderByAsc. cbv zeta. split; [|split].
  - intros x. rewrite sort_In_iff. apply filter_In.
  - apply Permutation_length, sort_perm.
  - apply orderByAsc_sorted.
Qed.

Lemma whereListed_spec (p : string) (b : option string) (r : SessionRow.t) :
  SessionQueries.whereListed p b r = true <->
  r.(SessionRow.project_path) = p /\ r.(SessionRow.status) = completed /\
  (Js.truthy b = true -> b = Some r.(SessionRow.branch)).
Proof.
  unfold SessionQueries.whereListed.
  destruct (Js.truthy b) eqn:Hb.
  - rewrite !andb_true_iff, String.eqb_eq.
    destruct b as [c|]; [|discriminate]. simpl. rewrite String.eqb_eq.
    destruct (SessionRow.status r); simpl; intuition congruence.
  - rewrite !andb_true_iff, String.eqb_eq.
    destruct (SessionRow.status r); simpl; intuition congruence.
Qed.

(** X9. [getRecentSessions] lists completed sessions only: every session
    returned belongs to the project, is completed and, when a branch is
    given (and not empty), is on that branch; at most [limit] sessions are
    returned, newest start first; and when [limit] covers them, every
    such session is returned.  In particular a session just ended by
    [endSession] is listed, and an active or abandoned one never is. *)
Theorem getRecentSessions_lists_completed (db : Sessions.table)
  (projectPath : string) (limit : nat) (branch : option string) :
  let result := SessionQueries.getRecentSessions db projectPath limit branch in
  (forall s, In s result ->
     s.(Session.projectPath) = projectPath /\
     s.(Session.status) = completed /\
     (Js.truthy branch = true -> branch = Some s.(Session.branch)) /\
     exists r, In r db /\ s = Sessions.rowToSession r) /\
  List.length result <= limit /\
  newestFirst Session.startedAt result /\
  (List.length db <= limit ->
   forall r, In r db ->
     r.(SessionRow.project_path) = projectPath ->
     r.(SessionRow.status) = completed ->
     (Js.truthy branch = true -> branch = Some r.(SessionRow.branch)) ->
     In (Sessions.rowToSession r) result) /\
  (forall sessionId endedAt summary gitCommitEnd s,
     Sessions.getSession db sessionId = Some s ->
     s.(Session.status) = active ->
     s.(Session.projectPath) = projectPath ->
     List.length db <= limit ->
     In (asCompleted s endedAt summary gitCommitEnd)
        (SessionQueries.getRecentSessions
           (fst (Sessions.endSession db sessionId endedAt summary gitCommitEnd))
           projectPath limit None)).
Proof.
  assert (Hgen : forall db0 : Sessions.table, forall b,
    let result := SessionQueries.getRecentSessions db0 projectPath limit b in
    (forall s, In s result ->
       s.(Session.projectPath) = projectPath /\
       s.(Session.status) = completed /\
       (Js.truthy b = true -> b = Some s.(Session.branch)) /\
       exists r, In r db0 /\ s = Sessions.rowToSession r) /\
    List.length result <= limit /\
    newestFirst Session.startedAt result /\
    (List.length db0 <= limit ->
     forall r, In r db0 ->
       r.(SessionRow.project_path) = projectPath ->
       r.(SessionRow.status) = completed ->
       (Js.truthy b = true -> b = Some r.(SessionRow.branch)) ->
       In (Sessions.rowToSession r) result)).
  { intros db0 b. unfold SessionQueries.getRecentSessions. cbv zeta.
    destruct (listing_desc (SessionQueries.whereListed projectPath b)
                SessionRow.started_at limit db0) as (H1 & H2 & H3 & H4).
    split; [|split; [|split]].
    - intros s Hs. apply in_map_iff in Hs. destruct Hs as (r & <- & Hr).
      apply H1 in Hr. destruct Hr as [Hin Hp].
      apply whereListed_spec in Hp. destruct Hp as (Hp1 & Hp2 & Hp3).
      simpl. repeat split; try assumption. now exists r.
    - now rewrite length_map.
    - apply StronglySorted_map. exact H3.
    - intros Hlen r Hr Hp Hc Hb. apply in_map. apply H4; [|exact Hr|].
      + etransitivity; [apply filter_length_le | exact Hlen].
      + apply whereListed_spec. auto. }
  destruct (Hgen db branch) as (G1 & G2 & G3 & G4).
  cbv zeta. split; [exact G1|]. split; [exact G2|]. split; [exact G3|].
  split; [exact G4|].
  intros sessionId endedAt summary gitCommitEnd s Hs Hact Hp Hlen.
  rewrite endSession_table.
  rewrite getSession_find in Hs.
  destruct (find _ db) as [r|] eqn:Hf; [|discriminate].
  simpl in Hs. injection Hs as <-.
  apply find_some in Hf. destruct Hf as [Hin Hid].
  assert (Hr : Sessions.whereActiveId sessionId r = true).
  { unfold Sessions.whereActiveId. rewrite Hid. simpl in Hact. now rewrite Hact. }
  set (db' := map _ db).
  destruct (Hgen db' None) as (_ & _ & _ & K4).
  change (asCompleted (Sessions.rowToSession r) endedAt summary gitCommitEnd)
    with (Sessions.rowToSession (Sessions.setCompleted endedAt summary gitCommitEnd r)).
  apply K4.
  - unfold db'. now rewrite length_map.
  - unfold db'. apply in_map_iff. exists r. now rewrite Hr.
  - exact Hp.
  - reflexivity.
  - discriminate.
Qed.

(** ** Search in the summaries *)

Lemma list_ascii_of_string_app (a b : string) :
  list_ascii_of_string (a ++ b) = list_ascii_of_string a ++ list_ascii_of_string b.
Proof. induction a as [|c a IH]; simpl; [reflexivity | now rewrite IH]. Qed.

Lemma like_percent_unfold (pattern s : list ascii) :
  SqlMore.like ("%"%char :: pattern) s
  = SqlMore.like pattern s
    || match s with [] => false | _ :: r => SqlMore.like ("%"%char :: pattern) r end.
Proof. destruct s; reflexivity. Qed.

Lemma like_percent (pattern s : list ascii) :
  SqlMore.like ("%"%char :: pattern) s = true <->
  exists pre post, s = pre ++ post /\ SqlMore.like pattern post = true.
Proof.
  induction s as [|c r IH]; rewrite like_percent_unfold.
  - rewrite orb_false_r. split.
    + intros H. now exists [], [].
    + intros (pre & post & E & H). symmetry in E. apply app_eq_nil in E.
      destruct E as [_ ->]. exact H.
  - rewrite orb_true_iff, IH. split.
    + intros [H|(pre & post & E & H)].
      * now exists [], (c :: r).
      * exists (c :: pre), post. now rewrite E.
    + intros (pre & post & E & H). destruct pre as [|d pre]; simpl in E.
      * left. now rewrite E.
      * right. injection E as _ E. now exists pre, post.
Qed.

Lemma like_literal (c : ascii) (pattern s : list ascii) :
  c <> "%"%char -> c <> "_"%char ->
  SqlMore.like (c :: pattern) s
  = match s with
    | [] => false
    | d :: r => SqlMore.likeCharEq c d && SqlMore.like pattern r
    end.
Proof.
  intros H1 H2. simpl.
  destruct (Ascii.eqb_spec c "%"); [contradiction|].
  destruct (Ascii.eqb_spec c "_"); [contradiction|].
  reflexivity.
Qed.

Lemma like_literals (q : list ascii) :
  noWildcard q ->
  forall rest s,
    SqlMore.like (q ++ rest) s = true <->
    exists m s', s = m ++ s' /\
                 map SqlMore.upperAscii m = map SqlMore.upperAscii q /\
                 SqlMore.like rest s' = true.
Proof.
  induction q as [|c q IH]; intros Hq rest s.
  - simpl. split.
    + intros H. now exists [], s.
    + intros (m & s' & E & Hm & H). apply map_eq_nil in Hm. subst m. now rewrite E.
  - assert (Hc : c <> "%"%char /\ c <> "_"%char) by (apply Hq; now left).
    assert (Hq' : noWildcard q) by (intros d Hd; apply Hq; now right).
    destruct Hc as [Hc1 Hc2].
    change ((c :: q) ++ rest) with (c :: (q ++ rest)).
    rewrite like_literal by assumption.
    destruct s as [|d r].
    + split; [discriminate|].
      intros (m & s' & E & Hm & _). destruct m; [discriminate Hm | discriminate E].
    + rewrite andb_true_iff, (IH Hq' rest r). unfold SqlMore.likeCharEq.
      split.
      * intros [Hcd (m & s' & E & Hm & H)]. apply Ascii.eqb_eq in Hcd.
        exists (d :: m), s'. simpl. rewrite E, Hm, Hcd. auto.
      * intros (m & s' & E & Hm & H). destruct m as [|d' m]; [discriminate Hm|].
        simpl in E, Hm. injection E as -> E. injection Hm as Hd Hm.
        split; [apply Ascii.eqb_eq; congruence|]. now exists m, s'.
Qed.

Lemma like_any (s : list ascii) : SqlMore.like ["%"%char] s = true.
Proof.
  apply like_percent. exists s, []. split; [now rewrite app_nil_r | reflexivity].
Qed.

Lemma like_contains (q s : list ascii) :
  noWildcard q ->
  SqlMore.like ("%"%char :: q ++ ["%"%char]) s = true <-> containsIgnoringCase q s.
Proof.
  intros Hq. rewrite like_percent. unfold containsIgnoringCase. split.
  - intros (pre & post & E & H). apply (@like_literals _ Hq) in H.
    destruct H as (m & s' & E' & Hm & _). exists pre, m, s'. now rewrite E, E'.
  - intros (pre & m & post & E & Hm). exists pre, (m ++ post). split; [exact E|].
    apply (@like_literals _ Hq). exists m, post. repeat split; [exact Hm | apply like_any].
Qed.

Lemma likeText_contains (q : string) (col : option string) :
  noWildcard (list_ascii_of_string q) ->
  SqlMore.likeText col ("%" ++ q ++ "%") = true <->
  exists text, col = Some text /\
               containsIgnoringCase (list_ascii_of_string q) (list_ascii_of_string text).
Proof.
  intros Hq. unfold SqlMore.likeText. destruct col as [text|].
  - change ("%" ++ q ++ "%")%string with (String "%" (q ++ "%")).
    cbn [list_ascii_of_string]. rewrite list_ascii_of_string_app.
    change (list_ascii_of_string "%") with ["%"%char].
    rewrite (@like_contains _ _ Hq). split.
    + intros H. now exists text.
    + now intros (t & [= <-] & H).
  - split; [discriminate | now intros (t & E & _)].
Qed.

(** In a table built by the session store, only completed sessions carry
    a summary. *)
Lemma summary_only_when_completed (calls : list SessionCall) :
  forall db,
    (forall r, In r db -> r.(SessionRow.summary) <> None ->
               r.(SessionRow.status) = completed) ->
    forall r, In r (runSessionCalls db calls) -> r.(SessionRow.summary) <> None ->
              r.(SessionRow.status) = completed.
Proof.
  induction calls as [|c calls IH]; intros db Inv; [exact Inv|].
  simpl. apply IH. intros r Hr Hsum.
  destruct c as [session|sid t sm g|p t]; simpl in Hr.
  - unfold Sessions.createSession in Hr.
    destruct (existsb _ db); [now apply Inv|].
    apply in_app_or in Hr. destruct Hr as [Hr|[<-|[]]]; [now apply Inv|].
    now contradiction Hsum.
  - rewrite endSession_table in Hr. apply in_map_iff in Hr.
    destruct Hr as (r0 & <- & Hr0).
    destruct (Sessions.whereActiveId sid r0); [reflexivity | now apply Inv].
  - unfold Sessions.abandonStaleSessions, Sql.update in Hr. cbn [fst] in Hr.
    apply in_map_iff in Hr. destruct Hr as (r0 & <- & Hr0).
    destruct (Sessions.whereActiveProject p r0) eqn:Hc; [|now apply Inv].
    simpl in Hsum. apply (Inv r0 Hr0) in Hsum.
    unfold Sessions.whereActiveProject in Hc. apply andb_prop in Hc.
    destruct Hc as [_ Hc]. rewrite Hsum in Hc. discriminate.
Qed.

Lemma whereMatching_spec (p q : string) (b : option string) (r : SessionRow.t) :
  noWildcard (list_ascii_of_string q) ->
  SessionQueries.whereMatching p b ("%" ++ q ++ "%") r = true <->
  r.(SessionRow.project_path) = p /\
  (Js.truthy b = true -> b = Some r.(SessionRow.branch)) /\
  exists text, r.(SessionRow.summary) = Some text /\
               containsIgnoringCase (list_ascii_of_string q) (list_ascii_of_string text).
Proof.
  intros Hq. unfold SessionQueries.whereMatching.
  destruct (Js.truthy b) eqn:Hb.
  - rewrite !andb_true_iff, String.eqb_eq, (@likeText_contains q _ Hq).
    destruct b as [c|]; [|discriminate]. simpl. rewrite String.eqb_eq.
    intuition congruence.
  - rewrite !andb_true_iff, String.eqb_eq, (@likeText_contains q _ Hq).
    intuition congruence.
Qed.

(** X10. [searchSessions] with a query.  For a query that is not empty and
    holds neither [%] nor [_], the sessions returned are sessions of the
    project (on the branch, when one is given and not empty) whose summary
    contains the query, letters A-Z compared without regard to case; at
    most [limit] are returned, newest start first, and when [limit] covers
    them every such session is returned.  The query does not test the
    status; in a table built by the session store alone only completed
    sessions carry a summary, so only completed sessions are returned. *)
Theorem searchSessions_by_summary (db : Sessions.table)
  (projectPath query : string) (branch : option string) (limit : nat) :
  query <> "" ->
  noWildcard (list_ascii_of_string query) ->
  let result :=
    SessionQueries.searchSessions db projectPath (Some query) branch limit in
  let matching (r : SessionRow.t) :=
    r.(SessionRow.project_path) = projectPath /\
    (Js.truthy branch = true -> branch = Some r.(SessionRow.branch)) /\
    exists text, r.(SessionRow.summary) = Some text /\
                 containsIgnoringCase (list_ascii_of_string query)
                                      (list_ascii_of_string text) in
  (forall s, In s result ->
             exists r, In r db /\ matching r /\ s = Sessions.rowToSession r) /\
  List.length result <= limit /\
  newestFirst Session.startedAt result /\
  (List.length db <= limit ->
   forall r, In r db -> matching r -> In (Sessions.rowToSession r) result) /\
  (forall calls, db = runSessionCalls [] calls ->
     forall s, In s result -> s.(Session.status) = completed).
Proof.
  intros Hne Hq. cbv zeta. unfold SessionQueries.searchSessions.
  assert (Ht : Js.truthy (Some query) = true).
  { simpl. destruct (String.eqb_spec query ""); [contradiction | reflexivity]. }
  rewrite Ht.
  destruct (listing_desc
              (SessionQueries.whereMatching projectPath branch ("%" ++ query ++ "%"))
              SessionRow.started_at limit db) as (H1 & H2 & H3 & H4).
  assert (G1 : forall s,
             In s (map Sessions.rowToSession
                     (Sql.limit limit
                        (Sql.orderByDesc SessionRow.started_at
                           (filter (SessionQueries.whereMatching projectPath branch
                                      ("%" ++ query ++ "%")) db)))) ->
             exists r, In r db /\
                       SessionQueries.whereMatching projectPath branch
                         ("%" ++ query ++ "%") r = true /\
                       s = Sessions.rowToSession r).
  { intros s Hs. apply in_map_iff in Hs. destruct Hs as (r & <- & Hr).
    apply H1 in Hr. exists r. intuition. }
  split; [|split; [|split; [|split]]].
  - intros s Hs. destruct (G1 s Hs) as (r & Hin & Hm & E).
    exists r. split; [exact Hin|]. split; [|exact E].
    now apply (@whereMatching_spec projectPath query branch r Hq).
  - now rewrite length_map.
  - apply StronglySorted_map. exact H3.
  - intros Hlen r Hr Hm. apply in_map. apply H4; [|exact Hr|].
    + etransitivity; [apply filter_length_le | exact Hlen].
    + now apply (@whereMatching_spec projectPath query branch r Hq).
  - intros calls Hdb s Hs. destruct (G1 s Hs) as (r & Hin & Hm & ->).
    apply (@whereMatching_spec projectPath query branch r Hq) in Hm.
    destruct Hm as (_ & _ & text & Htext & _).
    simpl. subst db.
    apply (@summary_only_when_completed calls []); [contradiction | exact Hin|].
    congruence.
Qed.

Lemma searchSessions_by_summary_witness :
  In (Sessions.rowToSession (exampleSession "s1" "/test/project" completed))
     (SessionQueries.searchSessions
        [exampleSession "s1" "/test/project" completed]
        "/test/project" (Some "STORAGE") None 10).
Proof.
  assert (Hne : "STORAGE" <> "") by discriminate.
  assert (Hq : noWildcard (list_ascii_of_string "STORAGE")).
  { intros c Hc. simpl in Hc.
    repeat (destruct Hc as [<-|Hc]; [split; discriminate|]). contradiction. }
  destruct (@searchSessions_by_summary
              [exampleSession "s1" "/test/project" completed]
              "/test/project" "STORAGE" None 10 Hne Hq) as (_ & _ & _ & H & _).
  apply H.
  - simpl. lia.
  - now left.
  - split; [reflexivity|]. split; [discriminate|].
    exists "Built storage layer.". split; [reflexivity|].
    exists (list_ascii_of_string "Built "), (list_ascii_of_string "storage"),
           (list_ascii_of_string " layer.").
    split; reflexivity.
Defined.

(** ** Grouping and the session metrics *)

Lemma eventTypeEqb_eq (x y : EventType) : eventTypeEqb x y = true <-> x = y.
Proof. destruct x, y; split; intros H; first [reflexivity | discriminate H]. Qed.

Lemma categoryEqb_eq (x y : EventCategory) : categoryEqb x y = true <-> x = y.
Proof. destruct x, y; split; intros H; first [reflexivity | discriminate H]. Qed.

Lemma agentTypeEqb_eq (x y : AgentType) : agentTypeEqb x y = true <-> x = y.
Proof. destruct x, y; split; intros H; first [reflexivity | discriminate H]. Qed.

Lemma usageTypeEqb_eq (x y : UsageType) : usageTypeEqb x y = true <-> x = y.
Proof. destruct x, y; split; intros H; first [reflexivity | discriminate H]. Qed.

Section GroupFacts.
Variable K : Type.
Variable eqb : K -> K -> bool.
Hypothesis eqb_eq : forall x y, eqb x y = true <-> x = y.

Let occurrences (k : K) (keys : list K) : nat :=
  List.length (filter (fun k' => eqb k' k) keys).

Lemma eqb_same (x : K) : eqb x x = true.
Proof. now apply eqb_eq. Qed.

Lemma countOf_bump (k k' : K) (groups : list (K * nat)) :
  SqlMore.countOf eqb k (SqlMore.bump eqb k' groups)
  = SqlMore.countOf eqb k groups + (if eqb k' k then 1 else 0).
Proof.
  unfold SqlMore.countOf.
  induction groups as [|[k0 n] r IH]; simpl.
  - destruct (eqb k' k); reflexivity.
  - destruct (eqb k0 k') eqn:E0; simpl.
    + apply eqb_eq in E0. subst k0.
      destruct (eqb k' k); simpl; lia.
    + destruct (eqb k0 k) eqn:E1; simpl.
      * apply eqb_eq in E1. subst k0.
        destruct (eqb k' k) eqn:E2; [|lia].
        apply eqb_eq in E2. subst k'. rewrite eqb_same in E0. discriminate.
      * exact IH.
Qed.

Lemma countOf_fold (k : K) (keys : list K) :
  forall groups,
    SqlMore.countOf eqb k (fold_left (fun g k' => SqlMore.bump eqb k' g) keys groups)
    = SqlMore.countOf eqb k groups + occurrences k keys.
Proof.
  unfold occurrences.
  induction keys as [|k' r IH]; intros groups; simpl; [lia|].
  rewrite IH, countOf_bump. destruct (eqb k' k); simpl; lia.
Qed.

(** The count of a group is the number of rows with its key. *)
Lemma countOf_groupCount (k : K) (keys : list K) :
  SqlMore.countOf eqb k (SqlMore.groupCount eqb keys)
  = List.length (filter (fun k' => eqb k' k) keys).
Proof. unfold SqlMore.groupCount. now rewrite countOf_fold. Qed.

Lemma sum_fold (groups : list (K * nat)) :
  forall acc, fold_left (fun sum c => sum + snd c) groups acc
              = acc + fold_left (fun sum c => sum + snd c) groups 0.
Proof.
  induction groups as [|g r IH]; intros acc; simpl; [lia|].
  rewrite (IH (acc + snd g)), (IH (snd g)). lia.
Qed.

Lemma sum_bump (k : K) (groups : list (K * nat)) :
  fold_left (fun sum c => sum + snd c) (SqlMore.bump eqb k groups) 0
  = S (fold_left (fun sum c => sum + snd c) groups 0).
Proof.
  induction groups as [|[k0 n] r IH]; simpl; [reflexivity|].
  destruct (eqb k0 k); simpl.
  - rewrite (sum_fold r (S n)), (sum_fold r n). lia.
  - rewrite (sum_fold _ n), IH, (sum_fold r n). lia.
Qed.

(** The counts of all groups add up to the number of rows. *)
Lemma sum_groupCount (keys : list K) :
  fold_left (fun sum c => sum + snd c) (SqlMore.groupCount eqb keys) 0
  = List.length keys.
Proof.
  unfold SqlMore.groupCount.
  assert (H : forall groups,
             fold_left (fun sum c => sum + snd c)
               (fold_left (fun g k' => SqlMore.bump eqb k' g) keys groups) 0
             = fold_left (fun sum c => sum + snd c) groups 0 + List.length keys).
  { induction keys as [|k r IH]; intros groups; simpl; [lia|].
    rewrite IH, sum_bump. lia. }
  now rewrite H.
Qed.

(** Every key has one group at most. *)
Lemma bump_keys (k : K) (groups : list (K * nat)) :
  NoDup (map fst groups) ->
  NoDup (map fst (SqlMore.bump eqb k groups)) /\
  forall x, In x (map fst (SqlMore.bump eqb k groups)) <->
            x = k \/ In x (map fst groups).
Proof.
  induction groups as [|[k0 n] r IH]; simpl; intros Hnd.
  - split; [repeat constructor; auto | intuition].
  - inversion Hnd as [|? ? Hk0 Hr]; subst.
    destruct (eqb k0 k) eqn:E; simpl.
    + apply eqb_eq in E. subst k0. split; [exact Hnd | intuition].
    + destruct (IH Hr) as [I1 I2]. split.
      * constructor; [|exact I1]. rewrite I2. intros [->|H]; [|contradiction].
        rewrite eqb_same in E. discriminate.
      * intros x. rewrite I2. intuition.
Qed.

Lemma groupCount_keys (keys : list K) :
  NoDup (map fst (SqlMore.groupCount eqb keys)) /\
  forall x, In x (map fst (SqlMore.groupCount eqb keys)) <-> In x keys.
Proof.
  unfold SqlMore.groupCount.
  assert (H : forall groups,
             NoDup (map fst groups) ->
             NoDup (map fst (fold_left (fun g k' => SqlMore.bump eqb k' g) keys groups)) /\
             forall x, In x (map fst (fold_left (fun g k' => SqlMore.bump eqb k' g)
                                        keys groups)) <->
                       In x keys \/ In x (map fst groups)).
  { induction keys as [|k r IH]; intros groups Hnd; simpl.
    - split; [exact Hnd | intuition].
    - destruct (bump_keys k groups Hnd) as [B1 B2].
      destruct (IH _ B1) as [I1 I2]. split; [exact I1|].
      intros x. rewrite I2, B2. intuition. }
  destruct (H [] (NoDup_nil _)) as [H1 H2]. split; [exact H1|].
  intros x. rewrite H2. simpl. intuition.
Qed.

End GroupFacts.

Lemma category_partition (events : Events.table) :
  List.length events
  = inCategory cat_read events + inCategory cat_search events
    + inCategory cat_edit events + inCategory cat_execute events
    + inCategory cat_agent events + inCategory cat_other events.
Proof.
  unfold inCategory. induction events as [|e r IH]; simpl; [reflexivity|].
  rewrite IH. destruct (EventRow.category e); simpl; lia.
Qed.

Lemma values_length (xs : list (option string)) :
  List.length (Metrics.values xs) <= List.length xs.
Proof.
  induction xs as [|[v|] r IH]; simpl; lia.
Qed.

Lemma countDistinct_le (xs : list (option string)) :
  Metrics.countDistinct xs <= List.length xs.
Proof.
  unfold Metrics.countDistinct.
  etransitivity; [|apply values_length].
  apply NoDup_incl_length; [apply NoDup_nodup|].
  intros x Hx. now apply nodup_In in Hx.
Qed.

Lemma filter_length_ext (A : Type) (p q : A -> bool) (l : list A) :
  (forall x, In x l -> p x = q x) ->
  List.length (filter p l) = List.length (filter q l).
Proof.
  intros H. rewrite (filter_ext_in p q l H). reflexivity.
Qed.

Lemma filter_map_length (A B : Type) (f : A -> B) (p : B -> bool) (l : list A) :
  List.length (filter p (map f l)) = List.length (filter (fun x => p (f x)) l).
Proof.
  induction l as [|x r IH]; simpl; [reflexivity|].
  destruct (p (f x)); simpl; now rewrite IH.
Qed.

(** X11. The session metrics count the events of the session.  Metrics
    exist exactly for stored sessions; [eventsTotal] is the number of
    events of the session and the sum of the six category counts; each
    category count and each of [decisionsRecorded], [patternsDiscovered],
    [errorsResolved] is the number of events with that category or type;
    [filesRead] and [filesModified] never exceed the number of read,
    respectively write and edit, events.  When the events are typed as
    [record_event] types them, no event counts as [search] or [agent],
    [read] counts the file reads, [edit] the writes and edits, [execute]
    the tool calls. *)
Theorem computeMetrics_counts_events (parseDate : string -> option Z)
  (nowISO : string) (sessions : Sessions.table) (events : Events.table)
  (sessionId : string) :
  let mine := eventsOf events sessionId in
  (Metrics.computeMetrics parseDate nowISO sessions events sessionId = None <->
   Sessions.getSession sessions sessionId = None) /\
  forall m,
    Metrics.computeMetrics parseDate nowISO sessions events sessionId = Some m ->
    m.(Metrics.eventsTotal) = List.length mine /\
    m.(Metrics.eventsTotal)
    = m.(Metrics.read) + m.(Metrics.search) + m.(Metrics.edit)
      + m.(Metrics.execute) + m.(Metrics.agent) + m.(Metrics.other) /\
    (m.(Metrics.read) = inCategory cat_read mine /\
     m.(Metrics.search) = inCategory cat_search mine /\
     m.(Metrics.edit) = inCategory cat_edit mine /\
     m.(Metrics.execute) = inCategory cat_execute mine /\
     m.(Metrics.agent) = inCategory cat_agent mine /\
     m.(Metrics.other) = inCategory cat_other mine) /\
    (m.(Metrics.decisionsRecorded) = ofEventType decision mine /\
     m.(Metrics.patternsDiscovered) = ofEventType pattern mine /\
     m.(Metrics.errorsResolved) = ofEventType error_resolved mine) /\
    (m.(Metrics.filesRead) <= ofEventType file_read mine /\
     m.(Metrics.filesModified) <= ofEventType file_write mine + ofEventType file_edit mine) /\
    ((forall e, In e mine -> eventWellTyped e) ->
     m.(Metrics.search) = 0 /\ m.(Metrics.agent) = 0 /\
     m.(Metrics.read) = ofEventType file_read mine /\
     m.(Metrics.edit) = ofEventType file_write mine + ofEventType file_edit mine /\
     m.(Metrics.execute) = ofEventType tool_call mine /\
     m.(Metrics.other) = ofEventType decision mine + ofEventType pattern mine
                         + ofEventType error_resolved mine + ofEventType milestone mine).
Proof.
  cbv zeta. unfold Metrics.computeMetrics.
  fold (eventsOf events sessionId). set (mine := eventsOf events sessionId).
  destruct (Sessions.getSession sessions sessionId) as [session|].
  2:{ split; [tauto | discriminate]. }
  split; [split; discriminate|].
  intros m [= <-]. cbn [Metrics.eventsTotal Metrics.read Metrics.search Metrics.edit
    Metrics.execute Metrics.agent Metrics.other Metrics.decisionsRecorded
    Metrics.patternsDiscovered Metrics.errorsResolved Metrics.filesRead
    Metrics.filesModified].
  rewrite sum_groupCount.
  rewrite !(@countOf_groupCount _ _ categoryEqb_eq), !(@countOf_groupCount _ _ eventTypeEqb_eq).
  rewrite !filter_map_length, !length_map.
  fold (inCategory cat_read mine) (inCategory cat_search mine) (inCategory cat_edit mine)
       (inCategory cat_execute mine) (inCategory cat_agent mine) (inCategory cat_other mine).
  fold (ofEventType decision mine) (ofEventType pattern mine)
       (ofEventType error_resolved mine).
  split; [reflexivity|]. split; [apply category_partition|].
  split; [repeat split|]. split; [repeat split|]. split; [split|].
  - etransitivity; [apply countDistinct_le|]. now rewrite length_map.
  - etransitivity; [apply countDistinct_le|]. rewrite length_map.
    unfold ofEventType. clear. induction mine as [|e r IH]; simpl; [lia|].
    destruct (EventRow.event_type e); simpl in *; lia.
  - intros Hty. unfold inCategory, ofEventType.
    clear -Hty. induction mine as [|e r IH]; simpl; [repeat split; reflexivity|].
    destruct IH as (I1 & I2 & I3 & I4 & I5 & I6); [intros x Hx; apply Hty; now right|].
    destruct (Hty e (or_introl eq_refl)) as [_ Hc]. rewrite Hc.
    destruct (EventRow.event_type e); simpl; repeat split; lia.
Qed.

(** ** Keys of the tables *)

Lemma map_update_key (A K : Type) (key : A -> K) (cond : A -> bool)
  (set : A -> A) (rows : list A) :
  (forall r, key (set r) = key r) ->
  map key (fst (Sql.update cond set rows)) = map key rows.
Proof.
  intros H. unfold Sql.update, fst. rewrite map_map. apply map_ext.
  intros r. destruct (cond r); [apply H | reflexivity].
Qed.

Lemma existsb_key_false (A : Type) (key : A -> string) (id : string) (rows : list A) :
  existsb (fun r => String.eqb (key r) id) rows = false ->
  ~ In id (map key rows).
Proof.
  intros H Hin. apply in_map_iff in Hin. destruct Hin as (r & <- & Hr).
  assert (E : existsb (fun r0 => String.eqb (key r0) (key r)) rows = true).
  { apply existsb_exists. exists r. split; [exact Hr | apply String.eqb_refl]. }
  congruence.
Qed.

Lemma existsb_key_true (A : Type) (key : A -> string) (id : string) (rows : list A) :
  existsb (fun r => String.eqb (key r) id) rows = true ->
  In id (map key rows).
Proof.
  intros H. apply existsb_exists in H. destruct H as (r & Hr & E).
  apply String.eqb_eq in E. subst id. now apply in_map.
Qed.

Lemma NoDup_snoc (A : Type) (l : list A) (x : A) :
  NoDup l -> ~ In x l -> NoDup (l ++ [x]).
Proof.
  intros Hl Hx. apply NoDup_app; [exact Hl | repeat constructor; auto |].
  intros y Hy [<-|[]]. contradiction.
Qed.

Lemma handleSessionEnd_table (db : Sessions.table) (now sessionId : string)
  (summary gitCommit : option string) :
  fst (Tools.handleSessionEnd db now sessionId summary gitCommit)
  = fst (Sessions.endSession db sessionId now summary gitCommit).
Proof.
  unfold Tools.handleSessionEnd.
  destruct (Sessions.endSession db sessionId now summary gitCommit) as [db' [s|]];
    reflexivity.
Qed.

Lemma markSuperseded_rows (db : KnowledgeStore.table) (oldId newId : string)
  (r' : KnowledgeRow.t) :
  In r' (Duplicates.markSuperseded db oldId newId) ->
  exists r, In r db /\
            (r' = r \/ r' = Duplicates.setSupersededBy newId r).
Proof.
  unfold Duplicates.markSuperseded, Sql.update, fst. intros H.
  apply in_map_iff in H. destruct H as (r & <- & Hr). exists r.
  split; [exact Hr|]. destruct (String.eqb _ _); auto.
Qed.

Lemma markSuperseded_ids (db : KnowledgeStore.table) (oldId newId : string) :
  map KnowledgeRow.knowledge_id (Duplicates.markSuperseded db oldId newId)
  = map KnowledgeRow.knowledge_id db.
Proof. apply map_update_key. reflexivity. Qed.

Lemma foreignKeyOk_in (A : Type) (key : A -> string) (parent : list A)
  (ref : option string) (v : string) :
  KnowledgeStore.foreignKeyOk key parent ref = true ->
  ref = Some v -> In v (map key parent).
Proof.
  intros H ->. simpl in H. now apply existsb_key_true.
Qed.

(** ** The program logic *)

Section TripleRules.
Variables A B : Type.
Variable E : Server.Db -> Prop.

Lemma triple_ret (P : Server.Db -> Prop) (Q : A -> Server.Db -> Prop) (a : A) :
  (forall d, P d -> Q a d) -> triple P (Server.ret a) Q E.
Proof. intros H s Hs. now apply H. Qed.

Lemma triple_bind (P : Server.Db -> Prop) (R : A -> Server.Db -> Prop)
  (Q : B -> Server.Db -> Prop) (m : Server.M A) (f : A -> Server.M B) :
  triple P m R E -> (forall a, triple (R a) (f a) Q E) ->
  triple P (Server.bind m f) Q E.
Proof.
  intros Hm Hf s Hs. unfold Server.bind. specialize (Hm s Hs).
  destruct (m s) as [s' [a|e]]; [|exact Hm]. now apply Hf.
Qed.

Lemma triple_act (P : Server.Db -> Prop) (Q : A -> Server.Db -> Prop)
  (f : Server.Db -> Server.Db * Result A) :
  (forall d, P d -> match f d with
                    | (d', Ok a) => Q a d'
                    | (d', Throw _) => E d'
                    end) ->
  triple P (Server.act f) Q E.
Proof.
  intros H s Hs. unfold Server.act. specialize (H _ Hs).
  destruct (f (Server.db s)) as [d' [a|e]]; exact H.
Qed.

Lemma triple_gets (P : Server.Db -> Prop) (Q : A -> Server.Db -> Prop)
  (f : Server.Db -> A) :
  (forall d, P d -> Q (f d) d) -> triple P (Server.gets f) Q E.
Proof. intros H. apply triple_act. intros d Hd. now apply H. Qed.

Lemma triple_weaken (P P' : Server.Db -> Prop) (Q Q' : A -> Server.Db -> Prop)
  (m : Server.M A) :
  (forall d, P' d -> P d) -> (forall a d, Q a d -> Q' a d) ->
  triple P m Q E -> triple P' m Q' E.
Proof.
  intros HP HQ Hm s Hs. specialize (Hm s (HP _ Hs)).
  destruct (m s) as [s' [a|e]]; [now apply HQ | exact Hm].
Qed.

End TripleRules.

Lemma triple_modify (E P : Server.Db -> Prop) (Q : unit -> Server.Db -> Prop)
  (f : Server.Db -> Server.Db) :
  (forall d, P d -> Q tt (f d)) -> triple P (Server.modify f) Q E.
Proof. intros H. apply triple_act. intros d Hd. now apply H. Qed.

Lemma triple_nowISO (E P : Server.Db -> Prop) (Q : string -> Server.Db -> Prop)
  (w : Server.World) :
  (forall t d, P d -> Q t d) -> triple P (Server.nowISO w) Q E.
Proof. intros H s Hs. simpl. now apply H. Qed.

Lemma triple_generateId (E P : Server.Db -> Prop) (Q : string -> Server.Db -> Prop)
  (w : Server.World) :
  (forall t d, P d -> Q t d) -> triple P (Server.generateId w) Q E.
Proof. intros H s Hs. simpl. now apply H. Qed.

Lemma triple_forEach (A : Type) (E I : Server.Db -> Prop) (l : list A)
  (body : A -> Server.M unit) :
  (forall x, In x l -> triple I (body x) (fun _ => I) E) ->
  triple I (Server.forEach l body) (fun _ => I) E.
Proof.
  induction l as [|x r IH]; intros H; simpl.
  - apply triple_ret. auto.
  - eapply triple_bind; [apply H; now left|].
    intros []. apply IH. intros y Hy. apply H. now right.
Qed.

(** The database after a handler satisfies the postcondition or, when an
    exception was caught, the exceptional one. *)
Lemma triple_run (A : Type) (P E : Server.Db -> Prop) (Q : A -> Server.Db -> Prop)
  (m : Server.M A) (d : Server.Db) :
  triple P m Q E -> P d ->
  match Server.run m d with
  | (d', Ok a) => Q a d'
  | (d', Throw _) => E d'
  end.
Proof.
  intros H Hd. unfold Server.run.
  specialize (H {| Server.db := d; Server.ticks := 0; Server.draws := 0 |} Hd).
  destruct (m _) as [s' [a|e]]; exact H.
Qed.

(** ** The statements, table by table *)

Lemma filter_update_length (A : Type) (q cond : A -> bool) (set : A -> A)
  (rows : list A) :
  (forall r, q (set r) = q r) ->
  List.length (filter q (fst (Sql.update cond set rows)))
  = List.length (filter q rows).
Proof.
  intros H. unfold Sql.update, fst.
  induction rows as [|r rows IH]; simpl; [reflexivity|].
  assert (E : q (if cond r then set r else r) = q r)
    by (destruct (cond r); [apply H | reflexivity]).
  rewrite E. destruct (q r); simpl; now rewrite IH.
Qed.

Lemma in_update (A : Type) (cond : A -> bool) (set : A -> A) (rows : list A) (r' : A) :
  In r' (fst (Sql.update cond set rows)) ->
  exists r, In r rows /\ r' = (if cond r then set r else r).
Proof.
  unfold Sql.update, fst. intros H. apply in_map_iff in H.
  destruct H as (r & <- & Hr). now exists r.
Qed.

Lemma find_update (A : Type) (p cond : A -> bool) (set : A -> A) (rows : list A) :
  (forall r, p (set r) = p r) ->
  find p (fst (Sql.update cond set rows))
  = option_map (fun r => if cond r then set r else r) (find p rows).
Proof.
  intros H. unfold Sql.update, fst. apply find_map_same.
  intros r. destruct (cond r); [apply H | reflexivity].
Qed.

(** *** The agent registry *)

Lemma agentTypeEqb_sym (a b : AgentType) : agentTypeEqb a b = agentTypeEqb b a.
Proof. unfold agentTypeEqb. apply String.eqb_sym. Qed.

Lemma registeredSessions_find (t : Agents.table) (a : AgentType) :
  registeredSessions t a
  = match find (fun r => agentTypeEqb r.(AgentRow.agent_type) a) t with
    | Some r => r.(AgentRow.total_sessions)
    | None => 0
    end.
Proof.
  unfold registeredSessions, Agents.getAgent. rewrite get_filter_find.
  now destruct (find _ t).
Qed.

Lemma upsertAgent_table (t : Agents.table) (now : string) (a : AgentType) :
  let t' := fst (Agents.upsertAgent t now a) in
  (NoDup (map AgentRow.agent_type t) -> NoDup (map AgentRow.agent_type t')) /\
  forall a', registeredSessions t' a'
             = registeredSessions t a' + (if agentTypeEqb a a' then 1 else 0).
Proof.
  cbv zeta. unfold Agents.upsertAgent. cbn [fst].
  destruct (existsb _ t) eqn:Hex.
  - split.
    + now rewrite map_update_key by reflexivity.
    + intros a'. rewrite !registeredSessions_find, find_update by reflexivity.
      destruct (find _ t) as [r|] eqn:Hf; simpl.
      * apply find_some in Hf. destruct Hf as [_ Hr].
        apply agentTypeEqb_eq in Hr. rewrite Hr, (agentTypeEqb_sym a a').
        destruct (agentTypeEqb a' a); simpl; lia.
      * destruct (agentTypeEqb a a') eqn:Ea; [|reflexivity].
        apply agentTypeEqb_eq in Ea. subst a'.
        rewrite find_existsb, Hf in Hex. discriminate.
  - assert (Hfresh : ~ In a (map AgentRow.agent_type t)).
    { intros Hin. apply in_map_iff in Hin. destruct Hin as (r & Hr & Hin).
      assert (X : existsb (fun r0 => agentTypeEqb (AgentRow.agent_type r0) a) t = true).
      { apply existsb_exists. exists r. split; [exact Hin|]. now apply agentTypeEqb_eq. }
      congruence. }
    split.
    + intros Hnd. rewrite map_app. now apply NoDup_snoc.
    + intros a'. rewrite !registeredSessions_find.
      destruct (find (fun r => agentTypeEqb (AgentRow.agent_type r) a') t) as [r|] eqn:Hf.
      * rewrite (find_app_some _ _ _ Hf).
        destruct (agentTypeEqb a a') eqn:Ea; [|lia].
        apply agentTypeEqb_eq in Ea. subst a'.
        rewrite find_existsb, Hf in Hex. discriminate.
      * rewrite (find_app_none _ _ _ Hf). simpl.
        destruct (agentTypeEqb a a'); reflexivity.
Qed.

(** *** The value metrics *)

Lemma trackedSessions_find (t : ValueMetrics.table) (p : string) :
  trackedSessions t p
  = match find (fun r => String.eqb r.(ValueMetricsRow.project_path) p) t with
    | Some r => r.(ValueMetricsRow.total_sessions)
    | None => 0
    end.
Proof.
  unfold trackedSessions, ValueMetrics.getValueMetrics. now rewrite get_filter_find.
Qed.

Section ValueMetricsRows.

(** A property of the rows that the new row of [ensureValueMetrics] has. *)
Variable Inv : ValueMetricsRow.t -> Prop.
Hypothesis Inv_new :
  forall p now, Inv (ValueMetricsRow.mk p 0 0 0 0 0 0 0 now).

Lemma ensureValueMetrics_table (t : ValueMetrics.table) (now p : string) :
  let t' := fst (ValueMetrics.ensureValueMetrics t now p) in
  (NoDup (map ValueMetricsRow.project_path t) ->
   NoDup (map ValueMetricsRow.project_path t')) /\
  ((forall r, In r t -> Inv r) -> forall r, In r t' -> Inv r) /\
  (forall p', trackedSessions t' p' = trackedSessions t p') /\
  ValueMetrics.getValueMetrics t' p <> None.
Proof.
  cbv zeta. unfold ValueMetrics.ensureValueMetrics.
  destruct (ValueMetrics.getValueMetrics t p) as [r|] eqn:Hg; cbn [fst].
  - split; [auto|]. split; [auto|]. split; [auto|]. congruence.
  - unfold ValueMetrics.getValueMetrics in Hg. rewrite get_filter_find in Hg.
    split; [|split; [|split]].
    + intros Hnd. rewrite map_app. apply NoDup_snoc; [exact Hnd|].
      cbn [map ValueMetricsRow.project_path].
      apply existsb_key_false. now rewrite find_existsb, Hg.
    + intros H r Hr. apply in_app_or in Hr. destruct Hr as [Hr|[<-|[]]]; [now apply H|].
      apply Inv_new.
    + intros p'. rewrite !trackedSessions_find.
      destruct (find (fun r => String.eqb (ValueMetricsRow.project_path r) p') t)
        as [r|] eqn:Hf.
      * now rewrite (find_app_some _ _ _ Hf).
      * rewrite (find_app_none _ _ _ Hf). simpl. now destruct (String.eqb p p').
    + unfold ValueMetrics.getValueMetrics. rewrite get_filter_find, (find_app_none _ _ _ Hg).
      simpl. now rewrite String.eqb_refl.
Qed.

(** An [UPDATE] of the row of a project that keeps the key. *)
Lemma valueMetrics_update (t : ValueMetrics.table) (p : string)
  (set : ValueMetricsRow.t -> ValueMetricsRow.t) (extra : nat) :
  (forall r, ValueMetricsRow.project_path (set r) = ValueMetricsRow.project_path r) ->
  (forall r, ValueMetricsRow.total_sessions (set r)
             = ValueMetricsRow.total_sessions r + extra) ->
  (forall r, Inv r -> Inv (set r)) ->
  let t' := fst (Sql.update (ValueMetrics.whereProject p) set t) in
  (NoDup (map ValueMetricsRow.project_path t) ->
   NoDup (map ValueMetricsRow.project_path t')) /\
  ((forall r, In r t -> Inv r) -> forall r, In r t' -> Inv r) /\
  (forall p', trackedSessions t' p'
              = trackedSessions t p'
                + (if String.eqb p p' then
                     match ValueMetrics.getValueMetrics t p with
                     | Some _ => extra
                     | None => 0
                     end
                   else 0)).
Proof.
  intros Hkey Htot Htime. cbv zeta. split; [|split].
  - now rewrite map_update_key.
  - intros H r' Hr'. apply in_update in Hr'. destruct Hr' as (r & Hr & ->).
    destruct (ValueMetrics.whereProject p r); [apply Htime|]; now apply H.
  - intros p'. rewrite !trackedSessions_find, find_update
      by (intros r; now rewrite Hkey).
    unfold ValueMetrics.getValueMetrics. rewrite get_filter_find.
    destruct (String.eqb_spec p p') as [<-|Hp].
    + destruct (find _ t) as [r|] eqn:Hf; simpl; [|reflexivity].
      apply find_some in Hf. destruct Hf as [_ Hf].
      unfold ValueMetrics.whereProject. rewrite Hf. apply Htot.
    + destruct (find (fun r => String.eqb (ValueMetricsRow.project_path r) p') t)
        as [r|] eqn:Hf; simpl; [|reflexivity].
      apply find_some in Hf. destruct Hf as [_ Hf]. apply String.eqb_eq in Hf.
      unfold ValueMetrics.whereProject. rewrite Hf.
      destruct (String.eqb_spec p' p); [congruence | lia].
Qed.

End ValueMetricsRows.

Lemma rowAccounted_new (p now : string) :
  rowAccounted (ValueMetricsRow.mk p 0 0 0 0 0 0 0 now).
Proof. split; reflexivity. Qed.

Lemma timeFormula_new (p now : string) :
  timeFormula (ValueMetricsRow.mk p 0 0 0 0 0 0 0 now).
Proof. reflexivity. Qed.

(** *** The sessions *)

Lemma sessions_update (cond : SessionRow.t -> bool) (set : SessionRow.t -> SessionRow.t)
  (t : Sessions.table) :
  (forall r, SessionRow.session_id (set r) = SessionRow.session_id r) ->
  (forall r, SessionRow.project_path (set r) = SessionRow.project_path r) ->
  (forall r, SessionRow.agent_type (set r) = SessionRow.agent_type r) ->
  forall t', t' = fst (Sql.update cond set t) ->
  map SessionRow.session_id t' = map SessionRow.session_id t /\
  (forall p, sessionsOf t' p = sessionsOf t p) /\
  (forall a, sessionsBy t' a = sessionsBy t a).
Proof.
  intros H1 H2 H3 t' ->. split; [|split].
  - now apply map_update_key.
  - intros p. unfold sessionsOf. apply filter_update_length.
    intros r. now rewrite H2.
  - intros a. unfold sessionsBy. apply filter_update_length.
    intros r. now rewrite H3.
Qed.

Lemma createSession_table (t t' : Sessions.table) (session : Session.t)
  (a : AgentType) :
  Sessions.createSession t session = Ok t' ->
  session.(Session.agentType) = Some a ->
  session.(Session.status) = active ->
  activeIn t session.(Session.projectPath) = [] ->
  map SessionRow.session_id t'
  = map SessionRow.session_id t ++ [session.(Session.sessionId)] /\
  ~ In session.(Session.sessionId) (map SessionRow.session_id t) /\
  (forall p, sessionsOf t' p
             = sessionsOf t p + pendingFor (Some session.(Session.projectPath)) p) /\
  (forall a', sessionsBy t' a' = sessionsBy t a' + slackFor (Some a) a') /\
  (atMostOneActive t -> atMostOneActive t').
Proof.
  unfold Sessions.createSession. intros H Ha Hst Hact.
  destruct (existsb _ t) eqn:Hex; [discriminate|]. injection H as <-.
  split; [|split; [|split; [|split]]].
  - now rewrite map_app.
  - now apply existsb_key_false.
  - intros p. unfold sessionsOf, pendingFor. rewrite filter_app, length_app.
    cbn [filter Sessions.insertedRow SessionRow.project_path].
    now destruct (String.eqb _ p).
  - intros a'. unfold sessionsBy, slackFor. rewrite filter_app, length_app.
    cbn [filter Sessions.insertedRow SessionRow.agent_type]. rewrite Ha.
    now destruct (agentTypeEqb a a').
  - intros Hone q. unfold activeIn in *. rewrite filter_app, length_app.
    cbn [filter]. unfold Sessions.whereActiveProject at 2.
    cbn [Sessions.insertedRow SessionRow.project_path SessionRow.status].
    destruct (String.eqb_spec (Session.projectPath session) q) as [<-|Hq].
    + rewrite Hact. destruct (_ && _); simpl; lia.
    + cbn [andb List.length]. rewrite Nat.add_0_r. apply Hone.
Qed.

(** *** The usage log *)

Lemma incrementUsageCount_rows (t : KnowledgeStore.table) (kid : string)
  (k' : KnowledgeRow.t) :
  In k' (Usage.incrementUsageCount t kid) ->
  exists k, In k t /\
            k' = (if String.eqb k.(KnowledgeRow.knowledge_id) kid
                  then Usage.addUsage k else k).
Proof. apply in_update. Qed.

Lemma incrementUsageCount_ids (t : KnowledgeStore.table) (kid : string) :
  map KnowledgeRow.knowledge_id (Usage.incrementUsageCount t kid)
  = map KnowledgeRow.knowledge_id t.
Proof. apply map_update_key. reflexivity. Qed.

Lemma usagesOf_snoc (t : Usage.table) (u : UsageRow.t) (kid : string) :
  usagesOf (t ++ [u]) kid
  = usagesOf t kid + (if String.eqb u.(UsageRow.knowledge_id) kid then 1 else 0).
Proof.
  unfold usagesOf. rewrite filter_app, length_app. cbn [filter].
  now destruct (String.eqb _ kid).
Qed.

Lemma usagesOf_unknown (t : Usage.table) (kid : string) :
  (forall u, In u t -> u.(UsageRow.knowledge_id) <> kid) -> usagesOf t kid = 0.
Proof.
  intros H. unfold usagesOf. induction t as [|u r IH]; simpl; [reflexivity|].
  destruct (String.eqb_spec (UsageRow.knowledge_id u) kid) as [E|_].
  - exfalso. apply (H u); [now left | exact E].
  - apply IH. intros v Hv. apply H. now right.
Qed.

(** ** The statements preserve the invariant *)

Ltac unpack H :=
  let Ks := fresh "Ks" in let Ke := fresh "Ke" in let Kk := fresh "Kk" in
  let Ka := fresh "Ka" in let Kv := fresh "Kv" in let Ku := fresh "Ku" in
  let Hone := fresh "Hone" in
  let Rev := fresh "Rev" in let Rkn := fresh "Rkn" in let Rus := fresh "Rus" in
  let Cus := fresh "Cus" in let Ctime := fresh "Ctime" in
  let Cses := fresh "Cses" in let Cag := fresh "Cag" in
  destruct H as ((Ks & Ke & Kk & Ka & Kv & Ku) & Hone & (Rev & Rkn & Rus)
                 & (Cus & Ctime & Cses & Cag)).

Ltac pack :=
  unfold serverOkWith, keysOk, refsOk, countersOkWith;
  cbn [Server.sessions Server.session_events Server.promoted_knowledge
       Server.agents Server.value_metrics Server.knowledge_usage
       Server.setSessions Server.setEvents Server.setKnowledge
       Server.setAgents Server.setValueMetrics Server.setUsage].

Ltac splits :=
  split; [split; [|split; [|split; [|split; [|split]]]]
         |split; [|split; [split; [|split] | split; [|split; [|split]]]]].

Lemma serverOkWith_plain (d : Server.Db) : serverOkWith None None d <-> serverOk d.
Proof.
  unfold serverOkWith, serverOk, countersOkWith, countersOk. cbn [pendingFor slackFor].
  split; intros (H1 & H2 & H3 & H4 & H5 & H6 & H7); repeat (split; [assumption|]).
  - split; intros x; [rewrite <- H6 | rewrite <- H7 at 1]; lia.
  - split; intros x; [rewrite <- H6 | rewrite <- H7 at 1]; lia.
Qed.

Lemma serverOkWith_drop_slack (a : AgentType) (d : Server.Db) :
  serverOkWith (Some a) None d -> serverOk d.
Proof.
  intros H. apply serverOkWith_plain. unpack H.
  pack. splits; try assumption.
  intros a'. specialize (Cag a'). cbn [slackFor] in *. lia.
Qed.

Section Statements.
Variable w : Server.World.
Variable E : Server.Db -> Prop.

(** A fact about the identifiers stored, kept by every statement that
    adds or removes none. *)
Variable F : list string -> list string -> Prop.

Lemma abandon_ok (p t : string) :
  triple serverOk (Server.abandonStaleSessions p t)
    (fun _ d => serverOk d /\ activeIn d.(Server.sessions) p = []) E.
Proof.
  apply triple_act. intros d H. apply serverOkWith_plain in H.
  destruct (Sessions.abandonStaleSessions (Server.sessions d) p t) as [t' n] eqn:Et.
  assert (Et' : t' = fst (Sessions.abandonStaleSessions (Server.sessions d) p t))
    by now rewrite Et.
  destruct (@sessions_update (Sessions.whereActiveProject p) (Sessions.setAbandoned t)
              (Server.sessions d)) with (t' := t') as (I1 & I2 & I3);
    try reflexivity; [exact Et'|].
  split.
  - apply serverOkWith_plain. unpack H. pack. rewrite I1.
    splits; try assumption.
    + rewrite Et'. now apply abandon_preserves.
    + intros x. rewrite I2. auto.
    + intros x. rewrite I3. auto.
  - cbn [Server.sessions Server.setSessions]. rewrite Et'. apply abandon_clears.
Qed.

Lemma endSession_ok (sessionId now : string) (summary gitCommit : option string) :
  triple serverOk
    (Server.act (fun d =>
       let (t, session) :=
         Sessions.endSession d.(Server.sessions) sessionId now summary gitCommit in
       (Server.setSessions d t, Ok session)))
    (fun _ d => serverOk d) E.
Proof.
  apply triple_act. intros d H. apply serverOkWith_plain in H.
  destruct (Sessions.endSession (Server.sessions d) sessionId now summary gitCommit)
    as [t' s] eqn:Et.
  assert (Et' : t' = fst (Sessions.endSession (Server.sessions d) sessionId now
                            summary gitCommit)) by now rewrite Et.
  destruct (@sessions_update (Sessions.whereActiveId sessionId)
              (Sessions.setCompleted now summary gitCommit)
              (Server.sessions d)) with (t' := t') as (I1 & I2 & I3);
    try reflexivity; [rewrite Et', endSession_table; reflexivity|].
  apply serverOkWith_plain. unpack H. pack. rewrite I1.
  splits; try assumption.
  - rewrite Et', <- handleSessionEnd_table. now apply end_preserves.
  - intros x. rewrite I2. auto.
  - intros x. rewrite I3. auto.
Qed.

Lemma upsertAgent_ok (a : AgentType) (G : Sessions.table -> Prop) :
  triple (fun d => serverOk d /\ G d.(Server.sessions)) (Server.upsertAgent w a)
    (fun _ d => serverOkWith (Some a) None d /\ G d.(Server.sessions)) E.
Proof.
  unfold Server.upsertAgent.
  eapply triple_bind; [apply triple_nowISO; intros t d H; exact H|].
  intros now. apply triple_modify. intros d [H HG].
  apply serverOkWith_plain in H. split; [|exact HG].
  destruct (upsertAgent_table (Server.agents d) now a) as [U1 U2].
  unpack H. pack. splits; try assumption.
  - now apply U1.
  - intros a'. rewrite U2. specialize (Cag a'). cbn [slackFor] in *. lia.
Qed.

Lemma createSession_ok (session : Session.t) (a : AgentType) :
  session.(Session.agentType) = Some a ->
  session.(Session.status) = active ->
  triple (fun d => serverOkWith (Some a) None d /\
                   activeIn d.(Server.sessions) session.(Session.projectPath) = [])
    (Server.createSession session)
    (fun _ d => serverOkWith None (Some session.(Session.projectPath)) d /\
                In session.(Session.sessionId) (sessionIds d))
    serverOk.
Proof.
  intros Ha Hst. apply triple_act. intros d [H Hact].
  destruct (Sessions.createSession (Server.sessions d) session) as [t'|e] eqn:Ec.
  2:{ eapply serverOkWith_drop_slack. exact H. }
  destruct (@createSession_table (Server.sessions d) t' session a Ec Ha Hst Hact)
    as (I1 & I2 & I3 & I4 & I5).
  split.
  - unpack H. pack. rewrite I1.
    splits; try assumption.
    + now apply NoDup_snoc.
    + now apply I5.
    + intros e He. destruct (Rev e He). split; [assumption|].
      apply in_or_app. now left.
    + intros k Hk. destruct (Rkn k Hk) as (K1 & K2 & K3 & K4).
      split; [assumption|]. split; [|split; assumption].
      intros sid Hsid. apply in_or_app. left. now apply K2.
    + intros u Hu. destruct (Rus u Hu). split; [assumption|].
      apply in_or_app. now left.
    + intros p. rewrite I3. specialize (Cses p). cbn [pendingFor] in *. lia.
    + intros a'. rewrite I4. specialize (Cag a'). cbn [slackFor] in *. lia.
  - unfold sessionIds. cbn [Server.sessions Server.setSessions]. rewrite I1.
    apply in_or_app. right. now left.
Qed.

Lemma ensureValueMetrics_ok (pending : option string) (p : string) :
  triple (fun d => serverOkWith None pending d /\ F (knowledgeIds d) (sessionIds d))
    (Server.ensureValueMetrics w p)
    (fun _ d => serverOkWith None pending d /\ F (knowledgeIds d) (sessionIds d) /\
                ValueMetrics.getValueMetrics d.(Server.value_metrics) p <> None) E.
Proof.
  unfold Server.ensureValueMetrics.
  eapply triple_bind.
  { apply triple_gets with
      (Q := fun x d => (serverOkWith None pending d /\ F (knowledgeIds d) (sessionIds d)) /\
                       x = ValueMetrics.getValueMetrics d.(Server.value_metrics) p).
    intros d H. split; [exact H | reflexivity]. }
  intros [r|].
  - apply triple_ret. intros d [[H HF] Hx]. repeat (split; [assumption|]). congruence.
  - eapply triple_bind; [apply triple_nowISO; intros t d H; exact H|].
    intros now. apply triple_modify. intros d [[H HF] Hx].
    destruct (@ensureValueMetrics_table rowAccounted rowAccounted_new
                (Server.value_metrics d) now p)
      as (V1 & V2 & V3 & V4).
    split; [|split; [exact HF | exact V4]].
    unpack H. pack. splits; try assumption.
    + now apply V1.
    + now apply V2.
    + intros x. now rewrite V3.
Qed.

(** The [UPDATE] of a counter after [ensureValueMetrics]. *)
Lemma counter_update_ok (pending pending' : option string) (p : string)
  (set : string -> ValueMetricsRow.t -> ValueMetricsRow.t) (extra : nat) :
  (forall now r, ValueMetricsRow.project_path (set now r)
                 = ValueMetricsRow.project_path r) ->
  (forall now r, ValueMetricsRow.total_sessions (set now r)
                 = ValueMetricsRow.total_sessions r + extra) ->
  (forall now r, rowAccounted r -> rowAccounted (set now r)) ->
  (forall p', (if String.eqb p p' then extra else 0) + pendingFor pending' p'
              = pendingFor pending p') ->
  triple (fun d => serverOkWith None pending d /\ F (knowledgeIds d) (sessionIds d))
    (Server.bind (Server.ensureValueMetrics w p) (fun _ =>
       Server.bind (Server.nowISO w) (fun now =>
         Server.modify (fun d =>
           Server.setValueMetrics d
             (fst (Sql.update (ValueMetrics.whereProject p) (set now)
                     d.(Server.value_metrics)))))))
    (fun _ d => serverOkWith None pending' d /\ F (knowledgeIds d) (sessionIds d)) E.
Proof.
  intros Hkey Htot Htime Hpend.
  eapply triple_bind; [apply ensureValueMetrics_ok|].
  intros []. eapply triple_bind; [apply triple_nowISO; intros t d H; exact H|].
  intros now. apply triple_modify. intros d (H & HF & Hrow).
  destruct (@valueMetrics_update rowAccounted (Server.value_metrics d) p (set now) extra
              (Hkey now) (Htot now) (Htime now)) as (V1 & V2 & V3).
  split; [|exact HF].
  unpack H. pack. splits; try assumption.
  1: now apply V1.
  1: now apply V2.
  intros p'. rewrite V3. specialize (Cses p'). specialize (Hpend p').
  destruct (ValueMetrics.getValueMetrics (Server.value_metrics d) p);
    [|contradiction].
  lia.
Qed.

Lemma incrementSessionCount_ok (p : string) :
  triple (fun d => serverOkWith None (Some p) d /\ F (knowledgeIds d) (sessionIds d))
    (Server.incrementSessionCount w p)
    (fun _ d => serverOk d /\ F (knowledgeIds d) (sessionIds d)) E.
Proof.
  eapply triple_weaken; cycle 2.
  - unfold Server.incrementSessionCount, ValueMetrics.addSession.
    apply (@counter_update_ok (Some p) None p (fun now r => _) 1).
    + reflexivity.
    + reflexivity.
    + intros now r Hr. exact Hr.
    + intros p'. cbn [pendingFor]. destruct (String.eqb p p'); reflexivity.
  - intros d H. exact H.
  - intros [] d [H HF]. split; [now apply serverOkWith_plain | exact HF].
Qed.

Lemma incrementContextReuse_ok (p : string) :
  triple (fun d => serverOk d /\ F (knowledgeIds d) (sessionIds d))
    (Server.incrementContextReuse w p)
    (fun _ d => serverOk d /\ F (knowledgeIds d) (sessionIds d)) E.
Proof.
  eapply triple_weaken; cycle 2.
  - unfold Server.incrementContextReuse, ValueMetrics.addContextReuse.
    apply (@counter_update_ok None None p (fun now r => _) 0).
    + reflexivity.
    + intros now r. cbn [ValueMetricsRow.total_sessions]. lia.
    + intros now r Hr. exact Hr.
    + intros p'. cbn [pendingFor]. destruct (String.eqb p p'); reflexivity.
  - intros d [H HF]. split; [apply serverOkWith_plain; exact H | exact HF].
  - intros [] d [H HF]. split; [now apply serverOkWith_plain | exact HF].
Qed.

Lemma incrementKnowledgeSurfaced_ok (p : string) (count : nat) :
  triple (fun d => serverOk d /\ F (knowledgeIds d) (sessionIds d))
    (Server.incrementKnowledgeSurfaced w p count)
    (fun _ d => serverOk d /\ F (knowledgeIds d) (sessionIds d)) E.
Proof.
  eapply triple_weaken; cycle 2.
  - unfold Server.incrementKnowledgeSurfaced, ValueMetrics.addSurfaced.
    apply (@counter_update_ok None None p (fun now r => _) 0).
    + reflexivity.
    + intros now r. cbn [ValueMetricsRow.total_sessions]. lia.
    + intros now r Hr. unfold rowAccounted, timeFormula, ValueMetrics.knowledgeSurface in *.
      cbn [ValueMetricsRow.estimated_time_saved_secs
           ValueMetricsRow.knowledge_surfaced_count
           ValueMetricsRow.decisions_recalled_count
           ValueMetricsRow.patterns_applied_count
           ValueMetricsRow.errors_prevented_count]. lia.
    + intros p'. cbn [pendingFor]. destruct (String.eqb p p'); reflexivity.
  - intros d [H HF]. split; [apply serverOkWith_plain; exact H | exact HF].
  - intros [] d [H HF]. split; [now apply serverOkWith_plain | exact HF].
Qed.

Lemma incrementDecisionRecall_ok (p : string) (count : nat) :
  triple (fun d => serverOk d /\ F (knowledgeIds d) (sessionIds d))
    (Server.incrementDecisionRecall w p count)
    (fun _ d => serverOk d /\ F (knowledgeIds d) (sessionIds d)) E.
Proof.
  eapply triple_weaken; cycle 2.
  - unfold Server.incrementDecisionRecall, ValueMetrics.addDecisions.
    apply (@counter_update_ok None None p (fun now r => _) 0).
    + reflexivity.
    + intros now r. cbn [ValueMetricsRow.total_sessions]. lia.
    + intros now r Hr. unfold rowAccounted, timeFormula, ValueMetrics.decisionRecall in *.
      cbn [ValueMetricsRow.estimated_time_saved_secs
           ValueMetricsRow.knowledge_surfaced_count
           ValueMetricsRow.decisions_recalled_count
           ValueMetricsRow.patterns_applied_count
           ValueMetricsRow.errors_prevented_count]. lia.
    + intros p'. cbn [pendingFor]. destruct (String.eqb p p'); reflexivity.
  - intros d [H HF]. split; [apply serverOkWith_plain; exact H | exact HF].
  - intros [] d [H HF]. split; [now apply serverOkWith_plain | exact HF].
Qed.

Lemma incrementPatternApplied_ok (p : string) (count : nat) :
  triple (fun d => serverOk d /\ F (knowledgeIds d) (sessionIds d))
    (Server.incrementPatternApplied w p count)
    (fun _ d => serverOk d /\ F (knowledgeIds d) (sessionIds d)) E.
Proof.
  eapply triple_weaken; cycle 2.
  - unfold Server.incrementPatternApplied, ValueMetrics.addPatterns.
    apply (@counter_update_ok None None p (fun now r => _) 0).
    + reflexivity.
    + intros now r. cbn [ValueMetricsRow.total_sessions]. lia.
    + intros now r Hr. unfold rowAccounted, timeFormula, ValueMetrics.patternApplied in *.
      cbn [ValueMetricsRow.estimated_time_saved_secs
           ValueMetricsRow.knowledge_surfaced_count
           ValueMetricsRow.decisions_recalled_count
           ValueMetricsRow.patterns_applied_count
           ValueMetricsRow.errors_prevented_count]. lia.
    + intros p'. cbn [pendingFor]. destruct (String.eqb p p'); reflexivity.
  - intros d [H HF]. split; [apply serverOkWith_plain; exact H | exact HF].
  - intros [] d [H HF]. split; [now apply serverOkWith_plain | exact HF].
Qed.

End Statements.

Lemma triple_gets_keep (A : Type) (E P : Server.Db -> Prop) (f : Server.Db -> A) :
  triple P (Server.gets f) (fun a d => P d /\ a = f d) E.
Proof. apply triple_gets. intros d H. now split. Qed.

Lemma triple_pre (A : Type) (E P P' : Server.Db -> Prop) (Q : A -> Server.Db -> Prop)
  (m : Server.M A) :
  (forall d, P' d -> P d) -> triple P m Q E -> triple P' m Q E.
Proof. intros H. apply triple_weaken; auto. Qed.

Lemma triple_post (A : Type) (E P : Server.Db -> Prop) (Q Q' : A -> Server.Db -> Prop)
  (m : Server.M A) :
  (forall a d, Q a d -> Q' a d) -> triple P m Q E -> triple P m Q' E.
Proof. intros H. apply triple_weaken; auto. Qed.

Section Writers.
Variable w : Server.World.
Variable F : list string -> list string -> Prop.

Lemma recordKnowledgeUsage_ok (kid sid : string) (ty : UsageType) :
  (forall ks ss, F ks ss -> In kid ks /\ In sid ss) ->
  triple (fun d => serverOk d /\ F (knowledgeIds d) (sessionIds d))
    (Server.recordKnowledgeUsage w kid sid ty)
    (fun _ d => serverOk d /\ F (knowledgeIds d) (sessionIds d)) serverOk.
Proof.
  intros HF. unfold Server.recordKnowledgeUsage.
  eapply triple_bind; [apply triple_generateId; intros t d H; exact H|].
  intros usageId.
  eapply triple_bind; [apply triple_nowISO; intros t d H; exact H|].
  intros timestamp. apply triple_act. intros d [H Hf].
  unfold Usage.recordKnowledgeUsage.
  destruct (existsb _ (Server.knowledge_usage d)) eqn:Hex; [exact H|].
  destruct (HF _ _ Hf) as [Hkid Hsid].
  pose proof (incrementUsageCount_ids (Server.promoted_knowledge d) kid) as Hids.
  split.
  2:{ unfold knowledgeIds, sessionIds in *.
      cbn [Server.sessions Server.promoted_knowledge Server.setUsage Server.setKnowledge].
      now rewrite Hids. }
  apply serverOkWith_plain. apply serverOkWith_plain in H. unpack H. pack.
  rewrite Hids. splits; try assumption.
  - rewrite map_app. apply NoDup_snoc; [assumption|].
    now apply existsb_key_false.
  - intros k' Hk'. apply incrementUsageCount_rows in Hk'.
    destruct Hk' as (k & Hk & ->). destruct (Rkn k Hk) as (K1 & K2 & K3 & K4).
    destruct (String.eqb _ kid); repeat split; assumption.
  - intros u Hu. apply in_app_or in Hu. destruct Hu as [Hu|[<-|[]]].
    + now apply Rus.
    + split; assumption.
  - intros k' Hk'. apply incrementUsageCount_rows in Hk'.
    destruct Hk' as (k & Hk & ->). rewrite usagesOf_snoc.
    cbn [UsageRow.knowledge_id]. specialize (Cus k Hk).
    destruct (String.eqb_spec (KnowledgeRow.knowledge_id k) kid) as [Ek|Ek].
    + cbn [Usage.addUsage KnowledgeRow.usage_count KnowledgeRow.knowledge_id].
      rewrite Ek, String.eqb_refl. rewrite Ek in Cus. lia.
    + destruct (String.eqb_spec kid (KnowledgeRow.knowledge_id k)); [congruence | lia].
Qed.

Lemma insertEvent_ok (event : SessionEvent.t) :
  event.(SessionEvent.eventType) = deriveEventType event.(SessionEvent.detail) ->
  event.(SessionEvent.category) = categorizeEvent event.(SessionEvent.eventType) ->
  triple serverOk (Server.insertEvent event) (fun _ d => serverOk d) serverOk.
Proof.
  intros Hty Hcat. apply triple_act. intros d H.
  unfold Events.insertEvent.
  destruct (existsb _ (Server.session_events d)) eqn:E1; [exact H|].
  destruct (existsb _ (Server.sessions d)) eqn:E2; cbn [negb]; [|exact H].
  apply serverOkWith_plain. apply serverOkWith_plain in H. unpack H. pack.
  rewrite map_app. splits; try assumption.
  - apply NoDup_snoc; [assumption|]. now apply existsb_key_false.
  - intros e He. apply in_app_or in He. destruct He as [He|[<-|[]]]; [now apply Rev|].
    split; [split; assumption|]. now apply existsb_key_true.
  - intros k Hk. destruct (Rkn k Hk) as (K1 & K2 & K3 & K4).
    split; [assumption|]. split; [assumption|]. split; [|assumption].
    intros eid Heid. apply in_or_app. left. now apply K3.
Qed.

Lemma insertKnowledge_ok (knowledge : Knowledge.t) :
  knowledge.(Knowledge.contentHash)
  = Some (Duplicates.computeContentHash knowledge.(Knowledge.content)) ->
  knowledge.(Knowledge.usageCount) = Some 0 ->
  triple serverOk (Server.insertKnowledge knowledge)
    (fun _ d => serverOk d /\ In knowledge.(Knowledge.knowledgeId) (knowledgeIds d))
    serverOk.
Proof.
  intros Hhash Hcount. apply triple_act. intros d H.
  unfold KnowledgeStore.insertKnowledge.
  destruct (existsb _ (Server.promoted_knowledge d)) eqn:E1; [exact H|].
  destruct (KnowledgeStore.foreignKeyOk SessionRow.session_id _ _) eqn:E2;
    [|exact H].
  destruct (KnowledgeStore.foreignKeyOk EventRow.event_id _ _) eqn:E3;
    [|exact H].
  cbn [andb negb]. apply existsb_key_false in E1.
  split.
  2:{ unfold knowledgeIds. cbn [Server.promoted_knowledge Server.setKnowledge].
      rewrite map_app. apply in_or_app. right. now left. }
  apply serverOkWith_plain. apply serverOkWith_plain in H. unpack H. pack.
  rewrite map_app. splits; try assumption.
  - now apply NoDup_snoc.
  - intros k Hk. apply in_app_or in Hk. destruct Hk as [Hk|[<-|[]]].
    + destruct (Rkn k Hk) as (K1 & K2 & K3 & K4).
      repeat (split; [assumption|]).
      intros newId Hn. apply in_or_app. left. now apply K4.
    + cbn [KnowledgeStore.insertedRow KnowledgeRow.content_hash KnowledgeRow.content
           KnowledgeRow.session_id KnowledgeRow.source_event_id
           KnowledgeRow.superseded_by].
      split; [exact Hhash|]. split; [|split].
      * intros sid Hsid. eapply foreignKeyOk_in; eassumption.
      * intros eid Heid. eapply foreignKeyOk_in; eassumption.
      * discriminate.
  - intros u Hu. destruct (Rus u Hu). split; [|assumption].
    apply in_or_app. now left.
  - intros k Hk. apply in_app_or in Hk. destruct Hk as [Hk|[<-|[]]]; [now apply Cus|].
    cbn [KnowledgeStore.insertedRow KnowledgeRow.usage_count KnowledgeRow.knowledge_id].
    rewrite Hcount. symmetry. apply usagesOf_unknown.
    intros u Hu Eu. destruct (Rus u Hu) as [Hin _]. rewrite Eu in Hin. contradiction.
Qed.

Lemma markSuperseded_ok (E : Server.Db -> Prop) (oldId newId : string) :
  triple (fun d => serverOk d /\ In newId (knowledgeIds d))
    (Server.modify (fun d =>
       Server.setKnowledge d
         (Duplicates.markSuperseded d.(Server.promoted_knowledge) oldId newId)))
    (fun _ d => serverOk d) E.
Proof.
  apply triple_modify. intros d [H Hnew].
  apply serverOkWith_plain. apply serverOkWith_plain in H. unpack H. pack.
  rewrite markSuperseded_ids. splits; try assumption.
  - intros k' Hk'. apply markSuperseded_rows in Hk'.
    destruct Hk' as (k & Hk & [->| ->]); [now apply Rkn|].
    destruct (Rkn k Hk) as (K1 & K2 & K3 & K4).
    repeat (split; [assumption|]).
    intros n [= <-]. exact Hnew.
  - intros k' Hk'. apply markSuperseded_rows in Hk'.
    destruct Hk' as (k & Hk & [->| ->]); exact (Cus k Hk).
Qed.

End Writers.

(** ** The handlers preserve the invariant *)

Lemma ranked_in_snapshot (mathLog : float -> float)
  (parseDate : string -> option Z) (now : Z)
  (items : list Knowledge.t) (b : string) (n : nat)
  (sk : Scoring.Binary64.ScoredKnowledge) :
  In sk (firstn n (Scoring.rankKnowledge mathLog parseDate now items b)) ->
  In sk.(Scoring.Binary64.knowledge) items.
Proof.
  intros H. apply firstn_In in H. unfold Scoring.rankKnowledge in H.
  apply sort_In in H. apply in_map_iff in H. destruct H as (k & <- & Hk).
  exact Hk.
Qed.

Lemma getProjectKnowledge_stored (t : KnowledgeStore.table) (p : string)
  (ty : option KnowledgeType) (limit : nat) (k : Knowledge.t) :
  In k (KnowledgeStore.getProjectKnowledge t p ty limit) ->
  In k.(Knowledge.knowledgeId) (map KnowledgeRow.knowledge_id t).
Proof.
  unfold KnowledgeStore.getProjectKnowledge. intros H.
  apply in_map_iff in H. destruct H as (r & <- & Hr).
  cbn [KnowledgeStore.rowToKnowledge Knowledge.knowledgeId]. apply in_map.
  destruct ty; unfold Sql.limit, Sql.orderByDesc in Hr;
    apply firstn_In, sort_In, filter_In in Hr; tauto.
Qed.

Lemma getActiveSession_stored (t : Sessions.table) (p : string) (s : Session.t) :
  Sessions.getActiveSession t p = Some s ->
  In s.(Session.sessionId) (map SessionRow.session_id t).
Proof.
  unfold Sessions.getActiveSession, Sql.get, Sql.limit, Sql.orderByDesc. intros H.
  destruct (firstn 1 _) as [|r l] eqn:Ef; [discriminate|].
  simpl in H. injection H as <-.
  assert (Hr : In r (firstn 1 (Js.sort
                 (fun x y => String.ltb (SessionRow.started_at x) (SessionRow.started_at y))
                 (filter (Sessions.whereActiveProject p) t)))).
  { rewrite Ef. now left. }
  apply firstn_In, sort_In, filter_In in Hr.
  cbn [Sessions.rowToSession Session.sessionId]. apply in_map. tauto.
Qed.

Lemma handleSessionStart_ok (w : Server.World) (args : Tools.StartArgs) :
  triple serverOk (Server.handleSessionStart w args) (fun _ d => serverOk d) serverOk.
Proof.
  unfold Server.handleSessionStart.
  eapply triple_bind; [apply triple_nowISO; intros t d H; exact H|]. intros now.
  eapply triple_bind; [apply abandon_ok|]. intros n.
  eapply triple_bind;
    [apply (@upsertAgent_ok w serverOk _
              (fun t => activeIn t (Tools.projectPath args) = []))|].
  intros [].
  eapply triple_bind; [apply triple_generateId; intros t d H; exact H|].
  intros sessionId.
  eapply triple_bind.
  { match goal with
    | |- context [Server.createSession ?s] =>
        apply (@createSession_ok s _ eq_refl eq_refl)
    end. }
  intros [].
  cbn [Session.sessionId Session.projectPath].
  eapply triple_bind;
    [apply (@incrementSessionCount_ok w serverOk (fun _ ss => In sessionId ss))|].
  intros [].
  eapply triple_bind; [apply triple_gets_keep|]. intros recentSessions.
  eapply triple_bind.
  { eapply triple_pre; [intros d [H _]; exact H|].
    destruct (0 <? _).
    - apply (@incrementContextReuse_ok w serverOk (fun _ ss => In sessionId ss)).
    - apply triple_ret. intros d H. exact H. }
  intros [].
  eapply triple_bind; [apply triple_gets_keep|]. intros knowledge.
  match goal with
  | |- context [Server.forEach ?l _] => set (rankedKnowledge := l)
  end.
  set (F := fun (ks ss : list string) =>
              In sessionId ss /\
              forall sk, In sk rankedKnowledge ->
                         In sk.(Scoring.Binary64.knowledge).(Knowledge.knowledgeId) ks).
  eapply triple_pre with (P := fun d => serverOk d /\ F (knowledgeIds d) (sessionIds d)).
  { intros d [[H Hs] Hk]. split; [exact H|]. split; [exact Hs|].
    intros sk Hsk. apply ranked_in_snapshot in Hsk. rewrite Hk in Hsk.
    now apply getProjectKnowledge_stored in Hsk. }
  eapply triple_bind.
  { destruct (0 <? _).
    - eapply triple_bind; [apply (@incrementKnowledgeSurfaced_ok w serverOk F)|].
      intros []. apply triple_forEach. intros sk Hsk.
      apply recordKnowledgeUsage_ok. intros ks ss [H1 H2]. split; [now apply H2 | exact H1].
    - apply triple_ret. intros d H. exact H. }
  intros []. apply triple_ret. intros d [H _]. exact H.
Qed.

Lemma handleSessionEnd_ok (w : Server.World) (sessionId : string)
  (summary gitCommit : option string) :
  triple serverOk (Server.handleSessionEnd w sessionId summary gitCommit)
    (fun _ d => serverOk d) serverOk.
Proof.
  unfold Server.handleSessionEnd.
  eapply triple_bind; [apply triple_nowISO; intros t d H; exact H|]. intros now.
  apply endSession_ok.
Qed.

Lemma handleRecordEvent_ok (w : Server.World) (sessionId : string)
  (eventType : option EventType) (detail : EventDetail) :
  triple serverOk (Server.handleRecordEvent w sessionId eventType detail)
    (fun _ d => serverOk d) serverOk.
Proof.
  unfold Server.handleRecordEvent.
  eapply triple_bind; [apply triple_gets_keep|]. intros [session|].
  2:{ apply triple_ret. now intros d [H _]. }
  destruct (negb _); [apply triple_ret; now intros d [H _]|].
  eapply triple_bind; [apply triple_generateId; intros t d H; exact H|].
  intros eventId.
  eapply triple_bind; [apply triple_nowISO; intros t d H; exact H|].
  intros timestamp.
  eapply triple_bind.
  { eapply triple_pre; [intros d [H _]; exact H|].
    apply insertEvent_ok; reflexivity. }
  intros []. apply triple_ret. auto.
Qed.

Lemma promote_ok (w : Server.World) (args : Tools.PromoteArgs) :
  triple serverOk (Server.promote w args) (fun _ d => serverOk d) serverOk.
Proof.
  unfold Server.promote.
  eapply triple_bind; [apply triple_gets_keep|]. intros branch'.
  eapply triple_bind; [apply triple_generateId; intros t d H; exact H|].
  intros knowledgeId.
  eapply triple_bind; [apply triple_nowISO; intros t d H; exact H|].
  intros createdAt.
  eapply triple_bind.
  { eapply triple_pre; [intros d [H _]; exact H|].
    apply insertKnowledge_ok; reflexivity. }
  intros []. cbn [Knowledge.knowledgeId].
  eapply triple_bind with (R := fun _ d => serverOk d).
  { destruct (Js.truthy _).
    - destruct (Tools.p_supersedes args) as [old|].
      + apply markSuperseded_ok.
      + apply triple_ret. now intros d [H _].
    - apply triple_ret. now intros d [H _]. }
  intros [].
  eapply triple_bind; [apply triple_gets_keep|]. intros existing.
  apply triple_ret. now intros d [H _].
Qed.

Lemma handlePromoteKnowledge_ok (w : Server.World) (args : Tools.PromoteArgs) :
  triple serverOk (Server.handlePromoteKnowledge w args)
    (fun _ d => serverOk d) serverOk.
Proof.
  unfold Server.handlePromoteKnowledge.
  destruct (negb _); [|apply promote_ok].
  eapply triple_bind; [apply triple_gets_keep|]. intros [|dup l].
  - eapply triple_pre; [intros d [H _]; exact H|]. apply promote_ok.
  - apply triple_ret. now intros d [H _].
Qed.

Lemma handleRecall_ok (w : Server.World) (args : Server.RecallArgs) :
  triple serverOk (Server.handleRecall w args) (fun _ d => serverOk d) serverOk.
Proof.
  unfold Server.handleRecall.
  eapply triple_bind; [apply triple_gets_keep|]. intros activeSession.
  destruct (Server.r_eventType args) as [eventType|];
    [|apply triple_ret; now intros d [H _]].
  destruct (negb _); [apply triple_ret; now intros d [H _]|].
  match goal with
  | |- context [match ?x with Some _ => _ | None => Server.ret [] end] =>
      destruct x as [knowledgeType|]
  end; [|apply triple_ret; now intros d [H _]].
  eapply triple_bind; [apply triple_gets_keep|]. intros knowledge.
  match goal with
  | |- context [Server.forEach ?l _] => set (rankedKnowledge := l)
  end.
  set (F := fun (ks ss : list string) =>
              (forall s, activeSession = Some s -> In s.(Session.sessionId) ss) /\
              forall sk, In sk rankedKnowledge ->
                         In sk.(Scoring.Binary64.knowledge).(Knowledge.knowledgeId) ks).
  eapply triple_pre with (P := fun d => serverOk d /\ F (knowledgeIds d) (sessionIds d)).
  { intros d [[H Hs] Hk]. split; [exact H|]. split.
    - intros s Es. rewrite Es in Hs. symmetry in Hs.
      now apply getActiveSession_stored in Hs.
    - intros sk Hsk. unfold rankedKnowledge in Hsk.
      rewrite <- (firstn_all (Scoring.rankKnowledge _ _ _ _ _)) in Hsk.
      apply ranked_in_snapshot in Hsk. rewrite Hk in Hsk.
      now apply getProjectKnowledge_stored in Hsk. }
  eapply triple_bind with (R := fun _ d => serverOk d /\ F (knowledgeIds d) (sessionIds d)).
  { destruct (0 <? _).
    - eapply triple_bind with
        (R := fun _ d => serverOk d /\ F (knowledgeIds d) (sessionIds d)).
      + destruct knowledgeType.
        * apply (@incrementDecisionRecall_ok w serverOk F).
        * apply (@incrementPatternApplied_ok w serverOk F).
        * apply (@incrementPatternApplied_ok w serverOk F).
        * apply (@incrementPatternApplied_ok w serverOk F).
      + intros []. apply triple_forEach. intros sk Hsk.
        destruct activeSession as [s|].
        * apply recordKnowledgeUsage_ok. intros ks ss [H1 H2].
          split; [now apply H2 | now apply H1].
        * apply triple_ret. auto.
    - apply triple_ret. intros d H. exact H. }
  intros []. apply triple_ret. now intros d [H _].
Qed.

Lemma runServerCall_ok (d : Server.Db) (c : ServerCall) :
  serverOk d -> serverOk (runServerCall d c).
Proof.
  intros H. destruct c as [w args|w sid sm g|w sid ty det|w args|w args];
    cbn [runServerCall].
  - pose proof (triple_run d (handleSessionStart_ok w args) H) as T.
    destruct (Server.run _ d) as [d' [a|e]]; exact T.
  - pose proof (triple_run d (handleSessionEnd_ok w sid sm g) H) as T.
    destruct (Server.run _ d) as [d' [a|e]]; exact T.
  - pose proof (triple_run d (handleRecordEvent_ok w sid ty det) H) as T.
    destruct (Server.run _ d) as [d' [a|e]]; exact T.
  - pose proof (triple_run d (handlePromoteKnowledge_ok w args) H) as T.
    destruct (Server.run _ d) as [d' [a|e]]; exact T.
  - pose proof (triple_run d (handleRecall_ok w args) H) as T.
    destruct (Server.run _ d) as [d' [a|e]]; exact T.
Qed.

Lemma runServerCalls_ok (calls : list ServerCall) :
  forall d, serverOk d -> serverOk (runServerCalls d calls).
Proof.
  induction calls as [|c r IH]; intros d H; [exact H|].
  simpl. apply IH. now apply runServerCall_ok.
Qed.

Lemma emptyServer_ok : serverOk emptyServer.
Proof.
  apply serverOkWith_plain. unfold emptyServer. pack. cbn [map].
  splits; try apply NoDup_nil; try (intros x []).
  - intros p. unfold activeIn. simpl. lia.
  - intros p. reflexivity.
  - intros a. unfold sessionsBy, registeredSessions. simpl. lia.
Qed.

(** ** Stores reached by tool calls *)

Lemma getKnowledgeById_find (t : KnowledgeStore.table) (id : string) :
  KnowledgeStore.getKnowledgeById t id
  = option_map KnowledgeStore.rowToKnowledge
      (find (fun r => String.eqb r.(KnowledgeRow.knowledge_id) id) t).
Proof. unfold KnowledgeStore.getKnowledgeById. now rewrite get_filter_find. Qed.

Lemma find_key_stored (A : Type) (key : A -> string) (id : string) (rows : list A) :
  In id (map key rows) ->
  exists r, find (fun r => String.eqb (key r) id) rows = Some r.
Proof.
  intros H. apply in_map_iff in H. destruct H as (r & E & Hr).
  destruct (find (fun r0 => String.eqb (key r0) id) rows) as [r'|] eqn:Hf;
    [now exists r'|].
  exfalso. apply (find_none _ _ Hf) in Hr. rewrite E, String.eqb_refl in Hr.
  discriminate.
Qed.

(** X12. Every database reached from the empty one by calls to
    [session_start], [session_end], [record_event], [promote_knowledge]
    and [recall], whether they succeed or end in a caught exception, is
    well formed: the primary keys of the six tables are unique; at most
    one session per project is active; every event has the type derived
    from its detail and the category of that type, and belongs to a
    stored session; every knowledge item carries the hash of its own
    content, and its session, source event and superseding item, when
    present, are stored; every row of the usage log names a stored
    knowledge item and a stored session. *)
Theorem tool_calls_keep_database_well_formed (calls : list ServerCall) :
  let d := runServerCalls emptyServer calls in
  keysOk d /\ atMostOneActive d.(Server.sessions) /\ refsOk d /\
  (forall e, In e d.(Server.session_events) ->
     e.(EventRow.category) <> cat_search /\ e.(EventRow.category) <> cat_agent).
Proof.
  cbv zeta.
  destruct (runServerCalls_ok calls emptyServer_ok) as (H1 & H2 & H3 & _).
  split; [exact H1|]. split; [exact H2|]. split; [exact H3|].
  intros e He. destruct H3 as (Rev & _ & _).
  destruct (Rev e He) as [[_ Hc] _]. rewrite Hc.
  destruct (EventRow.event_type e); split; discriminate.
Qed.

(** X13. The usage counter of a knowledge item is the length of its usage
    log: in every database reached by tool calls, an item read by
    [getKnowledgeById] has as [usageCount] the number of rows that
    [getKnowledgeUsageHistory] returns for it when its limit covers the
    log (the default limit is 50), and every row of the log
    belongs to an item and a session that can be read back. *)
Theorem usage_count_matches_usage_log (calls : list ServerCall)
  (knowledgeId : string) (k : Knowledge.t) :
  let d := runServerCalls emptyServer calls in
  KnowledgeStore.getKnowledgeById d.(Server.promoted_knowledge) knowledgeId = Some k ->
  k.(Knowledge.usageCount)
  = Some (List.length
            (Usage.getKnowledgeUsageHistory d.(Server.knowledge_usage) knowledgeId
               (List.length d.(Server.knowledge_usage)))) /\
  forall u, In u d.(Server.knowledge_usage) ->
    KnowledgeStore.getKnowledgeById d.(Server.promoted_knowledge)
      u.(UsageRow.knowledge_id) <> None /\
    Sessions.getSession d.(Server.sessions) u.(UsageRow.session_id) <> None.
Proof.
  cbv zeta. set (d := runServerCalls emptyServer calls).
  destruct (runServerCalls_ok calls emptyServer_ok) as (_ & _ & (_ & _ & Rus) & (Cus & _)).
  fold d in Rus, Cus. rewrite getKnowledgeById_find. intros Hk. split.
  - destruct (find _ (Server.promoted_knowledge d)) as [r|] eqn:Hf; [|discriminate].
    injection Hk as <-. apply find_some in Hf. destruct Hf as [Hin Hid].
    apply String.eqb_eq in Hid.
    cbn [KnowledgeStore.rowToKnowledge Knowledge.usageCount].
    rewrite (Cus r Hin), Hid. f_equal.
    unfold Usage.getKnowledgeUsageHistory, Sql.limit, Sql.orderByDesc, usagesOf.
    rewrite length_map, firstn_all2.
    + symmetry. apply Permutation_length, sort_perm.
    + erewrite Permutation_length by apply sort_perm. apply filter_length_le.
  - intros u Hu. destruct (Rus u Hu) as [H1 H2]. split.
    + rewrite getKnowledgeById_find.
      destruct (find_key_stored KnowledgeRow.knowledge_id _ _ H1) as [r ->].
      discriminate.
    + rewrite getSession_find.
      destruct (find_key_stored SessionRow.session_id _ _ H2) as [r ->].
      discriminate.
Qed.

Lemma usage_count_matches_usage_log_witness :
  exists k,
    KnowledgeStore.getKnowledgeById
      (Server.promoted_knowledge
         (runServerCalls emptyServer
            [PromoteKnowledge (sampleWorld "k1")
               (examplePromote "Use JWT tokens" "Stateless sessions" None)])) "k1"
    = Some k /\
    k.(Knowledge.usageCount) = Some 0.
Proof.
  destruct (KnowledgeStore.getKnowledgeById _ "k1") as [k|] eqn:Hk.
  - exists k. split; [reflexivity|].
    rewrite (proj1 (@usage_count_matches_usage_log
                      [PromoteKnowledge (sampleWorld "k1")
                         (examplePromote "Use JWT tokens" "Stateless sessions" None)]
                      "k1" k Hk)).
    vm_compute. reflexivity.
  - vm_compute in Hk. discriminate.
Defined.

(** X14. The session counters.  In every database reached by tool calls,
    the [total_sessions] that the value metrics hold for a project is the
    number of its sessions, and the [total_sessions] that the registry
    holds for an agent is at least the number of sessions started by that
    agent.  It can be greater: [session_start] registers the agent before
    it creates the session, so a creation that throws leaves the registry
    one ahead. *)
Theorem session_counters_match_sessions (calls : list ServerCall)
  (projectPath : string) (agentType : AgentType) :
  let d := runServerCalls emptyServer calls in
  trackedSessions d.(Server.value_metrics) projectPath
  = sessionsOf d.(Server.sessions) projectPath /\
  sessionsBy d.(Server.sessions) agentType
  <= registeredSessions d.(Server.agents) agentType /\
  (let d2 := runServerCalls emptyServer
               [SessionStart (sampleWorld "s1") exampleStart;
                SessionStart (sampleWorld "s1") exampleStart] in
   sessionsBy d2.(Server.sessions) unknown = 1 /\
   registeredSessions d2.(Server.agents) unknown = 2).
Proof.
  cbv zeta.
  destruct (runServerCalls_ok calls emptyServer_ok) as (_ & _ & _ & (_ & _ & Cs & Ca)).
  split; [apply Cs|]. split; [apply Ca|].
  split; vm_compute; reflexivity.
Qed.

(** X15. The value summary adds up.  In every database reached by tool
    calls, the minutes saved that [computeValueSummary] reports are
    exactly the knowledge surfaced plus 3 times the decisions recalled
    plus 5 times the patterns applied, and no error prevention is ever
    counted, whatever the hourly rate. *)
Theorem value_summary_adds_up (calls : list ServerCall) (projectPath : string)
  (hourlyRate : float) :
  let d := runServerCalls emptyServer calls in
  let v := ValueMetrics.computeValueSummary d.(Server.value_metrics) projectPath
             hourlyRate in
  v.(ValueMetrics.timeSavedMinutes)
  = v.(ValueMetrics.knowledgeSurfaced) + 3 * v.(ValueMetrics.decisionsRecalled)
    + 5 * v.(ValueMetrics.patternsApplied) /\
  v.(ValueMetrics.errorsPrevented) = 0.
Proof.
  cbv zeta. set (d := runServerCalls emptyServer calls).
  destruct (runServerCalls_ok calls emptyServer_ok) as (_ & _ & _ & (_ & Ct & _)).
  fold d in Ct. unfold ValueMetrics.computeValueSummary, ValueMetrics.getValueMetrics.
  rewrite get_filter_find.
  destruct (find _ (Server.value_metrics d)) as [m|] eqn:Hf; [|split; reflexivity].
  apply find_some in Hf. destruct Hf as [Hin _].
  destruct (Ct m Hin) as [Hm He]. unfold timeFormula in Hm.
  cbn [ValueMetrics.timeSavedMinutes ValueMetrics.knowledgeSurfaced
       ValueMetrics.decisionsRecalled ValueMetrics.patternsApplied
       ValueMetrics.errorsPrevented].
  split; [|exact He].
  rewrite Hm, He. symmetry. apply Nat.div_unique with 0; lia.
Qed.

(** ** The schema manager: a second run, and what a run keeps *)

Section SchemaFacts.
Import Schema.

Lemma getSchemaVersion_ensure (db : Store) :
  getSchemaVersion (ensureVersionTable db) = getSchemaVersion db.
Proof. unfold getSchemaVersion, ensureVersionTable. now destruct (schema_version db). Qed.

Lemma ensureVersionTable_fixed (db : Store) (rows : list nat) :
  schema_version db = Some rows -> ensureVersionTable db = db.
Proof. destruct db as [ts ix sv]. simpl. now intros ->. Qed.

Lemma max_seq (v n : nat) :
  0 < n -> fold_right Nat.max 0 (seq v n) = v + n - 1.
Proof.
  revert v. induction n as [|n IH]; intros v Hn; [lia|].
  simpl. destruct n as [|n]; [simpl; lia|].
  rewrite IH by lia. lia.
Qed.

Lemma lookupTable_app (name : string) (ts1 ts2 : list (string * list string)) :
  lookupTable name (ts1 ++ ts2)
  = match lookupTable name ts1 with
    | Some cols => Some cols
    | None => lookupTable name ts2
    end.
Proof.
  induction ts1 as [|[n c] r IH]; simpl; [reflexivity|].
  destruct (String.eqb n name); [reflexivity | exact IH].
Qed.

Lemma lookupTable_addColumnTo (name table column : string)
  (ts : list (string * list string)) (cols : list string) :
  lookupTable name ts = Some cols ->
  keepsTable (addColumnTo table column ts) name cols.
Proof.
  unfold keepsTable.
  induction ts as [|[n c] r IH]; simpl; [discriminate|].
  destruct (String.eqb_spec n table) as [->|Hn]; simpl.
  - destruct (String.eqb table name).
    + intros [= <-]. exists (c ++ [column]). split; [reflexivity|].
      intros x Hx. apply in_or_app. now left.
    + intros H. exists cols. split; [exact H | apply incl_refl].
  - destruct (String.eqb n name).
    + intros [= <-]. exists c. split; [reflexivity | apply incl_refl].
    + exact IH.
Qed.

Lemma keepsTable_trans (ts1 ts2 : list (string * list string)) :
  (forall name cols, lookupTable name ts1 = Some cols -> keepsTable ts2 name cols) ->
  forall name cols, keepsTable ts1 name cols -> keepsTable ts2 name cols.
Proof.
  intros H name cols (c1 & H1 & I1). destruct (H name c1 H1) as (c2 & H2 & I2).
  exists c2. split; [exact H2|]. eapply incl_tran; eassumption.
Qed.

Lemma keeps_refl (db : Store) : keeps db db.
Proof.
  split; [|apply incl_refl]. intros name cols H. exists cols.
  split; [exact H | apply incl_refl].
Qed.

Lemma keeps_trans (db1 db2 db3 : Store) :
  keeps db1 db2 -> keeps db2 db3 -> keeps db1 db3.
Proof.
  intros [T1 I1] [T2 I2]. split; [|eapply incl_tran; eassumption].
  intros name cols H. apply (keepsTable_trans T2). now apply T1.
Qed.

Lemma execStmt_keeps (db db' : Store) (st : Stmt) :
  execStmt db st = Ok db' -> keeps db db'.
Proof.
  destruct st as [name columns|name table columns|table column]; simpl.
  - destruct (lookupTable name (tables db)) eqn:Hl.
    + intros [= <-]. apply keeps_refl.
    + intros [= <-]. split; [|apply incl_refl]. simpl.
      intros n cols H. exists cols. split; [|apply incl_refl].
      now rewrite lookupTable_app, H.
  - destruct (hasString name (indexes db)); [intros [= <-]; apply keeps_refl|].
    destruct (lookupTable table (tables db)); [|discriminate].
    destruct (forallb _ columns); [|discriminate].
    intros [= <-]. split; simpl.
    + intros n cols H. exists cols. split; [exact H | apply incl_refl].
    + intros x Hx. apply in_or_app. now left.
  - destruct (lookupTable table (tables db)); [|discriminate].
    destruct (hasString column l); [discriminate|].
    intros [= <-]. split; simpl; [|apply incl_refl].
    intros n cols H. now apply lookupTable_addColumnTo.
Qed.

Lemma exec_keeps (sql : list Stmt) :
  forall db db', exec db sql = Ok db' -> keeps db db'.
Proof.
  induction sql as [|st r IH]; intros db db'; simpl.
  - intros [= <-]. apply keeps_refl.
  - destruct (execStmt db st) as [db1|e] eqn:E; [|discriminate].
    intros H. eapply keeps_trans; [eapply execStmt_keeps; eassumption | now apply IH].
Qed.

Lemma insertVersion_keeps (db db' : Store) (v : nat) :
  insertVersion db v = Ok db' -> keeps db db'.
Proof.
  unfold insertVersion. destruct (schema_version db); [|discriminate].
  destruct (existsb _ l); [discriminate|]. intros [= <-].
  split; simpl; [|apply incl_refl].
  intros name cols H. exists cols. split; [exact H | apply incl_refl].
Qed.

Lemma migrateLoop_keeps (n : nat) :
  forall v db db', migrateLoop n v db = Ok db' -> keeps db db'.
Proof.
  induction n as [|n IH]; intros v db db'; simpl.
  - intros [= <-]. apply keeps_refl.
  - destruct (MIGRATIONS v) as [sql|]; [|discriminate].
    destruct (exec db sql) as [db1|e] eqn:E1; [|discriminate].
    destruct (insertVersion db1 v) as [db2|e] eqn:E2; [|discriminate].
    intros H.
    eapply keeps_trans; [eapply exec_keeps; eassumption|].
    eapply keeps_trans; [eapply insertVersion_keeps; eassumption|].
    eapply IH; eassumption.
Qed.

Lemma migrateLoop_version (n v : nat) (db db' : Store) (rows : list nat) :
  schema_version db = Some rows ->
  migrateLoop n v db = Ok db' ->
  schema_version db' = Some (rows ++ seq v n).
Proof.
  rewrite migrateLoop_applyInOrder. intros H1 H2.
  eapply applyInOrder_log; eassumption.
Qed.

End SchemaFacts.

(** X16. A run of the migrations that succeeds is final: the store is at
    version 3 or above, and a second run changes nothing and succeeds.
    This holds from any store, whatever its tables and its version log. *)
Theorem runMigrations_twice (db db' : Schema.Store) :
  Schema.runMigrations db = (db', None) ->
  3 <= Schema.getSchemaVersion db' /\
  Schema.getSchemaVersion db' = Nat.max 3 (Schema.getSchemaVersion db) /\
  Schema.runMigrations db' = (db', None).
Proof.
  unfold Schema.runMigrations, Schema.transaction.
  rewrite getSchemaVersion_ensure.
  set (v := Schema.getSchemaVersion db).
  destruct (Schema.migrateLoop _ _ _) as [db1|e] eqn:Hloop; [|discriminate].
  intros [= <-].
  assert (Hlog : exists rows,
             Schema.schema_version (Schema.ensureVersionTable db) = Some rows /\
             fold_right Nat.max 0 rows = v).
  { unfold v, Schema.getSchemaVersion, Schema.ensureVersionTable. simpl.
    destruct (Schema.schema_version db) as [rows|]; eexists; split; reflexivity. }
  destruct Hlog as (rows & Hrows & Hmax). clearbody v.
  pose proof (migrateLoop_version _ _ _ Hrows Hloop) as Hlog1.
  assert (Hv1 : Schema.getSchemaVersion db1 = Nat.max 3 v).
  { unfold Schema.getSchemaVersion. rewrite Hlog1, max_app, Hmax.
    unfold Schema.CURRENT_SCHEMA_VERSION.
    destruct (Nat.le_gt_cases 3 v) as [Hge|Hlt].
    - replace (3 - v) with 0 by lia. cbn [seq fold_right]. lia.
    - rewrite max_seq by lia. lia. }
  split; [lia|]. split; [exact Hv1|].
  rewrite (ensureVersionTable_fixed db1 Hlog1), Hv1.
  unfold Schema.CURRENT_SCHEMA_VERSION.
  replace (3 - Nat.max 3 v) with 0 by lia. reflexivity.
Qed.

Lemma runMigrations_twice_witness :
  Schema.runMigrations (fst (Schema.runMigrations (Schema.mkStore [] [] None)))
  = (fst (Schema.runMigrations (Schema.mkStore [] [] None)), None).
Proof.
  apply (@runMigrations_twice (Schema.mkStore [] [] None)).
  vm_compute. reflexivity.
Defined.

(** X17. The migrations only add.  Whether a run succeeds or is rolled
    back, every table of the store before is a table of the store after
    with at least the columns it had, and every index is kept; the
    migrations hold no statement that drops or renames. *)
Theorem runMigrations_only_adds (db : Schema.Store) :
  let db' := fst (Schema.runMigrations db) in
  (forall name cols,
     Schema.lookupTable name (Schema.tables db) = Some cols ->
     exists cols', Schema.lookupTable name (Schema.tables db') = Some cols' /\
                   incl cols cols') /\
  incl (Schema.indexes db) (Schema.indexes db').
Proof.
  cbv zeta. unfold Schema.runMigrations, Schema.transaction.
  destruct (Schema.migrateLoop _ _ _) as [db1|e] eqn:Hloop; cbn [fst].
  - apply migrateLoop_keeps in Hloop. destruct Hloop as [T I]. split; [exact T | exact I].
  - split; [|apply incl_refl]. intros name cols H. exists cols.
    split; [exact H | apply incl_refl].
Qed.

(** ** The probes of the environment *)

(** X18. Agent detection.  [detectAgentType] skips a variable that is unset
    or empty, [getAgentVersion] skips only an unset one.  When no variable
    is set to the empty string the two agree: the version returned is the
    variable of the agent detected, and the agent is unknown exactly when
    the version is [undefined].  With an empty variable they can part: in
    [emptyClaudeEnv] the agent detected is Cursor and the version returned
    is the empty string of the Claude Code variable. *)
Theorem agent_version_matches_agent (env : Env.ProcessEnv) :
  noEmptyVariable env ->
  Env.getAgentVersion env = versionVariable env (Env.detectAgentType env) /\
  (Env.detectAgentType env = unknown <-> Env.getAgentVersion env = None) /\
  (Env.detectAgentType emptyClaudeEnv = cursor /\
   Env.getAgentVersion emptyClaudeEnv = Some "" /\
   versionVariable emptyClaudeEnv cursor = Some "0.42").
Proof.
  intros (H1 & H2 & H3 & H4).
  assert (T : forall v : option string, v <> Some "" ->
              Js.truthy v = match v with Some _ => true | None => false end).
  { intros [s|] Hv; [|reflexivity]. unfold Js.truthy.
    destruct s; [congruence | reflexivity]. }
  unfold Env.detectAgentType, Env.getAgentVersion, Tools.orElseOpt.
  rewrite (T _ H1), (T _ H2), (T _ H3), (T _ H4).
  destruct env as [[c|] [u|] [a|] [o|]]; cbn;
    (split; [reflexivity|]); (split; [split; congruence|]);
    (split; [reflexivity|]); split; reflexivity.
Qed.

Lemma agent_version_matches_agent_witness :
  noEmptyVariable (Env.mkProcessEnv None (Some "0.42") None (Some "1")) /\
  Env.getAgentVersion (Env.mkProcessEnv None (Some "0.42") None (Some "1")) = Some "0.42" /\
  Env.detectAgentType (Env.mkProcessEnv None (Some "0.42") None (Some "1")) = cursor.
Proof.
  assert (H : noEmptyVariable (Env.mkProcessEnv None (Some "0.42") None (Some "1"))).
  { unfold noEmptyVariable. simpl. repeat split; congruence. }
  split; [exact H|].
  destruct (@agent_version_matches_agent _ H) as (E & _ & _).
  split; [rewrite E; reflexivity | reflexivity].
Defined.

(** ** The relevance score *)

Section ScoreOrder.

Local Open Scope R_scope.

Lemma recencyStep_bounds (age : option Z) : 3 / 10 <= recencyStep age <= 1.
Proof.
  unfold recencyStep. destruct age as [a|]; [|lra].
  repeat destruct (Z_lt_dec _ _); lra.
Qed.

Lemma recencyStep_mono (a1 a2 : Z) :
  (a2 <= a1)%Z -> recencyStep (Some a1) <= recencyStep (Some a2).
Proof.
  intros H. unfold recencyStep.
  repeat destruct (Z_lt_dec _ _); try lra; lia.
Qed.

Lemma branchWeightOf_bounds (b : option string) (c : string) :
  3 / 10 <= branchWeightOf b c <= 1.
Proof.
  unfold branchWeightOf. destruct b as [b|]; [|lra].
  repeat destruct (string_dec _ _); lra.
Qed.

Lemma computeUsageWeight_mono (n m : nat) :
  (n <= m)%nat -> Scoring.computeUsageWeight n <= Scoring.computeUsageWeight m.
Proof.
  intros H. unfold Scoring.computeUsageWeight.
  assert (Hn : 0 < INR n + 1) by (pose proof (pos_INR n); lra).
  assert (Hle : INR n + 1 <= INR m + 1) by (apply le_INR in H; lra).
  destruct (Rle_lt_or_eq_dec _ _ Hle) as [Hlt|Heq].
  - apply (ln_increasing _ _ Hn) in Hlt. lra.
  - rewrite Heq. lra.
Qed.

Lemma computeUsageWeight_ge_1 (n : nat) : 1 <= Scoring.computeUsageWeight n.
Proof.
  pose proof (computeUsageWeight_mono (Nat.le_0_l n)) as H.
  unfold Scoring.computeUsageWeight in *. simpl INR in H.
  replace (0 + 1) with 1 in H by lra. rewrite ln_1 in H. lra.
Qed.

End ScoreOrder.

(** X19. Order of the relevance score.  Of two knowledge items on the same
    branch, one that was created no earlier and used at least as often
    never scores less.  Every knowledge score is at least 0.44 and at most
    [1 + 0.02 * ln (usageCount + 1)], so without usage it lies within
    0.44 .. 1; every session score lies within 0.3 .. 1. *)
Theorem relevance_score_order
  (parseDate : string -> option Z) (now : Z) (currentBranch : string)
  (k1 k2 : Knowledge.t) (s : Session.t) :
  k1.(Knowledge.branch) = k2.(Knowledge.branch) ->
  noOlder parseDate k1 k2 ->
  usageOf k1 <= usageOf k2 ->
  let score k := Scoring.relevanceScore
                   (Scoring.computeRelevanceScore parseDate now k currentBranch) in
  (score k1 <= score k2)%R /\
  (44 / 100 <= score k1 <= 1 + 2 / 100 * ln (INR (usageOf k1) + 1))%R /\
  (3 / 10 <= Scoring.score (Scoring.scoreSession parseDate now s currentBranch) <= 1)%R.
Proof.
  intros Hb Hd Hu score. subst score.
  unfold Scoring.computeRelevanceScore, Scoring.scoreSession.
  cbn [Scoring.relevanceScore Scoring.score].
  rewrite !Q2R_computeBranchWeight, !Q2R_computeRecencyWeight.
  fold (usageOf k1) (usageOf k2).
  rewrite Hb.
  pose proof (computeUsageWeight_mono Hu) as Hw.
  pose proof (computeUsageWeight_ge_1 (usageOf k1)) as Hw1.
  pose proof (branchWeightOf_bounds (Knowledge.branch k2) currentBranch) as Bb.
  pose proof (branchWeightOf_bounds (Some (Session.branch s)) currentBranch) as Bs.
  pose proof (recencyStep_bounds
                (option_map (fun created => (now - created)%Z)
                            (parseDate (Knowledge.createdAt k1)))) as R1.
  pose proof (recencyStep_bounds
                (option_map (fun created => (now - created)%Z)
                            (parseDate (Knowledge.createdAt k2)))) as R2.
  pose proof (recencyStep_bounds
                (option_map (fun created => (now - created)%Z)
                            (parseDate (Session.startedAt s)))) as R3.
  assert (Hr : (recencyStep (option_map (fun created => (now - created)%Z)
                                        (parseDate (Knowledge.createdAt k1)))
                <= recencyStep (option_map (fun created => (now - created)%Z)
                                           (parseDate (Knowledge.createdAt k2))))%R).
  { unfold noOlder in Hd.
    destruct (parseDate (Knowledge.createdAt k1)) as [t1|];
      destruct (parseDate (Knowledge.createdAt k2)) as [t2|]; cbn [option_map] in *.
    - apply recencyStep_mono. lia.
    - contradiction.
    - unfold recencyStep at 1. lra.
    - lra. }
  assert (Hw1' : Scoring.computeUsageWeight (usageOf k1)
                 = (1 + ln (INR (usageOf k1) + 1) * (1 / 10))%R) by reflexivity.
  repeat split; lra.
Qed.

Lemma relevance_score_order_witness :
  (Scoring.relevanceScore
     (Scoring.computeRelevanceScore exampleParseDate 864000000
        (exampleItem "2026-01-01" 0) "main")
   <= Scoring.relevanceScore
        (Scoring.computeRelevanceScore exampleParseDate 864000000
           (exampleItem "2026-01-09" 3) "main"))%R.
Proof.
  refine (proj1 (@relevance_score_order exampleParseDate 864000000%Z "main"
                   (exampleItem "2026-01-01" 0) (exampleItem "2026-01-09" 3)
                   (Sessions.rowToSession (exampleSession "s1" "/test/project" active))
                   eq_refl _ _)).
  - unfold noOlder. simpl. lia.
  - unfold usageOf. simpl. lia.
Defined.

(** ** Sorting and selecting commute *)

Section SortSelect.
Variable A : Type.
Variable after : A -> A -> bool.
Hypothesis after_asym : forall x y, after x y = true -> after y x = false.
Hypothesis after_negtrans :
  forall x y z, after x y = false -> after y z = false -> after x z = false.
Variable p : A -> bool.

Lemma sortInsert_first (x : A) (l : list A) :
  (forall z, In z l -> after x z = false) -> Js.sortInsert after x l = x :: l.
Proof.
  destruct l as [|y r]; simpl; [reflexivity|].
  intros H. now rewrite (H y (or_introl eq_refl)).
Qed.

Lemma sortInsert_select_out (x : A) (l : list A) :
  p x = false -> filter p (Js.sortInsert after x l) = filter p l.
Proof.
  intros Hx. induction l as [|y r IH]; simpl.
  - now rewrite Hx.
  - destruct (after x y); simpl; [now rewrite IH | now rewrite Hx].
Qed.

Lemma sortInsert_select_in (x : A) (l : list A) :
  p x = true ->
  StronglySorted (fun u v => after u v = false) l ->
  filter p (Js.sortInsert after x l) = Js.sortInsert after x (filter p l).
Proof.
  intros Hx. induction 1 as [|y r Hr IH Hy]; simpl.
  - now rewrite Hx.
  - destruct (after x y) eqn:Hxy; simpl.
    + destruct (p y); simpl; [rewrite Hxy|]; now rewrite IH.
    + rewrite Hx. destruct (p y); simpl; [now rewrite Hxy|].
      symmetry. apply sortInsert_first. intros z Hz.
      apply filter_In in Hz. destruct Hz as [Hz _].
      rewrite Forall_forall in Hy.
      eapply after_negtrans; [exact Hxy | now apply Hy].
Qed.

Lemma sort_select (l : list A) :
  filter p (Js.sort after l) = Js.sort after (filter p l).
Proof.
  induction l as [|x r IH]; simpl; [reflexivity|].
  destruct (p x) eqn:Hx.
  - rewrite sortInsert_select_in; [simpl; now rewrite IH | exact Hx |].
    now apply sort_sorted.
  - rewrite sortInsert_select_out by exact Hx. exact IH.
Qed.

End SortSelect.

Lemma sort_map_same (A : Type) (after : A -> A -> bool) (g : A -> A) (l : list A) :
  (forall x y, after (g x) (g y) = after x y) ->
  Js.sort after (map g l) = map g (Js.sort after l).
Proof.
  intros H. induction l as [|x r IH]; simpl; [reflexivity|].
  rewrite IH. generalize (Js.sort after r). intros s.
  induction s as [|y s IHs]; simpl; [reflexivity|].
  rewrite H. destruct (after x y); simpl; [now rewrite IHs | reflexivity].
Qed.

Lemma filter_map_same (A : Type) (q : A -> bool) (g : A -> A) (l : list A) :
  (forall x, q (g x) = q x) -> filter q (map g l) = map g (filter q l).
Proof.
  intros H. induction l as [|x r IH]; simpl; [reflexivity|].
  rewrite H. destruct (q x); simpl; now rewrite IH.
Qed.

Lemma map_filter_comm (A B : Type) (f : A -> B) (q : B -> bool) (l : list A) :
  filter q (map f l) = map f (filter (fun x => q (f x)) l).
Proof.
  induction l as [|x r IH]; simpl; [reflexivity|].
  destruct (q (f x)); simpl; now rewrite IH.
Qed.

(** ** The knowledge store: writing and reading back *)

Lemma foreignKeyOk_spec (A : Type) (key : A -> string) (parent : list A)
  (ref : option string) :
  KnowledgeStore.foreignKeyOk key parent ref = true <->
  (forall v, ref = Some v -> In v (map key parent)).
Proof.
  unfold KnowledgeStore.foreignKeyOk. destruct ref as [v|].
  - rewrite existsb_exists. split.
    + intros (r & Hr & E) w [= <-]. apply String.eqb_eq in E. subst.
      now apply in_map.
    + intros H. specialize (H v eq_refl). apply in_map_iff in H.
      destruct H as (r & E & Hr). exists r. split; [exact Hr|].
      now apply String.eqb_eq.
  - split; [discriminate | reflexivity].
Qed.

(** X20. What [insertKnowledge] comes to, case by case.  It throws a
    uniqueness error exactly when the identifier is stored, otherwise a
    foreign-key error exactly when [sessionId] or [sourceEventId] names a
    row that is not stored, and otherwise it succeeds.  After a success
    [getKnowledgeById] returns the item with [syncedAt],
    [synapseKnowledgeId] and [supersededBy] cleared and the usage count
    defaulted to 0; the items stored before read as before; the item is
    listed by [getUnsyncedKnowledge] and by [getProjectKnowledge] (when
    the limit covers the table), and the count of the project grows by
    one. *)
Theorem insertKnowledge_then_read (sessions : Sessions.table) (events : Events.table)
  (db : KnowledgeStore.table) (k : Knowledge.t) :
  (KnowledgeStore.getKnowledgeById db k.(Knowledge.knowledgeId) <> None ->
   KnowledgeStore.insertKnowledge sessions events db k
   = Throw (UniqueConstraint "promoted_knowledge")) /\
  (KnowledgeStore.getKnowledgeById db k.(Knowledge.knowledgeId) = None ->
   ~ referencesStored sessions events k ->
   KnowledgeStore.insertKnowledge sessions events db k
   = Throw (ForeignKeyConstraint "promoted_knowledge")) /\
  (KnowledgeStore.getKnowledgeById db k.(Knowledge.knowledgeId) = None ->
   referencesStored sessions events k ->
   exists db',
     KnowledgeStore.insertKnowledge sessions events db k = Ok db' /\
     KnowledgeStore.getKnowledgeById db' k.(Knowledge.knowledgeId) = Some (asStored k) /\
     (forall id, id <> k.(Knowledge.knowledgeId) ->
        KnowledgeStore.getKnowledgeById db' id = KnowledgeStore.getKnowledgeById db id) /\
     In (asStored k) (KnowledgeStore.getUnsyncedKnowledge db' k.(Knowledge.projectPath)) /\
     In (asStored k) (KnowledgeStore.getProjectKnowledge db' k.(Knowledge.projectPath)
                        None (List.length db')) /\
     KnowledgeStore.total (KnowledgeStore.getKnowledgeCount db' k.(Knowledge.projectPath))
     = S (KnowledgeStore.total (KnowledgeStore.getKnowledgeCount db k.(Knowledge.projectPath)))).
Proof.
  unfold KnowledgeStore.insertKnowledge.
  rewrite find_existsb, getKnowledgeById_find.
  assert (Hfk : (KnowledgeStore.foreignKeyOk SessionRow.session_id sessions
                   (Knowledge.sessionId k)
                 && KnowledgeStore.foreignKeyOk EventRow.event_id events
                      (Knowledge.sourceEventId k) = true)
                <-> referencesStored sessions events k).
  { rewrite andb_true_iff, !foreignKeyOk_spec. reflexivity. }
  destruct (find _ db) as [r|] eqn:Hf; cbn [option_map].
  - split; [reflexivity|]. split; congruence.
  - split; [congruence|].
    destruct (KnowledgeStore.foreignKeyOk SessionRow.session_id sessions _
              && KnowledgeStore.foreignKeyOk EventRow.event_id events _) eqn:E;
      cbn [negb]; split.
    + intros _ Hn. exfalso. apply Hn, Hfk. reflexivity.
    + intros _ _. eexists. split; [reflexivity|].
      assert (Hrow : KnowledgeStore.rowToKnowledge (KnowledgeStore.insertedRow k) = asStored k)
        by reflexivity.
      split; [|split; [|split; [|split]]].
      * rewrite getKnowledgeById_find, (find_app_none _ _ _ Hf). simpl.
        now rewrite String.eqb_refl.
      * intros id Hid. rewrite !getKnowledgeById_find.
        destruct (find (fun r => String.eqb (KnowledgeRow.knowledge_id r) id) db)
          as [r|] eqn:Hg.
        -- now rewrite (find_app_some _ _ _ Hg).
        -- rewrite (find_app_none _ _ _ Hg). simpl.
           destruct (String.eqb_spec (Knowledge.knowledgeId k) id);
             [congruence | reflexivity].
      * unfold KnowledgeStore.getUnsyncedKnowledge. rewrite <- Hrow.
        apply in_map, sort_In_iff, filter_In. split.
        -- apply in_or_app. right. now left.
        -- simpl. now rewrite String.eqb_refl.
      * unfold KnowledgeStore.getProjectKnowledge, Sql.limit. rewrite <- Hrow.
        apply in_map. rewrite firstn_all2.
        -- apply sort_In_iff, filter_In. split.
           ++ apply in_or_app. right. now left.
           ++ simpl. now rewrite String.eqb_refl.
        -- unfold Sql.orderByDesc. erewrite Permutation_length by apply sort_perm.
           apply filter_length_le.
      * unfold KnowledgeStore.getKnowledgeCount. cbn [KnowledgeStore.total].
        rewrite filter_app, length_app. simpl. rewrite String.eqb_refl. simpl. lia.
    + reflexivity.
    + intros _ Hr. apply Hfk in Hr. congruence.
Qed.

Lemma insertKnowledge_then_read_witness :
  exists db',
    KnowledgeStore.insertKnowledge [] [] [] (exampleItem "2026-01-01" 3) = Ok db' /\
    KnowledgeStore.getKnowledgeById db' "k1" = Some (asStored (exampleItem "2026-01-01" 3)) /\
    KnowledgeStore.insertKnowledge [] [] db' (exampleItem "2026-01-09" 0)
    = Throw (UniqueConstraint "promoted_knowledge").
Proof.
  destruct (insertKnowledge_then_read [] [] [] (exampleItem "2026-01-01" 3))
    as (_ & _ & H).
  destruct (H eq_refl) as (db' & H1 & H2 & _).
  { split; intros ? E; discriminate E. }
  exists db'. split; [exact H1|]. split; [exact H2|].
  apply (insertKnowledge_then_read [] [] db' (exampleItem "2026-01-09" 0)).
  change (Knowledge.knowledgeId (exampleItem "2026-01-09" 0))
    with (Knowledge.knowledgeId (exampleItem "2026-01-01" 3)).
  rewrite H2. discriminate.
Defined.

(** ** Marking items as synchronised *)

Section Synced.
Variables knowledgeId syncedAt synapseKnowledgeId : string.

Let g (r : KnowledgeRow.t) : KnowledgeRow.t :=
  if String.eqb r.(KnowledgeRow.knowledge_id) knowledgeId
  then KnowledgeSync.setSynced syncedAt synapseKnowledgeId r else r.

Let gk (k : Knowledge.t) : Knowledge.t :=
  if String.eqb k.(Knowledge.knowledgeId) knowledgeId
  then asSynced syncedAt synapseKnowledgeId k else k.

Lemma markKnowledgeSynced_map (db : KnowledgeStore.table) :
  KnowledgeSync.markKnowledgeSynced db knowledgeId syncedAt synapseKnowledgeId = map g db.
Proof. reflexivity. Qed.

Lemma rowToKnowledge_synced (r : KnowledgeRow.t) :
  KnowledgeStore.rowToKnowledge (g r) = gk (KnowledgeStore.rowToKnowledge r).
Proof.
  unfold g, gk. cbn [KnowledgeStore.rowToKnowledge Knowledge.knowledgeId].
  destruct (String.eqb _ knowledgeId); reflexivity.
Qed.

Lemma unsynced_after_mark (q : KnowledgeRow.t -> bool) (db : KnowledgeStore.table) :
  filter (fun r => q r && Sql.isNull r.(KnowledgeRow.synced_at)) (map g db)
  = filter (fun r => negb (String.eqb r.(KnowledgeRow.knowledge_id) knowledgeId))
      (filter (fun r => q (g r) && Sql.isNull r.(KnowledgeRow.synced_at)) db).
Proof.
  induction db as [|r db IH]; [reflexivity|].
  cbn [map filter]. rewrite IH. clear IH.
  destruct (String.eqb (KnowledgeRow.knowledge_id r) knowledgeId) eqn:E.
  - assert (Hg : g r = KnowledgeSync.setSynced syncedAt synapseKnowledgeId r)
      by (unfold g; now rewrite E).
    rewrite Hg. cbn [KnowledgeSync.setSynced KnowledgeRow.synced_at Sql.isNull].
    rewrite andb_false_r.
    destruct (q _ && Sql.isNull (KnowledgeRow.synced_at r));
      [cbn [filter]; now rewrite E | reflexivity].
  - assert (Hg : g r = r) by (unfold g; now rewrite E).
    rewrite Hg.
    destruct (q r && Sql.isNull (KnowledgeRow.synced_at r));
      [cbn [filter]; now rewrite E | reflexivity].
Qed.

Lemma getUnsyncedKnowledge_after_mark (db : KnowledgeStore.table) (projectPath : string) :
  KnowledgeStore.getUnsyncedKnowledge
    (KnowledgeSync.markKnowledgeSynced db knowledgeId syncedAt synapseKnowledgeId)
    projectPath
  = filter (otherThan knowledgeId) (KnowledgeStore.getUnsyncedKnowledge db projectPath).
Proof.
  rewrite markKnowledgeSynced_map. unfold KnowledgeStore.getUnsyncedKnowledge.
  rewrite (map_filter_comm KnowledgeStore.rowToKnowledge (otherThan knowledgeId)).
  unfold otherThan. cbn [KnowledgeStore.rowToKnowledge Knowledge.knowledgeId].
  unfold Sql.orderByAsc.
  rewrite sort_select.
  2:{ intros x y H. apply string_ltb_asym. exact H. }
  2:{ intros x y z H1 H2.
      now apply string_ltb_negtrans with (KnowledgeRow.created_at y). }
  f_equal. f_equal.
  transitivity
    (filter (fun r => (String.eqb (KnowledgeRow.project_path r) projectPath
                       && Sql.isNull (KnowledgeRow.superseded_by r))
                      && Sql.isNull (KnowledgeRow.synced_at r)) (map g db)).
  { apply filter_ext. intros r.
    destruct (String.eqb _ projectPath), (Sql.isNull (KnowledgeRow.synced_at r)),
      (Sql.isNull (KnowledgeRow.superseded_by r)); reflexivity. }
  etransitivity;
    [exact (unsynced_after_mark
              (fun r => String.eqb (KnowledgeRow.project_path r) projectPath
                        && Sql.isNull (KnowledgeRow.superseded_by r)) db)|].
  f_equal. apply filter_ext. intros r. unfold g.
  destruct (String.eqb (KnowledgeRow.knowledge_id r) knowledgeId);
    cbn [KnowledgeSync.setSynced KnowledgeRow.project_path KnowledgeRow.superseded_by];
    destruct (String.eqb _ projectPath), (Sql.isNull (KnowledgeRow.synced_at r)),
      (Sql.isNull (KnowledgeRow.superseded_by r)); reflexivity.
Qed.

Lemma getProjectKnowledge_after_mark (db : KnowledgeStore.table) (projectPath : string)
  (knowledgeType : option KnowledgeType) (limit : nat) :
  KnowledgeStore.getProjectKnowledge
    (KnowledgeSync.markKnowledgeSynced db knowledgeId syncedAt synapseKnowledgeId)
    projectPath knowledgeType limit
  = map gk (KnowledgeStore.getProjectKnowledge db projectPath knowledgeType limit).
Proof.
  rewrite markKnowledgeSynced_map. unfold KnowledgeStore.getProjectKnowledge.
  assert (Hs : forall q : KnowledgeRow.t -> bool,
             (forall r, q (g r) = q r) ->
             map KnowledgeStore.rowToKnowledge
               (Sql.limit limit (Sql.orderByDesc KnowledgeRow.created_at (filter q (map g db))))
             = map gk (map KnowledgeStore.rowToKnowledge
                 (Sql.limit limit (Sql.orderByDesc KnowledgeRow.created_at (filter q db))))).
  { intros q Hq. rewrite (filter_map_same _ _ _ Hq).
    unfold Sql.orderByDesc, Sql.limit. rewrite sort_map_same.
    - rewrite firstn_map, !map_map. apply map_ext. intros r.
      apply rowToKnowledge_synced.
    - intros x y. unfold g.
      destruct (String.eqb (KnowledgeRow.knowledge_id x) knowledgeId),
        (String.eqb (KnowledgeRow.knowledge_id y) knowledgeId); reflexivity. }
  destruct knowledgeType as [kt|]; apply Hs; intros r; unfold g;
    destruct (String.eqb (KnowledgeRow.knowledge_id r) knowledgeId); reflexivity.
Qed.

Lemma getKnowledgeById_after_mark (db : KnowledgeStore.table) (id : string) :
  KnowledgeStore.getKnowledgeById
    (KnowledgeSync.markKnowledgeSynced db knowledgeId syncedAt synapseKnowledgeId) id
  = option_map gk (KnowledgeStore.getKnowledgeById db id).
Proof.
  rewrite markKnowledgeSynced_map, !getKnowledgeById_find.
  rewrite find_map_same.
  - destruct (find _ db) as [r|]; cbn [option_map]; [|reflexivity].
    now rewrite rowToKnowledge_synced.
  - intros r. unfold g.
    destruct (String.eqb (KnowledgeRow.knowledge_id r) knowledgeId); reflexivity.
Qed.

Lemma getKnowledgeCount_after_mark (db : KnowledgeStore.table) (projectPath : string) :
  KnowledgeStore.getKnowledgeCount
    (KnowledgeSync.markKnowledgeSynced db knowledgeId syncedAt synapseKnowledgeId)
    projectPath
  = KnowledgeStore.getKnowledgeCount db projectPath.
Proof.
  rewrite markKnowledgeSynced_map. unfold KnowledgeStore.getKnowledgeCount.
  assert (Hq : forall r, (String.eqb (KnowledgeRow.project_path (g r)) projectPath
                          && Sql.isNull (KnowledgeRow.superseded_by (g r)))
                         = (String.eqb (KnowledgeRow.project_path r) projectPath
                            && Sql.isNull (KnowledgeRow.superseded_by r))).
  { intros r. unfold g.
    destruct (String.eqb (KnowledgeRow.knowledge_id r) knowledgeId); reflexivity. }
  rewrite (filter_map_same _ _ _ Hq).
  assert (Ht : forall kt r, KnowledgeStore.knowledgeTypeEqb (KnowledgeRow.knowledge_type (g r)) kt
                            = KnowledgeStore.knowledgeTypeEqb (KnowledgeRow.knowledge_type r) kt).
  { intros kt r. unfold g.
    destruct (String.eqb (KnowledgeRow.knowledge_id r) knowledgeId); reflexivity. }
  f_equal; rewrite ?(filter_map_same _ _ _ (Ht _)), ?length_map; reflexivity.
Qed.

End Synced.

Lemma syncing_list (syncedAt projectPath : string) (remoteId : Knowledge.t -> string)
  (ks : list Knowledge.t) :
  forall db,
    KnowledgeStore.getUnsyncedKnowledge
      (fold_left (fun d k => KnowledgeSync.markKnowledgeSynced d k.(Knowledge.knowledgeId)
                               syncedAt (remoteId k)) ks db) projectPath
    = filter (fun k => forallb (fun k' => otherThan k'.(Knowledge.knowledgeId) k) ks)
        (KnowledgeStore.getUnsyncedKnowledge db projectPath).
Proof.
  induction ks as [|k0 ks IH]; intros db; simpl.
  - symmetry. apply forallb_filter_id. apply forallb_forall. reflexivity.
  - rewrite IH, getUnsyncedKnowledge_after_mark.
    generalize (KnowledgeStore.getUnsyncedKnowledge db projectPath). intros l.
    induction l as [|k l IHl]; simpl; [reflexivity|].
    destruct (otherThan (Knowledge.knowledgeId k0) k); simpl.
    + destruct (forallb _ ks); simpl; now rewrite IHl.
    + exact IHl.
Qed.

(** X21. [markKnowledgeSynced].  The item marked leaves the list of
    [getUnsyncedKnowledge] and the other items stay listed in the same
    order; read by [getKnowledgeById] or listed by [getProjectKnowledge]
    the item carries the date and the remote identifier and is otherwise
    unchanged, other items read as before, and the counts of
    [getKnowledgeCount] are unchanged.  Hence a pass that marks every
    item that [getUnsyncedKnowledge] lists leaves no item unsynced. *)
Theorem markKnowledgeSynced_effect (db : KnowledgeStore.table)
  (knowledgeId syncedAt synapseKnowledgeId projectPath : string) :
  let db' := KnowledgeSync.markKnowledgeSynced db knowledgeId syncedAt synapseKnowledgeId in
  let mark k := if String.eqb k.(Knowledge.knowledgeId) knowledgeId
                then asSynced syncedAt synapseKnowledgeId k else k in
  KnowledgeStore.getUnsyncedKnowledge db' projectPath
  = filter (otherThan knowledgeId) (KnowledgeStore.getUnsyncedKnowledge db projectPath) /\
  (forall id, KnowledgeStore.getKnowledgeById db' id
              = option_map mark (KnowledgeStore.getKnowledgeById db id)) /\
  (forall knowledgeType limit,
     KnowledgeStore.getProjectKnowledge db' projectPath knowledgeType limit
     = map mark (KnowledgeStore.getProjectKnowledge db projectPath knowledgeType limit)) /\
  KnowledgeStore.getKnowledgeCount db' projectPath
  = KnowledgeStore.getKnowledgeCount db projectPath /\
  (forall remoteId,
     KnowledgeStore.getUnsyncedKnowledge (syncAll db projectPath syncedAt remoteId)
       projectPath = []).
Proof.
  cbv zeta. split; [apply getUnsyncedKnowledge_after_mark|].
  split; [intros id; apply getKnowledgeById_after_mark|].
  split; [intros kt limit; apply getProjectKnowledge_after_mark|].
  split; [apply getKnowledgeCount_after_mark|].
  intros remoteId. unfold syncAll. rewrite syncing_list.
  apply filter_none. intros k Hk.
  destruct (forallb _ _) eqn:E; [|reflexivity].
  rewrite forallb_forall in E. specialize (E k Hk). unfold otherThan in E.
  now rewrite String.eqb_refl in E.
Qed.

(** ** The agent registry *)

Lemma getAgent_find (db : Agents.table) (a : AgentType) :
  Agents.getAgent db a
  = option_map Agents.rowToAgentInfo
      (find (fun r => agentTypeEqb r.(AgentRow.agent_type) a) db).
Proof. unfold Agents.getAgent. now rewrite get_filter_find. Qed.

Lemma agentTypeEqb_refl (a : AgentType) : agentTypeEqb a a = true.
Proof. now apply agentTypeEqb_eq. Qed.

Lemma orderByCountDesc_sorted (A : Type) (key : A -> nat) (l : list A) :
  StronglySorted (fun x y => key y <= key x) (SqlMore.orderByCountDesc key l).
Proof.
  unfold SqlMore.orderByCountDesc.
  assert (H : StronglySorted (fun u v => (key u <? key v) = false)
                (Js.sort (fun x y => key x <? key y) l)).
  { apply (@sort_sorted _ (fun x y => key x <? key y)).
    - intros x y H. apply Nat.ltb_lt in H. apply Nat.ltb_ge. lia.
    - intros x y z H1 H2. apply Nat.ltb_ge in H1, H2. apply Nat.ltb_ge. lia. }
  induction H as [|x r Hr IH Hx]; constructor; [exact IH|].
  rewrite Forall_forall in *. intros y Hy. now apply Nat.ltb_ge, Hx.
Qed.

Lemma timesSeen_snoc (b a : AgentType) (t : string) (seen : list (string * AgentType)) :
  timesSeen b (seen ++ [(t, a)])
  = timesSeen b seen + (if agentTypeEqb a b then 1 else 0).
Proof.
  unfold timesSeen. rewrite filter_app, length_app. simpl.
  now destruct (agentTypeEqb a b).
Qed.

Lemma firstSeen_snoc (b a : AgentType) (t : string) (seen : list (string * AgentType)) :
  firstSeen b (seen ++ [(t, a)])
  = match firstSeen b seen with
    | Some f => Some f
    | None => if agentTypeEqb a b then Some t else None
    end.
Proof.
  unfold firstSeen.
  destruct (find (fun c => agentTypeEqb (snd c) b) seen) as [c|] eqn:Hf.
  - now rewrite (find_app_some _ _ _ Hf).
  - rewrite (find_app_none _ _ _ Hf). simpl. now destruct (agentTypeEqb a b).
Qed.

Lemma lastSeen_snoc (b a : AgentType) (t : string) (seen : list (string * AgentType)) :
  lastSeen b (seen ++ [(t, a)])
  = if agentTypeEqb a b then Some t else lastSeen b seen.
Proof.
  unfold lastSeen, firstSeen. rewrite rev_app_distr. simpl.
  now destruct (agentTypeEqb a b).
Qed.

Lemma timesSeen_zero (a : AgentType) (seen : list (string * AgentType)) :
  timesSeen a seen = 0 -> firstSeen a seen = None.
Proof.
  unfold timesSeen, firstSeen. induction seen as [|c r IH]; simpl; [reflexivity|].
  destruct (agentTypeEqb (snd c) a); simpl; [discriminate | exact IH].
Qed.

Lemma firstSeen_none (a : AgentType) (seen : list (string * AgentType)) :
  firstSeen a seen = None <-> ~ In a (map snd seen).
Proof.
  unfold firstSeen. split.
  - intros H Hin. apply in_map_iff in Hin. destruct Hin as ([t b] & E & Hin).
    simpl in E. subst b.
    destruct (find (fun c => agentTypeEqb (snd c) a) seen) as [c|] eqn:Hf;
      [discriminate|].
    apply (find_none _ _ Hf) in Hin. simpl in Hin.
    rewrite agentTypeEqb_refl in Hin. discriminate.
  - intros Hout.
    destruct (find (fun c => agentTypeEqb (snd c) a) seen) as [c|] eqn:Hf;
      [|reflexivity].
    exfalso. apply Hout. apply find_some in Hf. destruct Hf as [Hin E].
    apply agentTypeEqb_eq in E. subst a. now apply in_map.
Qed.

Lemma registered_none (a : AgentType) (seen : list (string * AgentType)) :
  registered a seen = None <-> ~ In a (map snd seen).
Proof.
  unfold registered.
  pose proof (firstSeen_none a seen) as F.
  pose proof (firstSeen_none a (rev seen)) as L.
  fold (lastSeen a seen) in L. rewrite map_rev, <- in_rev in L.
  destruct (firstSeen a seen), (lastSeen a seen); split; intros H;
    try reflexivity; try discriminate H;
    first [ apply F; reflexivity | apply L; reflexivity
          | apply F in H; discriminate H | apply L in H; discriminate H ].
Qed.

Lemma registered_other (b a : AgentType) (t : string) (seen : list (string * AgentType)) :
  agentTypeEqb a b = false ->
  registered b (seen ++ [(t, a)]) = registered b seen.
Proof.
  intros E. unfold registered.
  rewrite firstSeen_snoc, lastSeen_snoc, timesSeen_snoc, E, Nat.add_0_r.
  now destruct (firstSeen b seen).
Qed.

Lemma sum_update (A : Type) (key : A -> nat) (cond : A -> bool) (set : A -> A)
  (rows : list A) :
  (forall r, key (set r) = key r + 1) ->
  list_sum (map key (fst (Sql.update cond set rows)))
  = list_sum (map key rows) + List.length (filter cond rows).
Proof.
  intros H. unfold Sql.update, fst.
  induction rows as [|r rows IH]; simpl; [reflexivity|].
  rewrite IH. destruct (cond r); simpl; [rewrite H|]; lia.
Qed.

Lemma one_row_per_agent (db : Agents.table) (a : AgentType) :
  NoDup (map AgentRow.agent_type db) ->
  In a (map AgentRow.agent_type db) ->
  List.length (filter (fun r => agentTypeEqb r.(AgentRow.agent_type) a) db) = 1.
Proof.
  induction db as [|r db IH]; simpl; [contradiction|].
  intros Hnd Hin. inversion Hnd as [|? ? Hr Hdb]; subst.
  destruct (agentTypeEqb (AgentRow.agent_type r) a) eqn:E.
  - apply agentTypeEqb_eq in E. subst a. simpl. f_equal.
    apply length_zero_iff_nil.
    apply filter_none. intros x Hx.
    destruct (agentTypeEqb (AgentRow.agent_type x) (AgentRow.agent_type r)) eqn:E;
      [|reflexivity].
    apply agentTypeEqb_eq in E. exfalso. apply Hr. rewrite <- E. now apply in_map.
  - destruct Hin as [Hin|Hin]; [|now apply IH].
    subst a. rewrite agentTypeEqb_refl in E. discriminate.
Qed.

Lemma upsertAgent_registered (db : Agents.table) (seen : list (string * AgentType))
  (t : string) (a : AgentType) :
  rowsRegistered db seen ->
  rowsRegistered (fst (Agents.upsertAgent db t a)) (seen ++ [(t, a)]).
Proof.
  intros (Hnd & Hrows & Hcov & Hsum).
  unfold Agents.upsertAgent. cbn [fst].
  destruct (existsb _ db) eqn:Hex.
  - assert (Hin : In a (map AgentRow.agent_type db)).
    { apply existsb_exists in Hex. destruct Hex as (r & Hr & E).
      apply agentTypeEqb_eq in E. subst a. now apply in_map. }
    split; [|split; [|split]].
    + rewrite map_update_key by reflexivity. exact Hnd.
    + intros r' Hr'. apply in_update in Hr'. destruct Hr' as (r & Hr & ->).
      specialize (Hrows r Hr).
      destruct (agentTypeEqb (AgentRow.agent_type r) a) eqn:E.
      * apply agentTypeEqb_eq in E. subst a.
        cbn [AgentRow.agent_type Agents.rowToAgentInfo AgentRow.display_name
             AgentRow.first_seen_at AgentRow.last_seen_at AgentRow.total_sessions].
        unfold registered in *.
        rewrite firstSeen_snoc, lastSeen_snoc, timesSeen_snoc, agentTypeEqb_refl.
        destruct (firstSeen (AgentRow.agent_type r) seen) as [f|]; [|discriminate].
        destruct (lastSeen (AgentRow.agent_type r) seen) as [l|]; [|discriminate].
        injection Hrows as H1 H2 H3 H4. unfold Agents.rowToAgentInfo.
        now rewrite <- H1, <- H2, <- H4.
      * rewrite registered_other; [exact Hrows|].
        rewrite agentTypeEqb_sym. exact E.
    + intros b Hb. rewrite map_update_key by reflexivity.
      rewrite timesSeen_snoc in Hb.
      destruct (agentTypeEqb a b) eqn:E.
      * apply agentTypeEqb_eq in E. now subst b.
      * apply Hcov. lia.
    + rewrite sum_update by reflexivity.
      rewrite (@one_row_per_agent db a Hnd Hin), Hsum, length_app. reflexivity.
  - assert (Hout : ~ In a (map AgentRow.agent_type db)).
    { intros Hin. apply in_map_iff in Hin. destruct Hin as (r & E & Hr).
      assert (X : existsb (fun r => agentTypeEqb (AgentRow.agent_type r) a) db = true).
      { apply existsb_exists. exists r. split; [exact Hr|]. now apply agentTypeEqb_eq. }
      congruence. }
    assert (H0 : timesSeen a seen = 0).
    { destruct (timesSeen a seen) eqn:E; [reflexivity|].
      exfalso. apply Hout, Hcov. lia. }
    split; [|split; [|split]].
    + rewrite map_app. simpl. now apply NoDup_snoc.
    + intros r Hr. apply in_app_or in Hr. destruct Hr as [Hr|[<-|[]]].
      * rewrite registered_other; [now apply Hrows|].
        destruct (agentTypeEqb a (AgentRow.agent_type r)) eqn:E; [|reflexivity].
        apply agentTypeEqb_eq in E. exfalso. apply Hout. rewrite E. now apply in_map.
      * cbn [AgentRow.agent_type]. unfold registered.
        rewrite firstSeen_snoc, lastSeen_snoc, timesSeen_snoc, agentTypeEqb_refl.
        rewrite (timesSeen_zero _ _ H0), H0. reflexivity.
    + intros b Hb. rewrite map_app. apply in_or_app. simpl.
      rewrite timesSeen_snoc in Hb.
      destruct (agentTypeEqb a b) eqn:E.
      * apply agentTypeEqb_eq in E. right. now left.
      * left. apply Hcov. lia.
    + rewrite map_app, list_sum_app, length_app, Hsum. simpl. lia.
Qed.

Lemma registryAfter_snoc (seen : list (string * AgentType)) (t : string) (a : AgentType) :
  registryAfter (seen ++ [(t, a)]) = fst (Agents.upsertAgent (registryAfter seen) t a).
Proof. unfold registryAfter. now rewrite fold_left_app. Qed.

Lemma registryAfter_registered (seen : list (string * AgentType)) :
  rowsRegistered (registryAfter seen) seen.
Proof.
  induction seen as [|[t a] seen IH] using rev_ind.
  - split; [constructor|]. split; [intros r []|]. split; [|reflexivity].
    intros a H. now contradict H.
  - rewrite registryAfter_snoc. now apply upsertAgent_registered.
Qed.

Lemma getAgent_registered (db : Agents.table) (seen : list (string * AgentType))
  (a : AgentType) :
  rowsRegistered db seen -> Agents.getAgent db a = registered a seen.
Proof.
  intros (Hnd & Hrows & Hcov & _). rewrite getAgent_find.
  destruct (find _ db) as [r|] eqn:Hf; cbn [option_map].
  - apply find_some in Hf. destruct Hf as [Hr E]. apply agentTypeEqb_eq in E.
    subst a. symmetry. now apply Hrows.
  - assert (H0 : timesSeen a seen = 0).
    { destruct (timesSeen a seen) eqn:E; [reflexivity|]. exfalso.
      assert (Hin : In a (map AgentRow.agent_type db)) by (apply Hcov; lia).
      apply in_map_iff in Hin. destruct Hin as (r & Er & Hr).
      apply (find_none _ _ Hf) in Hr. subst a. cbv beta in Hr.
      rewrite agentTypeEqb_refl in Hr. discriminate. }
    unfold registered. now rewrite (timesSeen_zero _ _ H0).
Qed.

(** X22. The agent registry after any history of [upsertAgent] calls.
    [getAgent] returns nothing for an agent never seen, and otherwise the
    display name of the agent, the clock readings of its first and of its
    last call, and the number of its calls.  [getAllAgents] lists every
    agent seen once, as [getAgent] returns it, by falling number of
    sessions; the numbers add up to the number of calls.  [upsertAgent]
    itself always returns an entry. *)
Theorem agent_registry (seen : list (string * AgentType)) (a : AgentType) :
  let db := registryAfter seen in
  Agents.getAgent db a = registered a seen /\
  (Agents.getAgent db a = None <-> ~ In a (map snd seen)) /\
  NoDup (map AgentInfo.agentType (Agents.getAllAgents db)) /\
  (forall i, In i (Agents.getAllAgents db) <->
             Agents.getAgent db i.(AgentInfo.agentType) = Some i) /\
  StronglySorted (fun x y => y.(AgentInfo.totalSessions) <= x.(AgentInfo.totalSessions))
    (Agents.getAllAgents db) /\
  list_sum (map AgentInfo.totalSessions (Agents.getAllAgents db)) = List.length seen /\
  (forall now, snd (Agents.upsertAgent db now a) <> None).
Proof.
  intros db. pose proof (registryAfter_registered seen) as Hreg. fold db in Hreg.
  pose proof (@getAgent_registered db seen a Hreg) as Hget.
  destruct Hreg as (Hnd & Hrows & Hcov & Hsum).
  assert (Hperm : Permutation (SqlMore.orderByCountDesc AgentRow.total_sessions db) db)
    by apply sort_perm.
  split; [exact Hget|]. split; [|split; [|split; [|split; [|split]]]].
  - rewrite Hget. apply registered_none.
  - unfold Agents.getAllAgents. rewrite map_map.
    change (map (fun x => AgentInfo.agentType (Agents.rowToAgentInfo x)))
      with (map AgentRow.agent_type).
    eapply Permutation_NoDup; [|exact Hnd].
    apply Permutation_map, Permutation_sym, Hperm.
  - intros i. unfold Agents.getAllAgents. rewrite in_map_iff. split.
    + intros (r & <- & Hr). apply (Permutation_in _ Hperm) in Hr.
      rewrite (@getAgent_registered db seen _ (conj Hnd (conj Hrows (conj Hcov Hsum)))).
      now apply Hrows.
    + rewrite getAgent_find. intros H.
      destruct (find _ db) as [r|] eqn:Hf; [|discriminate].
      injection H as <-. exists r. split; [reflexivity|].
      apply find_some in Hf. apply (Permutation_in _ (Permutation_sym Hperm)), Hf.
  - unfold Agents.getAllAgents. apply StronglySorted_map.
    apply (orderByCountDesc_sorted AgentRow.total_sessions).
  - unfold Agents.getAllAgents. rewrite map_map.
    change (map (fun x => AgentInfo.totalSessions (Agents.rowToAgentInfo x)))
      with (map AgentRow.total_sessions).
    rewrite <- Hsum. apply Permutation_list_sum.
    apply Permutation_map, Hperm.
  - intros now.
    pose proof (@upsertAgent_registered db seen now a
                  (conj Hnd (conj Hrows (conj Hcov Hsum)))) as Hreg'.
    unfold Agents.upsertAgent in *. cbn [fst snd] in *.
    rewrite (@getAgent_registered _ _ a Hreg'). unfold registered.
    rewrite firstSeen_snoc, lastSeen_snoc, agentTypeEqb_refl.
    destruct (firstSeen a seen); discriminate.
Qed.

(** ** Sessions by agent *)

Lemma filter_filter_and (A : Type) (p q : A -> bool) (l : list A) :
  filter q (filter p l) = filter (fun x => p x && q x) l.
Proof.
  induction l as [|x r IH]; simpl; [reflexivity|].
  destruct (p x); simpl; [destruct (q x); now rewrite IH | exact IH].
Qed.

Section GroupRows.
Variable K : Type.
Variable eqb : K -> K -> bool.
Hypothesis eqb_eq : forall x y, eqb x y = true <-> x = y.

Lemma countOf_in (k : K) (n : nat) (groups : list (K * nat)) :
  NoDup (map fst groups) -> In (k, n) groups ->
  SqlMore.countOf eqb k groups = n.
Proof.
  unfold SqlMore.countOf.
  induction groups as [|[k0 n0] r IH]; simpl; [contradiction|].
  intros Hnd Hin. inversion Hnd as [|? ? Hk0 Hr]; subst.
  destruct Hin as [[= -> ->]|Hin].
  - now rewrite (proj2 (eqb_eq k k) eq_refl).
  - destruct (eqb k0 k) eqn:E; [|now apply IH].
    apply eqb_eq in E. subst k0. exfalso. apply Hk0.
    change k with (fst (k, n)). now apply in_map.
Qed.

Lemma sum_list_sum (groups : list (K * nat)) :
  fold_left (fun sum c => sum + snd c) groups 0 = list_sum (map snd groups).
Proof.
  induction groups as [|g r IH]; simpl; [reflexivity|].
  rewrite (sum_fold r (snd g)), IH. reflexivity.
Qed.

Lemma occurrences_in (k : K) (keys : list K) :
  List.length (filter (fun k' => eqb k' k) keys) <> 0 <-> In k keys.
Proof.
  induction keys as [|k0 r IH]; simpl; [split; [intros H; now contradict H | intros []]|].
  destruct (eqb k0 k) eqn:E; simpl.
  - apply eqb_eq in E. split; [intros _; now left | intros _; discriminate].
  - rewrite IH. split; [now right|]. intros [->|H]; [|exact H].
    rewrite (proj2 (eqb_eq k k) eq_refl) in E. discriminate.
Qed.

End GroupRows.

(** X23. [getAgentStats] for a project, with or without a start date.  The
    result holds one pair per agent that has a session counted, the
    number of a pair is the number of sessions of the project (started at
    or after [since], when [since] is given and not empty) recorded for
    that agent, no pair has the number 0, the pairs come by falling
    number, and the numbers add up to the number of sessions counted. *)
Theorem getAgentStats_counts_sessions (sessions : Sessions.table)
  (projectPath : string) (since : option string) :
  let stats := Agents.getAgentStats sessions projectPath since in
  NoDup (map fst stats) /\
  (forall a n, In (a, n) stats <->
               n = sessionsCounted sessions projectPath since a /\ n <> 0) /\
  StronglySorted (fun x y => snd y <= snd x) stats /\
  list_sum (map snd stats)
  = List.length (filter (Agents.whereSince projectPath since) sessions) /\
  (forall r, Agents.whereSince projectPath since r = true <->
             r.(SessionRow.project_path) = projectPath /\
             forall t, since = Some t -> t <> "" ->
                       String.ltb r.(SessionRow.started_at) t = false).
Proof.
  cbv zeta. unfold Agents.getAgentStats.
  set (keys := map SessionRow.agent_type
                 (filter (Agents.whereSince projectPath since) sessions)).
  set (groups := SqlMore.groupCount agentTypeEqb keys).
  assert (Hperm : Permutation (SqlMore.orderByCountDesc snd groups) groups)
    by apply sort_perm.
  destruct (groupCount_keys agentTypeEqb agentTypeEqb_eq keys) as [Hnd Hkeys].
  fold groups in Hnd, Hkeys.
  assert (Hcount : forall a,
             List.length (filter (fun k' => agentTypeEqb k' a) keys)
             = sessionsCounted sessions projectPath since a).
  { intros a. unfold keys, sessionsCounted.
    rewrite (map_filter_comm SessionRow.agent_type (fun k' => agentTypeEqb k' a)).
    rewrite length_map, filter_filter_and. reflexivity. }
  split; [|split; [|split; [|split]]].
  - eapply Permutation_NoDup; [|exact Hnd].
    apply Permutation_map, Permutation_sym, Hperm.
  - intros a n. split.
    + intros Hin. apply (Permutation_in _ Hperm) in Hin.
      pose proof (countOf_in agentTypeEqb agentTypeEqb_eq _ _ _ Hnd Hin) as Hc.
      unfold groups in Hc. rewrite (countOf_groupCount agentTypeEqb agentTypeEqb_eq) in Hc.
      rewrite Hcount in Hc. split; [now symmetry|].
      rewrite <- Hc, <- Hcount. apply (occurrences_in agentTypeEqb agentTypeEqb_eq).
      apply Hkeys. change a with (fst (a, n)). now apply in_map.
    + intros [-> Hn]. apply (Permutation_in _ (Permutation_sym Hperm)).
      rewrite <- Hcount in Hn.
      apply (occurrences_in agentTypeEqb agentTypeEqb_eq) in Hn.
      apply Hkeys in Hn. apply in_map_iff in Hn. destruct Hn as ([a' n'] & E & Hin).
      simpl in E. subst a'.
      pose proof (countOf_in agentTypeEqb agentTypeEqb_eq _ _ _ Hnd Hin) as Hc.
      unfold groups in Hc. rewrite (countOf_groupCount agentTypeEqb agentTypeEqb_eq) in Hc.
      rewrite Hcount in Hc. now rewrite Hc.
  - apply (orderByCountDesc_sorted snd).
  - rewrite (Permutation_list_sum (Permutation_map snd Hperm)).
    rewrite <- sum_list_sum. unfold groups.
    rewrite (sum_groupCount agentTypeEqb). unfold keys. now rewrite length_map.
  - intros r. unfold Agents.whereSince. rewrite andb_true_iff, String.eqb_eq.
    destruct since as [t|].
    + unfold Js.truthy. destruct (String.eqb_spec t "") as [->|Ht]; simpl.
      * split; [intros [H _]; split; [exact H|]; intros t [= <-] Hne; now contradict Hne
               | intros [H _]; now split].
      * destruct t as [|c t]; [now contradict Ht|].
        rewrite negb_true_iff. split.
        -- intros [H1 H2]. split; [exact H1|]. now intros t' [= <-] _.
        -- intros [H1 H2]. split; [exact H1|]. apply H2; [reflexivity|discriminate].
    + split; [intros [H _]; split; [exact H|]; discriminate | intros [H _]; now split].
Qed.

(** ** Joins on a unique key *)

Section JoinUnique.
Variables A B : Type.
Variable key : B -> string.

Lemma filter_unique (m : B -> bool) (id : string) (parents : list B) :
  NoDup (map key parents) ->
  (forall b, m b = true -> key b = id) ->
  filter m parents = [] \/ exists b, filter m parents = [b].
Proof.
  intros Hnd Hm. induction parents as [|b r IH]; simpl; [now left|].
  inversion Hnd as [|? ? Hb Hr]; subst.
  destruct (m b) eqn:E.
  - right. exists b. f_equal. apply filter_none. intros x Hx.
    destruct (m x) eqn:Ex; [|reflexivity].
    exfalso. apply Hb. rewrite (Hm b E), <- (Hm x Ex). now apply in_map.
  - now apply IH.
Qed.

Lemma join_unique (m : A -> B -> bool) (fk : A -> string) (parents : list B)
  (rows : list A) :
  NoDup (map key parents) ->
  (forall a b, m a b = true -> key b = fk a) ->
  flat_map (fun a => map (fun _ => a) (filter (m a) parents)) rows
  = filter (fun a => existsb (m a) parents) rows.
Proof.
  intros Hnd Hm. induction rows as [|a r IH]; simpl; [reflexivity|].
  rewrite IH. clear IH.
  destruct (@filter_unique (m a) (fk a) parents Hnd (Hm a)) as [E|[b E]].
  - rewrite E. simpl.
    destruct (existsb (m a) parents) eqn:Ex; [|reflexivity].
    apply existsb_exists in Ex. destruct Ex as (b & Hb & Hmb).
    assert (Hin : In b (filter (m a) parents)) by (apply filter_In; auto).
    rewrite E in Hin. contradiction.
  - rewrite E. simpl.
    assert (Hin : In b (filter (m a) parents)) by (rewrite E; now left).
    apply filter_In in Hin.
    assert (Ex : existsb (m a) parents = true)
      by (apply existsb_exists; exists b; exact Hin).
    now rewrite Ex.
Qed.

End JoinUnique.

(** A join driven from the parent table lists the same rows as the
    filter on the child table, in another order. *)
Lemma filter_or_perm (A : Type) (p q : A -> bool) (l : list A) :
  (forall x, p x = true -> q x = true -> False) ->
  Permutation (filter p l ++ filter q l) (filter (fun x => p x || q x) l).
Proof.
  intros H. induction l as [|x r IH]; simpl; [constructor|].
  destruct (p x) eqn:Ep, (q x) eqn:Eq; simpl.
  - destruct (H x Ep Eq).
  - now apply perm_skip.
  - eapply perm_trans; [apply Permutation_sym, Permutation_middle|].
    now apply perm_skip.
  - exact IH.
Qed.

Lemma Permutation_filter_same (A : Type) (p : A -> bool) (l l' : list A) :
  Permutation l l' -> Permutation (filter p l) (filter p l').
Proof.
  induction 1 as [|x l l' _ IH|x y l|l l' l'' _ IH1 _ IH2]; simpl.
  - constructor.
  - destruct (p x); [now apply perm_skip | exact IH].
  - destruct (p x), (p y); try apply Permutation_refl. apply perm_swap.
  - eapply perm_trans; eassumption.
Qed.

Lemma NoDup_map_filter (A : Type) (key : A -> string) (p : A -> bool) (l : list A) :
  NoDup (map key l) -> NoDup (map key (filter p l)).
Proof.
  induction l as [|x r IH]; simpl; intros H; [constructor|].
  inversion H as [|? ? Hx Hr]; subst.
  destruct (p x); [|now apply IH].
  simpl. constructor; [|now apply IH].
  intros Hin. apply Hx. apply in_map_iff in Hin. destruct Hin as (y & Ey & Hy).
  apply filter_In in Hy. apply in_map_iff. exists y. tauto.
Qed.

Lemma existsb_filter (A : Type) (f g : A -> bool) (l : list A) :
  existsb f (filter g l) = existsb (fun x => f x && g x) l.
Proof.
  induction l as [|x r IH]; simpl; [reflexivity|].
  destruct (g x); simpl; rewrite IH; [now rewrite andb_true_r|].
  now rewrite andb_false_r.
Qed.

Lemma join_from_parents (A B : Type) (key : B -> string) (fk : A -> string)
  (parents : list B) (rows : list A) :
  NoDup (map key parents) ->
  Permutation
    (flat_map (fun b => filter (fun a => String.eqb (fk a) (key b)) rows) parents)
    (filter (fun a => existsb (fun b => String.eqb (fk a) (key b)) parents) rows).
Proof.
  induction parents as [|b r IH]; intros Hnd; simpl.
  - rewrite filter_none by reflexivity. constructor.
  - inversion Hnd as [|? ? Hb Hr]; subst.
    eapply perm_trans; [apply Permutation_app_head, IH, Hr|].
    apply filter_or_perm. intros a E1 E2.
    apply String.eqb_eq in E1. apply existsb_exists in E2.
    destruct E2 as (b' & Hb' & E2). apply String.eqb_eq in E2.
    apply Hb. rewrite <- E1, E2. now apply in_map.
Qed.

Lemma joinProject_events (sessions : Sessions.table) (db : Events.table)
  (projectPath : string) :
  NoDup (map SessionRow.session_id sessions) ->
  Permutation (EventQueries.joinProject sessions db projectPath)
              (filter (eventOfProject sessions projectPath) db).
Proof.
  intros Hnd. unfold EventQueries.joinProject.
  eapply perm_trans.
  - apply (@join_from_parents _ _ SessionRow.session_id EventRow.session_id).
    now apply NoDup_map_filter.
  - erewrite filter_ext; [apply Permutation_refl|].
    intros e. unfold eventOfProject. apply existsb_filter.
Qed.

Lemma StronglySorted_app_cross (A : Type) (R : A -> A -> Prop) (l1 l2 : list A) :
  StronglySorted R (l1 ++ l2) -> forall x y, In x l1 -> In y l2 -> R x y.
Proof.
  induction l1 as [|a r IH]; simpl; intros H x y Hx Hy; [contradiction|].
  inversion H as [|? ? Hr Ha]; subst. destruct Hx as [<-|Hx].
  - rewrite Forall_forall in Ha. apply Ha. apply in_or_app. now right.
  - now apply IH.
Qed.

Lemma rowToEvent_eventRow (event : SessionEvent.t) :
  EventQueries.rowToEvent (eventRow event) = event.
Proof. now destruct event. Qed.

(** X24. Events written and read.  [insertEvent] throws a uniqueness error
    exactly when the event identifier is stored, otherwise a foreign-key
    error exactly when the session is not stored, and otherwise succeeds;
    the event is then returned unchanged by [getSessionEvents] for its
    session, with or without its type as a filter.  [getSessionEvents]
    returns exactly the events of the session (of the type, when one is
    given), oldest first.  Session identifiers being unique,
    [getRecentEvents] returns [limit] of the events that belong to a
    session of the project (of the type), or all of them when they are
    fewer, each once and newest first, and no event left out is newer
    than one returned; which of several events with one timestamp are
    kept, and in which order, is left open. *)
Theorem events_written_and_read (sessions : Sessions.table) (db : Events.table)
  (event : SessionEvent.t) :
  NoDup (map SessionRow.session_id sessions) ->
  (In event.(SessionEvent.eventId) (map EventRow.event_id db) ->
   Events.insertEvent sessions db event = Throw (UniqueConstraint "session_events")) /\
  (~ In event.(SessionEvent.eventId) (map EventRow.event_id db) ->
   ~ In event.(SessionEvent.sessionId) (map SessionRow.session_id sessions) ->
   Events.insertEvent sessions db event = Throw (ForeignKeyConstraint "session_events")) /\
  (~ In event.(SessionEvent.eventId) (map EventRow.event_id db) ->
   In event.(SessionEvent.sessionId) (map SessionRow.session_id sessions) ->
   Events.insertEvent sessions db event = Ok (db ++ [eventRow event]) /\
   In event (EventQueries.getSessionEvents (db ++ [eventRow event])
               event.(SessionEvent.sessionId) None) /\
   In event (EventQueries.getSessionEvents (db ++ [eventRow event])
               event.(SessionEvent.sessionId) (Some event.(SessionEvent.eventType)))) /\
  (forall sessionId eventType,
     let result := EventQueries.getSessionEvents db sessionId eventType in
     (forall x, In x result <->
                In (eventRow x) db /\ x.(SessionEvent.sessionId) = sessionId /\
                forall t, eventType = Some t -> x.(SessionEvent.eventType) = t) /\
     oldestFirst SessionEvent.timestamp result) /\
  (forall projectPath eventType limit,
     let result := EventQueries.getRecentEvents sessions db projectPath eventType limit in
     let matching := filter (fun e => eventOfProject sessions projectPath e
                                      && EventQueries.ofType eventType e) db in
     List.length result = Nat.min limit (List.length matching) /\
     newestFirst SessionEvent.timestamp result /\
     exists rest,
       Permutation (map eventRow result ++ rest) matching /\
       forall x r, In x result -> In r rest ->
                   String.ltb x.(SessionEvent.timestamp) r.(EventRow.timestamp) = false).
Proof.
  intros Hnd.
  assert (Hex : forall (A : Type) (key : A -> string) (id : string) (rows : list A),
             existsb (fun r => String.eqb (key r) id) rows = true <-> In id (map key rows)).
  { intros A key id rows. split; [apply existsb_key_true|].
    intros H. destruct (existsb _ rows) eqn:E; [reflexivity|].
    now apply existsb_key_false in E. }
  assert (Hrow : forall r, eventRow (EventQueries.rowToEvent r) = r)
    by (intros r; now destruct r).
  assert (HofType : forall eventType r,
             EventQueries.ofType eventType r = true <->
             forall t, eventType = Some t -> EventRow.event_type r = t).
  { intros [t|] r; simpl.
    - rewrite eventTypeEqb_eq. split; [now intros -> t' [= <-] | auto].
    - split; [discriminate | reflexivity]. }
  unfold Events.insertEvent. fold (eventRow event).
  split; [|split; [|split; [|split]]].
  - intros H. apply Hex in H. now rewrite H.
  - intros H1 H2.
    destruct (existsb _ db) eqn:E1; [apply Hex in E1; contradiction|].
    destruct (existsb _ sessions) eqn:E2; [apply Hex in E2; contradiction|].
    reflexivity.
  - intros H1 H2.
    destruct (existsb _ db) eqn:E1; [apply Hex in E1; contradiction|].
    apply Hex in H2. rewrite H2. cbn [negb].
    split; [reflexivity|].
    split; unfold EventQueries.getSessionEvents;
      rewrite <- (rowToEvent_eventRow event) at 1;
      apply in_map, sort_In_iff, filter_In;
      (split; [apply in_or_app; right; now left|]);
      cbn; rewrite String.eqb_refl; [reflexivity|].
    now apply eventTypeEqb_eq.
  - intros sessionId eventType. cbv zeta. unfold EventQueries.getSessionEvents. split.
    + intros x. rewrite in_map_iff. split.
      * intros (r & <- & Hr). apply sort_In_iff, filter_In in Hr.
        destruct Hr as [Hin Hq]. apply andb_true_iff in Hq. destruct Hq as [H1 H2].
        apply String.eqb_eq in H1. rewrite Hrow.
        split; [exact Hin|]. split; [exact H1|]. now apply HofType.
      * intros (Hin & H1 & H2). exists (eventRow x).
        split; [apply rowToEvent_eventRow|].
        apply sort_In_iff, filter_In. split; [exact Hin|].
        apply andb_true_iff. split; [now apply String.eqb_eq | now apply HofType].
    + apply StronglySorted_map. apply (orderByAsc_sorted EventRow.timestamp).
  - intros projectPath eventType limit. cbv zeta.
    unfold EventQueries.getRecentEvents, Sql.limit.
    set (joined := filter (EventQueries.ofType eventType)
                     (EventQueries.joinProject sessions db projectPath)).
    set (sorted := Sql.orderByDesc EventRow.timestamp joined).
    assert (Hperm : Permutation sorted
                      (filter (fun e => eventOfProject sessions projectPath e
                                        && EventQueries.ofType eventType e) db)).
    { eapply perm_trans; [apply sort_perm|]. unfold joined.
      rewrite <- filter_filter_and. apply Permutation_filter_same.
      now apply joinProject_events. }
    assert (Hsorted : StronglySorted
                        (fun x y => String.ltb (EventRow.timestamp x)
                                      (EventRow.timestamp y) = false) sorted)
      by apply (orderByDesc_sorted EventRow.timestamp).
    split; [|split].
    + rewrite length_map, length_firstn, (Permutation_length Hperm). reflexivity.
    + apply StronglySorted_map. now apply StronglySorted_firstn.
    + exists (skipn limit sorted). split.
      * rewrite map_map. erewrite map_ext; [|exact Hrow]. rewrite map_id.
        now rewrite firstn_skipn.
      * intros x r Hx Hr. apply in_map_iff in Hx. destruct Hx as (r0 & <- & Hr0).
        rewrite <- (firstn_skipn limit sorted) in Hsorted.
        exact (@StronglySorted_app_cross _ _ _ _ Hsorted r0 r Hr0 Hr).
Qed.

Lemma events_written_and_read_witness :
  Events.insertEvent [exampleSession "s1" "/test/project" active] [] exampleEvent
  = Ok [eventRow exampleEvent] /\
  In exampleEvent (EventQueries.getSessionEvents [eventRow exampleEvent] "s1" None).
Proof.
  assert (Hnd : NoDup (map SessionRow.session_id
                         [exampleSession "s1" "/test/project" active]))
    by (repeat constructor; simpl; tauto).
  destruct (@events_written_and_read [exampleSession "s1" "/test/project" active] []
              exampleEvent Hnd) as (_ & _ & H & _).
  destruct H as (H1 & H2 & _); [simpl; tauto | simpl; now left |].
  split; [exact H1 | exact H2].
Defined.

(** The join is driven from the sessions: of two events with one
    timestamp, the event of the session stored first comes first,
    although it was inserted last. *)
Example getRecentEvents_join_order :
  EventQueries.getRecentEvents
    [exampleSession "s1" "/test/project" active;
     exampleSession "s3" "/test/project" active]
    [eventRow (SessionEvent.mk "e1" "s3" "2026-01-15T10:05:00.000Z" decision
                 cat_other (DecisionDetail "Use repository pattern" "Testability"));
     eventRow (SessionEvent.mk "e2" "s1" "2026-01-15T10:05:00.000Z" decision
                 cat_other (DecisionDetail "Use SQLite" "Simplicity"))]
    "/test/project" None 1
  = [SessionEvent.mk "e2" "s1" "2026-01-15T10:05:00.000Z" decision
       cat_other (DecisionDetail "Use SQLite" "Simplicity")].
Proof. vm_compute. reflexivity. Qed.

(** ** Usage counts by type *)

Lemma existsb_and_const (A : Type) (f : A -> bool) (c : bool) (l : list A) :
  existsb (fun x => f x && c) l = existsb f l && c.
Proof.
  induction l as [|x r IH]; simpl; [reflexivity|].
  rewrite IH. destruct (f x), c, (existsb f r); reflexivity.
Qed.

Lemma joinProject_usage (db : Usage.table) (knowledge : KnowledgeStore.table)
  (projectPath : string) (since : option string) :
  NoDup (map KnowledgeRow.knowledge_id knowledge) ->
  Usage.joinProject db knowledge projectPath since
  = filter (usageOfProject knowledge projectPath since) db.
Proof.
  intros Hnd. unfold Usage.joinProject.
  rewrite (@join_unique _ _ KnowledgeRow.knowledge_id
             (fun ku pk =>
                String.eqb (UsageRow.knowledge_id ku) (KnowledgeRow.knowledge_id pk)
                && String.eqb (KnowledgeRow.project_path pk) projectPath
                && match since with
                   | Some t => if Js.truthy since
                               then negb (String.ltb (UsageRow.timestamp ku) t)
                               else true
                   | None => true
                   end)
             UsageRow.knowledge_id knowledge db Hnd).
  - apply filter_ext. intros ku. unfold usageOfProject, notBefore.
    generalize (match since with
                | Some t => if Js.truthy since
                            then negb (String.ltb (UsageRow.timestamp ku) t)
                            else true
                | None => true
                end). intros c.
    apply existsb_and_const.
  - intros ku pk H. apply andb_true_iff in H. destruct H as [H _].
    apply andb_true_iff in H. destruct H as [H _].
    apply String.eqb_eq in H. now symmetry.
Qed.

Lemma countStep_fold (groups : list (UsageType * nat)) :
  forall init,
    NoDup (map fst groups) ->
    let result := fold_left Usage.countStep groups init in
    let pick t (old : nat) :=
      match find (fun g => usageTypeEqb (fst g) t) groups with
      | Some g => snd g
      | None => old
      end in
    Usage.n_surfaced result = pick surfaced (Usage.n_surfaced init) /\
    Usage.n_recalled result = pick recalled (Usage.n_recalled init) /\
    Usage.n_applied result = pick applied (Usage.n_applied init).
Proof.
  induction groups as [|[k n] r IH]; intros init Hnd; cbv zeta.
  - simpl. auto.
  - inversion Hnd as [|? ? Hk Hr]; subst.
    cbn [fold_left]. destruct (IH (Usage.countStep init (k, n)) Hr) as (I1 & I2 & I3).
    rewrite I1, I2, I3. clear I1 I2 I3 IH.
    assert (Hnone : find (fun g => usageTypeEqb (fst g) k) r = None).
    { destruct (find _ r) as [g|] eqn:Hf; [|reflexivity].
      apply find_some in Hf. destruct Hf as [Hin E]. apply usageTypeEqb_eq in E.
      exfalso. apply Hk. rewrite <- E. now apply in_map. }
    simpl in Hnone |- *.
    destruct k; simpl; rewrite ?Hnone; auto.
Qed.

(** X25. [getUsageCountByType] and [getSessionKnowledgeUsage].  Knowledge
    identifiers being unique, each of the three numbers is the number of
    rows of the usage log of that type that name an item of the project
    (and are not older than [since], when it is given and not empty); the
    three add up to the number of all such rows, and the rows that name
    no stored item are not counted.  [getSessionKnowledgeUsage] returns
    exactly the usage rows of the session, oldest first. *)
Theorem getUsageCountByType_counts (db : Usage.table)
  (knowledge : KnowledgeStore.table) (projectPath : string) (since : option string)
  (sessionId : string) :
  NoDup (map KnowledgeRow.knowledge_id knowledge) ->
  let counts := Usage.getUsageCountByType db knowledge projectPath since in
  Usage.n_surfaced counts = usagesCounted db knowledge projectPath since surfaced /\
  Usage.n_recalled counts = usagesCounted db knowledge projectPath since recalled /\
  Usage.n_applied counts = usagesCounted db knowledge projectPath since applied /\
  Usage.n_surfaced counts + Usage.n_recalled counts + Usage.n_applied counts
  = List.length (filter (usageOfProject knowledge projectPath since) db) /\
  (forall u, In u (Usage.getSessionKnowledgeUsage db sessionId) <->
             u.(KnowledgeUsage.sessionId) = sessionId /\
             exists r, In r db /\ Usage.rowToKnowledgeUsage r = u) /\
  oldestFirst KnowledgeUsage.timestamp (Usage.getSessionKnowledgeUsage db sessionId).
Proof.
  intros Hnd counts. subst counts. unfold Usage.getUsageCountByType.
  rewrite (@joinProject_usage db knowledge projectPath since Hnd).
  set (keys := map UsageRow.usage_type
                 (filter (usageOfProject knowledge projectPath since) db)).
  destruct (groupCount_keys usageTypeEqb usageTypeEqb_eq keys) as [Hg _].
  destruct (@countStep_fold _ (Usage.mkUsageCounts 0 0 0) Hg) as (H1 & H2 & H3).
  cbn [Usage.n_surfaced Usage.n_recalled Usage.n_applied] in H1, H2, H3.
  assert (Hcount : forall t,
             match find (fun g => usageTypeEqb (fst g) t)
                        (SqlMore.groupCount usageTypeEqb keys) with
             | Some g => snd g
             | None => 0
             end = usagesCounted db knowledge projectPath since t).
  { intros t.
    change (SqlMore.countOf usageTypeEqb t (SqlMore.groupCount usageTypeEqb keys)
            = usagesCounted db knowledge projectPath since t).
    rewrite (countOf_groupCount usageTypeEqb usageTypeEqb_eq). unfold keys, usagesCounted.
    rewrite (map_filter_comm UsageRow.usage_type (fun k' => usageTypeEqb k' t)).
    now rewrite length_map, filter_filter_and. }
  rewrite H1, H2, H3, !Hcount.
  split; [reflexivity|]. split; [reflexivity|]. split; [reflexivity|]. split.
  - unfold usagesCounted.
    clear H1 H2 H3 Hcount Hg. clear keys.
    generalize (usageOfProject knowledge projectPath since). intros q.
    induction db as [|r db IH]; simpl; [reflexivity|].
    destruct (q r); simpl; [|exact IH].
    destruct (UsageRow.usage_type r); simpl; lia.
  - unfold Usage.getSessionKnowledgeUsage. split.
    + intros u. rewrite in_map_iff. split.
      * intros (r & <- & Hr). apply sort_In_iff, filter_In in Hr.
        destruct Hr as [Hin E]. apply String.eqb_eq in E.
        split; [exact E|]. now exists r.
      * intros (E & r & Hin & <-). exists r. split; [reflexivity|].
        apply sort_In_iff, filter_In. split; [exact Hin|]. now apply String.eqb_eq.
    + apply StronglySorted_map. apply (orderByAsc_sorted UsageRow.timestamp).
Qed.

Lemma getUsageCountByType_counts_witness :
  Usage.n_surfaced
    (Usage.getUsageCountByType
       [UsageRow.mk "u1" "k1" "s1" surfaced "2026-01-15T10:00:00.000Z";
        UsageRow.mk "u2" "k9" "s1" surfaced "2026-01-15T10:00:00.000Z"]
       [exampleRow "k1" "Use JWT tokens" "Stateless sessions" None]
       "/test/project" None) = 1.
Proof.
  assert (Hnd : NoDup (map KnowledgeRow.knowledge_id
                         [exampleRow "k1" "Use JWT tokens" "Stateless sessions" None]))
    by (repeat constructor; simpl; tauto).
  rewrite (proj1 (@getUsageCountByType_counts
                    [UsageRow.mk "u1" "k1" "s1" surfaced "2026-01-15T10:00:00.000Z";
                     UsageRow.mk "u2" "k9" "s1" surfaced "2026-01-15T10:00:00.000Z"]
                    [exampleRow "k1" "Use JWT tokens" "Stateless sessions" None]
                    "/test/project" None "s1" Hnd)).
  reflexivity.
Defined.

(** ** The value metrics after a history of calls *)

Lemma getValueMetrics_find (db : ValueMetrics.table) (p : string) :
  ValueMetrics.getValueMetrics db p
  = find (fun r => String.eqb r.(ValueMetricsRow.project_path) p) db.
Proof. unfold ValueMetrics.getValueMetrics. apply get_filter_find. Qed.

Lemma ensureValueMetrics_find (db : ValueMetrics.table) (now p0 p : string) :
  find (fun r => String.eqb r.(ValueMetricsRow.project_path) p)
       (fst (ValueMetrics.ensureValueMetrics db now p0))
  = match find (fun r => String.eqb r.(ValueMetricsRow.project_path) p) db with
    | Some r => Some r
    | None => if String.eqb p0 p
              then Some (ValueMetricsRow.mk p0 0 0 0 0 0 0 0 now)
              else None
    end.
Proof.
  unfold ValueMetrics.ensureValueMetrics. rewrite getValueMetrics_find.
  destruct (find (fun r => String.eqb (ValueMetricsRow.project_path r) p0) db)
    as [r0|] eqn:H0; cbn [fst].
  - destruct (find (fun r => String.eqb (ValueMetricsRow.project_path r) p) db)
      as [r|] eqn:Hp; [reflexivity|].
    destruct (String.eqb_spec p0 p) as [<-|Hne]; [congruence | reflexivity].
  - destruct (find (fun r => String.eqb (ValueMetricsRow.project_path r) p) db)
      as [r|] eqn:Hp.
    + now rewrite (find_app_some _ _ _ Hp).
    + rewrite (find_app_none _ _ _ Hp). simpl. now destruct (String.eqb p0 p).
Qed.

(** Reading after [ensureValueMetrics] and an [UPDATE] of the row. *)
Lemma increment_read (db : ValueMetrics.table) (nowInsert p0 p : string)
  (set : ValueMetricsRow.t -> ValueMetricsRow.t) :
  (forall r, ValueMetricsRow.project_path (set r) = ValueMetricsRow.project_path r) ->
  ValueMetrics.getValueMetrics
    (fst (Sql.update (ValueMetrics.whereProject p0) set
            (fst (ValueMetrics.ensureValueMetrics db nowInsert p0)))) p
  = if String.eqb p0 p
    then Some (set (match ValueMetrics.getValueMetrics db p0 with
                    | Some r => r
                    | None => ValueMetricsRow.mk p0 0 0 0 0 0 0 0 nowInsert
                    end))
    else ValueMetrics.getValueMetrics db p.
Proof.
  intros Hkey. rewrite !getValueMetrics_find.
  rewrite find_update by (intros r; cbv beta; now rewrite Hkey).
  rewrite ensureValueMetrics_find. unfold ValueMetrics.whereProject.
  destruct (String.eqb_spec p0 p) as [<-|Hp].
  - destruct (find _ db) as [r|] eqn:Hf; cbn [option_map].
    + apply find_some in Hf. now rewrite (proj2 Hf).
    + cbn [ValueMetricsRow.project_path]. now rewrite String.eqb_refl.
  - destruct (find _ db) as [r|] eqn:Hf; cbn [option_map]; [|reflexivity].
    apply find_some in Hf. destruct Hf as [_ Hf]. apply String.eqb_eq in Hf.
    rewrite Hf. destruct (String.eqb_spec p p0); [congruence | reflexivity].
Qed.

Lemma tally_snoc (pick : MetricCall -> nat) (p : string) (calls : list MetricCall)
  (c : MetricCall) :
  tally pick p (calls ++ [c])
  = tally pick p calls + (if String.eqb (metricProject c) p then pick c else 0).
Proof.
  unfold tally. rewrite map_app, list_sum_app. simpl. lia.
Qed.

Lemma tally_none (pick : MetricCall -> nat) (p : string) (calls : list MetricCall) :
  ~ In p (map metricProject calls) -> tally pick p calls = 0.
Proof.
  unfold tally. induction calls as [|c r IH]; simpl; [reflexivity|].
  intros H. rewrite IH by tauto.
  destruct (String.eqb_spec (metricProject c) p); [exfalso; apply H; now left | reflexivity].
Qed.

Lemma rowTallies_new (p now : string) (calls : list MetricCall) :
  ~ In p (map metricProject calls) ->
  rowTallies p calls (ValueMetricsRow.mk p 0 0 0 0 0 0 0 now).
Proof.
  intros H. unfold rowTallies. rewrite !(@tally_none _ _ _ H). simpl. tauto.
Qed.

(** What the table holds for a project after a history. *)
Lemma runMetricCalls_read (calls : list MetricCall) (p : string) :
  match ValueMetrics.getValueMetrics (runMetricCalls calls) p with
  | Some r => rowTallies p calls r /\ In p (map metricProject calls)
  | None => ~ In p (map metricProject calls)
  end.
Proof.
  induction calls as [|c calls IH] using rev_ind; [simpl; tauto|].
  unfold runMetricCalls in *. rewrite fold_left_app. cbn [fold_left].
  set (db := fold_left runMetricCall calls []) in *.
  assert (Hin : In p (map metricProject (calls ++ [c]))
                <-> In p (map metricProject calls) \/ metricProject c = p).
  { rewrite map_app, in_app_iff. simpl. tauto. }
  assert (Hstep : forall nowInsert p0 set,
             (forall r, ValueMetricsRow.project_path (set r) = ValueMetricsRow.project_path r) ->
             metricProject c = p0 ->
             (forall r, rowTallies p0 calls r -> rowTallies p0 (calls ++ [c]) (set r)) ->
             match ValueMetrics.getValueMetrics
                     (fst (Sql.update (ValueMetrics.whereProject p0) set
                             (fst (ValueMetrics.ensureValueMetrics db nowInsert p0)))) p with
             | Some r => rowTallies p (calls ++ [c]) r /\
                         In p (map metricProject (calls ++ [c]))
             | None => ~ In p (map metricProject (calls ++ [c]))
             end).
  { intros nowInsert p0 set Hkey Hp0 Hset. rewrite (@increment_read db nowInsert p0 p set Hkey).
    destruct (String.eqb_spec p0 p) as [<-|Hp].
    - split; [|apply Hin; now right]. apply Hset.
      destruct (ValueMetrics.getValueMetrics db p0) as [r|]; [apply IH|].
      now apply rowTallies_new.
    - destruct (ValueMetrics.getValueMetrics db p) as [r|].
      + destruct IH as [IH1 IH2]. split; [|apply Hin; now left].
        unfold rowTallies in *. rewrite !tally_snoc, Hp0.
        destruct (String.eqb_spec p0 p); [contradiction|].
        rewrite !Nat.add_0_r. exact IH1.
      + intros H. apply Hin in H. destruct H as [H|H]; [contradiction | congruence]. }
  assert (Hcalc : forall (r r' : ValueMetricsRow.t) p0 (d1 d2 d3 d4 d5 d6 : nat),
             metricProject c = p0 ->
             sessionsOfCall c = d1 -> reusesOfCall c = d2 -> surfacedOfCall c = d3 ->
             decisionsOfCall c = d4 -> patternsOfCall c = d5 -> errorsOfCall c = d6 ->
             ValueMetricsRow.project_path r' = ValueMetricsRow.project_path r ->
             ValueMetricsRow.total_sessions r' = ValueMetricsRow.total_sessions r + d1 ->
             ValueMetricsRow.context_reuse_count r'
             = ValueMetricsRow.context_reuse_count r + d2 ->
             ValueMetricsRow.knowledge_surfaced_count r'
             = ValueMetricsRow.knowledge_surfaced_count r + d3 ->
             ValueMetricsRow.decisions_recalled_count r'
             = ValueMetricsRow.decisions_recalled_count r + d4 ->
             ValueMetricsRow.patterns_applied_count r'
             = ValueMetricsRow.patterns_applied_count r + d5 ->
             ValueMetricsRow.errors_prevented_count r'
             = ValueMetricsRow.errors_prevented_count r + d6 ->
             ValueMetricsRow.estimated_time_saved_secs r'
             = ValueMetricsRow.estimated_time_saved_secs r
               + (60 * d3 + 180 * d4 + 300 * d5 + 900 * d6) ->
             rowTallies p0 calls r -> rowTallies p0 (calls ++ [c]) r').
  { intros r r' p0 d1 d2 d3 d4 d5 d6 Hp0 E1 E2 E3 E4 E5 E6 K S1 S2 S3 S4 S5 S6 S7
           (T0 & T1 & T2 & T3 & T4 & T5 & T6 & T7).
    unfold rowTallies. rewrite !tally_snoc, Hp0, String.eqb_refl.
    rewrite K, S1, S2, S3, S4, S5, S6, S7, E1, E2, E3, E4, E5, E6.
    repeat split; first [exact T0 | lia]. }
  destruct c as [ni nu p0|ni nu p0|ni nu p0 n|ni nu p0 n|ni nu p0 n|ni nu p0 n];
    cbn [runMetricCall];
    [ unfold ValueMetrics.incrementSessionCount, ValueMetrics.addSession
    | unfold ValueMetrics.incrementContextReuse, ValueMetrics.addContextReuse
    | unfold ValueMetrics.incrementKnowledgeSurfaced, ValueMetrics.addSurfaced
    | unfold ValueMetrics.incrementDecisionRecall, ValueMetrics.addDecisions
    | unfold ValueMetrics.incrementPatternApplied, ValueMetrics.addPatterns
    | unfold ValueMetrics.incrementErrorPrevented, ValueMetrics.addErrors ];
    cbv zeta;
    (apply Hstep; [reflexivity | reflexivity |]);
    intros r;
    [ apply (Hcalc r _ p0 1 0 0 0 0 0)
    | apply (Hcalc r _ p0 0 1 0 0 0 0)
    | apply (Hcalc r _ p0 0 0 n 0 0 0)
    | apply (Hcalc r _ p0 0 0 0 n 0 0)
    | apply (Hcalc r _ p0 0 0 0 0 n 0)
    | apply (Hcalc r _ p0 0 0 0 0 0 n) ];
    try reflexivity;
    cbn [ValueMetricsRow.total_sessions ValueMetricsRow.context_reuse_count
         ValueMetricsRow.knowledge_surfaced_count ValueMetricsRow.decisions_recalled_count
         ValueMetricsRow.patterns_applied_count ValueMetricsRow.errors_prevented_count
         ValueMetricsRow.estimated_time_saved_secs];
    unfold ValueMetrics.knowledgeSurface, ValueMetrics.decisionRecall,
      ValueMetrics.patternApplied, ValueMetrics.errorPrevented; lia.
Qed.

(** X26. The value metrics after any history of calls to the six counting
    functions, every call with its own project and count.  A project
    never named has no row and an all-zero summary.  For a project named,
    each counter is the sum of the counts of the calls of its kind for
    that project (calls for other projects do not count), the estimate
    in seconds is 60, 180, 300 and 900 times the four usage counters,
    [computeValueSummary] reports the counters and
    [timeSavedMinutes = surfaced + 3 * decisions + 5 * patterns + 15 * errors],
    and [estimatedValueUSD] is the double that the expression of the
    source yields on the seconds tallied. *)
Theorem value_metrics_tally (calls : list MetricCall) (projectPath : string)
  (hourlyRate : float) :
  let db := runMetricCalls calls in
  let v := ValueMetrics.computeValueSummary db projectPath hourlyRate in
  let surfaced := tally surfacedOfCall projectPath calls in
  let decisions := tally decisionsOfCall projectPath calls in
  let patterns := tally patternsOfCall projectPath calls in
  let errors := tally errorsOfCall projectPath calls in
  (ValueMetrics.getValueMetrics db projectPath = None <->
   ~ In projectPath (map metricProject calls)) /\
  (forall r, ValueMetrics.getValueMetrics db projectPath = Some r ->
             rowTallies projectPath calls r) /\
  ValueMetrics.knowledgeSurfaced v = surfaced /\
  ValueMetrics.decisionsRecalled v = decisions /\
  ValueMetrics.patternsApplied v = patterns /\
  ValueMetrics.errorsPrevented v = errors /\
  ValueMetrics.timeSavedMinutes v = surfaced + 3 * decisions + 5 * patterns + 15 * errors /\
  (In projectPath (map metricProject calls) ->
   ValueMetrics.estimatedValueUSD v
   = (Double.round
        (Double.ofNat (60 * surfaced + 180 * decisions + 300 * patterns + 900 * errors)
         / 3600 * hourlyRate * 100) / 100)%float) /\
  (~ In projectPath (map metricProject calls) ->
   ValueMetrics.estimatedValueUSD v = 0%float).
Proof.
  cbv zeta. pose proof (runMetricCalls_read calls projectPath) as H.
  unfold ValueMetrics.computeValueSummary.
  destruct (ValueMetrics.getValueMetrics (runMetricCalls calls) projectPath) as [r|].
  - destruct H as [(T0 & T1 & T2 & T3 & T4 & T5 & T6 & T7) Hin].
    cbn [ValueMetrics.knowledgeSurfaced ValueMetrics.decisionsRecalled
         ValueMetrics.patternsApplied ValueMetrics.errorsPrevented
         ValueMetrics.timeSavedMinutes ValueMetrics.estimatedValueUSD].
    split; [split; [discriminate | intros Hn; contradiction]|].
    split; [intros r' [= <-]; unfold rowTallies; tauto|].
    split; [exact T3|]. split; [exact T4|]. split; [exact T5|]. split; [exact T6|].
    split; [|split].
    + rewrite T7.
      replace (60 * tally surfacedOfCall projectPath calls
               + 180 * tally decisionsOfCall projectPath calls
               + 300 * tally patternsOfCall projectPath calls
               + 900 * tally errorsOfCall projectPath calls)
        with ((tally surfacedOfCall projectPath calls
               + 3 * tally decisionsOfCall projectPath calls
               + 5 * tally patternsOfCall projectPath calls
               + 15 * tally errorsOfCall projectPath calls) * 60) by lia.
      now apply Nat.div_mul.
    + intros _. rewrite T7. reflexivity.
    + intros Hn. contradiction.
  - rewrite !(@tally_none _ _ _ H).
    cbn [ValueMetrics.knowledgeSurfaced ValueMetrics.decisionsRecalled
         ValueMetrics.patternsApplied ValueMetrics.errorsPrevented
         ValueMetrics.timeSavedMinutes ValueMetrics.estimatedValueUSD].
    split; [tauto|]. split; [discriminate|].
    do 5 (split; [reflexivity|]).
    split; [intros Hin; contradiction | reflexivity].
Qed.

(** Nine items surfaced are 540 seconds; at 1.5 dollars an hour that is
    22.5 cents over the rationals, but the product of the doubles is
    22.499999999999996, which [Math.round] takes down: the program
    reports 0.22. *)
Example estimatedValueUSD_last_bit :
  ValueMetrics.estimatedValueUSD
    (ValueMetrics.computeValueSummary
       (runMetricCalls [KnowledgeSurfaced "2026-01-15T10:00:00.000Z"
                          "2026-01-15T10:00:00.000Z" "/test/project" 9])
       "/test/project" 1.5%float)
  = 0.22%float /\
  (Double.ofNat 540 / 3600 * 1.5 * 100)%float = 22.499999999999996%float.
Proof. split; vm_compute; reflexivity. Qed.

(** ** File importance: the score *)

Section ScoreDecay.

Local Open Scope R_scope.

Lemma ln_half_neg : ln (1 / 2) < 0.
Proof.
  rewrite <- ln_1. apply ln_increasing; lra.
Qed.

Lemma Rpower_half_pos (x : R) : 0 < Rpower (1 / 2) x.
Proof. unfold Rpower. apply exp_pos. Qed.

Lemma Rpower_half_le (x y : R) : x <= y -> Rpower (1 / 2) y <= Rpower (1 / 2) x.
Proof.
  intros H. unfold Rpower. pose proof ln_half_neg as Hl.
  destruct (Rle_lt_or_eq_dec _ _ H) as [Hlt | ->]; [|lra].
  left. apply exp_increasing. nra.
Qed.

Lemma Rpower_half_step (x : R) : Rpower (1 / 2) (x + 1) = Rpower (1 / 2) x / 2.
Proof.
  rewrite Rpower_plus, Rpower_1 by lra. lra.
Qed.

Lemma days_IZR (a b : Z) :
  (a <= b)%Z -> IZR a / IZR (1000 * 60 * 60 * 24) / 7 <= IZR b / IZR (1000 * 60 * 60 * 24) / 7.
Proof.
  intros H. apply IZR_le in H.
  change (1000 * 60 * 60 * 24)%Z with 86400000%Z.
  assert (0 < IZR 86400000) by (apply IZR_lt; lia).
  apply Rmult_le_compat_r; [lra|].
  apply Rmult_le_compat_r; [|exact H].
  left. now apply Rinv_0_lt_compat.
Qed.

End ScoreDecay.

(** X27. The importance score of a file, in exact arithmetic, when the
    date of the last access parses.  The score is the base score
    [readCount + 3 * editCount] at the instant of the access, never
    negative, never above the base score afterwards, and never grows as
    time passes; seven days later it is exactly half; and one edit
    weighs as much as three reads. *)
Theorem importance_score_half_life (parseDate : string -> option Z) (now : Z)
  (readCount editCount : nat) (lastAccessedAt : string) (lastAccess : Z) :
  parseDate lastAccessedAt = Some lastAccess ->
  exists score,
    FileImportance.computeImportanceScore parseDate now readCount editCount lastAccessedAt
    = Some score /\
    (0 <= score)%R /\
    (now = lastAccess -> score = INR (readCount + 3 * editCount)) /\
    ((lastAccess <= now)%Z -> (score <= INR (readCount + 3 * editCount))%R) /\
    FileImportance.computeImportanceScore parseDate (now + 7 * 86400000)
      readCount editCount lastAccessedAt = Some (score / 2)%R /\
    (forall later, (now <= later)%Z ->
       exists score',
         FileImportance.computeImportanceScore parseDate later readCount editCount
           lastAccessedAt = Some score' /\ (score' <= score)%R) /\
    FileImportance.computeImportanceScore parseDate now readCount (editCount + 1)
      lastAccessedAt
    = FileImportance.computeImportanceScore parseDate now (readCount + 3) editCount
        lastAccessedAt.
Proof.
  intros Hp. unfold FileImportance.computeImportanceScore. rewrite Hp. cbv zeta.
  eexists. split; [reflexivity|].
  assert (Hbase : (0 <= INR (readCount + editCount * 3))%R) by apply pos_INR.
  assert (Hsame : INR (readCount + editCount * 3) = INR (readCount + 3 * editCount))
    by (f_equal; lia).
  split; [|split; [|split; [|split; [|split]]]].
  - apply Rmult_le_pos; [exact Hbase|]. left. apply Rpower_half_pos.
  - intros ->. rewrite Z.sub_diag.
    replace (IZR 0 / IZR (1000 * 60 * 60 * 24) / 7)%R with 0%R by (unfold Rdiv; ring).
    rewrite Rpower_O by lra. rewrite Hsame. ring.
  - intros Hle. rewrite <- Hsame.
    pose proof (@Rpower_half_le 0 (IZR (now - lastAccess) / IZR (1000 * 60 * 60 * 24) / 7))
      as Hx.
    rewrite Rpower_O in Hx by lra.
    assert (H0 : (0 <= IZR (now - lastAccess) / IZR (1000 * 60 * 60 * 24) / 7)%R).
    { replace 0%R with (IZR 0 / IZR (1000 * 60 * 60 * 24) / 7)%R by (unfold Rdiv; ring).
      apply days_IZR. lia. }
    specialize (Hx H0). nra.
  - f_equal.
    replace (IZR (now + 7 * 86400000 - lastAccess) / IZR (1000 * 60 * 60 * 24) / 7)%R
      with (IZR (now - lastAccess) / IZR (1000 * 60 * 60 * 24) / 7 + 1)%R.
    + rewrite Rpower_half_step. lra.
    + replace (now + 7 * 86400000 - lastAccess)%Z with ((now - lastAccess) + 7 * 86400000)%Z
        by lia.
      rewrite plus_IZR. change (1000 * 60 * 60 * 24)%Z with 86400000%Z.
      rewrite mult_IZR. field.
  - intros later Hl. eexists. split; [reflexivity|].
    apply Rmult_le_compat_l; [exact Hbase|].
    apply Rpower_half_le, days_IZR. lia.
  - do 2 f_equal. f_equal. lia.
Qed.

Lemma importance_score_half_life_witness :
  FileImportance.computeImportanceScore dayClock 604800000 1 1 "day 0" = Some (4 / 2)%R.
Proof.
  destruct (@importance_score_half_life dayClock 0 1 1 "day 0" 0 eq_refl)
    as (score & H1 & _ & H3 & _ & H5 & _).
  change (0 + 7 * 86400000)%Z with 604800000%Z in H5.
  rewrite H5, (H3 eq_refl). simpl. do 2 f_equal. lra.
Defined.

(** ** File importance: the accesses *)

Lemma whereFile_key (p f : string) (r : FileImportanceRow.t) :
  FileImportance.whereFile p f r = true <-> fileKey r = (p, f).
Proof.
  unfold FileImportance.whereFile, fileKey.
  rewrite andb_true_iff, !String.eqb_eq. split; [intros [-> ->]; reflexivity|].
  intros [= -> ->]. auto.
Qed.

Lemma accessesTo_snoc (p f : string) (accesses : list FileAccess) (a : FileAccess) :
  accessesTo p f (accesses ++ [a])
  = accessesTo p f accesses
    ++ (if String.eqb a.(fa_project) p && String.eqb a.(fa_file) f then [a] else []).
Proof. unfold accessesTo. now rewrite filter_app. Qed.

Lemma countAccess_snoc (op : FileImportance.Access) (mine : list FileAccess)
  (a : FileAccess) :
  countAccess op (mine ++ [a])
  = countAccess op mine + (if accessEqb a.(fa_operation) op then 1 else 0).
Proof.
  unfold countAccess. rewrite filter_app, length_app. simpl.
  now destruct (accessEqb (fa_operation a) op).
Qed.

Lemma upsertFileAccess_tells (parseDate : string -> option Z)
  (db : FileImportance.table) (accesses : list FileAccess) (a : FileAccess) :
  parseDate a.(fa_nowISO) <> None ->
  filesTell parseDate db accesses ->
  filesTell parseDate (runFileAccess parseDate db a) (accesses ++ [a]).
Proof.
  intros Hparse (Hnd & Hrows & Hcov).
  unfold runFileAccess, FileImportance.upsertFileAccess.
  rewrite get_filter_find.
  set (p := fa_project a). set (f := fa_file a).
  set (existing := find (FileImportance.whereFile p f) db).
  set (readCount := match existing with
                    | Some e => FileImportanceRow.read_count e
                    | None => 0
                    end
                    + match fa_operation a with
                      | FileImportance.access_read => 1
                      | FileImportance.access_edit => 0
                      end).
  set (editCount := match existing with
                    | Some e => FileImportanceRow.edit_count e
                    | None => 0
                    end
                    + match fa_operation a with
                      | FileImportance.access_edit => 1
                      | FileImportance.access_read => 0
                      end).
  destruct (FileImportance.computeImportanceScore parseDate (fa_now a) readCount
              editCount (fa_nowISO a)) as [score|] eqn:Hscore.
  2:{ unfold FileImportance.computeImportanceScore in Hscore.
      destruct (parseDate (fa_nowISO a)); [discriminate | contradiction]. }
  cbn [fst].
  assert (Hother : forall q g, (q, g) <> (p, f) ->
             accessesTo q g (accesses ++ [a]) = accessesTo q g accesses).
  { intros q g Hne. rewrite accessesTo_snoc. fold p f.
    destruct (String.eqb_spec p q) as [<-|]; [|simpl; apply app_nil_r].
    destruct (String.eqb_spec f g) as [<-|]; [congruence | simpl; apply app_nil_r]. }
  assert (Hmine : accessesTo p f (accesses ++ [a]) = accessesTo p f accesses ++ [a]).
  { rewrite accessesTo_snoc. fold p f. now rewrite !String.eqb_refl. }
  assert (Hexisting : match existing with
                      | Some e => rowTells parseDate (accessesTo p f accesses) e
                      | None => accessesTo p f accesses = []
                      end).
  { unfold existing. destruct (find _ db) as [e|] eqn:Hf.
    - apply find_some in Hf. destruct Hf as [Hin Hk]. apply whereFile_key in Hk.
      injection Hk as K1 K2. specialize (Hrows e Hin). now rewrite K1, K2 in Hrows.
    - destruct (accessesTo p f accesses) as [|x l] eqn:E; [reflexivity|].
      exfalso. assert (Hin : In (p, f) (map fileKey db)) by (apply Hcov; rewrite E; discriminate).
      apply in_map_iff in Hin. destruct Hin as (r & Hk & Hin).
      apply (find_none _ _ Hf) in Hin. apply whereFile_key in Hk. congruence. }
  assert (Hnew : forall r,
             FileImportanceRow.read_count r = readCount ->
             FileImportanceRow.edit_count r = editCount ->
             FileImportanceRow.last_accessed_at r = fa_nowISO a ->
             FileImportanceRow.importance_score r = score ->
             rowTells parseDate (accessesTo p f accesses ++ [a]) r).
  { intros r R1 R2 R3 R4. unfold rowTells.
    rewrite !countAccess_snoc, R1, R2, R3, R4, rev_app_distr.
    assert (C : countAccess FileImportance.access_read (accessesTo p f accesses)
                + (if accessEqb (fa_operation a) FileImportance.access_read then 1 else 0)
                = readCount /\
                countAccess FileImportance.access_edit (accessesTo p f accesses)
                + (if accessEqb (fa_operation a) FileImportance.access_edit then 1 else 0)
                = editCount).
    { unfold readCount, editCount. destruct existing as [e|].
      - destruct Hexisting as (E1 & E2 & _). rewrite E1, E2.
        destruct (fa_operation a); simpl; auto.
      - rewrite Hexisting. destruct (fa_operation a); simpl; auto. }
    destruct C as [C1 C2]. rewrite C1, C2.
    split; [reflexivity|]. split; [reflexivity|].
    exists a. simpl. auto. }
  destruct (existsb (FileImportance.whereFile p f) db) eqn:Hex.
  - split; [|split].
    + rewrite (map_update_key fileKey) by reflexivity. exact Hnd.
    + intros r' Hr'. apply in_update in Hr'. destruct Hr' as (r & Hr & ->).
      destruct (FileImportance.whereFile p f r) eqn:Hk.
      * apply whereFile_key in Hk. injection Hk as K1 K2.
        cbn [FileImportanceRow.project_path FileImportanceRow.file_path].
        rewrite K1, K2, Hmine. now apply Hnew.
      * rewrite Hother; [now apply Hrows|].
        intros E. assert (Hk' : FileImportance.whereFile p f r = true)
          by (apply whereFile_key; exact E).
        congruence.
    + intros q g Hq. rewrite (map_update_key fileKey) by reflexivity.
      destruct (String.eqb_spec p q) as [<-|Hp];
        [destruct (String.eqb_spec f g) as [<-|Hf]|].
      * apply existsb_exists in Hex. destruct Hex as (r & Hr & Hk).
        apply whereFile_key in Hk. rewrite <- Hk. now apply in_map.
      * apply Hcov. rewrite Hother in Hq by congruence. exact Hq.
      * apply Hcov. rewrite Hother in Hq by congruence. exact Hq.
  - assert (Hfresh : ~ In (p, f) (map fileKey db)).
    { intros Hin. apply in_map_iff in Hin. destruct Hin as (r & Hk & Hin).
      assert (X : existsb (FileImportance.whereFile p f) db = true).
      { apply existsb_exists. exists r. split; [exact Hin|]. now apply whereFile_key. }
      congruence. }
    split; [|split].
    + rewrite map_app. now apply NoDup_snoc.
    + intros r Hr. apply in_app_or in Hr. destruct Hr as [Hr|[<-|[]]].
      * rewrite Hother; [now apply Hrows|].
        intros E. apply Hfresh. rewrite <- E. now apply (in_map fileKey).
      * cbn [FileImportanceRow.project_path FileImportanceRow.file_path].
        rewrite Hmine. now apply Hnew.
    + intros q g Hq. rewrite map_app. apply in_or_app.
      destruct (String.eqb_spec p q) as [<-|Hp];
        [destruct (String.eqb_spec f g) as [<-|Hf]|].
      * right. now left.
      * left. apply Hcov. rewrite Hother in Hq by congruence. exact Hq.
      * left. apply Hcov. rewrite Hother in Hq by congruence. exact Hq.
Qed.

Lemma filesAfter_tells (parseDate : string -> option Z) (accesses : list FileAccess) :
  (forall a, In a accesses -> parseDate a.(fa_nowISO) <> None) ->
  filesTell parseDate (filesAfter parseDate accesses) accesses.
Proof.
  induction accesses as [|a accesses IH] using rev_ind; intros Hp.
  - split; [constructor|]. split; [intros r []|]. intros p f H. now contradict H.
  - unfold filesAfter. rewrite fold_left_app. cbn [fold_left].
    apply upsertFileAccess_tells.
    + apply Hp. apply in_or_app. right. now left.
    + apply IH. intros x Hx. apply Hp. apply in_or_app. now left.
Qed.

(** X28. The table of file accesses after any history of
    [upsertFileAccess] calls whose dates parse.  The table holds one row
    per file accessed and none for a file never accessed; the row of a
    file holds the number of its reads, the number of its edits, the
    date of its last access and the score computed at that access from
    these two numbers.  A call whose date does not parse throws and
    leaves the table as it was. *)
Theorem file_access_history (parseDate : string -> option Z)
  (accesses : list FileAccess) (projectPath filePath : string) :
  (forall a, In a accesses -> parseDate a.(fa_nowISO) <> None) ->
  let db := filesAfter parseDate accesses in
  let mine := accessesTo projectPath filePath accesses in
  NoDup (map fileKey db) /\
  (mine = [] <-> ~ In (projectPath, filePath) (map fileKey db)) /\
  (forall r, In r db -> fileKey r = (projectPath, filePath) -> rowTells parseDate mine r) /\
  (forall db0 a, parseDate a.(fa_nowISO) = None ->
     exists e,
       FileImportance.upsertFileAccess parseDate db0 a.(fa_nowISO) a.(fa_now)
         a.(fa_project) a.(fa_file) a.(fa_operation) = Throw e /\
       runFileAccess parseDate db0 a = db0).
Proof.
  intros Hp db mine. destruct (filesAfter_tells parseDate accesses Hp) as (Hnd & Hrows & Hcov).
  fold db in Hnd, Hrows, Hcov.
  split; [exact Hnd|]. split; [|split].
  - split.
    + intros Hm Hin. apply in_map_iff in Hin. destruct Hin as (r & Hk & Hin).
      destruct (Hrows r Hin) as (_ & _ & a & Ha & _).
      injection Hk as K1 K2. rewrite K1, K2 in Ha. fold mine in Ha.
      rewrite Hm in Ha. discriminate.
    + intros Hout. destruct mine as [|x l] eqn:E; [reflexivity|].
      exfalso. apply Hout, Hcov. fold mine. rewrite E. discriminate.
  - intros r Hin Hk. injection Hk as K1 K2. specialize (Hrows r Hin).
    now rewrite K1, K2 in Hrows.
  - intros db0 a Ha. unfold runFileAccess, FileImportance.upsertFileAccess,
      FileImportance.computeImportanceScore. rewrite Ha. eexists. split; reflexivity.
Qed.

Lemma file_access_history_witness :
  NoDup (map fileKey
           (filesAfter dayClock
              [mkFileAccess "day 0" 0 "/test/project" "src/a.ts" FileImportance.access_read;
               mkFileAccess "day 7" 604800000 "/test/project" "src/a.ts"
                 FileImportance.access_edit])).
Proof.
  refine (proj1 (@file_access_history dayClock
                   [mkFileAccess "day 0" 0 "/test/project" "src/a.ts"
                      FileImportance.access_read;
                    mkFileAccess "day 7" 604800000 "/test/project" "src/a.ts"
                      FileImportance.access_edit]
                   "/test/project" "src/a.ts" _)).
  intros a [<-|[<-|[]]]; discriminate.
Defined.

(** ** File importance: listing and refreshing *)

Lemma update_one (A : Type) (cond : A -> bool) (set : A -> A) (l1 l2 : list A) (x : A) :
  (forall y, In y l1 -> cond y = false) ->
  (forall y, In y l2 -> cond y = false) ->
  cond x = true ->
  fst (Sql.update cond set (l1 ++ x :: l2)) = l1 ++ set x :: l2.
Proof.
  intros H1 H2 Hx. unfold Sql.update, fst. rewrite map_app. simpl. rewrite Hx.
  f_equal; [|f_equal].
  - rewrite <- (map_id l1) at 2. apply map_ext_in. intros y Hy. now rewrite (H1 y Hy).
  - rewrite <- (map_id l2) at 2. apply map_ext_in. intros y Hy. now rewrite (H2 y Hy).
Qed.

Lemma refreshLoop_refreshedFrom (parseDate : string -> option Z) (projectPath : string)
  (clock : nat -> Z) (rest : FileImportance.table) :
  forall (pre : FileImportance.table) (i n : nat),
    NoDup (map fileKey (pre ++ rest)) ->
    FileImportance.refreshLoop parseDate projectPath clock i
      (filter (fun r => String.eqb r.(FileImportanceRow.project_path) projectPath) rest)
      (pre ++ rest, n)
    = (pre ++ fst (refreshedFrom parseDate projectPath clock i rest),
       n + snd (refreshedFrom parseDate projectPath clock i rest)).
Proof.
  induction rest as [|r rest IH]; intros pre i n Hnd.
  - simpl. now rewrite Nat.add_0_r.
  - cbn [filter refreshedFrom].
    assert (Hsplit : forall x : FileImportanceRow.t, pre ++ x :: rest = (pre ++ [x]) ++ rest)
      by (intros x; now rewrite <- app_assoc).
    destruct (String.eqb_spec (FileImportanceRow.project_path r) projectPath) as [Hp|Hp].
    + cbn [FileImportance.refreshLoop]. unfold FileImportance.refreshRow.
      assert (Hkeys : forall y, In y pre \/ In y rest ->
                 FileImportance.whereFile projectPath (FileImportanceRow.file_path r) y
                 = false).
      { intros y Hy.
        destruct (FileImportance.whereFile projectPath (FileImportanceRow.file_path r) y)
          eqn:E; [|reflexivity].
        apply whereFile_key in E. exfalso.
        rewrite map_app in Hnd. cbn [map] in Hnd. apply NoDup_remove_2 in Hnd.
        apply Hnd. apply in_or_app.
        assert (Hk : fileKey r = (projectPath, FileImportanceRow.file_path r))
          by (unfold fileKey; now rewrite Hp).
        rewrite Hk, <- E.
        destruct Hy as [Hy|Hy]; [left | right]; now apply in_map. }
      assert (Hself : FileImportance.whereFile projectPath (FileImportanceRow.file_path r) r
                      = true).
      { apply whereFile_key. unfold fileKey. now rewrite Hp. }
      destruct (FileImportance.computeImportanceScore parseDate (clock i) _ _ _)
        as [s|] eqn:Hs.
      * destruct (FileImportance.drifted (Some s) r) eqn:Hd; cbn [fst snd].
        -- rewrite update_one by auto.
           rewrite (Hsplit (FileImportance.setScore s r)), IH.
           ++ rewrite <- app_assoc. simpl. f_equal. lia.
           ++ rewrite <- app_assoc. simpl.
              rewrite map_app in *. exact Hnd.
        -- rewrite (Hsplit r), IH.
           ++ rewrite <- app_assoc. reflexivity.
           ++ now rewrite <- app_assoc.
      * cbn [fst snd]. rewrite (Hsplit r), IH.
        -- rewrite <- app_assoc. reflexivity.
        -- now rewrite <- app_assoc.
    + cbn [fst snd]. rewrite (Hsplit r), IH.
      * rewrite <- app_assoc. reflexivity.
      * now rewrite <- app_assoc.
Qed.

Lemma refreshImportanceScores_refreshedFrom (parseDate : string -> option Z)
  (db : FileImportance.table) (clock : nat -> Z) (projectPath : string) :
  NoDup (map fileKey db) ->
  FileImportance.refreshImportanceScores parseDate db clock projectPath
  = refreshedFrom parseDate projectPath clock 0 db.
Proof.
  intros Hnd. unfold FileImportance.refreshImportanceScores. cbv zeta.
  etransitivity;
    [exact (@refreshLoop_refreshedFrom parseDate projectPath clock db [] 0 0 Hnd)|].
  cbn [app Nat.add]. now destruct (refreshedFrom parseDate projectPath clock 0 db).
Qed.

Lemma refreshedFrom_rows (parseDate : string -> option Z) (projectPath : string)
  (clock : nat -> Z) (db : FileImportance.table) :
  forall i,
    let done := refreshedFrom parseDate projectPath clock i db in
    Forall2 (fun r r' =>
               (r.(FileImportanceRow.project_path) <> projectPath -> r' = r) /\
               (r.(FileImportanceRow.project_path) = projectPath ->
                exists j, refreshedRow parseDate (clock j) r r'))
            db (fst done) /\
    snd done = List.length (filter (fun c => negb (if Req_dec_T
                                        (FileImportanceRow.importance_score (fst c))
                                        (FileImportanceRow.importance_score (snd c))
                                      then true else false))
                              (combine db (fst done))) /\
    snd done <= List.length (filter (fun r => String.eqb r.(FileImportanceRow.project_path)
                                                projectPath) db).
Proof.
  induction db as [|r db IH]; intros i; cbv zeta.
  - simpl. split; [constructor|]. split; reflexivity.
  - cbn [refreshedFrom filter].
    destruct (String.eqb_spec (FileImportanceRow.project_path r) projectPath) as [Hp|Hp].
    + destruct (IH (S i)) as (I1 & I2 & I3).
      destruct (FileImportance.computeImportanceScore parseDate (clock i) _ _ _)
        as [s|] eqn:Hs.
      * unfold FileImportance.drifted.
        destruct (Rlt_dec (1 / 100) (Rabs (s - FileImportanceRow.importance_score r)))
          as [Hd|Hd]; cbn [fst snd combine filter].
        -- split; [|split].
           ++ constructor; [|exact I1]. split; [contradiction|].
              intros _. exists i. unfold refreshedRow. rewrite Hs. right. auto.
           ++ cbn [FileImportance.setScore FileImportanceRow.importance_score].
              destruct (Req_dec_T (FileImportanceRow.importance_score r) s) as [E|E].
              ** exfalso. rewrite E in Hd.
                 replace (s - s)%R with 0%R in Hd by ring. rewrite Rabs_R0 in Hd. lra.
              ** simpl. now rewrite I2.
           ++ simpl. lia.
        -- split; [|split].
           ++ constructor; [|exact I1]. split; [reflexivity|].
              intros _. exists i. unfold refreshedRow. rewrite Hs. left.
              split; [reflexivity | lra].
           ++ destruct (Req_dec_T (FileImportanceRow.importance_score r)
                          (FileImportanceRow.importance_score r)); [|contradiction].
              simpl. exact I2.
           ++ simpl. lia.
      * cbn [fst snd combine filter]. split; [|split].
        -- constructor; [|exact I1]. split; [reflexivity|].
           intros _. exists i. unfold refreshedRow. now rewrite Hs.
        -- destruct (Req_dec_T (FileImportanceRow.importance_score r)
                       (FileImportanceRow.importance_score r)); [|contradiction].
           simpl. exact I2.
        -- simpl. lia.
    + destruct (IH i) as (I1 & I2 & I3). cbn [fst snd combine filter].
      split; [|split].
      * constructor; [|exact I1]. split; [reflexivity | contradiction].
      * destruct (Req_dec_T (FileImportanceRow.importance_score r)
                    (FileImportanceRow.importance_score r)); [|contradiction].
        simpl. exact I2.
      * exact I3.
Qed.



(** ** What a tool call leaves alone *)

Section Frames.
Variable w : Server.World.
Variable I : Server.Db -> Prop.

Hypothesis sessions_free : forall d t, I d -> I (Server.setSessions d t).
Hypothesis agents_free : forall d t, I d -> I (Server.setAgents d t).
Hypothesis metrics_free : forall d t, I d -> I (Server.setValueMetrics d t).
Hypothesis usage_free :
  forall d kid u,
    I d ->
    I (Server.setUsage
         (Server.setKnowledge d (Usage.incrementUsageCount d.(Server.promoted_knowledge) kid))
         u).
Hypothesis knowledge_free : forall d t, I d -> I (Server.setKnowledge d t).

Lemma frame_abandonStaleSessions (p e : string) :
  triple I (Server.abandonStaleSessions p e) (fun _ => I) I.
Proof.
  apply triple_act. intros d H.
  destruct (Sessions.abandonStaleSessions _ _ _). now apply sessions_free.
Qed.

Lemma frame_upsertAgent (a : AgentType) :
  triple I (Server.upsertAgent w a) (fun _ => I) I.
Proof.
  unfold Server.upsertAgent.
  eapply triple_bind with (R := fun _ => I); [apply triple_nowISO; auto|].
  intros now. apply triple_modify. intros d H. now apply agents_free.
Qed.

Lemma frame_createSession (s : Session.t) :
  triple I (Server.createSession s) (fun _ => I) I.
Proof.
  apply triple_act. intros d H.
  destruct (Sessions.createSession _ _); [now apply sessions_free | exact H].
Qed.

Lemma frame_ensureValueMetrics (p : string) :
  triple I (Server.ensureValueMetrics w p) (fun _ => I) I.
Proof.
  unfold Server.ensureValueMetrics.
  eapply triple_bind with (R := fun _ => I); [apply triple_gets; auto|].
  intros [existing|]; [apply triple_ret; auto|].
  eapply triple_bind with (R := fun _ => I); [apply triple_nowISO; auto|].
  intros now. apply triple_modify. intros d H. now apply metrics_free.
Qed.

Lemma frame_counter (p : string) (f : string -> Server.Db -> Server.Db) :
  (forall now d, I d -> I (f now d)) ->
  triple I
    (Server.bind (Server.ensureValueMetrics w p)
       (fun _ => Server.bind (Server.nowISO w) (fun now => Server.modify (f now))))
    (fun _ => I) I.
Proof.
  intros Hf.
  eapply triple_bind with (R := fun _ => I); [apply frame_ensureValueMetrics|].
  intros _.
  eapply triple_bind with (R := fun _ => I); [apply triple_nowISO; auto|].
  intros now. apply triple_modify. intros d H. now apply Hf.
Qed.

Lemma frame_incrementSessionCount (p : string) :
  triple I (Server.incrementSessionCount w p) (fun _ => I) I.
Proof. apply frame_counter. intros now d H. now apply metrics_free. Qed.

Lemma frame_incrementContextReuse (p : string) :
  triple I (Server.incrementContextReuse w p) (fun _ => I) I.
Proof. apply frame_counter. intros now d H. now apply metrics_free. Qed.

Lemma frame_incrementKnowledgeSurfaced (p : string) (n : nat) :
  triple I (Server.incrementKnowledgeSurfaced w p n) (fun _ => I) I.
Proof. apply frame_counter. intros now d H. now apply metrics_free. Qed.

Lemma frame_incrementDecisionRecall (p : string) (n : nat) :
  triple I (Server.incrementDecisionRecall w p n) (fun _ => I) I.
Proof. apply frame_counter. intros now d H. now apply metrics_free. Qed.

Lemma frame_incrementPatternApplied (p : string) (n : nat) :
  triple I (Server.incrementPatternApplied w p n) (fun _ => I) I.
Proof. apply frame_counter. intros now d H. now apply metrics_free. Qed.

Lemma frame_recordKnowledgeUsage (kid sid : string) (ty : UsageType) :
  triple I (Server.recordKnowledgeUsage w kid sid ty) (fun _ => I) I.
Proof.
  unfold Server.recordKnowledgeUsage.
  eapply triple_bind with (R := fun _ => I); [apply triple_generateId; auto|].
  intros usageId.
  eapply triple_bind with (R := fun _ => I); [apply triple_nowISO; auto|].
  intros timestamp. apply triple_act. intros d H.
  unfold Usage.recordKnowledgeUsage.
  destruct (existsb _ (Server.knowledge_usage d)); [exact H|].
  now apply usage_free.
Qed.

Lemma frame_handleSessionStart (args : Tools.StartArgs) :
  triple I (Server.handleSessionStart w args) (fun _ => I) I.
Proof.
  unfold Server.handleSessionStart.
  eapply triple_bind with (R := fun _ => I); [apply triple_nowISO; auto|]. intros now.
  eapply triple_bind with (R := fun _ => I); [apply frame_abandonStaleSessions|]. intros _.
  eapply triple_bind with (R := fun _ => I); [apply frame_upsertAgent|]. intros _.
  eapply triple_bind with (R := fun _ => I); [apply triple_generateId; auto|].
  intros sessionId.
  eapply triple_bind with (R := fun _ => I); [apply frame_createSession|]. intros _.
  eapply triple_bind with (R := fun _ => I); [apply frame_incrementSessionCount|].
  intros _.
  eapply triple_bind with (R := fun _ => I); [apply triple_gets; auto|].
  intros recentSessions.
  eapply triple_bind with (R := fun _ => I).
  { destruct (0 <? _); [apply frame_incrementContextReuse | apply triple_ret; auto]. }
  intros _.
  eapply triple_bind with (R := fun _ => I); [apply triple_gets; auto|].
  intros knowledge.
  eapply triple_bind with (R := fun _ => I).
  { destruct (0 <? _); [|apply triple_ret; auto].
    eapply triple_bind with (R := fun _ => I);
      [apply frame_incrementKnowledgeSurfaced|].
    intros _. apply triple_forEach. intros sk _. apply frame_recordKnowledgeUsage. }
  intros _. apply triple_ret. auto.
Qed.

Lemma frame_handleRecall (args : Server.RecallArgs) :
  triple I (Server.handleRecall w args) (fun _ => I) I.
Proof.
  unfold Server.handleRecall.
  eapply triple_bind with (R := fun _ => I); [apply triple_gets; auto|].
  intros activeSession.
  destruct (Server.r_eventType args) as [eventType|]; [|apply triple_ret; auto].
  destruct (negb _); [apply triple_ret; auto|].
  match goal with
  | |- context [match ?x with Some _ => _ | None => Server.ret [] end] =>
      destruct x as [knowledgeType|]
  end; [|apply triple_ret; auto].
  eapply triple_bind with (R := fun _ => I); [apply triple_gets; auto|].
  intros knowledge.
  eapply triple_bind with (R := fun _ => I).
  { destruct (0 <? _); [|apply triple_ret; auto].
    eapply triple_bind with (R := fun _ => I).
    - destruct knowledgeType;
        [apply frame_incrementDecisionRecall | apply frame_incrementPatternApplied ..].
    - intros _. apply triple_forEach. intros sk _.
      destruct activeSession as [s|];
        [apply frame_recordKnowledgeUsage | apply triple_ret; auto]. }
  intros _. apply triple_ret. auto.
Qed.

Lemma frame_promote (args : Tools.PromoteArgs) :
  triple I (Server.promote w args) (fun _ => I) I.
Proof.
  unfold Server.promote.
  eapply triple_bind with (R := fun _ => I); [apply triple_gets; auto|]. intros branch'.
  eapply triple_bind with (R := fun _ => I); [apply triple_generateId; auto|].
  intros knowledgeId.
  eapply triple_bind with (R := fun _ => I); [apply triple_nowISO; auto|].
  intros createdAt.
  eapply triple_bind with (R := fun _ => I).
  { apply triple_act. intros d H.
    destruct (KnowledgeStore.insertKnowledge _ _ _ _);
      [now apply knowledge_free | exact H]. }
  intros _.
  eapply triple_bind with (R := fun _ => I).
  { destruct (Js.truthy _); [|apply triple_ret; auto].
    destruct (Tools.p_supersedes args); [|apply triple_ret; auto].
    apply triple_modify. intros d H. now apply knowledge_free. }
  intros _.
  eapply triple_bind with (R := fun _ => I); [apply triple_gets; auto|].
  intros existing. apply triple_ret. auto.
Qed.

Lemma frame_handlePromoteKnowledge (args : Tools.PromoteArgs) :
  triple I (Server.handlePromoteKnowledge w args) (fun _ => I) I.
Proof.
  unfold Server.handlePromoteKnowledge.
  destruct (negb _); [|apply frame_promote].
  eapply triple_bind with (R := fun _ => I); [apply triple_gets; auto|].
  intros [|dup rest]; [apply frame_promote | apply triple_ret; auto].
Qed.

End Frames.

Lemma forgetUsage_incrementUsageCount (t : KnowledgeStore.table) (kid : string) :
  map forgetUsage (Usage.incrementUsageCount t kid) = map forgetUsage t.
Proof.
  unfold Usage.incrementUsageCount, Sql.update, fst. rewrite map_map.
  apply map_ext. intros r. now destruct (String.eqb _ kid).
Qed.

Lemma usageGrows_refl (t : KnowledgeStore.table) : usageGrows t t.
Proof. induction t; constructor; auto. Qed.

Lemma usageGrows_incrementUsageCount (t0 t : KnowledgeStore.table) (kid : string) :
  usageGrows t0 t -> usageGrows t0 (Usage.incrementUsageCount t kid).
Proof.
  unfold usageGrows, Usage.incrementUsageCount, Sql.update, fst.
  induction 1 as [|r r' t0 t Hr Ht IH]; simpl; constructor; [|exact IH].
  destruct (String.eqb _ kid); simpl; lia.
Qed.

Lemma run_frame (A : Type) (P Q : Server.Db -> Prop) (m : Server.M A) (d : Server.Db) :
  triple P m (fun _ => Q) Q -> P d -> Q (fst (Server.run m d)).
Proof.
  intros T H. pose proof (triple_run d T H) as R.
  destruct (Server.run m d) as [d' [a|e]]; exact R.
Qed.

(** X30. What each tool call leaves alone, whether it succeeds or ends in
    a caught exception.  [session_end] changes table [sessions] only and
    keeps its identifiers; [record_event] changes table [session_events]
    only, by at most one row added at the end; [promote_knowledge]
    changes table [promoted_knowledge] only; [recall] leaves sessions,
    events and the agent registry as they were, and [session_start]
    leaves the events as they were; and after [session_start] or
    [recall] the knowledge items are the same items in the same order,
    usage counts apart, and no usage count has fallen. *)
Theorem tool_calls_leave_alone (d : Server.Db) (c : ServerCall) :
  leavesAlone c d (runServerCall d c).
Proof.
  destruct c as [w args|w sid sm g|w sid ty det|w args|w args];
    cbn [runServerCall leavesAlone].
  - set (Q := fun d' => Server.session_events d' = Server.session_events d /\
                        sameItems (Server.promoted_knowledge d) (Server.promoted_knowledge d') /\
                        usageGrows (Server.promoted_knowledge d)
                          (Server.promoted_knowledge d')).
    apply (@run_frame _ Q Q).
    + apply frame_handleSessionStart; try (intros d0 t H; exact H).
      unfold Q. intros d0 kid u (H1 & H2 & H3).
      cbn [Server.setUsage Server.setKnowledge Server.session_events
           Server.promoted_knowledge].
      split; [exact H1|]. split.
      * unfold sameItems in *. now rewrite forgetUsage_incrementUsageCount.
      * now apply usageGrows_incrementUsageCount.
    + unfold Q. split; [reflexivity|]. split; [reflexivity | apply usageGrows_refl].
  - unfold Server.run, Server.handleSessionEnd, Server.bind, Server.nowISO, Server.act.
    cbn [Server.db Server.ticks Server.draws].
    destruct (Sessions.endSession _ _ _ _ _) as [t s] eqn:E.
    cbn [fst Server.db Server.setSessions Server.sessions Server.session_events
         Server.promoted_knowledge Server.agents Server.value_metrics
         Server.knowledge_usage].
    repeat (split; [reflexivity|]).
    assert (Et : t = fst (Sessions.endSession (Server.sessions d) sid
                            (Server.clock w 0) sm g)) by now rewrite E.
    rewrite Et, endSession_table, map_map. apply map_ext. intros r.
    now destruct (Sessions.whereActiveId sid r).
  - set (Q := fun d' => Server.sessions d' = Server.sessions d /\
                         Server.promoted_knowledge d' = Server.promoted_knowledge d /\
                         Server.agents d' = Server.agents d /\
                         Server.value_metrics d' = Server.value_metrics d /\
                         Server.knowledge_usage d' = Server.knowledge_usage d /\
                         (Server.session_events d' = Server.session_events d \/
                          exists e, Server.session_events d'
                                    = Server.session_events d ++ [e])).
    assert (Hd : Q d) by (unfold Q; repeat (split; [reflexivity|]); now left).
    apply (@run_frame _ (fun d' => d' = d) Q); [|reflexivity].
    unfold Server.handleRecordEvent.
    eapply triple_bind with (R := fun _ d' => d' = d); [apply triple_gets; auto|].
    intros [s|]; [|apply triple_ret; now intros d' ->].
    destruct (negb _); [apply triple_ret; now intros d' ->|].
    eapply triple_bind with (R := fun _ d' => d' = d); [apply triple_generateId; auto|].
    intros eventId.
    eapply triple_bind with (R := fun _ d' => d' = d); [apply triple_nowISO; auto|].
    intros timestamp.
    eapply triple_bind with (R := fun _ => Q); [|intros _; apply triple_ret; auto].
    apply triple_act. intros d' ->. unfold Events.insertEvent.
    destruct (existsb _ (Server.session_events d)); [exact Hd|].
    destruct (negb _); [exact Hd|].
    unfold Q. cbn [Server.setEvents Server.sessions Server.session_events
                   Server.promoted_knowledge Server.agents Server.value_metrics
                   Server.knowledge_usage].
    repeat (split; [reflexivity|]). right. eexists. reflexivity.
  - set (Q := fun d' => Server.sessions d' = Server.sessions d /\
                        Server.session_events d' = Server.session_events d /\
                        Server.agents d' = Server.agents d /\
                        Server.value_metrics d' = Server.value_metrics d /\
                        Server.knowledge_usage d' = Server.knowledge_usage d).
    apply (@run_frame _ Q Q).
    + apply frame_handlePromoteKnowledge. intros d0 t H; exact H.
    + unfold Q. repeat split.
  - set (Q := fun d' => Server.sessions d' = Server.sessions d /\
                        Server.session_events d' = Server.session_events d /\
                        Server.agents d' = Server.agents d /\
                        sameItems (Server.promoted_knowledge d) (Server.promoted_knowledge d') /\
                        usageGrows (Server.promoted_knowledge d)
                          (Server.promoted_knowledge d')).
    apply (@run_frame _ Q Q).
    + apply frame_handleRecall; try (intros d0 t H; exact H).
      unfold Q. intros d0 kid u (H1 & H2 & H3 & H4 & H5).
      cbn [Server.setUsage Server.setKnowledge Server.session_events Server.sessions
           Server.agents Server.promoted_knowledge].
      split; [exact H1|]. split; [exact H2|]. split; [exact H3|]. split.
      * unfold sameItems in *. now rewrite forgetUsage_incrementUsageCount.
      * now apply usageGrows_incrementUsageCount.
    + unfold Q. repeat (split; [reflexivity|]). apply usageGrows_refl.
Qed.
